(* ===== verification/_CoqProject ===== *)
-Q . S2P
Prelude.v
Frame.v
NftPallet.v
NftSpec.v
FrameModel.v
NftInvariant.v
NftMarket.v
NftProperties.v
NftRules.v
NftLimits.v
NftProgress.v
NftOrder.v
NftShop.v
NftIndex.v
Codec.v
ScaleModel.v
Weights.v
Runtime.v
Wiring.v
Xcm.v
XcmModel.v
XcmOrigin.v
Chain.v
Governance.v
GovernanceModel.v
XcmExecutor.v
ExecutorModel.v
Inbound.v
InboundModel.v
Fees.v
Genesis.v
Apis.v
ApiModel.v
Extrinsic.v
ExtrinsicModel.v
Blocks.v
BlockModel.v
Rpc.v
Effects.v
Service.v
ChainSpec.v
Configs.v
Command.v
CliInfo.v
