(* ===== verification/Prelude.v ===== *)
(** * Verification of an NFT parachain and its node

This library models the Rust program of this repository: a FRAME pallet that
keeps artists, collections and NFTs, the parachain runtime that hosts it, and
the node that runs the runtime. It states and proves what makes them correct.
The web client under src/frontend is not part of it.

** The program and its model

- The NFT pallet, src/pallets/template/src/lib.rs, is the program's own logic.
  [Frame] states, as type classes with laws, what the pallet uses of FRAME:
  bounded vectors, storage maps with [try_mutate], a currency, and the storage
  layer that undoes a failed call. [NftPallet] has the data and storage items of
  the pallet and its seven calls, each written with the steps of the Rust body
  in their order, in a monad of functions from the store to a result and a new
  store: [register_artist], [create_collection], [delete_collection],
  [create_nft], [transfer_nft], [burn_nft] and [mint_nft]. The closures given to
  [try_mutate] are definitions of their own ([push_item], [give_item],
  [drop_item], [sell_item]). [dispatch] runs a call in a storage layer. The
  store holds the pallet's five storage items, the currency's ledger and the
  events deposited.
- [NftSpec] gives, for each call, what it does to the store when it succeeds
  ([call_effect]), and shows the bodies compute it. [FrameModel] implements the
  interfaces of [Frame] with lists and finite maps, so that every theorem has a
  concrete run.
- [NftInvariant] defines the well-formed stores and shows that every call keeps
  them so, and runs of calls from genesis. [NftMarket] is the abstract view: the
  life cycle of one item as a step relation. [NftShop] is the abstract view of the
  whole pallet: a marketplace of shops that hold their own items, where the pallet
  keeps items and lists of identifiers in two maps; its correspondence to a store is
  the function [NftShop.shops]. [NftIndex] is the index of artists, keepers and
  owners that one keeps from the events alone. [NftOrder] has the footprints of the
  calls, which parts of the store each may read or write. [NftProperties],
  [NftRules], [NftLimits] and [NftProgress] hold the other theorems.
- [Codec] is what the pallet derives: the encoding of its data, its calls and its
  events, over the encodings of the field types, which [ScaleModel] implements.
- The weight files, src/runtime/src/weights and src/pallets/template/src/weights.rs,
  are [Weights], with the assertions of the files' own tests.
- The runtime, src/runtime/src/lib.rs and src/runtime/src/configs/mod.rs, is
  [Runtime]: units of time and balance, the weight-to-fee polynomial, the block
  limits, the numeric parameters of the pallets, and the pallet table. [Configs]
  collects, for each pallet that configs/mod.rs configures, the values it is given,
  and [Wiring] the other pallets it is given.
- Messages from other chains, src/runtime/src/configs/xcm_config.rs, are [Xcm]: the
  barrier, the weigher, the accounts of locations and the router; and [XcmOrigin]:
  the origin a message is given, as far as the pallet. [XcmModel] has a small
  message language to run them on. [XcmExecutor] is [XcmConfig], the executor's
  configuration: the asset transactor, the trusted reserves and the trader.
  [Governance] is the configuration of [pallet_xcm] with the privileged origins of
  configs/mod.rs, and [Inbound] how configs/mod.rs wires the messages of the relay
  chain and of the siblings into one queue and from there into the executor.
  [ExecutorModel], [GovernanceModel] and [InboundModel] run them.
- [Chain] puts the callers of the pallet together: signed extrinsics and the calls
  of messages, in any order.
- [Fees] puts the declared weights of the calls under the fee configuration.
- The genesis presets, src/runtime/src/genesis_config_presets.rs, are [Genesis].
- The runtime's interface to the node, src/runtime/src/apis.rs with the table of
  src/runtime/src/benchmarks.rs, is [Apis], method by method; [ApiModel] is a
  runtime to call. [Extrinsic] is the transaction: the runtime call as bytes, the
  [SignedExtra] of src/runtime/src/lib.rs, and what a signature covers;
  [ExtrinsicModel] has one to sign. [Blocks] has the blocks of the runtime and those
  of its module [opaque], which the node handles; [BlockModel] has one to read.
- The node, src/node/src, calls libraries, files and the network in a fixed
  order. [Effects] has the programs of such calls as trees, their runs in an
  environment, and the rules by which a statement about every run is proved.
  [Rpc] is rpc.rs, the methods the node serves.
  [Service] is service.rs: assembling a node, starting it and its consensus.
  [ChainSpec] is chain_spec.rs, [load_spec] of command.rs, and the relay-chain
  arguments of cli.rs and command.rs. [Command] is the rest of command.rs: what
  each subcommand runs, and how the node is started when there is none; its texts
  are [CliInfo].

The parts meet in a few places, which theorems state. The runtime hands the
pallet its currency, whose minimum balance sets the registration fee
([Runtime.runtime_registration_fee]), and its weights set what a call of it costs
([Apis.quoted_fees_are_bounded]). A message of another chain reaches the pallet
with the origin of its location ([XcmOrigin.foreign_calls_are_earned]), and a
transaction with its index in the pallet table ([Extrinsic.RuntimeCall_codec]); all
callers of the pallet together cannot harm who does nothing in it
([Chain.idle_accounts_keep_what_they_have]). The queue hands messages to the
executor, whose barrier and prices decide what runs
([Inbound.siblings_pay_for_messages]). Node and runtime exchange blocks as bytes
([Blocks.blocks_cross_the_boundary]).
The genesis interface serves the presets and builds them
([Apis.genesis_api_serves_presets]). The service hands its client and pool to the
RPC module ([Service.start_wires_handles]). A chain specification names a genesis
preset and a parachain id, which must agree with the runtime's
([ChainSpec.builtin_specs_match_runtime]). The command line assembles the parts
of a node and enters the service, and what holds of the service on its own is
carried over to it by [Effects.lift] ([Command.node_starts_from_its_spec]).

** What is shown

- [NftProperties]: the store stays well-formed under every call; in reachable
  stores the item list of a collection is exactly its stored items; the chain
  refines the life cycle of an item; a sold item stays sold, is bought at most
  once, and changes hands only with the signature it needs. These leave out the
  item under the identifier 2^32-1, where the counter of its collection stays.
- [NftShop]: blocks of calls do on the pallet what they do on the abstract
  marketplace, refusals included. [NftOrder]: a call depends on nothing outside its
  footprint and changes nothing outside it, so calls that share nothing may be
  executed in any order. [NftIndex]: the events deposited tell who is an artist,
  who keeps a collection, and who owns an item, as the store does.
- [NftRules]: when a call is accepted; how a purchase and a registration settle;
  who pays; what a call leaves alone; the events it deposits; the errors it can
  be refused with; and what a refused call would leave behind without its
  storage layer.
- [NftLimits]: calls depend on the content of the storage and not on how it is
  represented; the second write of a collection in [create_nft] is redundant;
  fresh identifiers; and the limits of the code: items of a deleted collection
  can no longer be burned, saturated counters overwrite, and minting is open to
  every account.
- [NftProgress]: calls create and destroy no money; a collection serves every
  proper request up to its capacity and refuses all after it.
- [Codec]: calls, events and stored values are recovered from their encoding, in
  the declared length. [Extrinsic]: a signature binds the call, its nonce and tip,
  and the chain, up to collisions of the hash. [Blocks]: a block the node passes on
  as bytes is the block the runtime reads.
- [Weights] and [Runtime]: the weights are sane; the units of time agree; the
  weight fee has the stated rate without overflow; the block limits divide the
  block between the classes; pallet indices are unique.
- [Xcm] and [XcmOrigin]: the barrier lets in exactly the messages whose top-level
  instructions say so; the messages nested in instructions it does not see; the
  size of messages that can be weighed and served; a location stands for one
  account, the router reaches the relay chain and sibling chains only, and a
  message acts only for the account of its location.
- [Chain]: whatever calls of the pallet the others make, by extrinsic or by message,
  an account that makes none keeps its balance and its items, or is paid for them.
  The calls of the other pallets, [Sudo] among them, are not covered.
- [XcmExecutor]: only the relay chain's asset moves, and only the relay chain backs
  it; a plain message has a price. [Inbound]: the messages of different senders stay
  apart and in order, and siblings pay for theirs. [Governance]: who governs the
  collators; a user's location leads back to the user.
- [Configs]: every session ends, the configured values agree with each other, and
  the fees of the artists do not reach the pot of the collators.
  [Wiring]: the pallets share one ledger and one message queue.
- [Fees] and [Apis]: quoted fees agree, are bounded, and are flat for the pallet;
  the genesis interface is complete; a benchmark runs the pallet it is asked for,
  if the table has it; dry runs hide no failure.
- [Genesis]: the two presets are the ones listed, and well-formed.
- [Rpc]: the RPC module has the methods of both libraries, or names a conflict.
- [Service]: the start-up stops at the first failure with its error; its stages
  come in order; its handles are wired to each other.
- [ChainSpec]: the built-in specifications agree with the runtime; other names
  are files; the relay-chain defaults.
- [Command]: a subcommand runs one library command, on parts made for its own
  configuration; the node starts only from a complete specification; and the
  hardware is measured even when the flag says not to.

** Machine integers

Balances, identifiers and weights are [N] with the width of the Rust type written
where it acts: [saturating_add] and [saturating_mul] for the methods of those
names, [wrapping_mul] for the [*] of a release build. Theorems say where no bound
is reached.

** Termination

The code has no loops: the calls of the pallet are straight-line, [retain] is
structural, and the node's programs are finite trees, so no definition that models
code needs fuel. One definition of a specification has it: [Configs.next_session_end]
walks block by block to the end of a session. A period of 3600 blocks is always
enough, as [Configs.every_session_ends] shows.
Every function of the model is total, so each theorem about a result is also
the statement that there is one.

** What is a parameter

FRAME, the Substrate and Cumulus client libraries, serde_json and clap are not
part of the repository. They are the fields of type classes; the laws a theorem
relies on are in a class of laws of its own, and each such class has an instance.
An environment may answer a call in any way its type allows, from the history of
the calls before it.

** What is not modelled

- The hashing of storage keys, the checks of the signed extensions and the block
  executive, which FRAME provides.
- In src/runtime/src, the associated types and type aliases that only name a library
  type: they hand the library no value or function of the runtime's.
- The macros that assemble the runtime ([impl_runtime_apis], [register_validate_block]
  and the runtime macro), beyond the table of pallets and the methods they declare;
  the build scripts, which call one library builder each.
- tests.rs, mock.rs and benchmarking.rs of the pallet, which are left over from a
  template and name calls the pallet does not have.

This file is the prelude: Rust's results, state passing with early return,
machine integers, and the lemmas and tactics the other files share. *)
From stdpp Require Export base tactics list numbers gmap strings.

(** ** Rust results *)

Inductive result (T E : Type) : Type :=
| Ok (t : T)
| Err (e : E).

Arguments Ok {T E} t.
Arguments Err {T E} e.

#[export] Instance result_eq_dec T E `{EqDecision T, EqDecision E} :
  EqDecision (result T E).
Proof. solve_decision. Defined.

(** [Option::ok_or]. *)
Definition ok_or {T E} (o : option T) (e : E) : result T E :=
  match o with Some x => Ok x | None => Err e end.

Definition is_ok {T E} (r : result T E) : bool :=
  match r with Ok _ => true | Err _ => false end.

(** ** State passing with early return

A Rust function that reads and writes a store [S] and may leave early through
[?] is a function from the store to its result and the store it leaves behind.
On an error the store is the one reached when the error was raised: nothing is
undone here. *)
Definition rust (S E A : Type) : Type := S → result A E * S.

#[export] Instance rust_ret S E : MRet (rust S E) := λ A x s, (Ok x, s).
#[export] Instance rust_bind S E : MBind (rust S E) := λ A B f m s,
  match m s with
  | (Ok x, s') => f x s'
  | (Err e, s') => (Err e, s')
  end.

Section rust_ops.
Context {S E : Type}.

(** The [?] operator on a pure result. *)
Definition try_ {A} (r : result A E) : rust S E A := λ s, (r, s).
(** [ensure!(b, e)]. *)
Definition ensure (b : bool) (e : E) : rust S E unit :=
  λ s, (if b then Ok () else Err e, s).
Definition reads {A} (f : S → A) : rust S E A := λ s, (Ok (f s), s).
Definition modify (f : S → S) : rust S E unit := λ s, (Ok (), f s).

Lemma bind_ok {A B} (m : rust S E A) (f : A → rust S E B) s x s' :
  m s = (Ok x, s') → mbind (M := rust S E) f m s = f x s'.
Proof. intros H. unfold mbind, rust_bind. by rewrite H. Qed.

Lemma bind_err {A B} (m : rust S E A) (f : A → rust S E B) s e s' :
  m s = (Err e, s') → mbind (M := rust S E) f m s = (Err e, s').
Proof. intros H. unfold mbind, rust_bind. by rewrite H. Qed.

(** A step that never returns early changes the store and goes on. *)
Lemma bind_modify {B} g (f : unit → rust S E B) s :
  mbind (M := rust S E) f (modify g) s = f () (g s).
Proof. done. Qed.

Lemma bind_reads {A B} (g : S → A) (f : A → rust S E B) s :
  mbind (M := rust S E) f (reads g) s = f (g s) s.
Proof. done. Qed.

Lemma bind_try {A B} (r : result A E) (f : A → rust S E B) s :
  mbind (M := rust S E) f (try_ r) s =
  match r with Ok x => f x s | Err e => (Err e, s) end.
Proof. by destruct r. Qed.

Lemma bind_ensure {B} b e (f : unit → rust S E B) s :
  mbind (M := rust S E) f (ensure b e) s =
  if b then f () s else (Err e, s).
Proof. by destruct b. Qed.
End rust_ops.

Create Rewrite HintDb rust_step.
#[export] Hint Rewrite @bind_modify @bind_reads @bind_try @bind_ensure : rust_step.

(** ** Machine integers *)

(** The largest values of [u32], [u64] and [u128]. *)
Definition u32_MAX : N := 4294967295.
Definition u64_MAX : N := 18446744073709551615.
Definition u128_MAX : N := 340282366920938463463374607431768211455.

(** [uN::saturating_add] and [uN::saturating_mul] of the Rust standard library. *)
Definition saturating_add (max x y : N) : N := N.min (x + y) max.
Definition saturating_mul (max x y : N) : N := N.min (x * y) max.
(** The [*] of an unsigned integer in a release build wraps. *)
Definition wrapping_mul (max x y : N) : N := ((x * y) mod (max + 1))%N.

Lemma saturating_add_le max x y : (saturating_add max x y ≤ max)%N.
Proof. unfold saturating_add. lia. Qed.

Lemma saturating_add_exact max x y :
  (x + y ≤ max)%N → saturating_add max x y = (x + y)%N.
Proof. unfold saturating_add. lia. Qed.

Lemma saturating_mul_exact max x y :
  (x * y ≤ max)%N → saturating_mul max x y = (x * y)%N.
Proof. unfold saturating_mul. lia. Qed.

Lemma wrapping_mul_exact max x y :
  (x * y ≤ max)%N → wrapping_mul max x y = (x * y)%N.
Proof. intros H. apply N.mod_small. lia. Qed.

#[export] Hint Resolve saturating_add_le : core.

(** ** Lists *)

(** [Vec::retain] with a boolean test. *)
Definition retain {A} (f : A → bool) (l : list A) : list A :=
  base.filter (λ x, f x = true) l.

Lemma elem_of_retain {A} (f : A → bool) l x :
  x ∈ retain f l ↔ f x = true ∧ x ∈ l.
Proof. unfold retain. by rewrite list_elem_of_filter. Qed.

Lemma retain_cons {A} (f : A → bool) x l :
  retain f (x :: l) = if f x then x :: retain f l else retain f l.
Proof. unfold retain. rewrite filter_cons. by destruct (f x). Qed.

Lemma retain_NoDup {A} (f : A → bool) l : NoDup l → NoDup (retain f l).
Proof. apply NoDup_filter. Qed.

Lemma NoDup_snoc {A} (l : list A) x : NoDup l → x ∉ l → NoDup (l ++ [x]).
Proof.
  intros Hl Hx. apply NoDup_app. repeat split; [done | | apply NoDup_singleton].
  intros y Hy Hy'. apply list_elem_of_singleton in Hy'. by subst.
Qed.

#[export] Hint Resolve retain_NoDup NoDup_snoc : core.

(** ** Tactics *)

(** Case analysis on the innermost [match] or [if] of a hypothesis. *)
Ltac destr_in H :=
  match type of H with
  | context [match ?x with _ => _ end] =>
      lazymatch x with
      | context [match _ with _ => _ end] => fail
      | _ => let E := fresh "E" in destruct x eqn:E; simplify_eq
      end
  end.

Ltac destr_goal :=
  match goal with
  | |- context [match ?x with _ => _ end] =>
      lazymatch x with
      | context [match _ with _ => _ end] => fail
      | _ => let E := fresh "E" in destruct x eqn:E; simplify_eq
      end
  end.

(** Runs a computation in the [rust] monad one step at a time. *)
Ltac run_in H := autorewrite with rust_step in H.
Ltac run := autorewrite with rust_step.
