(* ===== verification/Frame.v ===== *)
(** * Interfaces to the FRAME library

The pallet is written against FRAME (frame_support, frame_system, sp_runtime),
whose code is not part of this repository. This file holds what the pallet uses
of it as type classes of operations, and, apart from them, the documented
behaviour the proofs rely on as classes of laws. [FrameModel] has an instance
of each, so the laws can hold together. *)
From S2P Require Import Prelude.

(** ** [BoundedVec<_, ConstU32<bound>>] *)

Class BoundedVec (bound : nat) (bv : Type → Type) := {
  bv_new {A} : bv A;
  (** The elements, in order (deref to a slice). *)
  bv_inner {A} : bv A → list A;
  (** [TryFrom<Vec<_>>]. *)
  bv_try_from {A} : list A → option (bv A);
  bv_try_push {A} : bv A → A → option (bv A);
  bv_retain {A} : (A → bool) → bv A → bv A;
}.

(** A bounded vector is a vector that refuses to grow past its bound. *)
Class BoundedVecLaws (bound : nat) (bv : Type → Type) `{BoundedVec bound bv} : Prop := {
  bv_inner_new {A} : bv_inner (bv_new (A := A)) = [];
  bv_inner_bound {A} (b : bv A) : length (bv_inner b) ≤ bound;
  bv_try_from_fits {A} (l : list A) :
    length l ≤ bound → ∃ b, bv_try_from l = Some b ∧ bv_inner b = l;
  bv_try_from_long {A} (l : list A) : bound < length l → bv_try_from l = None;
  bv_try_push_fits {A} (b : bv A) x :
    length (bv_inner b) < bound →
    ∃ b', bv_try_push b x = Some b' ∧ bv_inner b' = bv_inner b ++ [x];
  bv_try_push_full {A} (b : bv A) x :
    bound ≤ length (bv_inner b) → bv_try_push b x = None;
  bv_inner_retain {A} f (b : bv A) : bv_inner (bv_retain f b) = retain f (bv_inner b);
}.

Section bounded_vec.
Context {bound bv} `{BoundedVecLaws bound bv}.

Lemma bv_try_from_Some {A} (l : list A) b :
  bv_try_from l = Some b → bv_inner b = l ∧ length l ≤ bound.
Proof.
  intros Hb. destruct (decide (length l ≤ bound)) as [Hl|Hl].
  - destruct (bv_try_from_fits l Hl) as (b' & Hb' & <-). by simplify_eq.
  - rewrite bv_try_from_long in Hb by lia. done.
Qed.

Lemma bv_try_push_Some {A} (b : bv A) x b' :
  bv_try_push b x = Some b' →
  bv_inner b' = bv_inner b ++ [x] ∧ length (bv_inner b) < bound.
Proof.
  intros Hb. destruct (decide (length (bv_inner b) < bound)) as [Hl|Hl].
  - destruct (bv_try_push_fits b x Hl) as (b2 & Hb2 & ?). by simplify_eq.
  - rewrite bv_try_push_full in Hb by lia. done.
Qed.

Lemma bv_try_push_None {A} (b : bv A) x :
  bv_try_push b x = None → bound ≤ length (bv_inner b).
Proof.
  intros Hb. destruct (decide (length (bv_inner b) < bound)) as [Hl|Hl]; [|lia].
  by destruct (bv_try_push_fits b x Hl) as (b2 & Hb2 & ?); simplify_eq.
Qed.

Lemma bv_try_from_None {A} (l : list A) :
  bv_try_from (bv := bv) l = None → bound < length l.
Proof.
  intros Hb. destruct (decide (length l ≤ bound)) as [Hl|Hl]; [|lia].
  by destruct (bv_try_from_fits l Hl) as (b' & Hb' & ?); simplify_eq.
Qed.
End bounded_vec.

(** ** Storage maps

[StorageMap] and [StorageDoubleMap]: the key of a double map is the pair of its
keys. [V] ranges over the value types. *)
Class StorageMap (K : Type) (M : Type → Type) := {
  sm_get {V} : M V → K → option V;
  sm_contains_key {V} : M V → K → bool;
  sm_insert {V} : M V → K → V → M V;
  sm_remove {V} : M V → K → M V;
  (** [try_mutate(key, f)] on the map that [view] reads and [upd] writes in the
      store [S]: [f] gets the value as an [Option] it may change, together with
      the store. *)
  sm_try_mutate {V S E A} (view : S → M V) (upd : M V → S → S) (k : K)
    (f : rust (option V * S) E A) : rust S E A;
}.

(** The documented behaviour of a storage map: a map from keys to values;
    [try_mutate] mutates the item only if the closure returns [Ok], and deletes
    it if it was mutated to [None]. *)
Class StorageMapLaws (K : Type) `{EqDecision K} (M : Type → Type)
    `{StorageMap K M} : Prop := {
  sm_get_insert {V} (m : M V) k k' v :
    sm_get (sm_insert m k v) k' = if decide (k = k') then Some v else sm_get m k';
  sm_get_remove {V} (m : M V) k k' :
    sm_get (sm_remove m k) k' = if decide (k = k') then None else sm_get m k';
  sm_contains_key_get {V} (m : M V) k :
    sm_contains_key m k = bool_decide (is_Some (sm_get m k));
  sm_try_mutate_run {V S E A} (view : S → M V) upd k (f : rust (option V * S) E A) s :
    sm_try_mutate view upd k f s =
    match f (sm_get (view s) k, s) with
    | (Ok x, (Some v, s')) => (Ok x, upd (sm_insert (view s') k v) s')
    | (Ok x, (None, s')) => (Ok x, upd (sm_remove (view s') k) s')
    | (Err e, (_, s')) => (Err e, s')
    end;
}.

Section storage_map.
Context {K M} `{StorageMapLaws K M}.

Lemma sm_get_insert_eq {V} (m : M V) k v : sm_get (sm_insert m k v) k = Some v.
Proof. rewrite sm_get_insert. by case_decide. Qed.
Lemma sm_get_insert_ne {V} (m : M V) k k' v :
  k ≠ k' → sm_get (sm_insert m k v) k' = sm_get m k'.
Proof. intros. rewrite sm_get_insert. by case_decide. Qed.
Lemma sm_get_remove_eq {V} (m : M V) k : sm_get (sm_remove m k) k = None.
Proof. rewrite sm_get_remove. by case_decide. Qed.
Lemma sm_get_remove_ne {V} (m : M V) k k' :
  k ≠ k' → sm_get (sm_remove m k) k' = sm_get m k'.
Proof. intros. rewrite sm_get_remove. by case_decide. Qed.
Lemma sm_contains_key_Some {V} (m : M V) k v :
  sm_get m k = Some v → sm_contains_key m k = true.
Proof. intros Hk. by rewrite sm_contains_key_get, Hk, bool_decide_true. Qed.
Lemma sm_contains_key_None {V} (m : M V) k :
  sm_get m k = None → sm_contains_key m k = false.
Proof. intros Hk. rewrite sm_contains_key_get, Hk. by apply bool_decide_false, is_Some_None. Qed.
Lemma sm_contains_key_true {V} (m : M V) k :
  sm_contains_key m k = true ↔ is_Some (sm_get m k).
Proof. rewrite sm_contains_key_get. apply bool_decide_eq_true. Qed.
Lemma sm_contains_key_false {V} (m : M V) k :
  sm_contains_key m k = false ↔ sm_get m k = None.
Proof. rewrite sm_contains_key_get, bool_decide_eq_false, eq_None_not_Some. done. Qed.

(** Two maps with the same content. *)
Definition sm_eq {V} (m1 m2 : M V) : Prop := ∀ k, sm_get m1 k = sm_get m2 k.

#[export] Instance sm_eq_equivalence V : Equivalence (sm_eq (V := V)).
Proof.
  split; unfold sm_eq; [done | by intros ?? | intros x y z Hxy Hyz k].
  by rewrite Hxy.
Qed.
#[export] Instance sm_get_proper V :
  Proper (sm_eq ==> eq ==> eq) (sm_get (M := M) (V := V)).
Proof. intros m1 m2 Hm k ? <-. apply Hm. Qed.
#[export] Instance sm_contains_key_proper V :
  Proper (sm_eq ==> eq ==> eq) (sm_contains_key (M := M) (V := V)).
Proof. intros m1 m2 Hm k ? <-. by rewrite !sm_contains_key_get, Hm. Qed.
#[export] Instance sm_insert_proper V :
  Proper (sm_eq ==> eq ==> eq ==> sm_eq) (sm_insert (M := M) (V := V)).
Proof. intros m1 m2 Hm k ? <- v ? <- k'. by rewrite !sm_get_insert, Hm. Qed.
#[export] Instance sm_remove_proper V :
  Proper (sm_eq ==> eq ==> sm_eq) (sm_remove (M := M) (V := V)).
Proof. intros m1 m2 Hm k ? <- k'. by rewrite !sm_get_remove, Hm. Qed.
End storage_map.

(** ** [Currency] *)

(** The balance type of the runtime is [u128]. *)
Abbreviation Balance := N (only parsing).

Inductive ExistenceRequirement := KeepAlive | AllowDeath.

Class Currency (AccountId DispatchError Ledger : Type) := {
  minimum_balance : Balance;
  free_balance : Ledger → AccountId → Balance;
  transfer : AccountId → AccountId → Balance → ExistenceRequirement →
    rust Ledger DispatchError unit;
}.

(** [Currency::transfer] moves liquid free balance from one account to another,
    creates no imbalance, and with [KeepAlive] leaves the source alive, so that
    nothing is reaped. *)
Class CurrencyLaws (AccountId DispatchError Ledger : Type)
    `{Currency AccountId DispatchError Ledger} : Prop := {
  transfer_moves l l' a b v :
    transfer a b v KeepAlive l = (Ok (), l') → a ≠ b →
    (v ≤ free_balance l a)%N ∧
    free_balance l' a = (free_balance l a - v)%N ∧
    free_balance l' b = (free_balance l b + v)%N;
  transfer_others l l' a b v r c :
    transfer a b v r l = (Ok (), l') → c ≠ a → c ≠ b →
    free_balance l' c = free_balance l c;
  transfer_self l l' a v r c :
    transfer a a v r l = (Ok (), l') → free_balance l' c = free_balance l c;
  transfer_keep_alive l l' a b v :
    transfer a b v KeepAlive l = (Ok (), l') → a ≠ b → (0 < v)%N →
    (minimum_balance ≤ free_balance l' a)%N;
}.

(** ** Storage layers *)

Class StorageLayer := {
  with_storage_layer {S E A} : rust S E A → rust S E A;
}.

(** The function runs in a transaction: its changes are kept if it returns
    [Ok] and discarded if it returns [Err]. *)
Class StorageLayerLaws `{StorageLayer} : Prop := {
  with_storage_layer_ok {S E A} (f : rust S E A) s x s' :
    f s = (Ok x, s') → with_storage_layer f s = (Ok x, s');
  with_storage_layer_err {S E A} (f : rust S E A) s e s' :
    f s = (Err e, s') → with_storage_layer f s = (Err e, s);
}.
