(* ===== verification/NftPallet.v ===== *)
(** * The NFT pallet (src/pallets/template/src/lib.rs)

The data, storage, calls and dispatch of the pallet, translated call by call.
Each call is written with the steps of its Rust body in their order; the store
it runs on is the pallet's storage together with the currency's ledger and the
events deposited. *)
From S2P Require Import Prelude Frame.

Local Open Scope N_scope.

(** ** Configuration *)

(** [pallet::Config] with its supertrait [frame_system::Config]: the types and
    functions the pallet gets from the runtime and from FRAME. *)
Class Config := {
  AccountId : Type;
  AccountId_eq_dec :: EqDecision AccountId;
  (** Errors that FRAME itself raises: [BadOrigin], token errors, ... *)
  DispatchError : Type;
  RuntimeOrigin : Type;
  ensure_signed : RuntimeOrigin → result AccountId DispatchError;
  (** [type Currency] *)
  Ledger : Type;
  Config_Currency :: Currency AccountId DispatchError Ledger;
  (** [type PalletId: Get<PalletId>] *)
  PalletId : Type;
  PalletId_get : PalletId;
  into_account_truncating : PalletId → AccountId;
  (** [BoundedVec<_, ConstU32<256>>] *)
  BVec : Type → Type;
  Config_BVec :: BoundedVec 256 BVec;
  (** The storage maps, by type of key. *)
  AMap : Type → Type;
  Config_AMap :: StorageMap AccountId AMap;
  CMap : Type → Type;
  Config_CMap :: StorageMap N CMap;
  NMap : Type → Type;
  Config_NMap :: StorageMap (N * N) NMap;
  (** The storage layer that [#[pallet::call]] runs each dispatchable in. *)
  Config_StorageLayer :: StorageLayer;
}.

(** What the proofs assume of that configuration. *)
Class ConfigLaws (C : Config) : Prop := {
  ConfigLaws_Currency :: CurrencyLaws AccountId DispatchError Ledger;
  ConfigLaws_BVec :: BoundedVecLaws 256 BVec;
  ConfigLaws_AMap :: StorageMapLaws AccountId AMap;
  ConfigLaws_CMap :: StorageMapLaws N CMap;
  ConfigLaws_NMap :: StorageMapLaws (N * N) NMap;
  ConfigLaws_StorageLayer :: StorageLayerLaws;
}.

(** ** Data *)

Definition CollectionId : Type := N.
Definition ItemId : Type := N.
Definition u8 : Type := Byte.byte.

Section data.
Context {C : Config}.

Record NFT := mkNFT {
  owner : AccountId;
  nft_metadata : BVec u8;
  is_sold : bool;
  price : Balance;
}.

Record Collection := mkCollection {
  creator : AccountId;
  coll_metadata : BVec u8;
  coll_nfts : BVec ItemId;
}.

Inductive Event :=
| ArtistRegistered (who : AccountId)
| CollectionCreated (c : CollectionId) (who : AccountId)
| CollectionUpdated (c : CollectionId)
| CollectionFrozenEvent (c : CollectionId)
| CollectionDeleted (c : CollectionId)
| NFTMinted (c : CollectionId) (i : ItemId) (who : AccountId)
| NFTBatchMinted (c : CollectionId) (ids : list ItemId) (who : AccountId)
| NFTTransferred (c : CollectionId) (i : ItemId) (from to : AccountId)
| NFTBurned (c : CollectionId) (i : ItemId) (who : AccountId).

#[export] Instance Event_eq_dec : EqDecision Event.
Proof. unfold CollectionId, ItemId. solve_decision. Defined.

Inductive Error :=
| NFTNotFound
| NotNFTOwner
| NotRegisteredArtist
| CollectionNotFound
| AlreadyRegistered
| CollectionFrozen
| NotCollectionOwner
| NFTAlreadySold
| MetadataInvalid
| PriceNotSet.

#[export] Instance Error_eq_dec : EqDecision Error.
Proof. solve_decision. Defined.

(** The error of a call: the pallet's own, or one that FRAME raised. *)
Inductive CallError :=
| PalletError (e : Error)
| FrameError (e : DispatchError).

(** The storage items of the pallet, the currency's ledger, and the events
    handed to frame_system, the latest last. *)
Record Storage := mkStorage {
  Artists : AMap bool;
  Collections : CMap Collection;
  Nfts : NMap NFT;
  NextItemId : CMap ItemId;
  NextCollectionId : CollectionId;
  ledger : Ledger;
  events : list Event;
}.
End data.

(** A [DispatchResult] body: early return on error, effects on [Storage]. *)
Abbreviation call := (rust Storage CallError).

(** ** Storage access *)
Section storage.
Context {C : Config}.

Definition put_Artists m s := mkStorage m s.(Collections) s.(Nfts)
  s.(NextItemId) s.(NextCollectionId) s.(ledger) s.(events).
Definition put_Collections m s := mkStorage s.(Artists) m s.(Nfts)
  s.(NextItemId) s.(NextCollectionId) s.(ledger) s.(events).
Definition put_Nfts m s := mkStorage s.(Artists) s.(Collections) m
  s.(NextItemId) s.(NextCollectionId) s.(ledger) s.(events).
Definition put_NextItemId m s := mkStorage s.(Artists) s.(Collections)
  s.(Nfts) m s.(NextCollectionId) s.(ledger) s.(events).
Definition put_NextCollectionId n s := mkStorage s.(Artists) s.(Collections)
  s.(Nfts) s.(NextItemId) n s.(ledger) s.(events).
Definition put_ledger l s := mkStorage s.(Artists) s.(Collections)
  s.(Nfts) s.(NextItemId) s.(NextCollectionId) l s.(events).
Definition put_events e s := mkStorage s.(Artists) s.(Collections)
  s.(Nfts) s.(NextItemId) s.(NextCollectionId) s.(ledger) e.

(** Getters; a [ValueQuery] map answers the default of its value type. *)
Definition artists (s : Storage) (who : AccountId) : bool :=
  default false (sm_get s.(Artists) who).
Definition collections (s : Storage) (c : CollectionId) : option Collection :=
  sm_get s.(Collections) c.
Definition nfts (s : Storage) (c : CollectionId) (i : ItemId) : option NFT :=
  sm_get s.(Nfts) (c, i).
Definition next_item_id (s : Storage) (c : CollectionId) : ItemId :=
  default 0 (sm_get s.(NextItemId) c).
Definition next_collection_id (s : Storage) : CollectionId :=
  s.(NextCollectionId).

Definition insert_Artists who b s := put_Artists (sm_insert s.(Artists) who b) s.
Definition insert_Collections c v s :=
  put_Collections (sm_insert s.(Collections) c v) s.
Definition remove_Collections c s :=
  put_Collections (sm_remove s.(Collections) c) s.
Definition insert_Nfts c i v s := put_Nfts (sm_insert s.(Nfts) (c, i) v) s.
Definition remove_Nfts c i s := put_Nfts (sm_remove s.(Nfts) (c, i)) s.
Definition insert_NextItemId c n s :=
  put_NextItemId (sm_insert s.(NextItemId) c n) s.

(** The [deposit_event] that [generate_deposit] declares. *)
Definition deposit_event (e : Event) : call unit :=
  modify (λ s, put_events (s.(events) ++ [e]) s).

(** [T::Currency::transfer(..)?] on the ledger of the store. *)
Definition currency_transfer (from to : AccountId) (v : Balance)
    (r : ExistenceRequirement) : call unit := λ s,
  match transfer from to v r s.(ledger) with
  | (Ok x, l) => (Ok x, put_ledger l s)
  | (Err e, l) => (Err (FrameError e), put_ledger l s)
  end.

(** [ensure_signed(origin)?]. *)
Definition signed (origin : RuntimeOrigin) : call AccountId :=
  try_ (match ensure_signed origin with
        | Ok who => Ok who
        | Err e => Err (FrameError e)
        end).

Definition try_mutate_Collections {A} (c : CollectionId)
    (f : rust (option Collection * Storage) CallError A) : call A :=
  sm_try_mutate Collections put_Collections c f.
Definition try_mutate_Nfts {A} (c : CollectionId) (i : ItemId)
    (f : rust (option NFT * Storage) CallError A) : call A :=
  sm_try_mutate Nfts put_Nfts (c, i) f.
End storage.

(** ** The calls

Each definition is the body of a dispatchable; [dispatch] below runs it in a
storage layer. *)
Section calls.
Context {C : Config}.

(** The registration fee, [T::Currency::minimum_balance() * 100u32.into()]. *)
Definition registration_fee : Balance :=
  wrapping_mul u128_MAX minimum_balance 100.

Definition pallet_account : AccountId := into_account_truncating PalletId_get.

Definition register_artist (origin : RuntimeOrigin) : call unit :=
  who ← signed origin;
  known ← reads (λ s, sm_contains_key s.(Artists) who);
  ensure (negb known) (PalletError AlreadyRegistered);;
  currency_transfer who pallet_account registration_fee KeepAlive;;
  modify (insert_Artists who true);;
  deposit_event (ArtistRegistered who);;
  mret ().

Definition create_collection (origin : RuntimeOrigin) (metadata : list u8) :
    call unit :=
  creator ← signed origin;
  artist ← reads (λ s, artists s creator);
  ensure artist (PalletError NotRegisteredArtist);;
  bounded_metadata ← try_ (ok_or (bv_try_from metadata) (PalletError MetadataInvalid));
  collection_id ← reads next_collection_id;
  let collection := mkCollection creator bounded_metadata bv_new in
  modify (insert_Collections collection_id collection);;
  modify (put_NextCollectionId (saturating_add u32_MAX collection_id 1));;
  deposit_event (CollectionCreated collection_id creator);;
  mret ().

Definition delete_collection (origin : RuntimeOrigin)
    (collection_id : CollectionId) : call unit :=
  who ← signed origin;
  collection_option ← reads (λ s, collections s collection_id);
  collection ← try_ (ok_or collection_option (PalletError CollectionNotFound));
  ensure (bool_decide (collection.(creator) = who)) (PalletError NotCollectionOwner);;
  modify (remove_Collections collection_id);;
  deposit_event (CollectionDeleted collection_id);;
  mret ().

(** The closure [create_nft] gives to [Collections::try_mutate]: it pushes the
    item on the value it was handed and also writes the changed collection to
    the map itself. *)
Definition push_item (collection_id : CollectionId) (item_id : ItemId) :
    rust (option Collection * Storage) CallError unit :=
  λ '(collection_option, s),
    match collection_option with
    | None => (Err (PalletError CollectionNotFound), (None, s))
    | Some collection =>
        match bv_try_push collection.(coll_nfts) item_id with
        | None => (Err (PalletError CollectionNotFound), (Some collection, s))
        | Some nfts =>
            let collection :=
              mkCollection collection.(creator) collection.(coll_metadata) nfts in
            (Ok (), (Some collection, insert_Collections collection_id collection s))
        end
    end.

Definition create_nft (origin : RuntimeOrigin) (collection_id : CollectionId)
    (metadata : list u8) (price : Balance) : call unit :=
  sender ← signed origin;
  known ← reads (λ s, sm_contains_key s.(Collections) collection_id);
  ensure known (PalletError CollectionNotFound);;
  bounded_metadata ← try_ (ok_or (bv_try_from metadata) (PalletError MetadataInvalid));
  item_id ← reads (λ s, next_item_id s collection_id);
  let nft := mkNFT sender bounded_metadata false price in
  modify (insert_Nfts collection_id item_id nft);;
  stored ← reads (λ s, sm_contains_key s.(Nfts) (collection_id, item_id));
  ensure stored (PalletError NFTNotFound);;
  try_mutate_Collections collection_id (push_item collection_id item_id);;
  let next_id := saturating_add u32_MAX item_id 1 in
  modify (insert_NextItemId collection_id next_id);;
  deposit_event (NFTMinted collection_id item_id sender);;
  mret ().

(** The closure of [transfer_nft]: the owner check happens inside it. *)
Definition give_item (sender to : AccountId) :
    rust (option NFT * Storage) CallError unit :=
  λ '(nft_option, s),
    match nft_option with
    | None => (Err (PalletError NFTNotFound), (None, s))
    | Some nft =>
        if bool_decide (nft.(owner) = sender)
        then (Ok (), (Some (mkNFT to nft.(nft_metadata) true nft.(price)), s))
        else (Err (PalletError NotNFTOwner), (Some nft, s))
    end.

Definition transfer_nft (origin : RuntimeOrigin) (collection_id : CollectionId)
    (item_id : ItemId) (to : AccountId) : call unit :=
  sender ← signed origin;
  try_mutate_Nfts collection_id item_id (give_item sender to);;
  deposit_event (NFTTransferred collection_id item_id sender to);;
  mret ().

(** The closure of [burn_nft]: it takes the item out of the collection. *)
Definition drop_item (item_id : ItemId) :
    rust (option Collection * Storage) CallError unit :=
  λ '(collection_option, s),
    match collection_option with
    | None => (Err (PalletError CollectionNotFound), (None, s))
    | Some collection =>
        let nfts := bv_retain (λ id, negb (id =? item_id)) collection.(coll_nfts) in
        (Ok (), (Some (mkCollection collection.(creator)
                         collection.(coll_metadata) nfts), s))
    end.

Definition burn_nft (origin : RuntimeOrigin) (collection_id : CollectionId)
    (item_id : ItemId) : call unit :=
  sender ← signed origin;
  nft_option ← reads (λ s, nfts s collection_id item_id);
  nft ← try_ (ok_or nft_option (PalletError NFTNotFound));
  ensure (bool_decide (nft.(owner) = sender)) (PalletError NotNFTOwner);;
  ensure (negb nft.(is_sold)) (PalletError NFTAlreadySold);;
  modify (remove_Nfts collection_id item_id);;
  try_mutate_Collections collection_id (drop_item item_id);;
  deposit_event (NFTBurned collection_id item_id sender);;
  mret ().

(** The closure of [mint_nft]. *)
Definition sell_item (buyer : AccountId) :
    rust (option NFT * Storage) CallError unit :=
  λ '(nft_option, s),
    match nft_option with
    | None => (Err (PalletError NFTNotFound), (None, s))
    | Some nft =>
        (Ok (), (Some (mkNFT buyer nft.(nft_metadata) true nft.(price)), s))
    end.

(** Buys the item from its owner. *)
Definition mint_nft (origin : RuntimeOrigin) (collection_id : CollectionId)
    (item_id : ItemId) : call unit :=
  buyer ← signed origin;
  nft_option ← reads (λ s, nfts s collection_id item_id);
  nft ← try_ (ok_or nft_option (PalletError NFTNotFound));
  ensure (negb nft.(is_sold)) (PalletError NFTAlreadySold);;
  ensure (negb (bool_decide (nft.(owner) = buyer))) (PalletError NotNFTOwner);;
  let seller := nft.(owner) in
  currency_transfer buyer seller nft.(price) KeepAlive;;
  try_mutate_Nfts collection_id item_id (sell_item buyer);;
  deposit_event (NFTTransferred collection_id item_id seller buyer);;
  mret ().

(** ** Dispatch *)

(** The [Call] enum of the pallet, one variant per dispatchable. *)
Inductive Call :=
| Call_register_artist
| Call_create_collection (metadata : list u8)
| Call_delete_collection (c : CollectionId)
| Call_create_nft (c : CollectionId) (metadata : list u8) (price : Balance)
| Call_transfer_nft (c : CollectionId) (i : ItemId) (to : AccountId)
| Call_burn_nft (c : CollectionId) (i : ItemId)
| Call_mint_nft (c : CollectionId) (i : ItemId).

Definition call_index (c : Call) : N :=
  match c with
  | Call_register_artist => 0
  | Call_create_collection _ => 1
  | Call_delete_collection _ => 4
  | Call_create_nft _ _ _ => 6
  | Call_transfer_nft _ _ _ => 7
  | Call_burn_nft _ _ => 8
  | Call_mint_nft _ _ => 9
  end.

Definition call_body (c : Call) (origin : RuntimeOrigin) : call unit :=
  match c with
  | Call_register_artist => register_artist origin
  | Call_create_collection metadata => create_collection origin metadata
  | Call_delete_collection c => delete_collection origin c
  | Call_create_nft c metadata price => create_nft origin c metadata price
  | Call_transfer_nft c i to => transfer_nft origin c i to
  | Call_burn_nft c i => burn_nft origin c i
  | Call_mint_nft c i => mint_nft origin c i
  end.

Definition dispatch (c : Call) (origin : RuntimeOrigin) : call unit :=
  with_storage_layer (call_body c origin).
End calls.
