(* ===== verification/NftSpec.v ===== *)
(** * What each call of the NFT pallet computes

For each dispatchable, an equation that gives its result and the store it
leaves on every branch, errors included, and for [dispatch] the branch that
succeeds. The invariants and the trace properties are proved from these. *)
From S2P Require Import Prelude Frame NftPallet.

Local Open Scope N_scope.

(** Unfolds the storage access functions down to record projections and
    [sm_get]. *)
Ltac storage_unfold :=
  unfold artists, collections, nfts, next_item_id, next_collection_id,
    insert_Artists, insert_Collections, remove_Collections, insert_Nfts,
    remove_Nfts, insert_NextItemId, put_Artists, put_Collections, put_Nfts,
    put_NextItemId, put_NextCollectionId, put_ledger, put_events in *;
  cbn [Artists Collections Nfts NextItemId NextCollectionId ledger events] in *.

Ltac storage_simpl :=
  storage_unfold;
  repeat (rewrite ?sm_get_insert, ?sm_get_remove in *;
          repeat (case_decide; simplify_eq)).

Section run.
Context {C : Config} {HC : ConfigLaws C}.
Implicit Types (s : Storage) (c : CollectionId) (i : ItemId).

(** The effect of a successful call on the store. *)
Definition add_event (e : Event) s := put_events (s.(events) ++ [e]) s.

Definition after_register who l s :=
  add_event (ArtistRegistered who) (insert_Artists who true (put_ledger l s)).
Definition after_create_collection who md s :=
  let c := next_collection_id s in
  add_event (CollectionCreated c who)
    (put_NextCollectionId (saturating_add u32_MAX c 1)
      (insert_Collections c (mkCollection who md bv_new) s)).
Definition after_delete_collection c s :=
  add_event (CollectionDeleted c) (remove_Collections c s).
Definition after_create_nft who c col items md p s :=
  let i := next_item_id s c in
  let col' := mkCollection col.(creator) col.(coll_metadata) items in
  add_event (NFTMinted c i who)
    (insert_NextItemId c (saturating_add u32_MAX i 1)
      (insert_Collections c col' (insert_Collections c col'
        (insert_Nfts c i (mkNFT who md false p) s)))).
Definition after_give from to c i n s :=
  add_event (NFTTransferred c i from to)
    (insert_Nfts c i (mkNFT to n.(nft_metadata) true n.(price)) s).
Definition after_burn who c i col s :=
  let items := bv_retain (λ id, negb (id =? i)) col.(coll_nfts) in
  add_event (NFTBurned c i who)
    (insert_Collections c (mkCollection col.(creator) col.(coll_metadata) items)
      (remove_Nfts c i s)).

Lemma register_artist_run origin s :
  register_artist origin s =
  match ensure_signed origin with
  | Err e => (Err (FrameError e), s)
  | Ok who =>
      if sm_contains_key s.(Artists) who
      then (Err (PalletError AlreadyRegistered), s)
      else match transfer who pallet_account registration_fee KeepAlive s.(ledger) with
           | (Err e, l) => (Err (FrameError e), put_ledger l s)
           | (Ok _, l) => (Ok (), after_register who l s)
           end
  end.
Proof.
  unfold register_artist, signed. run. destruct (ensure_signed origin); [|done].
  run. destruct (sm_contains_key _ _); [done|]. cbn.
  unfold mbind, rust_bind, currency_transfer.
  by destruct (transfer _ _ _ _ _) as [[[]|] l].
Qed.

Lemma create_collection_run origin md s :
  create_collection origin md s =
  match ensure_signed origin with
  | Err e => (Err (FrameError e), s)
  | Ok who =>
      if artists s who then
        match bv_try_from md with
        | None => (Err (PalletError MetadataInvalid), s)
        | Some bmd => (Ok (), after_create_collection who bmd s)
        end
      else (Err (PalletError NotRegisteredArtist), s)
  end.
Proof.
  unfold create_collection, signed. run. destruct (ensure_signed origin); [|done].
  run. destruct (artists s t); [|done]. run. by destruct (bv_try_from md).
Qed.

Lemma delete_collection_run origin c s :
  delete_collection origin c s =
  match ensure_signed origin with
  | Err e => (Err (FrameError e), s)
  | Ok who =>
      match collections s c with
      | None => (Err (PalletError CollectionNotFound), s)
      | Some col =>
          if bool_decide (col.(creator) = who)
          then (Ok (), after_delete_collection c s)
          else (Err (PalletError NotCollectionOwner), s)
      end
  end.
Proof.
  unfold delete_collection, signed. run. destruct (ensure_signed origin); [|done].
  run. destruct (collections s c) as [col|]; [|done]. cbn. run.
  by destruct (bool_decide _).
Qed.

Lemma create_nft_run origin c md p s :
  create_nft origin c md p s =
  match ensure_signed origin with
  | Err e => (Err (FrameError e), s)
  | Ok who =>
      match collections s c with
      | None => (Err (PalletError CollectionNotFound), s)
      | Some col =>
          match bv_try_from md with
          | None => (Err (PalletError MetadataInvalid), s)
          | Some bmd =>
              match bv_try_push col.(coll_nfts) (next_item_id s c) with
              | None => (Err (PalletError CollectionNotFound),
                         insert_Nfts c (next_item_id s c) (mkNFT who bmd false p) s)
              | Some items => (Ok (), after_create_nft who c col items bmd p s)
              end
          end
      end
  end.
Proof.
  unfold create_nft, signed. run. destruct (ensure_signed origin) as [who|]; [|done].
  run. destruct (collections s c) as [col|] eqn:Hcol.
  2: { unfold collections in Hcol. by rewrite (sm_contains_key_None _ _ Hcol). }
  rewrite (sm_contains_key_Some _ _ _ Hcol). run.
  destruct (bv_try_from md) as [bmd|]; [|done]. cbn. run.
  rewrite (sm_contains_key_Some _ _ (mkNFT who bmd false p));
    [|apply sm_get_insert_eq].
  unfold mbind at 1, rust_bind, try_mutate_Collections.
  rewrite sm_try_mutate_run.
  replace (sm_get _ _) with (Some col) by (rewrite <- Hcol; done). cbn.
  by destruct (bv_try_push _ _).
Qed.

Lemma transfer_nft_run origin c i to s :
  transfer_nft origin c i to s =
  match ensure_signed origin with
  | Err e => (Err (FrameError e), s)
  | Ok who =>
      match nfts s c i with
      | None => (Err (PalletError NFTNotFound), s)
      | Some n =>
          if bool_decide (n.(owner) = who)
          then (Ok (), after_give who to c i n s)
          else (Err (PalletError NotNFTOwner), s)
      end
  end.
Proof.
  unfold transfer_nft, signed. run. destruct (ensure_signed origin); [|done].
  unfold mbind at 1, rust_bind, try_mutate_Nfts. rewrite sm_try_mutate_run.
  unfold nfts. destruct (sm_get _ _) as [n|]; [|done]. cbn.
  by destruct (bool_decide _).
Qed.

Lemma burn_nft_run origin c i s :
  burn_nft origin c i s =
  match ensure_signed origin with
  | Err e => (Err (FrameError e), s)
  | Ok who =>
      match nfts s c i with
      | None => (Err (PalletError NFTNotFound), s)
      | Some n =>
          if bool_decide (n.(owner) = who) then
            if n.(is_sold) then (Err (PalletError NFTAlreadySold), s)
            else match collections s c with
                 | None => (Err (PalletError CollectionNotFound), remove_Nfts c i s)
                 | Some col => (Ok (), after_burn who c i col s)
                 end
          else (Err (PalletError NotNFTOwner), s)
      end
  end.
Proof.
  unfold burn_nft, signed. run. destruct (ensure_signed origin); [|done].
  run. destruct (nfts s c i) as [n|]; [|done]. cbn. run.
  destruct (bool_decide _); [|done]. run.
  destruct (is_sold n); [done|]. cbn. run.
  unfold mbind at 1, rust_bind, try_mutate_Collections. rewrite sm_try_mutate_run.
  unfold collections. cbn. by destruct (sm_get _ _).
Qed.

Lemma mint_nft_run origin c i s :
  mint_nft origin c i s =
  match ensure_signed origin with
  | Err e => (Err (FrameError e), s)
  | Ok who =>
      match nfts s c i with
      | None => (Err (PalletError NFTNotFound), s)
      | Some n =>
          if n.(is_sold) then (Err (PalletError NFTAlreadySold), s)
          else if bool_decide (n.(owner) = who) then (Err (PalletError NotNFTOwner), s)
          else match transfer who n.(owner) n.(price) KeepAlive s.(ledger) with
               | (Err e, l) => (Err (FrameError e), put_ledger l s)
               | (Ok _, l) => (Ok (), after_give n.(owner) who c i n (put_ledger l s))
               end
      end
  end.
Proof.
  unfold mint_nft, signed. run. destruct (ensure_signed origin); [|done].
  run. destruct (nfts s c i) as [n|] eqn:Hn; [|done]. cbn. run.
  destruct (is_sold n); [done|]. cbn. run.
  destruct (bool_decide _); [done|]. cbn.
  unfold mbind at 1, rust_bind at 1, currency_transfer.
  destruct (transfer _ _ _ _ _) as [[[]|] l]; [|done].
  unfold mbind at 1, rust_bind, try_mutate_Nfts. rewrite sm_try_mutate_run.
  unfold nfts in Hn. cbn. by rewrite Hn.
Qed.

(** ** Successful dispatches

[call_effect s who c s'] holds when the call [c], signed by [who], succeeds in
[s] and leaves [s']. *)
Inductive call_effect s (who : AccountId) : Call → Storage → Prop :=
| effect_register l :
    sm_contains_key s.(Artists) who = false →
    transfer who pallet_account registration_fee KeepAlive s.(ledger) = (Ok (), l) →
    call_effect s who Call_register_artist (after_register who l s)
| effect_create_collection md bmd :
    artists s who = true →
    bv_try_from md = Some bmd →
    call_effect s who (Call_create_collection md) (after_create_collection who bmd s)
| effect_delete_collection c col :
    collections s c = Some col → col.(creator) = who →
    call_effect s who (Call_delete_collection c) (after_delete_collection c s)
| effect_create_nft c md p col bmd items :
    collections s c = Some col →
    bv_try_from md = Some bmd →
    bv_try_push col.(coll_nfts) (next_item_id s c) = Some items →
    call_effect s who (Call_create_nft c md p) (after_create_nft who c col items bmd p s)
| effect_transfer c i to n :
    nfts s c i = Some n → n.(owner) = who →
    call_effect s who (Call_transfer_nft c i to) (after_give who to c i n s)
| effect_burn c i n col :
    nfts s c i = Some n → n.(owner) = who → n.(is_sold) = false →
    collections s c = Some col →
    call_effect s who (Call_burn_nft c i) (after_burn who c i col s)
| effect_mint c i n l :
    nfts s c i = Some n → n.(is_sold) = false → n.(owner) ≠ who →
    transfer who n.(owner) n.(price) KeepAlive s.(ledger) = (Ok (), l) →
    call_effect s who (Call_mint_nft c i) (after_give n.(owner) who c i n (put_ledger l s)).

Lemma call_body_run (cl : Call) origin s :
  match ensure_signed origin with
  | Err e => call_body cl origin s = (Err (FrameError e), s)
  | Ok who => ∀ (x : unit) s', call_body cl origin s = (Ok x, s') ↔ call_effect s who cl s'
  end.
Proof.
  destruct cl; cbn [call_body];
    rewrite ?register_artist_run, ?create_collection_run, ?delete_collection_run,
      ?create_nft_run, ?transfer_nft_run, ?burn_nft_run, ?mint_nft_run;
    destruct (ensure_signed origin) as [who|e]; try done; intros [] s'; split.
  all: try (intros H; repeat destr_in H;
    repeat match goal with
    | H : bool_decide _ = true |- _ => apply bool_decide_eq_true in H
    | H : bool_decide _ = false |- _ => apply bool_decide_eq_false in H
    | x : () |- _ => destruct x
    end; econstructor; eauto; fail).
  all: intros H; inversion H; subst; clear H;
    repeat match goal with H : _ = _ |- _ => rewrite H end;
    rewrite ?bool_decide_true by done; rewrite ?bool_decide_false by done; done.
Qed.

(** A dispatch succeeds exactly when it is signed and its effect is defined. *)
Lemma dispatch_ok (cl : Call) origin s (x : unit) s' :
  dispatch cl origin s = (Ok x, s') ↔
  ∃ who, ensure_signed origin = Ok who ∧ call_effect s who cl s'.
Proof.
  unfold dispatch. pose proof (call_body_run cl origin s) as Hrun.
  destruct (ensure_signed origin) as [who|e].
  - destruct (call_body cl origin s) as [[y|e] s1] eqn:Hb.
    + rewrite (with_storage_layer_ok _ _ _ _ Hb). destruct x, y. split.
      * intros [= <-]. exists who. split; [done|]. by apply (Hrun ()).
      * intros (? & [= <-] & Heff). by apply (Hrun ()).
    + rewrite (with_storage_layer_err _ _ _ _ Hb). split; [done|].
      intros (? & [= <-] & Heff). by apply (Hrun x) in Heff.
  - rewrite (with_storage_layer_err _ _ _ _ Hrun). split; [done|].
    by intros (? & ? & _).
Qed.

Lemma dispatch_err (cl : Call) origin s e s' : dispatch cl origin s = (Err e, s') → s' = s.
Proof.
  unfold dispatch. destruct (call_body cl origin s) as [[y|e'] s1] eqn:Hb.
  - by rewrite (with_storage_layer_ok _ _ _ _ Hb).
  - rewrite (with_storage_layer_err _ _ _ _ Hb). by intros [= <- <-].
Qed.

(** The storage layer does not change the result of a call. *)
Lemma dispatch_result (cl : Call) origin s :
  (dispatch cl origin s).1 = (call_body cl origin s).1.
Proof.
  unfold dispatch. destruct (call_body cl origin s) as [[x|e] s1] eqn:Hb;
    [by rewrite (with_storage_layer_ok _ _ _ _ Hb)
    |by rewrite (with_storage_layer_err _ _ _ _ Hb)].
Qed.

(** A dispatch keeps the store or applies the effect of its call. *)
Lemma dispatch_cases (cl : Call) origin s r s' :
  dispatch cl origin s = (r, s') →
  (∃ e, r = Err e ∧ s' = s) ∨
  (∃ who, r = Ok () ∧ ensure_signed origin = Ok who ∧ call_effect s who cl s').
Proof.
  destruct r as [[]|e]; intros H.
  - right. apply dispatch_ok in H as (who & ? & ?). eauto.
  - left. apply dispatch_err in H. eauto.
Qed.
End run.
