(* ===== verification/FrameModel.v ===== *)
(** * An executable instance of the interfaces

Finite maps for the storage maps, length-checked lists for the bounded vectors,
a map of balances for the ledger, and a storage layer that restores the store.
It discharges every law of [Frame], and the concrete runs of the development
are evaluated with it. *)
From S2P Require Import Prelude Frame NftPallet.

Local Open Scope N_scope.

(** ** Bounded vectors *)

Record blist (bound : nat) (A : Type) := mkBlist {
  blist_list : list A;
  blist_ok : bool_decide (length blist_list ≤ bound)%nat = true;
}.
Arguments mkBlist {bound A} l H : rename.
Arguments blist_list {bound A} b : rename.
Arguments blist_ok {bound A} b : rename.

Definition blist_from {bound A} (l : list A) : option (blist bound A) :=
  match bool_decide (length l ≤ bound)%nat as b
    return bool_decide (length l ≤ bound)%nat = b → option (blist bound A)
  with
  | true => λ H, Some (mkBlist l H)
  | false => λ _, None
  end eq_refl.

Lemma blist_from_fits {bound A} (l : list A) :
  (length l ≤ bound)%nat →
  ∃ b, blist_from (bound := bound) l = Some b ∧ blist_list b = l.
Proof.
  intros Hl. unfold blist_from.
  generalize (eq_refl (bool_decide (length l ≤ bound)%nat)).
  generalize (bool_decide (length l ≤ bound)%nat) at 2 3.
  intros [] H; [by eexists|]. apply bool_decide_eq_false in H. lia.
Qed.

Lemma blist_from_long {bound A} (l : list A) :
  (bound < length l)%nat → blist_from (bound := bound) l = None.
Proof.
  intros Hl. unfold blist_from.
  generalize (eq_refl (bool_decide (length l ≤ bound)%nat)).
  generalize (bool_decide (length l ≤ bound)%nat) at 2 3.
  intros [] H; [|done]. exfalso. apply bool_decide_eq_true in H. lia.
Qed.

Lemma retain_le {bound A} (f : A → bool) (b : blist bound A) :
  bool_decide (length (retain f (blist_list b)) ≤ bound)%nat = true.
Proof.
  apply bool_decide_eq_true. destruct b as [l Hl]. cbn.
  apply bool_decide_eq_true in Hl. unfold retain.
  pose proof (length_filter (λ x, f x = true) l). lia.
Qed.

#[local] Instance blist_BoundedVec bound : BoundedVec bound (blist bound) := {
  bv_new A := mkBlist [] eq_refl;
  bv_inner A := blist_list;
  bv_try_from A := blist_from;
  bv_try_push A b x := blist_from (blist_list b ++ [x]);
  bv_retain A f b := mkBlist (retain f (blist_list b)) (retain_le f b);
}.

#[local] Instance blist_BoundedVecLaws bound : BoundedVecLaws bound (blist bound).
Proof.
  split; cbn; intros.
  - done.
  - destruct b as [l Hl]. cbn. by apply bool_decide_eq_true in Hl.
  - by apply blist_from_fits.
  - by apply blist_from_long.
  - apply blist_from_fits. rewrite length_app. cbn. lia.
  - apply blist_from_long. rewrite length_app. cbn. lia.
  - done.
Qed.

(** ** Storage maps *)

#[local] Instance gmap_StorageMap K `{Countable K} : StorageMap K (gmap K) := {
  sm_get V m k := m !! k;
  sm_contains_key V m k := bool_decide (is_Some (m !! k));
  sm_insert V m k v := <[k := v]> m;
  sm_remove V m k := delete k m;
  sm_try_mutate V S E A view upd k f := λ s,
    match f (view s !! k, s) with
    | (Ok x, (Some v, s')) => (Ok x, upd (<[k := v]> (view s')) s')
    | (Ok x, (None, s')) => (Ok x, upd (delete k (view s')) s')
    | (Err e, (_, s')) => (Err e, s')
    end;
}.

#[local] Instance gmap_StorageMapLaws K `{Countable K} : StorageMapLaws K (gmap K).
Proof.
  split; cbn; intros; [apply lookup_insert | apply lookup_delete | done | done].
Qed.

(** ** Ledger *)

Module Ledgers.
Abbreviation t := (gmap N N).
Definition free (l : t) (a : N) : N := default 0 (l !! a).

Section existential.
Variable existential_deposit : N.

(** A transfer of a positive amount between two accounts fails when the source
    has too little, would fall below the existential deposit, or the
    destination would stay below it. *)
Definition transfer (a b : N) (v : N) (r : ExistenceRequirement) :
    rust t string unit := λ l,
  if (v =? 0) || (a =? b) then (Ok (), l)
  else if free l a <? v then (Err "FundsUnavailable"%string, l)
  else if free l a - v <? existential_deposit then (Err "NotExpendable"%string, l)
  else if free l b + v <? existential_deposit then (Err "BelowMinimum"%string, l)
  else (Ok (), <[b := free l b + v]> (<[a := free l a - v]> l)).

#[local] Instance currency : Currency N string t := {
  minimum_balance := existential_deposit;
  free_balance := free;
  transfer := transfer;
}.

Lemma transfer_inv a b v r l l' :
  transfer a b v r l = (Ok (), l') →
  (l' = l ∧ (v = 0 ∨ a = b)) ∨
  (v ≤ free l a ∧ existential_deposit ≤ free l a - v ∧ a ≠ b ∧
   l' = <[b := free l b + v]> (<[a := free l a - v]> l)).
Proof.
  unfold transfer. intros Ht.
  destruct (_ || _) eqn:Hz; [simplify_eq; left|].
  { split; [done|]. apply orb_true_iff in Hz as [?%N.eqb_eq|?%N.eqb_eq]; auto. }
  apply orb_false_iff in Hz as [?%N.eqb_neq ?%N.eqb_neq].
  repeat destr_in Ht. right. repeat match goal with
  | H : (_ <? _) = false |- _ => apply N.ltb_ge in H
  end. done.
Qed.

Lemma free_insert l a v b :
  free (<[a := v]> l) b = if decide (a = b) then v else free l b.
Proof. unfold free. rewrite lookup_insert. by case_decide. Qed.

#[local] Instance currency_laws : CurrencyLaws N string t.
Proof.
  split; cbn; intros.
  - apply transfer_inv in H as [[-> [->|?]]|(?&?&?&->)]; [lia|done|].
    rewrite !free_insert. repeat case_decide; lia.
  - apply transfer_inv in H as [[-> ?]|(?&?&?&->)]; [done|].
    rewrite !free_insert. repeat case_decide; done.
  - apply transfer_inv in H as [[-> ?]|(?&?&?&->)]; done.
  - apply transfer_inv in H as [[-> ?]|(?&?&?&->)]; [lia|].
    rewrite !free_insert. repeat case_decide; lia.
Qed.
End existential.
End Ledgers.

(** ** Storage layers *)

#[local] Instance rollback : StorageLayer := {
  with_storage_layer S E A f := λ s,
    match f s with
    | (Ok x, s') => (Ok x, s')
    | (Err e, _) => (Err e, s)
    end;
}.

#[local] Instance rollback_laws : StorageLayerLaws.
Proof. split; cbn; intros * ->; done. Qed.

(** ** A configuration of the pallet

Accounts are numbers, an origin is a signer or none, and account 1000 is the
pallet's own. *)
Definition ConfigWith (existential_deposit : N) : Config := {|
  AccountId := N;
  DispatchError := string;
  RuntimeOrigin := option N;
  ensure_signed o := ok_or o "BadOrigin"%string;
  Ledger := gmap N N;
  Config_Currency := Ledgers.currency existential_deposit;
  PalletId := string;
  PalletId_get := "template"%string;
  into_account_truncating := λ _, 1000;
  BVec := blist 256;
  AMap := gmap N;
  CMap := gmap N;
  NMap := gmap (N * N);
|}.

#[export] Instance ConfigWithLaws ed : ConfigLaws (ConfigWith ed).
Proof.
  split; cbn.
  - apply Ledgers.currency_laws.
  - apply blist_BoundedVecLaws.
  - apply gmap_StorageMapLaws.
  - apply gmap_StorageMapLaws.
  - apply gmap_StorageMapLaws.
  - apply rollback_laws.
Qed.

(** The configuration of the examples, with an existential deposit of 10. *)
#[export] Instance TestConfig : Config := ConfigWith 10.
#[export] Instance TestConfigLaws : ConfigLaws TestConfig := ConfigWithLaws 10.

(** The empty storage over a ledger. *)
Definition genesis (l : Ledgers.t) : Storage := mkStorage ∅ ∅ ∅ ∅ 0 l [].

(** Runs a list of calls from a store, the failed ones included. *)
Fixpoint run_calls (cs : list (Call * option N)) (s : Storage) : Storage :=
  match cs with
  | [] => s
  | (c, o) :: cs => run_calls cs (dispatch c o s).2
  end.

Lemma run_calls_app cs cs' s : run_calls (cs ++ cs') s = run_calls cs' (run_calls cs s).
Proof. revert s. induction cs as [|[c o] cs IH]; intros s; [done|]. apply IH. Qed.

(** Alice (1), Bob (2) and Carol (3) with 5000 each. *)
Definition start : Storage := genesis (<[1 := 5000]> (<[2 := 5000]> (<[3 := 5000]> ∅))).

(** Alice registers, creates collection 0 and mints item 0 at price 700. *)
Definition setup : list (Call * option N) :=
  [(Call_register_artist, Some 1); (Call_create_collection [], Some 1);
   (Call_create_nft 0 [] 700, Some 1)].
Definition minted : Storage := run_calls setup start.

(** A call that returns [Ok ()] is the pair of that result and its store. *)
Lemma unit_run_ok {S E} (m : rust S E unit) s :
  is_ok (m s).1 = true → m s = (Ok (), (m s).2).
Proof. by destruct (m s) as [[[]|] ?]. Qed.

Example minted_events : bool_decide (events minted =
  [ArtistRegistered 1; CollectionCreated 0 1; NFTMinted 0 0 1]) = true.
Proof. vm_compute. reflexivity. Qed.

Example minted_sale :
  let s := (dispatch (Call_mint_nft 0 0) (Some 2) minted).2 in
  (owner <$> nfts s 0 0, Ledgers.free (ledger s) 1, Ledgers.free (ledger s) 2) =
  (Some 2, 4700, 4300).
Proof. vm_compute. reflexivity. Qed.
