(* ===== verification/NftInvariant.v ===== *)
(** * Well-formedness of the pallet's storage

The invariant [Inv] of the storage, its preservation by every call, and its
validity in every reachable state. *)
From S2P Require Import Prelude Frame NftPallet NftSpec FrameModel.

Local Open Scope N_scope.

(** An identifier that a counter at [next] has handed out. A counter that has
    reached [u32_MAX] stays there, so it hands that identifier out again. *)
Definition allocated (next id : N) : Prop :=
  id < next ∨ (id = u32_MAX ∧ next = u32_MAX).

Lemma allocated_next next id :
  next ≤ u32_MAX → allocated next id → allocated (saturating_add u32_MAX next 1) id.
Proof. unfold allocated, saturating_add, u32_MAX. lia. Qed.

Lemma allocated_new next :
  next ≤ u32_MAX → allocated (saturating_add u32_MAX next 1) next.
Proof. unfold allocated, saturating_add, u32_MAX. lia. Qed.

Lemma allocated_lt next id : next < u32_MAX → allocated next id → id < next.
Proof. unfold allocated. lia. Qed.

Lemma saturating_succ_lt next :
  saturating_add u32_MAX next 1 < u32_MAX → next < u32_MAX.
Proof. unfold saturating_add, u32_MAX. lia. Qed.

(** An identifier that a counter at [next] has not handed out twice: every one but
    the largest, and that one too until the counter reaches it. *)
Definition unrepeated (next id : N) : Prop := id < u32_MAX ∨ next < u32_MAX.

Lemma unrepeated_lt next id : unrepeated next id → allocated next id → id < next.
Proof. unfold unrepeated, allocated. lia. Qed.

Lemma unrepeated_le next next' id : next ≤ next' → unrepeated next' id → unrepeated next id.
Proof. unfold unrepeated. lia. Qed.

Lemma unrepeated_self next : next ≤ u32_MAX → unrepeated next next → next < u32_MAX.
Proof. unfold unrepeated. lia. Qed.

(** A counter that moves over an identifier it has not handed out twice leaves the
    others where they are. *)
Lemma unrepeated_next next id :
  next ≤ u32_MAX → unrepeated (saturating_add u32_MAX next 1) id → id ≠ next →
  (id <? saturating_add u32_MAX next 1) = (id <? next).
Proof.
  unfold unrepeated, saturating_add, u32_MAX. intros.
  repeat match goal with |- context [?x <? ?y] => destruct (N.ltb_spec x y) end;
    (done || lia).
Qed.

Lemma not_allocated_self next : next < u32_MAX → ¬ allocated next next.
Proof. unfold allocated. lia. Qed.

Create HintDb alloc.
#[export] Hint Resolve allocated_next allocated_new saturating_succ_lt : alloc.

(** Resolves the lookups of a hypothesis and of the goal in updated maps. *)
Ltac look :=
  repeat (rewrite ?sm_get_insert, ?sm_get_remove, ?bv_inner_retain, ?bv_inner_new,
            ?elem_of_retain in *;
          repeat case_decide; simplify_eq; cbn in * );
  repeat match goal with
  | Hb : bv_inner ?b = _ |- context [bv_inner ?b] => rewrite Hb
  | Hb : bv_inner ?b = _, Hx : context [bv_inner ?b] |- _ =>
      lazymatch Hx with Hb => fail | _ => rewrite Hb in Hx end
  end.

Section invariant.
Context {C : Config} {HC : ConfigLaws C}.
Implicit Types (s : Storage) (c : CollectionId) (i : ItemId).

Record Inv s : Prop := mkInv {
  inv_next_collection : next_collection_id s ≤ u32_MAX;
  inv_next_item c : next_item_id s c ≤ u32_MAX;
  (** Every identifier in use was handed out by its counter. *)
  inv_collection_id c col :
    collections s c = Some col → allocated (next_collection_id s) c;
  inv_nft_collection_id c i n :
    nfts s c i = Some n → allocated (next_collection_id s) c;
  inv_nft_item_id c i n :
    nfts s c i = Some n → allocated (next_item_id s c) i;
  (** The item list of a collection names existing items, each once, and all
      of them. *)
  inv_listed c col i :
    collections s c = Some col → i ∈ bv_inner col.(coll_nfts) →
    is_Some (nfts s c i);
  inv_indexed c col i n :
    next_collection_id s < u32_MAX →
    collections s c = Some col → nfts s c i = Some n →
    i ∈ bv_inner col.(coll_nfts);
  inv_nodup c col :
    next_item_id s c < u32_MAX → collections s c = Some col →
    NoDup (bv_inner col.(coll_nfts));
  (** Collections are created by registered artists. *)
  inv_creator c col :
    collections s c = Some col → artists s col.(creator) = true;
  inv_artists a b : sm_get s.(Artists) a = Some b → b = true;
}.

(** The storage at genesis: nothing stored, counters at their default. *)
Record is_genesis s : Prop := mkGenesis {
  gen_artists a : sm_get s.(Artists) a = None;
  gen_collections c : sm_get s.(Collections) c = None;
  gen_nfts k : sm_get s.(Nfts) k = None;
  gen_next_item c : sm_get s.(NextItemId) c = None;
  gen_next_collection : s.(NextCollectionId) = 0;
}.

Lemma Inv_genesis s : is_genesis s → Inv s.
Proof.
  intros [Ha Hc Hn Hi H0]. split; storage_unfold; intros;
    rewrite ?Ha, ?Hc, ?Hn, ?Hi in *; try done; rewrite ?H0; unfold u32_MAX;
    cbn; try lia.
Qed.

(** The ledger and the event log are not constrained. *)
Lemma Inv_put_ledger l s : Inv s → Inv (put_ledger l s).
Proof. intros []; split; assumption. Qed.
Lemma Inv_put_events e s : Inv s → Inv (put_events e s).
Proof. intros []; split; assumption. Qed.
Lemma Inv_add_event e s : Inv s → Inv (add_event e s).
Proof. apply Inv_put_events. Qed.

Lemma Inv_insert_artist who s : Inv s → Inv (insert_Artists who true s).
Proof.
  intros []; split; try assumption; storage_unfold.
  - intros c col Hc. rewrite sm_get_insert. case_decide; [done|]. eauto.
  - intros a b. rewrite sm_get_insert. case_decide; [by intros [= <-]|]. eauto.
Qed.

Lemma Inv_create_collection who md s :
  Inv s → artists s who = true → Inv (after_create_collection who md s).
Proof.
  intros [] Hwho. apply Inv_add_event.
  split; storage_unfold; try assumption; intros;
    rewrite ?sm_get_insert in *; repeat case_decide; simplify_eq; cbn in *;
    rewrite ?bv_inner_new in *; eauto with alloc.
  - by apply elem_of_nil in H0.
  - exfalso. apply (not_allocated_self (NextCollectionId s)); eauto with alloc.
  - apply NoDup_nil_2.
Qed.

Lemma Inv_delete_collection c s : Inv s → Inv (after_delete_collection c s).
Proof.
  intros []. apply Inv_add_event.
  split; storage_unfold; try assumption; intros;
    rewrite ?sm_get_remove in *; repeat case_decide; simplify_eq; eauto.
Qed.

(** Replacing an item by another keeps the invariant. *)
Lemma Inv_insert_nft c i n n' s :
  Inv s → nfts s c i = Some n → Inv (insert_Nfts c i n' s).
Proof.
  intros [] Hn.
  split; storage_unfold; try assumption; intros;
    rewrite ?sm_get_insert in *; repeat case_decide; simplify_eq; eauto.
Qed.

Lemma Inv_give from to c i n s :
  Inv s → nfts s c i = Some n → Inv (after_give from to c i n s).
Proof. intros. by eapply Inv_add_event, Inv_insert_nft. Qed.

Lemma Inv_create_nft who c col items md p s :
  Inv s → collections s c = Some col →
  bv_try_push col.(coll_nfts) (next_item_id s c) = Some items →
  Inv (after_create_nft who c col items md p s).
Proof.
  intros [] Hcol [Hitems _]%bv_try_push_Some. apply Inv_add_event.
  split; storage_unfold; try assumption.
  - intros c'. rewrite sm_get_insert. case_decide; cbn; eauto.
  - intros c' col' H. look; eauto.
  - intros c' i n H. look; eauto.
  - intros c' i n H. look; eauto with alloc.
  - intros c' col' i H Hi. look; eauto.
    apply elem_of_app in Hi as [Hi|Hi%list_elem_of_singleton]; simplify_eq; eauto.
  - intros c' col' i n Hlt H Hn. look; eauto; apply elem_of_app.
    + right. by apply list_elem_of_singleton.
    + left. eauto.
  - intros c' col' Hlt H. look; eauto with alloc.
    apply NoDup_snoc; [eauto with alloc|].
    intros [n Hn]%(inv_listed0 _ _ _ Hcol). apply inv_nft_item_id0 in Hn.
    by apply not_allocated_self in Hn; [|eauto with alloc].
  - intros c' col' H. look; eauto.
Qed.

Lemma Inv_burn who c i col s :
  Inv s → collections s c = Some col → Inv (after_burn who c i col s).
Proof.
  intros [] Hcol. apply Inv_add_event.
  split; storage_unfold; try assumption.
  - intros c' col' H. look; eauto.
  - intros c' i' n H. look; eauto.
  - intros c' i' n H. look; eauto.
  - intros c' col' i' H Hi. look; destruct_and?; eauto.
    by rewrite N.eqb_refl in *.
  - intros c' col' i' n Hlt H Hn. look; eauto; split; eauto.
    apply negb_true_iff, N.eqb_neq. by intros ->.
  - intros c' col' Hlt H. look; eauto.
  - intros c' col' H. look; eauto.
Qed.

Lemma Inv_effect s who cl s' : Inv s → call_effect s who cl s' → Inv s'.
Proof.
  destruct 2.
  - by apply Inv_add_event, Inv_insert_artist, Inv_put_ledger.
  - by apply Inv_create_collection.
  - by apply Inv_delete_collection.
  - by apply Inv_create_nft.
  - by apply Inv_give.
  - by apply Inv_burn.
  - by apply Inv_give; [apply Inv_put_ledger|].
Qed.

(** ** Runs of the chain

Between two calls of the pallet the rest of the runtime may change the ledger
and the event log, and nothing else of the store. *)
Inductive label :=
| Called (cl : Call) (origin : RuntimeOrigin) (r : result unit CallError)
| Elsewhere.

Inductive sys_step : Storage → label → Storage → Prop :=
| sys_call s cl origin r s' :
    dispatch cl origin s = (r, s') → sys_step s (Called cl origin r) s'
| sys_elsewhere s l e : sys_step s Elsewhere (put_events e (put_ledger l s)).

Inductive sys_run : Storage → list label → Storage → Prop :=
| run_nil s : sys_run s [] s
| run_cons s lb s1 tr s' :
    sys_step s lb s1 → sys_run s1 tr s' → sys_run s (lb :: tr) s'.

Definition reachable s : Prop := ∃ s0 tr, is_genesis s0 ∧ sys_run s0 tr s.

Lemma Inv_step s lb s' : Inv s → sys_step s lb s' → Inv s'.
Proof.
  intros HI Hstep. destruct Hstep as [s cl o r s' H|s l e].
  - apply dispatch_cases in H as [(e & _ & ->)|(who & _ & _ & ?)]; [done|].
    by eapply Inv_effect.
  - by apply Inv_put_events, Inv_put_ledger.
Qed.

Lemma Inv_run s tr s' : Inv s → sys_run s tr s' → Inv s'.
Proof. induction 2; eauto using Inv_step. Qed.

Lemma Inv_reachable s : reachable s → Inv s.
Proof. intros (s0 & tr & H0 & Hr). eapply Inv_run; [|done]. by apply Inv_genesis. Qed.
End invariant.

Create HintDb inv.
#[export] Hint Resolve Inv_effect Inv_step Inv_run Inv_reachable : inv.

(** ** Reachable stores of the executable configuration *)

Lemma genesis_is_genesis l : is_genesis (genesis l).
Proof. by split. Qed.

(** The trace of [run_calls]. *)
Fixpoint trace_calls (cs : list (Call * option N)) (s : Storage) : list label :=
  match cs with
  | [] => []
  | (cl, o) :: cs =>
      Called cl o (dispatch cl o s).1 :: trace_calls cs (dispatch cl o s).2
  end.

Lemma sys_run_calls cs s : sys_run s (trace_calls cs s) (run_calls cs s).
Proof.
  revert s. induction cs as [|[cl o] cs IH]; intros s; [constructor|].
  econstructor; [|apply IH]. constructor. apply surjective_pairing.
Qed.

Lemma reachable_run_calls cs l : reachable (run_calls cs (genesis l)).
Proof.
  exists (genesis l), (trace_calls cs (genesis l)).
  split; [apply genesis_is_genesis|apply sys_run_calls].
Qed.
