(* ===== verification/NftMarket.v ===== *)
(** * Life of an item

An item of a collection is unminted, listed for sale, sold, or burned. This
file states that life cycle as a small transition system of its own, shows that
every step of the chain moves an item as that system allows, and derives what
holds of whole runs: a sold item stays sold, and an item is bought at most
once. *)
From S2P Require Import Prelude Frame NftPallet NftSpec FrameModel NftInvariant.

Local Open Scope N_scope.

Section market.
Context {C : Config} {HC : ConfigLaws C}.
Implicit Types (s : Storage) (c : CollectionId) (i : ItemId).

(** What a successful call does to an item that exists. *)
Lemma effect_existing s who cl s' c i n :
  Inv s → unrepeated (next_item_id s c) i →
  call_effect s who cl s' → nfts s c i = Some n →
  nfts s' c i = Some n ∨
  (∃ to, cl = Call_transfer_nft c i to ∧ n.(owner) = who ∧
     nfts s' c i = Some (mkNFT to n.(nft_metadata) true n.(price))) ∨
  (cl = Call_burn_nft c i ∧ n.(owner) = who ∧ n.(is_sold) = false ∧
     nfts s' c i = None) ∨
  (cl = Call_mint_nft c i ∧ n.(owner) ≠ who ∧ n.(is_sold) = false ∧
     nfts s' c i = Some (mkNFT who n.(nft_metadata) true n.(price)) ∧
     transfer who n.(owner) n.(price) KeepAlive s.(ledger) = (Ok (), s'.(ledger))).
Proof.
  intros HI Hlt Heff Hn. destruct Heff; auto;
    unfold after_register, after_create_collection, after_delete_collection,
      after_create_nft, after_give, after_burn, add_event.
  - left. storage_unfold. rewrite sm_get_insert. case_decide; [|done]. simplify_eq.
    apply (inv_nft_item_id s HI) in Hn. by apply unrepeated_lt, N.lt_irrefl in Hn.
  - destruct (decide ((c0, i0) = (c, i))); simplify_eq.
    + right. left. exists to. repeat split. storage_unfold.
      by rewrite sm_get_insert_eq.
    + left. storage_unfold. by rewrite sm_get_insert_ne.
  - destruct (decide ((c0, i0) = (c, i))); simplify_eq.
    + right. right. left. repeat split; [done|]. storage_unfold.
      by rewrite sm_get_remove_eq.
    + left. storage_unfold. by rewrite sm_get_remove_ne.
  - destruct (decide ((c0, i0) = (c, i))); simplify_eq.
    + right. right. right. repeat split; [done..| |done]. storage_unfold.
      by rewrite sm_get_insert_eq.
    + left. storage_unfold. by rewrite sm_get_insert_ne.
Qed.

(** What it does to an item that does not exist. *)
Lemma effect_absent s who cl s' c i :
  call_effect s who cl s' → nfts s c i = None →
  nfts s' c i = None ∨
  (∃ md bmd p, cl = Call_create_nft c md p ∧ i = next_item_id s c ∧
     bv_try_from md = Some bmd ∧ nfts s' c i = Some (mkNFT who bmd false p)).
Proof.
  intros Heff Hn. destruct Heff; auto;
    unfold after_register, after_create_collection, after_delete_collection,
      after_create_nft, after_give, after_burn, add_event.
  - destruct (decide ((c0, next_item_id s c0) = (c, i))) as [[= -> <-]|Hne].
    + right. exists md, bmd, p. repeat split; [done|]. storage_unfold.
      by rewrite sm_get_insert_eq.
    + left. storage_unfold. by rewrite sm_get_insert_ne.
  - left. storage_unfold. rewrite sm_get_insert_ne; [done|congruence].
  - left. storage_unfold. rewrite sm_get_remove. by case_decide.
  - left. storage_unfold. rewrite sm_get_insert_ne; [done|congruence].
Qed.

(** The item counter of a collection moves when an item is created in it. *)
Lemma effect_next_item s who cl s' c :
  call_effect s who cl s' →
  next_item_id s' c =
    match cl with
    | Call_create_nft c' _ _ =>
        if decide (c' = c) then saturating_add u32_MAX (next_item_id s c) 1
        else next_item_id s c
    | _ => next_item_id s c
    end.
Proof.
  destruct 1; try done. unfold after_create_nft, add_event. storage_unfold.
  rewrite sm_get_insert. by case_decide; simplify_eq.
Qed.

(** ** The life cycle of an item, as a specification *)

Inductive item : Type :=
| Unminted
| Listed (o : AccountId) (md : BVec u8) (p : Balance)
| Sold (o : AccountId) (md : BVec u8) (p : Balance)
| Burned.

(** The state of item [i] of collection [c] in a store. *)
Definition item_of s c i : item :=
  match nfts s c i with
  | Some n =>
      if n.(is_sold) then Sold n.(owner) n.(nft_metadata) n.(price)
      else Listed n.(owner) n.(nft_metadata) n.(price)
  | None => if i <? next_item_id s c then Burned else Unminted
  end.

(** How a step of the chain may move item [i] of collection [c]: minting lists
    it under the signer, the owner gives it away, another account buys it
    while it is listed, the owner burns it while it is listed. *)
Inductive item_step c i : label → item → item → Prop :=
| item_stays lb x : item_step c i lb x x
| item_minted origin who md bmd p :
    ensure_signed origin = Ok who → bv_try_from md = Some bmd →
    item_step c i (Called (Call_create_nft c md p) origin (Ok ()))
      Unminted (Listed who bmd p)
| item_given_listed origin o to md p :
    ensure_signed origin = Ok o →
    item_step c i (Called (Call_transfer_nft c i to) origin (Ok ()))
      (Listed o md p) (Sold to md p)
| item_given_sold origin o to md p :
    ensure_signed origin = Ok o →
    item_step c i (Called (Call_transfer_nft c i to) origin (Ok ()))
      (Sold o md p) (Sold to md p)
| item_bought origin o who md p :
    ensure_signed origin = Ok who → o ≠ who →
    item_step c i (Called (Call_mint_nft c i) origin (Ok ()))
      (Listed o md p) (Sold who md p)
| item_burned origin o md p :
    ensure_signed origin = Ok o →
    item_step c i (Called (Call_burn_nft c i) origin (Ok ()))
      (Listed o md p) Burned.

Inductive item_run c i : item → list label → item → Prop :=
| item_run_nil x : item_run c i x [] x
| item_run_cons x lb y tr z :
    item_step c i lb x y → item_run c i y tr z → item_run c i x (lb :: tr) z.

Lemma next_item_mono s lb s' c :
  sys_step s lb s' → next_item_id s c ≤ u32_MAX →
  next_item_id s c ≤ next_item_id s' c.
Proof.
  intros Hs Hle. destruct Hs as [s cl o r s' H|s l e]; [|done].
  apply dispatch_cases in H as [(e & _ & ->)|(who & _ & _ & He)]; [done|].
  rewrite (effect_next_item _ _ _ _ c He). destruct cl; try done.
  case_decide; [|done]. unfold saturating_add. lia.
Qed.

Lemma next_item_run s tr s' c :
  sys_run s tr s' → Inv s → next_item_id s c ≤ next_item_id s' c.
Proof.
  induction 1 as [|s lb s1 tr s' Hs Hr IH]; intros HI; [done|].
  etrans; [eapply next_item_mono; eauto using inv_next_item|eauto with inv].
Qed.

(** A step of the chain is a step of the item, as long as its identifier is not
    handed out again. *)
Lemma sys_item_step s lb s' c i :
  Inv s → unrepeated (next_item_id s' c) i → sys_step s lb s' →
  item_step c i lb (item_of s c i) (item_of s' c i).
Proof.
  intros HI Hlt Hs. pose proof (next_item_mono _ _ _ c Hs (inv_next_item _ HI c)) as Hm.
  destruct Hs as [s cl o r s' H|s l e]; [|apply item_stays].
  apply dispatch_cases in H as [(e & _ & ->)|(who & -> & Ho & He)]; [apply item_stays|].
  unfold item_of. destruct (nfts s c i) as [n|] eqn:Hn.
  - destruct (effect_existing _ _ _ _ _ _ _ HI (unrepeated_le _ _ _ Hm Hlt) He Hn)
      as [->|[(to & -> & Hw & ->)|[(-> & Hw & -> & Hn')|(-> & Hw & -> & -> & _)]]];
      cbn.
    + apply item_stays.
    + destruct (is_sold n); constructor; congruence.
    + rewrite Hn'. apply (inv_nft_item_id s HI), unrepeated_lt in Hn; [|by eapply unrepeated_le].
      destruct (N.ltb_spec i (next_item_id s' c)); [|lia].
      constructor. congruence.
    + by constructor.
  - destruct (effect_absent _ _ _ _ _ _ He Hn)
      as [Hn'|(md & bmd & p & -> & -> & Hb & ->)].
    + pose proof (effect_next_item _ _ _ _ c He) as Hc. rewrite Hn'.
      assert (Hfresh : ∀ c' md p, cl = Call_create_nft c' md p → c' = c →
        i ≠ next_item_id s c).
      { intros c' md p -> -> ->. inversion He; subst. revert Hn'.
        unfold after_create_nft, add_event. storage_unfold.
        by rewrite sm_get_insert_eq. }
      destruct cl; try (rewrite Hc; apply item_stays).
      case_decide as Hcc; [|rewrite Hc; apply item_stays].
      rewrite Hc, unrepeated_next; [apply item_stays|by apply (inv_next_item _ HI)|by rewrite <- Hc|].
      exact (Hfresh _ _ _ eq_refl Hcc).
    + cbn. destruct (N.ltb_spec (next_item_id s c) (next_item_id s c)); [lia|].
      by constructor.
Qed.

Lemma sys_item_run s tr s' c i :
  sys_run s tr s' → Inv s → unrepeated (next_item_id s' c) i →
  item_run c i (item_of s c i) tr (item_of s' c i).
Proof.
  induction 1 as [|s lb s1 tr s' Hs Hr IH]; intros HI Hlt; [constructor|].
  pose proof (Inv_step _ _ _ HI Hs) as HI1.
  pose proof (next_item_run _ _ _ c Hr HI1).
  apply (item_run_cons c i _ _ (item_of s1 c i)); [|auto].
  apply sys_item_step; [done|by eapply unrepeated_le|done].
Qed.

(** ** What the life cycle says of runs *)

(** The successful purchases of an item in a trace. *)
Definition is_purchase c i (lb : label) : bool :=
  match lb with
  | Called (Call_mint_nft c' i') _ (Ok _) => (c' =? c) && (i' =? i)
  | _ => false
  end.

Definition purchases c i (tr : list label) : nat := length (retain (is_purchase c i) tr).

(** The description and price an item carries, and the stage of its sale. *)
Definition item_data (x : item) : option (BVec u8 * Balance) :=
  match x with
  | Listed _ md p | Sold _ md p => Some (md, p)
  | _ => None
  end.

Definition item_closed (x : item) : bool :=
  match x with Sold _ _ _ | Burned => true | _ => false end.

Lemma item_step_sold c i lb o md p y :
  item_step c i lb (Sold o md p) y → ∃ o', y = Sold o' md p.
Proof. inversion 1; eauto. Qed.

Lemma item_run_sold c i tr o md p y :
  item_run c i (Sold o md p) tr y → ∃ o', y = Sold o' md p.
Proof.
  remember (Sold o md p) as x eqn:Hx. intros Hr. revert o Hx.
  induction Hr as [x|x lb y tr z Hs Hr IH]; intros o ->; [eauto|].
  apply item_step_sold in Hs as [o' ->]. eauto.
Qed.

(** A successful purchase finds the item listed. *)
Lemma purchase_listed s lb s' c i :
  sys_step s lb s' → is_purchase c i lb = true →
  item_closed (item_of s c i) = false ∧ item_closed (item_of s' c i) = true.
Proof.
  intros Hs Hp. destruct Hs as [s cl o r s' H|]; [|done].
  destruct cl as [| | | | | |c' i']; try done. destruct r; [|done]. cbn in Hp.
  apply andb_true_iff in Hp as [->%N.eqb_eq ->%N.eqb_eq].
  apply dispatch_ok in H as (who & _ & He). inversion He; subst.
  unfold item_of. rewrite H1, H2. split; [done|].
  unfold after_give, add_event. storage_unfold. by rewrite sm_get_insert_eq.
Qed.

Lemma item_step_keeps_closed c i lb x y :
  item_step c i lb x y → item_closed x = true → item_closed y = true.
Proof. destruct 1; cbn; auto. Qed.

Lemma purchases_cons c i lb tr :
  purchases c i (lb :: tr) = ((if is_purchase c i lb then 1 else 0) + purchases c i tr)%nat.
Proof. unfold purchases, retain. cbn. by destruct (is_purchase c i lb). Qed.

Lemma purchases_bound s tr s' c i :
  sys_run s tr s' → Inv s → unrepeated (next_item_id s' c) i →
  (purchases c i tr ≤ if item_closed (item_of s c i) then 0 else 1)%nat.
Proof.
  induction 1 as [|s lb s1 tr s' Hs Hr IH]; intros HI Hlt.
  { unfold purchases. cbn. lia. }
  pose proof (Inv_step _ _ _ HI Hs) as HI1.
  pose proof (next_item_run _ _ _ c Hr HI1) as Hle.
  pose proof (unrepeated_le _ _ i Hle Hlt) as Hlt1.
  pose proof (sys_item_step _ _ _ c i HI Hlt1 Hs) as Hi.
  specialize (IH HI1 Hlt). rewrite purchases_cons.
  destruct (is_purchase c i lb) eqn:Hp.
  - destruct (purchase_listed _ _ _ _ _ Hs Hp) as [-> Hc]. rewrite Hc in IH. lia.
  - destruct (item_closed (item_of s c i)) eqn:Hc;
      [|destruct (item_closed (item_of s1 c i)); lia].
    rewrite (item_step_keeps_closed _ _ _ _ _ Hi Hc) in IH. lia.
Qed.
End market.
