(* ===== verification/NftProperties.v ===== *)
(** * Properties of the NFT marketplace

The theorems about runs of the pallet: its well-formedness invariant, and what
can happen to an item over its life. *)
From S2P Require Import Prelude Frame NftPallet NftSpec FrameModel NftInvariant NftMarket.

Local Open Scope N_scope.

(** ** Specifications *)
Section spec.
Context {C : Config}.

(** What [cl] may do to the item [n], stored as item [i] of collection [c] in
    [s], when [origin] dispatches it and [s'] is the store after it. *)
Definition authorised_change (s : Storage) (cl : Call) (origin : RuntimeOrigin)
    (s' : Storage) (c : CollectionId) (i : ItemId) (n : NFT) : Prop :=
  match nfts s' c i with
  | Some n' =>
      n'.(owner) = n.(owner) ∨
      (cl = Call_transfer_nft c i n'.(owner) ∧ ensure_signed origin = Ok n.(owner)) ∨
      (cl = Call_mint_nft c i ∧ ensure_signed origin = Ok n'.(owner) ∧
       n.(is_sold) = false ∧
       transfer n'.(owner) n.(owner) n.(price) KeepAlive s.(ledger) = (Ok (), s'.(ledger)))
  | None =>
      cl = Call_burn_nft c i ∧ ensure_signed origin = Ok n.(owner) ∧ n.(is_sold) = false
  end.

End spec.

Section invariants.
Context {C : Config} {HC : ConfigLaws C}.

(** C1. Every call, whoever signs it and whether it succeeds or fails, keeps
    the storage well-formed. *)
Theorem dispatch_preserves_invariant s cl origin r s' :
  Inv s → dispatch cl origin s = (r, s') → Inv s'.
Proof. intros HI Hd. eapply Inv_step; [exact HI|]. by apply sys_call with (r := r). Qed.

(** C2. In every reachable state in which the collection counter has not
    reached its maximum, the item list of a collection names exactly the
    items stored under it, it has at most 256 entries, without repetition as
    long as the item counter has not reached its maximum, and the creator of
    the collection is a registered artist. *)
Theorem reachable_catalogue_exact s c col :
  reachable s → next_collection_id s < u32_MAX → collections s c = Some col →
  (∀ i, i ∈ bv_inner col.(coll_nfts) ↔ is_Some (nfts s c i)) ∧
  (length (bv_inner col.(coll_nfts)) ≤ 256)%nat ∧
  (next_item_id s c < u32_MAX → NoDup (bv_inner col.(coll_nfts))) ∧
  artists s col.(creator) = true ∧ c < next_collection_id s.
Proof.
  intros HI%Inv_reachable Hlt Hc. repeat split.
  - by apply inv_listed.
  - intros [n Hn]. by eapply inv_indexed.
  - apply bv_inner_bound.
  - intros Hi. by eapply inv_nodup.
  - by eapply inv_creator.
  - eapply allocated_lt; [done|]. by eapply inv_collection_id.
Qed.
End invariants.

Lemma dispatch_preserves_invariant_witness :
  is_ok (dispatch (Call_mint_nft 0 0) (Some 2) minted).1 = true ∧
  Inv (dispatch (Call_mint_nft 0 0) (Some 2) minted).2.
Proof.
  split; [vm_compute; reflexivity|].
  eapply (dispatch_preserves_invariant minted); [|apply surjective_pairing].
  apply Inv_reachable, reachable_run_calls.
Defined.

Lemma reachable_catalogue_exact_witness :
  match collections minted 0 with
  | Some col => ∀ i, i ∈ bv_inner col.(coll_nfts) ↔ is_Some (nfts minted 0 i)
  | None => False
  end.
Proof.
  destruct (collections minted 0) as [col|] eqn:Hc.
  - eapply (reachable_catalogue_exact minted 0 col); [|vm_compute; reflexivity|exact Hc].
    apply reachable_run_calls.
  - exfalso. revert Hc.
    assert (Hb : bool_decide (is_Some (collections minted 0)) = true)
      by (vm_compute; reflexivity).
    intros Hc. rewrite Hc in Hb. by rewrite bool_decide_eq_true in Hb; destruct Hb.
Defined.

(** ** The life of an item *)
Section life.
Context {C : Config} {HC : ConfigLaws C}.

(** C4. The chain refines the life cycle of an item: along every run from
    genesis, however the calls of all accounts interleave, each item moves only
    as [item_step] allows, from unminted, as long as the item counter of its
    collection has not reached its maximum. *)
Theorem run_refines_item_life_cycle s0 tr s c i :
  is_genesis s0 → sys_run s0 tr s → next_item_id s c < u32_MAX →
  item_run c i Unminted tr (item_of s c i).
Proof.
  intros H0 Hr Hlt. replace Unminted with (item_of s0 c i).
  - apply sys_item_run; [done|by apply Inv_genesis|by right].
  - unfold item_of, nfts, next_item_id. rewrite (gen_nfts _ H0), (gen_next_item _ H0).
    cbn. by destruct (N.ltb_spec i 0); [lia|].
Qed.

(** C6. A sold item under an identifier below the largest, 2^32-1, is never burned,
    listed again, repriced or described otherwise: whatever runs after, it is
    there, sold, with the same metadata and price. The item under 2^32-1 is left
    out: its collection's counter stays at that identifier, so that the next mint
    replaces the item ([NftLimits.saturated_counters_overwrite]). *)
Theorem sold_item_stays_sold s tr s' c i n :
  reachable s → sys_run s tr s' → i < u32_MAX →
  nfts s c i = Some n → n.(is_sold) = true →
  ∃ o, nfts s' c i = Some (mkNFT o n.(nft_metadata) true n.(price)).
Proof.
  intros HI%Inv_reachable Hr Hlt Hn Hs.
  pose proof (sys_item_run _ _ _ c i Hr HI (or_introl Hlt)) as Hi.
  unfold item_of at 1 in Hi. rewrite Hn, Hs in Hi.
  apply item_run_sold in Hi as [o Ho]. exists o.
  unfold item_of in Ho. destruct (nfts s' c i) as [[o' md b p]|]; [|by destruct (_ <? _)].
  cbn in Ho. destruct b; by simplify_eq.
Qed.

(** C7. Along any run of the chain from a reachable state, an item under an
    identifier below the largest, 2^32-1, is bought at most once, and not at all
    once it has been bought, given away or burned. Under 2^32-1, which the
    saturated counter hands out again and again, each new item can be bought. *)
Theorem item_bought_at_most_once s tr s' c i :
  reachable s → sys_run s tr s' → i < u32_MAX →
  (purchases c i tr ≤ 1)%nat ∧
  (item_closed (item_of s c i) = true → purchases c i tr = 0%nat).
Proof.
  intros HI%Inv_reachable Hr Hlt.
  pose proof (purchases_bound _ _ _ c i Hr HI (or_introl Hlt)).
  destruct (item_closed (item_of s c i)); split; intros; try done; lia.
Qed.

(** C8. The owner of an item under an identifier below the largest, 2^32-1, changes
    only if the owner signed a transfer of it to the new owner, or the new owner
    signed its purchase while it was listed and the listed price went to the old
    owner; such an item disappears only if its owner signed its burning while it
    was listed. The item under 2^32-1 can also be replaced by a mint of anybody. *)
Theorem ownership_changes_are_authorised s cl origin r s' c i n :
  reachable s → i < u32_MAX →
  dispatch cl origin s = (r, s') → nfts s c i = Some n →
  authorised_change s cl origin s' c i n.
Proof.
  unfold authorised_change.
  intros HI%Inv_reachable Hlt Hd Hn.
  apply dispatch_cases in Hd as [(e & _ & ->)|(who & _ & Ho & He)].
  { rewrite Hn. by left. }
  destruct (effect_existing _ _ _ _ _ _ _ HI (or_introl Hlt) He Hn)
    as [->|[(to & -> & Hw & ->)|[(-> & Hw & Hs & ->)|(-> & Hw & Hs & -> & Ht)]]]; cbn.
  - by left.
  - right. left. by rewrite Hw.
  - by rewrite Hw.
  - right. right. by rewrite Ho.
Qed.
End life.

(** Bob buys the item of [minted], gives it to Carol, and Carol and Alice try to
    sell, burn and buy it again. *)
Definition after_sale : list (Call * option N) :=
  [(Call_mint_nft 0 0, Some 2); (Call_transfer_nft 0 0 3, Some 2);
   (Call_burn_nft 0 0, Some 3); (Call_mint_nft 0 0, Some 1)].

Lemma run_refines_item_life_cycle_witness :
  item_run 0 0 Unminted (trace_calls (setup ++ after_sale) start)
    (item_of (run_calls (setup ++ after_sale) start) 0 0).
Proof.
  eapply (run_refines_item_life_cycle start);
    [apply genesis_is_genesis|apply sys_run_calls|vm_compute; reflexivity].
Defined.

(** The store after Bob bought the item. *)
Definition sold : Storage := run_calls [(Call_mint_nft 0 0, Some 2)] minted.

Lemma sold_reachable : reachable sold.
Proof.
  unfold sold, minted, start. rewrite <- run_calls_app. apply reachable_run_calls.
Qed.

(** An option computed to be present has a value. *)
Lemma present {A} (o : option A) : match o with Some _ => true | None => false end = true →
  ∃ x, o = Some x.
Proof. destruct o; eauto. done. Qed.

Lemma sold_item_stays_sold_witness :
  ∃ n o, nfts sold 0 0 = Some n ∧
    nfts (run_calls (tail after_sale) sold) 0 0 =
      Some (mkNFT o n.(nft_metadata) true n.(price)).
Proof.
  destruct (present (nfts sold 0 0)) as [n Hn]; [vm_compute; reflexivity|].
  destruct (sold_item_stays_sold sold (trace_calls (tail after_sale) sold)
    (run_calls (tail after_sale) sold) 0%N 0%N n) as [o Ho].
  - apply sold_reachable.
  - apply sys_run_calls.
  - vm_compute; reflexivity.
  - exact Hn.
  - enough (Hb : (is_sold <$> nfts sold 0 0) = Some true) by (rewrite Hn in Hb; by injection Hb).
    vm_compute; reflexivity.
  - eauto.
Defined.

Lemma item_bought_at_most_once_witness :
  (purchases 0%N 0%N (trace_calls after_sale minted) ≤ 1)%nat.
Proof.
  eapply (item_bought_at_most_once minted);
    [apply reachable_run_calls|apply sys_run_calls|vm_compute; reflexivity].
Defined.

Lemma ownership_changes_are_authorised_witness :
  ∃ n, nfts minted 0 0 = Some n ∧
    authorised_change minted (Call_mint_nft 0 0) (Some 2)
      (dispatch (Call_mint_nft 0 0) (Some 2) minted).2 0 0 n.
Proof.
  destruct (present (nfts minted 0 0)) as [n Hn]; [vm_compute; reflexivity|].
  exists n. split; [exact Hn|].
  eapply (ownership_changes_are_authorised minted);
    [apply reachable_run_calls|vm_compute; reflexivity|apply surjective_pairing|exact Hn].
Defined.
