(* ===== verification/NftRules.v ===== *)
(** * Rules of the NFT marketplace, call by call

Which calls are accepted, what they cost and pay, what they leave alone, which
event reports them and which errors refuse them. *)
From S2P Require Import Prelude Frame NftPallet NftSpec FrameModel NftInvariant NftMarket.

Local Open Scope N_scope.

(** ** Specifications *)
Section spec.
Context {C : Config}.

(** The conditions under which a call signed by [who] is accepted. *)
Definition allowed (s : Storage) (who : AccountId) (cl : Call) : bool :=
  match cl with
  | Call_register_artist =>
      negb (sm_contains_key s.(Artists) who) &&
      is_ok (transfer who pallet_account registration_fee KeepAlive s.(ledger)).1
  | Call_create_collection md => artists s who && (length md <=? 256)%nat
  | Call_delete_collection c =>
      match collections s c with
      | Some col => bool_decide (col.(creator) = who)
      | None => false
      end
  | Call_create_nft c md _ =>
      match collections s c with
      | Some col =>
          (length md <=? 256)%nat && (length (bv_inner col.(coll_nfts)) <? 256)%nat
      | None => false
      end
  | Call_transfer_nft c i _ =>
      match nfts s c i with
      | Some n => bool_decide (n.(owner) = who)
      | None => false
      end
  | Call_burn_nft c i =>
      match nfts s c i, collections s c with
      | Some n, Some _ => bool_decide (n.(owner) = who) && negb n.(is_sold)
      | _, _ => false
      end
  | Call_mint_nft c i =>
      match nfts s c i with
      | Some n =>
          negb n.(is_sold) && negb (bool_decide (n.(owner) = who)) &&
          is_ok (transfer who n.(owner) n.(price) KeepAlive s.(ledger)).1
      | None => false
      end
  end.

(** The collection record a successful call may change, and the item. *)
Definition changes_collection (s : Storage) (cl : Call) (c : CollectionId) : bool :=
  match cl with
  | Call_create_collection _ => c =? next_collection_id s
  | Call_delete_collection c' | Call_create_nft c' _ _ | Call_burn_nft c' _ => c =? c'
  | _ => false
  end.

Definition changes_item (s : Storage) (cl : Call) (c : CollectionId) (i : ItemId) : bool :=
  match cl with
  | Call_create_nft c' _ _ => (c =? c') && (i =? next_item_id s c')
  | Call_transfer_nft c' i' _ | Call_burn_nft c' i' | Call_mint_nft c' i' =>
      (c =? c') && (i =? i')
  | _ => false
  end.

(** The event that reports a successful call. *)
Definition event_of (s : Storage) (who : AccountId) (cl : Call) : option Event :=
  match cl with
  | Call_register_artist => Some (ArtistRegistered who)
  | Call_create_collection _ => Some (CollectionCreated (next_collection_id s) who)
  | Call_delete_collection c => Some (CollectionDeleted c)
  | Call_create_nft c _ _ => Some (NFTMinted c (next_item_id s c) who)
  | Call_transfer_nft c i to => Some (NFTTransferred c i who to)
  | Call_burn_nft c i => Some (NFTBurned c i who)
  | Call_mint_nft c i =>
      n ← nfts s c i; Some (NFTTransferred c i n.(owner) who)
  end.

(** The errors of the pallet a call can be refused with. *)
Definition possible_errors (cl : Call) : list Error :=
  match cl with
  | Call_register_artist => [AlreadyRegistered]
  | Call_create_collection _ => [NotRegisteredArtist; MetadataInvalid]
  | Call_delete_collection _ => [CollectionNotFound; NotCollectionOwner]
  | Call_create_nft _ _ _ => [CollectionNotFound; MetadataInvalid]
  | Call_transfer_nft _ _ _ => [NFTNotFound; NotNFTOwner]
  | Call_burn_nft _ _ => [NFTNotFound; NotNFTOwner; NFTAlreadySold; CollectionNotFound]
  | Call_mint_nft _ _ => [NFTNotFound; NFTAlreadySold; NotNFTOwner]
  end.

(** The balance of an account in a store. *)
Definition balance (s : Storage) (a : AccountId) : Balance := free_balance s.(ledger) a.

End spec.

Section rules.
Context {C : Config} {HC : ConfigLaws C}.

Lemma try_from_fits (md : list u8) :
  (length md <=? 256)%nat = bool_decide (is_Some (bv_try_from (bv := BVec) md)).
Proof.
  destruct (Nat.leb_spec (length md) 256) as [H|H]; symmetry.
  - apply bool_decide_eq_true. destruct (bv_try_from_fits (bv := BVec) md H) as (b & -> & _).
    eauto.
  - apply bool_decide_eq_false. rewrite bv_try_from_long by done. apply is_Some_None.
Qed.

Lemma try_push_fits (b : BVec ItemId) x :
  (length (bv_inner b) <? 256)%nat = bool_decide (is_Some (bv_try_push b x)).
Proof.
  destruct (Nat.ltb_spec (length (bv_inner b)) 256) as [H|H]; symmetry.
  - apply bool_decide_eq_true. destruct (bv_try_push_fits b x H) as (b' & -> & _). eauto.
  - apply bool_decide_eq_false. rewrite bv_try_push_full by done. apply is_Some_None.
Qed.

(** C10. A call is accepted exactly when it is signed and the signer meets the
    call's conditions. *)
Theorem dispatch_accepts_iff_allowed cl origin s :
  is_ok (dispatch cl origin s).1 =
  match ensure_signed origin with
  | Ok who => allowed s who cl
  | Err _ => false
  end.
Proof.
  rewrite dispatch_result. destruct cl; cbn [call_body allowed];
    rewrite ?register_artist_run, ?create_collection_run, ?delete_collection_run,
      ?create_nft_run, ?transfer_nft_run, ?burn_nft_run, ?mint_nft_run, ?try_from_fits;
    (destruct (ensure_signed origin) as [who|]; [|done]).
  - destruct (sm_contains_key _ _); [done|]. by destruct (transfer _ _ _ _ _) as [[]].
  - destruct (artists s who); [|done]. by destruct (bv_try_from metadata).
  - destruct (collections s c); [|done]. by destruct (bool_decide _).
  - destruct (collections s c); [|done]. rewrite (try_push_fits _ (next_item_id s c)).
    destruct (bv_try_from metadata); [|done]. by destruct (bv_try_push _ _).
  - destruct (nfts s c i); [|done]. by destruct (bool_decide _).
  - destruct (nfts s c i); [|done]. destruct (bool_decide _).
    + destruct (is_sold n); by destruct (collections s c).
    + by destruct (collections s c).
  - destruct (nfts s c i); [|done]. destruct (is_sold n); [done|].
    destruct (bool_decide _); [done|]. by destruct (transfer _ _ _ _ _) as [[]].
Qed.

(** C11. A purchase takes exactly the listed price from the buyer, who had it and
    is left alive, gives it to the seller, changes no other balance, and makes
    the buyer the owner of an item that was listed and is now sold. *)
Theorem purchase_settles c i origin s s' :
  dispatch (Call_mint_nft c i) origin s = (Ok (), s') →
  ∃ buyer n, ensure_signed origin = Ok buyer ∧
    nfts s c i = Some n ∧ n.(is_sold) = false ∧ n.(owner) ≠ buyer ∧
    nfts s' c i = Some (mkNFT buyer n.(nft_metadata) true n.(price)) ∧
    n.(price) ≤ balance s buyer ∧
    balance s' buyer = balance s buyer - n.(price) ∧
    balance s' n.(owner) = balance s n.(owner) + n.(price) ∧
    (∀ a, a ≠ buyer → a ≠ n.(owner) → balance s' a = balance s a) ∧
    (0 < n.(price) → minimum_balance ≤ balance s' buyer).
Proof.
  intros (who & Ho & He)%dispatch_ok. inversion He as [| | | | | |? ? n l Hn Hs Hw Ht]; subst.
  assert (Hw' : who ≠ owner n) by congruence.
  destruct (transfer_moves _ _ _ _ _ Ht Hw') as (? & ? & ?).
  exists who, n. unfold balance. repeat split; try done.
  - unfold after_give, add_event. storage_unfold. by rewrite sm_get_insert_eq.
  - intros a Ha1 Ha2. exact (transfer_others _ _ _ _ _ _ a Ht Ha1 Ha2).
  - intros Hp. exact (transfer_keep_alive _ _ _ _ _ Ht Hw' Hp).
Qed.

(** Registration charges a new artist, unless it is the pallet's own
    account, one hundred times the minimum balance, pays it to the pallet's
    account, and registers the signer and nobody else. *)
Theorem registration_charges_fee origin s s' :
  minimum_balance * 100 ≤ u128_MAX →
  dispatch Call_register_artist origin s = (Ok (), s') →
  ∃ who, ensure_signed origin = Ok who ∧
    sm_get s.(Artists) who = None ∧ artists s' who = true ∧
    (∀ a, a ≠ who → artists s' a = artists s a) ∧
    (who ≠ pallet_account →
       balance s' who = balance s who - minimum_balance * 100 ∧
       minimum_balance * 100 ≤ balance s who ∧
       balance s' pallet_account = balance s pallet_account + minimum_balance * 100).
Proof.
  intros Hmin (who & Ho & He)%dispatch_ok. inversion He as [l Hk Ht| | | | | |]; subst.
  apply sm_contains_key_false in Hk. exists who.
  unfold after_register, add_event. storage_unfold. rewrite sm_get_insert_eq.
  repeat split; try done.
  - intros a Ha. by rewrite sm_get_insert_ne.
  - destruct (transfer_moves _ _ _ _ _ Ht H) as (_ & Hx & _).
    unfold balance. cbn. rewrite Hx. unfold registration_fee. by rewrite wrapping_mul_exact.
  - destruct (transfer_moves _ _ _ _ _ Ht H) as (Hx & _).
    unfold registration_fee in Hx. by rewrite wrapping_mul_exact in Hx.
  - destruct (transfer_moves _ _ _ _ _ Ht H) as (_ & _ & Hx).
    unfold balance. cbn. rewrite Hx. unfold registration_fee. by rewrite wrapping_mul_exact.
Qed.

(** Moving money between accounts lowers only the balance of the payer. *)
Lemma transfer_lowers l l' a b v x :
  transfer a b v KeepAlive l = (Ok (), l') → free_balance l' x < free_balance l x → x = a.
Proof.
  intros Ht Hx. destruct (decide (x = a)) as [|Ha]; [done|].
  destruct (decide (a = b)) as [->|Hab].
  { rewrite (transfer_self _ _ _ _ _ x Ht) in Hx. lia. }
  destruct (decide (x = b)) as [->|Hb].
  - destruct (transfer_moves _ _ _ _ _ Ht Hab) as (_ & _ & ->) in Hx. lia.
  - rewrite (transfer_others _ _ _ _ _ _ x Ht Ha Hb) in Hx. lia.
Qed.

(** Only the signer pays: a call lowers a balance only if that account
    signed it, it succeeded, and it is a registration or a purchase. *)
Theorem only_the_signer_pays cl origin s r s' a :
  dispatch cl origin s = (r, s') → balance s' a < balance s a →
  r = Ok () ∧ ensure_signed origin = Ok a ∧
  (cl = Call_register_artist ∨ ∃ c i, cl = Call_mint_nft c i).
Proof.
  intros [(e & _ & ->)|(who & -> & Ho & He)]%dispatch_cases Hlt; [lia|].
  unfold balance in Hlt. inversion He; subst; cbn in Hlt; try lia;
    match goal with Ht : transfer _ _ _ _ _ = _ |- _ =>
      apply (transfer_lowers _ _ _ _ _ a) in Ht; [subst|done]
    end; naive_solver.
Qed.

(** A call changes nothing it does not name: it changes a collection
    record, an item, or the standing of an artist only if it succeeds and is a
    call on that collection, on that item, or that account's registration. *)
Theorem dispatch_changes_only_what_it_names cl origin s r s' :
  dispatch cl origin s = (r, s') →
  (∀ c, collections s' c ≠ collections s c → r = Ok () ∧ changes_collection s cl c = true) ∧
  (∀ c i, nfts s' c i ≠ nfts s c i → r = Ok () ∧ changes_item s cl c i = true) ∧
  (∀ a, artists s' a ≠ artists s a →
     r = Ok () ∧ cl = Call_register_artist ∧ ensure_signed origin = Ok a).
Proof.
  intros [(e & _ & ->)|(who & -> & Ho & He)]%dispatch_cases; [done|].
  repeat split; try done; revert H;
    destruct He; cbn [changes_collection changes_item];
    unfold after_register, after_create_collection, after_delete_collection,
      after_create_nft, after_give, after_burn, add_event; storage_unfold;
    rewrite ?sm_get_insert, ?sm_get_remove;
    repeat case_decide; simplify_eq; rewrite ?N.eqb_refl; done.
Qed.

(** C13. A successful call deposits exactly one event, which reports it, and a
    failed one none. *)
Theorem dispatch_deposits_one_event cl origin s r s' :
  dispatch cl origin s = (r, s') →
  match r with
  | Ok _ => ∃ who e, ensure_signed origin = Ok who ∧ event_of s who cl = Some e ∧
                     events s' = events s ++ [e]
  | Err _ => events s' = events s
  end.
Proof.
  intros [(e & -> & ->)|(who & -> & Ho & He)]%dispatch_cases; [done|].
  exists who. destruct He; cbn [event_of]; try rewrite H; eauto.
Qed.

(** C15. A call is refused with one of the pallet errors listed for it, and
    with nothing else of the pallet: [CollectionFrozen] and [PriceNotSet] never
    occur, and minting never fails with [NFTNotFound]. *)
Theorem dispatch_refuses_with cl origin s e s' :
  dispatch cl origin s = (Err (PalletError e), s') → e ∈ possible_errors cl.
Proof.
  intros Hd. pose proof (dispatch_result cl origin s) as Hb. rewrite Hd in Hb.
  destruct (call_body cl origin s) as [r s1] eqn:E; cbn in Hb. subst r.
  revert E. destruct cl; cbn [call_body possible_errors];
    rewrite ?register_artist_run, ?create_collection_run, ?delete_collection_run,
      ?create_nft_run, ?transfer_nft_run, ?burn_nft_run, ?mint_nft_run;
    intros Hb; repeat destr_in Hb; rewrite !elem_of_cons; auto.
Qed.

(** Without the storage layer a refused call may already have written, but
    only an item: minting into a full collection leaves the new item behind, and
    burning an item whose collection was deleted leaves the item removed. *)
Theorem refused_body_writes_only_items cl origin s e s' :
  call_body cl origin s = (Err e, s') →
  Artists s' = Artists s ∧ Collections s' = Collections s ∧
  NextItemId s' = NextItemId s ∧ NextCollectionId s' = NextCollectionId s ∧
  events s' = events s ∧
  (∀ c i, nfts s' c i ≠ nfts s c i →
     e = PalletError CollectionNotFound ∧
     ((∃ md p col, cl = Call_create_nft c md p ∧ i = next_item_id s c ∧
         collections s c = Some col ∧ length (bv_inner col.(coll_nfts)) = 256%nat) ∨
      (cl = Call_burn_nft c i ∧ collections s c = None))).
Proof.
  destruct cl; cbn [call_body];
    rewrite ?register_artist_run, ?create_collection_run, ?delete_collection_run,
      ?create_nft_run, ?transfer_nft_run, ?burn_nft_run, ?mint_nft_run;
    intros Hb; repeat destr_in Hb; split_and!; try done; intros c' i'.
  - unfold nfts at 1. cbn. rewrite sm_get_insert. case_decide; [|done]. simplify_eq.
    intros _. split; [done|]. left. do 3 eexists. split_and!; try done.
    apply bv_try_push_None in E2. pose proof (bv_inner_bound (coll_nfts c0)). lia.
  - unfold nfts at 1. cbn. rewrite sm_get_remove. destruct (decide _) as [[= <- <-]|]; [|done].
    intros _. split; [done|]. right. split; [done|]. assumption.
Qed.
End rules.

(** ** The rules at work *)

Lemma dispatch_accepts_iff_allowed_witness :
  is_ok (dispatch (Call_mint_nft 0 0) (Some 2) minted).1 =
    allowed minted 2 (Call_mint_nft 0 0) ∧
  allowed minted 2 (Call_mint_nft 0 0) = true.
Proof.
  split; [|vm_compute; reflexivity].
  rewrite (dispatch_accepts_iff_allowed (C := TestConfig) (Call_mint_nft 0 0) (Some 2) minted).
  reflexivity.
Defined.

(** Bob's purchase of the item of [minted]. *)
Definition bought : Storage := (dispatch (Call_mint_nft 0 0) (Some 2) minted).2.

Lemma bought_ok : dispatch (Call_mint_nft 0 0) (Some 2) minted = (Ok (), bought).
Proof. apply unit_run_ok. vm_compute. reflexivity. Qed.

Lemma purchase_settles_witness :
  ∃ n, nfts minted 0 0 = Some n ∧ balance bought n.(owner) = balance minted n.(owner) + n.(price).
Proof.
  destruct (purchase_settles (C := TestConfig) 0 0 (Some 2) minted bought bought_ok)
    as (buyer & n & _ & Hn & _ & _ & _ & _ & _ & Hb & _).
  exists n. split; [exact Hn|exact Hb].
Defined.

(** Bob's registration. *)
Definition registered : Storage := (dispatch Call_register_artist (Some 2) start).2.

Lemma registered_ok : dispatch Call_register_artist (Some 2) start = (Ok (), registered).
Proof. apply unit_run_ok. vm_compute. reflexivity. Qed.

Lemma registration_charges_fee_witness :
  ∃ who, artists registered who = true ∧
    (who ≠ pallet_account → balance registered who = balance start who - 10 * 100).
Proof.
  destruct (registration_charges_fee (C := TestConfig) (Some 2) start registered) as
    (who & _ & _ & Ha & _ & Hb); [vm_compute; discriminate|exact registered_ok|].
  exists who. split; [exact Ha|]. intros Hw. apply (Hb Hw).
Defined.

Lemma only_the_signer_pays_witness :
  balance bought 2 < balance minted 2 ∧ ensure_signed (Some 2) = Ok 2.
Proof.
  assert (Hlt : balance bought 2 < balance minted 2) by (vm_compute; reflexivity).
  split; [exact Hlt|].
  apply (only_the_signer_pays (C := TestConfig) (Call_mint_nft 0 0) (Some 2) minted (Ok ()) bought 2 bought_ok Hlt).
Defined.

Lemma dispatch_changes_only_what_it_names_witness :
  nfts bought 0 0 ≠ nfts minted 0 0 ∧ changes_item minted (Call_mint_nft 0 0) 0 0 = true.
Proof.
  assert (Hne : nfts bought 0 0 ≠ nfts minted 0 0).
  { intros Heq. apply (f_equal (fmap owner)) in Heq. vm_compute in Heq. discriminate. }
  split; [exact Hne|].
  apply (dispatch_changes_only_what_it_names (C := TestConfig) (Call_mint_nft 0 0) (Some 2) minted
    (Ok ()) bought bought_ok); exact Hne.
Defined.

Lemma dispatch_deposits_one_event_witness :
  ∃ who e, event_of minted who (Call_mint_nft 0 0) = Some e ∧
    events bought = events minted ++ [e].
Proof.
  destruct (dispatch_deposits_one_event (C := TestConfig) (Call_mint_nft 0 0) (Some 2) minted (Ok ())
    bought bought_ok) as (who & e & _ & He & Hev).
  exists who, e. split; [exact He|exact Hev].
Defined.

(** A result that is a given error of the pallet. *)
Definition refused_with (e : Error) (r : result unit CallError) : bool :=
  match r with Err (PalletError e') => bool_decide (e = e') | _ => false end.

Lemma refused_with_eq e r : refused_with e r = true → r = Err (PalletError e).
Proof.
  destruct r as [|[e'|]]; try done. cbn. intros H%bool_decide_eq_true. by subst.
Qed.

Lemma dispatch_refuses_with_witness :
  NotNFTOwner ∈ possible_errors (Call_burn_nft 0 0).
Proof.
  assert (Hr : refused_with NotNFTOwner (dispatch (Call_burn_nft 0 0) (Some 2) minted).1 = true)
    by (vm_compute; reflexivity).
  apply refused_with_eq in Hr.
  eapply (dispatch_refuses_with (C := TestConfig) (Call_burn_nft 0 0) (Some 2) minted NotNFTOwner).
  rewrite <- Hr. apply surjective_pairing.
Defined.

(** The collection of [minted] deleted by its creator. *)
Definition orphaned : Storage := run_calls [(Call_delete_collection 0, Some 1)] minted.

Lemma refused_body_writes_only_items_witness :
  is_ok (call_body (Call_burn_nft 0 0) (Some 1) orphaned).1 = false ∧
  events (call_body (Call_burn_nft 0 0) (Some 1) orphaned).2 = events orphaned.
Proof.
  assert (Hr : refused_with CollectionNotFound
    (call_body (Call_burn_nft 0 0) (Some 1) orphaned).1 = true) by (vm_compute; reflexivity).
  apply refused_with_eq in Hr. split; [by rewrite Hr|].
  apply (refused_body_writes_only_items (C := TestConfig) (Call_burn_nft 0 0) (Some 1) orphaned
    (PalletError CollectionNotFound)).
  rewrite <- Hr. apply surjective_pairing.
Defined.
