(* ===== verification/NftLimits.v ===== *)
(** * Identifiers, deleted collections, and equal stores

What the identifier counters guarantee and where they stop, what becomes of the
items of a deleted collection, and that the calls depend on nothing but the
content of the storage. *)
From S2P Require Import Prelude Frame NftPallet NftSpec FrameModel NftInvariant NftMarket.

Local Open Scope N_scope.

(** ** Stores with the same content *)
Section equality.
Context {C : Config} {HC : ConfigLaws C}.

Record storage_eq (s1 s2 : Storage) : Prop := mkStorageEq {
  eq_Artists : sm_eq (Artists s1) (Artists s2);
  eq_Collections : sm_eq (Collections s1) (Collections s2);
  eq_Nfts : sm_eq (Nfts s1) (Nfts s2);
  eq_NextItemId : sm_eq (NextItemId s1) (NextItemId s2);
  eq_NextCollectionId : NextCollectionId s1 = NextCollectionId s2;
  eq_ledger : ledger s1 = ledger s2;
  eq_events : events s1 = events s2;
}.

#[export] Instance storage_eq_equivalence : Equivalence storage_eq.
Proof.
  split.
  - by intros s; split.
  - by intros s1 s2 []; split.
  - intros s1 s2 s3 [] []; split; by etrans.
Qed.

Definition outcome_eq (r1 r2 : result unit CallError * Storage) : Prop :=
  r1.1 = r2.1 ∧ storage_eq r1.2 r2.2.

#[export] Instance artists_proper : Proper (storage_eq ==> eq ==> eq) artists.
Proof. intros s1 s2 [] a ? <-. unfold artists. by rewrite eq_Artists0. Qed.
#[export] Instance collections_proper : Proper (storage_eq ==> eq ==> eq) collections.
Proof. intros s1 s2 [] c ? <-. apply eq_Collections0. Qed.
#[export] Instance nfts_proper : Proper (storage_eq ==> eq ==> eq ==> eq) nfts.
Proof. intros s1 s2 [] c ? <- i ? <-. apply eq_Nfts0. Qed.
#[export] Instance next_item_id_proper : Proper (storage_eq ==> eq ==> eq) next_item_id.
Proof. intros s1 s2 [] c ? <-. unfold next_item_id. by rewrite eq_NextItemId0. Qed.

Lemma put_ledger_proper l s1 s2 :
  storage_eq s1 s2 → storage_eq (put_ledger l s1) (put_ledger l s2).
Proof. by intros []; split. Qed.

Lemma after_register_proper who l s1 s2 :
  storage_eq s1 s2 → storage_eq (after_register who l s1) (after_register who l s2).
Proof.
  intros []; split; try done; cbn; [by rewrite eq_Artists0|by rewrite eq_events0].
Qed.

Lemma after_create_collection_proper who md s1 s2 :
  storage_eq s1 s2 →
  storage_eq (after_create_collection who md s1) (after_create_collection who md s2).
Proof.
  intros []; split; try done; cbn; unfold next_collection_id;
    rewrite ?eq_NextCollectionId0, ?eq_events0; try done. by rewrite eq_Collections0.
Qed.

Lemma after_delete_collection_proper c s1 s2 :
  storage_eq s1 s2 →
  storage_eq (after_delete_collection c s1) (after_delete_collection c s2).
Proof.
  intros []; split; try done; cbn; [by rewrite eq_Collections0|by rewrite eq_events0].
Qed.

Lemma after_create_nft_proper who c col items md p s1 s2 :
  storage_eq s1 s2 →
  storage_eq (after_create_nft who c col items md p s1)
             (after_create_nft who c col items md p s2).
Proof.
  intros H. pose proof (next_item_id_proper _ _ H c c eq_refl) as Hi. destruct H.
  split; try done; cbn; rewrite ?Hi, ?eq_events0; try done.
  - by rewrite eq_Collections0.
  - by rewrite eq_Nfts0.
  - by rewrite eq_NextItemId0.
Qed.

Lemma after_give_proper from to c i n s1 s2 :
  storage_eq s1 s2 →
  storage_eq (after_give from to c i n s1) (after_give from to c i n s2).
Proof.
  intros []; split; try done; cbn; [by rewrite eq_Nfts0|by rewrite eq_events0].
Qed.

Lemma after_burn_proper who c i col s1 s2 :
  storage_eq s1 s2 →
  storage_eq (after_burn who c i col s1) (after_burn who c i col s2).
Proof.
  intros []; split; try done; cbn;
    [by rewrite eq_Collections0|by rewrite eq_Nfts0|by rewrite eq_events0].
Qed.

Lemma call_effect_proper s1 s2 who cl s1' :
  storage_eq s1 s2 → call_effect s1 who cl s1' →
  ∃ s2', call_effect s2 who cl s2' ∧ storage_eq s1' s2'.
Proof.
  intros H He. destruct He.
  - eexists. split; [|by apply after_register_proper].
    constructor; [by destruct H as [<-]|by rewrite <- (eq_ledger _ _ H)].
  - eexists. split; [|by apply after_create_collection_proper].
    econstructor; [|done]. by rewrite <- H.
  - eexists. split; [|by apply after_delete_collection_proper].
    econstructor; [|done]. by rewrite <- H.
  - eexists. split; [|by apply after_create_nft_proper].
    econstructor; [|done|]; by rewrite <- H.
  - eexists. split; [|by apply after_give_proper].
    econstructor; [|done]. by rewrite <- H.
  - eexists. split; [|by apply after_burn_proper].
    econstructor; [|done|done|]; by rewrite <- H.
  - eexists. split; [|by apply after_give_proper, put_ledger_proper].
    econstructor; [by rewrite <- H|done|done|]. by rewrite <- (eq_ledger _ _ H).
Qed.

Lemma call_body_result_proper s1 s2 cl origin :
  storage_eq s1 s2 → (call_body cl origin s1).1 = (call_body cl origin s2).1.
Proof.
  intros H. destruct cl; cbn [call_body];
    rewrite ?register_artist_run, ?create_collection_run, ?delete_collection_run,
      ?create_nft_run, ?transfer_nft_run, ?burn_nft_run, ?mint_nft_run;
    (destruct (ensure_signed origin) as [who|]; [|done]);
    rewrite <- ?(eq_ledger _ _ H), <- ?(eq_Artists _ _ H);
    pose proof (λ c, collections_proper _ _ H c c eq_refl) as Hc;
    pose proof (λ c, next_item_id_proper _ _ H c c eq_refl) as Hi;
    rewrite <- ?Hc, <- ?Hi, <- ?H; repeat first [done | destr_goal].
Qed.

(** The outcome of a call is a function of the content of the storage: run
    in two stores with the same content, however they represent it, a call gives
    the same result and again stores with the same content. *)
Theorem dispatch_respects_content cl origin s1 s2 :
  storage_eq s1 s2 → outcome_eq (dispatch cl origin s1) (dispatch cl origin s2).
Proof.
  intros H. pose proof (call_body_result_proper _ _ cl origin H) as Hr.
  rewrite <- !dispatch_result in Hr. split; [done|].
  destruct (dispatch cl origin s1) as [r1 s1'] eqn:E1.
  destruct (dispatch cl origin s2) as [r2 s2'] eqn:E2. cbn in *. subst r2.
  apply dispatch_cases in E1 as [(e & -> & ->)|(who & -> & Ho & He)].
  - by apply dispatch_err in E2 as ->.
  - destruct (call_effect_proper _ _ _ _ _ H He) as (s3 & He3 & ?).
    enough (dispatch cl origin s2 = (Ok (), s3)) by congruence.
    apply dispatch_ok. eauto.
Qed.

(** ** Writing the collection once

[create_nft] writes the changed collection in the closure it hands to
[try_mutate], which writes it again. [push_item_once] leaves the first write
out. *)
Definition push_item_once (item_id : ItemId) :
    rust (option Collection * Storage) CallError unit :=
  λ '(collection_option, s),
    match collection_option with
    | None => (Err (PalletError CollectionNotFound), (None, s))
    | Some collection =>
        match bv_try_push collection.(coll_nfts) item_id with
        | None => (Err (PalletError CollectionNotFound), (Some collection, s))
        | Some nfts =>
            (Ok (), (Some (mkCollection collection.(creator)
                             collection.(coll_metadata) nfts), s))
        end
    end.

(** The second write of the collection in [create_nft] is redundant: with
    the closure that does not write the map itself, the update of the collection
    has the same outcome in every store. *)
Theorem nested_collection_write_is_redundant c i s :
  outcome_eq (try_mutate_Collections c (push_item c i) s)
             (try_mutate_Collections c (push_item_once i) s).
Proof.
  unfold try_mutate_Collections. rewrite !sm_try_mutate_run.
  destruct (sm_get (Collections s) c) as [col|]; cbn; [|done].
  destruct (bv_try_push (coll_nfts col) i) as [items|]; cbn; [|done].
  split; [done|]. split; try done. cbn. intros k.
  rewrite !sm_get_insert. by case_decide.
Qed.
End equality.

(** ** Identifiers and deleted collections *)
Section identifiers.
Context {C : Config} {HC : ConfigLaws C}.
Implicit Types (s : Storage) (c : CollectionId) (i : ItemId).

Lemma effect_next_collection s who cl s' :
  call_effect s who cl s' →
  next_collection_id s' =
    match cl with
    | Call_create_collection _ => saturating_add u32_MAX (next_collection_id s) 1
    | _ => next_collection_id s
    end.
Proof. by destruct 1. Qed.

Lemma next_collection_mono s lb s' :
  sys_step s lb s' → next_collection_id s ≤ u32_MAX →
  next_collection_id s ≤ next_collection_id s'.
Proof.
  intros Hs Hle. destruct Hs as [s cl o r s' H|s l e]; [|done].
  apply dispatch_cases in H as [(e & _ & ->)|(who & _ & _ & He)]; [done|].
  rewrite (effect_next_collection _ _ _ _ He). destruct cl; try done.
  unfold saturating_add. lia.
Qed.

Lemma next_collection_run s tr s' :
  sys_run s tr s' → Inv s → next_collection_id s ≤ next_collection_id s'.
Proof.
  induction 1 as [|s lb s1 tr s' Hs Hr IH]; intros HI; [done|].
  etrans; [eapply next_collection_mono; eauto using inv_next_collection|eauto with inv].
Qed.

(** Uses the hypothesis that says what is stored for an item. *)
Ltac stored_item :=
  match goal with Hn : sm_get (Nfts _) _ = Some _ |- _ => rewrite Hn end.

(** A collection that is gone and whose identifier was handed out stays gone in
    a step, its items stay, and none is added. *)
Lemma gone_step s lb s' c :
  sys_step s lb s' → collections s c = None → c < next_collection_id s →
  collections s' c = None ∧
  (∀ i, is_Some (nfts s c i) ↔ is_Some (nfts s' c i)).
Proof.
  intros Hs Hc Hlt. destruct Hs as [s cl o r s' H|s l e]; [|done].
  apply dispatch_cases in H as [(e & _ & ->)|(who & _ & _ & He)]; [done|].
  destruct He; split; try done;
    unfold after_register, after_create_collection, after_delete_collection,
      after_create_nft, after_give, after_burn, add_event; storage_unfold.
  - rewrite sm_get_insert. case_decide; [lia|done].
  - rewrite sm_get_remove. by case_decide.
  - rewrite !sm_get_insert. repeat case_decide; simplify_eq; done.
  - intros i. rewrite sm_get_insert_ne; [done|]. by intros ?; simplify_eq.
  - intros i'. rewrite sm_get_insert. case_decide; [|done]. simplify_eq. by stored_item.
  - rewrite sm_get_insert. case_decide; [congruence|done].
  - intros i'. rewrite sm_get_remove_ne; [done|]. by intros ?; simplify_eq.
  - intros i'. rewrite sm_get_insert. case_decide; [|done]. simplify_eq. by stored_item.
Qed.

Lemma gone_run s tr s' c :
  sys_run s tr s' → Inv s → collections s c = None → c < next_collection_id s →
  collections s' c = None ∧ (∀ i, is_Some (nfts s c i) ↔ is_Some (nfts s' c i)).
Proof.
  induction 1 as [|s lb s1 tr s' Hs Hr IH]; intros HI Hc Hlt; [done|].
  destruct (gone_step _ _ _ _ Hs Hc Hlt) as [Hc1 Hn1].
  pose proof (next_collection_mono _ _ _ Hs (inv_next_collection _ HI)).
  destruct (IH (Inv_step _ _ _ HI Hs) Hc1) as [Hc' Hn']; [lia|].
  split; [done|]. intros i. by rewrite Hn1.
Qed.

(** C17. A collection deleted under an identifier below the counter of collections,
    so below 2^32-1, never comes back, its remaining items remain for ever, nobody
    can burn them, and nothing can be minted under it. A collection deleted under
    2^32-1 is left out: there the counter stays, and the next collection created
    takes its identifier. *)
Theorem deleted_collection_keeps_its_items s tr s' c :
  reachable s → sys_run s tr s' → collections s c = None → c < next_collection_id s →
  collections s' c = None ∧
  (∀ i, is_Some (nfts s c i) ↔ is_Some (nfts s' c i)) ∧
  (∀ i origin, is_ok (dispatch (Call_burn_nft c i) origin s').1 = false) ∧
  (∀ md p origin, is_ok (dispatch (Call_create_nft c md p) origin s').1 = false).
Proof.
  intros HI%Inv_reachable Hr Hc Hlt.
  destruct (gone_run _ _ _ _ Hr HI Hc Hlt) as [Hc' Hn]. split_and!; try done.
  - intros i origin. rewrite dispatch_result. cbn. rewrite burn_nft_run, Hc'.
    by repeat destr_goal.
  - intros md p origin. rewrite dispatch_result. cbn. rewrite create_nft_run, Hc'.
    by repeat destr_goal.
Qed.

(** Creating a collection hands out an identifier under which neither a
    collection nor an item was stored, records the signer as its creator with an
    empty item list, and advances the counter, as long as the counter has not
    reached its maximum. *)
Theorem create_collection_is_fresh md origin s s' :
  reachable s → next_collection_id s < u32_MAX →
  dispatch (Call_create_collection md) origin s = (Ok (), s') →
  let c := next_collection_id s in
  collections s c = None ∧ (∀ i, nfts s c i = None) ∧
  next_collection_id s' = c + 1 ∧ (∀ i, nfts s' c i = None) ∧
  ∃ who col, ensure_signed origin = Ok who ∧ artists s who = true ∧
    collections s' c = Some col ∧ col.(creator) = who ∧
    bv_inner col.(coll_metadata) = md ∧ bv_inner col.(coll_nfts) = [].
Proof.
  intros HI%Inv_reachable Hlt (who & Ho & He)%dispatch_ok c.
  inversion He as [|? bmd Ha Hb| | | | |]; subst.
  assert (Hnone : ∀ i, nfts s c i = None).
  { intros i. destruct (nfts s c i) eqn:Hn; [|done].
    apply (inv_nft_collection_id s HI), allocated_lt in Hn; [|done]. lia. }
  split_and!; try done.
  - destruct (collections s c) eqn:Hc; [|done].
    apply (inv_collection_id s HI), allocated_lt in Hc; [|done]. lia.
  - cbn. rewrite saturating_add_exact; [done|]. lia.
  - exists who, (mkCollection who bmd bv_new). cbn. rewrite bv_inner_new.
    apply bv_try_from_Some in Hb as [Hb _]. split_and!; try done.
    unfold collections. cbn. by rewrite sm_get_insert_eq.
Qed.

(** Minting stores a new listed item owned by the signer under the next
    identifier of the collection, which was free, puts that identifier at the
    end of the collection's list, and advances the counter, as long as the
    counter has not reached its maximum. *)
Theorem create_nft_is_fresh c md p origin s s' :
  reachable s → next_item_id s c < u32_MAX →
  dispatch (Call_create_nft c md p) origin s = (Ok (), s') →
  let i := next_item_id s c in
  nfts s c i = None ∧ next_item_id s' c = i + 1 ∧
  ∃ who bmd col col', ensure_signed origin = Ok who ∧ bv_inner bmd = md ∧
    nfts s' c i = Some (mkNFT who bmd false p) ∧
    collections s c = Some col ∧ collections s' c = Some col' ∧
    col'.(creator) = col.(creator) ∧ col'.(coll_metadata) = col.(coll_metadata) ∧
    bv_inner col'.(coll_nfts) = bv_inner col.(coll_nfts) ++ [i].
Proof.
  intros HI%Inv_reachable Hlt (who & Ho & He)%dispatch_ok i.
  inversion He as [| | |? ? ? col bmd items Hc Hb Hp| | |]; subst.
  apply bv_try_from_Some in Hb as [Hb _]. apply bv_try_push_Some in Hp as [Hp _].
  split_and!.
  - destruct (nfts s c i) eqn:Hn; [|done].
    apply (inv_nft_item_id s HI), allocated_lt in Hn; [|done]. lia.
  - rewrite (effect_next_item _ _ _ _ c He), decide_True by done.
    apply saturating_add_exact. lia.
  - exists who, bmd, col, (mkCollection col.(creator) col.(coll_metadata) items).
    split_and!; try done; unfold after_create_nft, add_event; storage_unfold;
      by rewrite sm_get_insert_eq.
Qed.

(** C18. The counters saturate instead of wrapping, and then identifiers repeat:
    at the maximum, creating a collection replaces the collection stored under
    that identifier, whoever created it, and minting replaces the item stored
    under that identifier, whoever owns it. *)
Theorem saturated_counters_overwrite s s' :
  (∀ md origin, next_collection_id s = u32_MAX →
     dispatch (Call_create_collection md) origin s = (Ok (), s') →
     next_collection_id s' = u32_MAX ∧
     ∃ who col, ensure_signed origin = Ok who ∧
       collections s' u32_MAX = Some col ∧ col.(creator) = who ∧
       bv_inner col.(coll_nfts) = []) ∧
  (∀ c md p origin, next_item_id s c = u32_MAX →
     dispatch (Call_create_nft c md p) origin s = (Ok (), s') →
     next_item_id s' c = u32_MAX ∧
     ∃ who n, ensure_signed origin = Ok who ∧
       nfts s' c u32_MAX = Some n ∧ n.(owner) = who ∧ n.(is_sold) = false).
Proof.
  split.
  - intros md origin Hm (who & Ho & He)%dispatch_ok.
    rewrite (effect_next_collection _ _ _ _ He), Hm. split; [done|].
    inversion He as [|? bmd Ha Hb| | | | |]; subst.
    exists who, (mkCollection who bmd bv_new). cbn. rewrite bv_inner_new.
    split_and!; try done. unfold collections. cbn. by rewrite Hm, sm_get_insert_eq.
  - intros c md p origin Hm (who & Ho & He)%dispatch_ok.
    rewrite (effect_next_item _ _ _ _ c He), decide_True, Hm by done. split; [done|].
    inversion He as [| | |? ? ? col bmd items Hc Hb Hp| | |]; subst.
    exists who, (mkNFT who bmd false p). split_and!; try done.
    unfold nfts. cbn. by rewrite Hm, sm_get_insert_eq.
Qed.

(** C19. Minting is open to every account: with the collection in place, whether
    a mint is accepted and the error it is refused with do not depend on the
    signer, who need be neither the collection's creator nor an artist. *)
Theorem minting_ignores_the_signer c md p o1 o2 w1 w2 s :
  ensure_signed o1 = Ok w1 → ensure_signed o2 = Ok w2 →
  (dispatch (Call_create_nft c md p) o1 s).1 = (dispatch (Call_create_nft c md p) o2 s).1.
Proof.
  intros H1 H2. rewrite !dispatch_result. cbn. rewrite !create_nft_run, H1, H2.
  by repeat destr_goal.
Qed.
End identifiers.

(** ** Examples *)

(** The content of [start] after an insertion and its removal, and [start]. *)
Definition start_again : Storage :=
  remove_Collections 7 (insert_Collections 7 (mkCollection 1 bv_new bv_new) start).

Lemma dispatch_respects_content_witness :
  outcome_eq (dispatch Call_register_artist (Some 1) start_again)
             (dispatch Call_register_artist (Some 1) start).
Proof.
  apply dispatch_respects_content. split; reflexivity.
Defined.

Lemma nested_collection_write_is_redundant_witness :
  outcome_eq (try_mutate_Collections 0 (push_item 0 1) minted)
             (try_mutate_Collections 0 (push_item_once 1) minted).
Proof. apply nested_collection_write_is_redundant. Defined.

(** Alice deletes the collection of [minted]. *)
Definition deleted : Storage := run_calls [(Call_delete_collection 0, Some 1)] minted.

Lemma deleted_reachable : reachable deleted.
Proof.
  unfold deleted, minted, start. rewrite <- run_calls_app. apply reachable_run_calls.
Qed.

(** Bob then buys the item that is left, and Alice creates a collection. *)
Definition later : list (Call * option N) :=
  [(Call_mint_nft 0 0, Some 2); (Call_create_collection [], Some 1)].

Lemma deleted_collection_keeps_its_items_witness :
  bool_decide (is_Some (nfts deleted 0 0)) = true ∧
  collections (run_calls later deleted) 0 = None ∧
  is_ok (dispatch (Call_burn_nft 0 0) (Some 2) (run_calls later deleted)).1 = false.
Proof.
  split; [vm_compute; reflexivity|].
  destruct (deleted_collection_keeps_its_items (C := TestConfig) deleted (trace_calls later deleted)
    (run_calls later deleted) 0) as (Hc & _ & Hb & _).
  - apply deleted_reachable.
  - apply sys_run_calls.
  - destruct (collections deleted 0) eqn:Hc; [|reflexivity]. exfalso.
    assert (Hb : bool_decide (is_Some (collections deleted 0)) = false)
      by (vm_compute; reflexivity).
    rewrite Hc in Hb. vm_compute in Hb. discriminate.
  - vm_compute; reflexivity.
  - split; [exact Hc|apply Hb].
Defined.

Lemma minted_reachable : reachable minted.
Proof. apply reachable_run_calls. Qed.

Lemma create_collection_is_fresh_witness :
  collections minted 1 = None ∧
  next_collection_id (dispatch (Call_create_collection []) (Some 1) minted).2 = 1 + 1.
Proof.
  destruct (create_collection_is_fresh (C := TestConfig) [] (Some 1) minted
    (dispatch (C := TestConfig) (Call_create_collection []) (Some 1) minted).2) as (Hc & _ & Hn & _).
  - apply minted_reachable.
  - vm_compute; reflexivity.
  - apply unit_run_ok. vm_compute; reflexivity.
  - split; [exact Hc|exact Hn].
Defined.

Lemma create_nft_is_fresh_witness :
  nfts minted 0 1 = None ∧
  next_item_id (dispatch (Call_create_nft 0 [] 5) (Some 2) minted).2 0 = 1 + 1.
Proof.
  destruct (create_nft_is_fresh (C := TestConfig) 0 [] 5 (Some 2) minted
    (dispatch (C := TestConfig) (Call_create_nft 0 [] 5) (Some 2) minted).2) as (Hn & Hi & _).
  - apply minted_reachable.
  - vm_compute; reflexivity.
  - apply unit_run_ok. vm_compute; reflexivity.
  - split; [exact Hn|exact Hi].
Defined.

(** [minted] with both counters at their maximum. *)
Definition exhausted : Storage :=
  insert_NextItemId 0 u32_MAX (put_NextCollectionId u32_MAX minted).

Lemma saturated_counters_overwrite_witness :
  next_collection_id (dispatch (Call_create_collection []) (Some 1) exhausted).2 = u32_MAX ∧
  next_item_id (dispatch (Call_create_nft 0 [] 5) (Some 2) exhausted).2 0 = u32_MAX.
Proof.
  split.
  - eapply (saturated_counters_overwrite (C := TestConfig) exhausted _);
      [|apply unit_run_ok]; vm_compute; reflexivity.
  - eapply (saturated_counters_overwrite (C := TestConfig) exhausted _);
      [|apply unit_run_ok]; vm_compute; reflexivity.
Defined.

Lemma minting_ignores_the_signer_witness :
  (dispatch (Call_create_nft 0 [] 5) (Some 1) minted).1 =
  (dispatch (Call_create_nft 0 [] 5) (Some 3) minted).1.
Proof. apply (minting_ignores_the_signer (C := TestConfig) 0 [] 5 (Some 1) (Some 3) 1 3); reflexivity. Defined.
