(* ===== verification/NftProgress.v ===== *)
(** * Money and room

Two global accounts of the pallet: its calls only move money that is already
there, and a collection takes new items exactly as long as it holds fewer than
256. *)
From S2P Require Import Prelude Frame NftPallet NftSpec FrameModel NftInvariant NftMarket NftRules.

Local Open Scope N_scope.

(** ** Money *)
Section money.
Context {C : Config} {HC : ConfigLaws C}.
Implicit Types (s : Storage) (accounts : list AccountId).

(** What a list of accounts holds together. *)
Definition holdings s accounts : N := foldr N.add 0 (balance s <$> accounts).

#[local] Instance holdings_perm s : Proper ((≡ₚ) ==> (=)) (holdings s).
Proof. unfold holdings. induction 1; cbn; lia. Qed.

Lemma holdings_ext s s' accounts :
  (∀ a, a ∈ accounts → balance s' a = balance s a) → holdings s' accounts = holdings s accounts.
Proof.
  unfold holdings. induction accounts as [|a l IH]; cbn; [done|]. intros H.
  rewrite (H a (list_elem_of_here _ _)), IH; [done|].
  intros b Hb. apply H. by right.
Qed.

(** Two different members of a list without repetition come first in some
    arrangement of it. *)
Lemma two_members accounts a b :
  NoDup accounts → a ∈ accounts → b ∈ accounts → a ≠ b →
  ∃ rest, accounts ≡ₚ (a :: b :: rest) ∧ (a ∉ rest) ∧ (b ∉ rest).
Proof.
  intros Hd (l & Hl)%elem_of_Permutation Hb Hne. rewrite Hl in Hb, Hd.
  apply elem_of_cons in Hb as [Hb|(l' & Hl')%elem_of_Permutation]; [congruence|].
  exists l'. rewrite Hl' in Hl, Hd. split; [done|].
  apply NoDup_cons in Hd as [Ha Hd]. apply NoDup_cons in Hd as [Hb _].
  split; [|done]. intros H. apply Ha. by right.
Qed.

(** A transfer between members of the list keeps their holdings. *)
Lemma transfer_keeps_holdings s s' a b v accounts :
  transfer a b v KeepAlive s.(ledger) = (Ok (), s'.(ledger)) → NoDup accounts →
  (∀ x, balance s' x ≠ balance s x → x ∈ accounts) →
  holdings s' accounts = holdings s accounts.
Proof.
  intros Ht Hd Hin. unfold balance in *.
  destruct (decide (a = b)) as [->|Hne].
  { apply holdings_ext. intros x _. exact (transfer_self _ _ _ _ _ x Ht). }
  destruct (transfer_moves _ _ _ _ _ Ht Hne) as (Hle & Ha & Hb).
  destruct (decide (v = 0)) as [->|Hv].
  { apply holdings_ext. intros x _. unfold balance.
    destruct (decide (x = a)) as [->|Hxa]; [lia|].
    destruct (decide (x = b)) as [->|Hxb]; [lia|].
    exact (transfer_others _ _ _ _ _ _ x Ht Hxa Hxb). }
  destruct (two_members accounts a b) as (rest & -> & Har & Hbr); [done| | |done|].
  - apply Hin. lia.
  - apply Hin. lia.
  - change (balance s' a + (balance s' b + holdings s' rest) =
            balance s a + (balance s b + holdings s rest)).
    rewrite (holdings_ext s s' rest).
    + unfold balance. lia.
    + intros x Hx. apply (transfer_others _ _ _ _ _ _ x Ht); congruence.
Qed.

(** C12. Calls create and destroy no money: among any accounts that include
    all whose balance a call changed, the call leaves the same total. *)
Theorem dispatch_conserves_money cl origin s r s' accounts :
  dispatch cl origin s = (r, s') → NoDup accounts →
  (∀ a, balance s' a ≠ balance s a → a ∈ accounts) →
  holdings s' accounts = holdings s accounts.
Proof.
  intros [(e & _ & ->)|(who & _ & _ & He)]%dispatch_cases Hd Hin; [done|].
  destruct He; try (by apply holdings_ext);
    match goal with Ht : transfer _ _ _ _ _ = _ |- _ =>
      by eapply transfer_keeps_holdings; [exact Ht|..]
    end.
Qed.
End money.

(** ** Room in a collection *)
Section room.
Context {C : Config} {HC : ConfigLaws C}.
Implicit Types (s : Storage) (c : CollectionId).

(** A request to mint: who asks, with what description and price. *)
Record mint_request := mkMint {
  mr_origin : RuntimeOrigin;
  mr_metadata : list u8;
  mr_price : Balance;
}.

(** A request that is signed and whose description fits. *)
Definition proper_request (m : mint_request) : bool :=
  is_ok (ensure_signed (mr_origin m)) && (length (mr_metadata m) <=? 256)%nat.

(** Serves the requests in turn, and tells which were accepted. *)
Fixpoint serve c (ms : list mint_request) s : list bool * Storage :=
  match ms with
  | [] => ([], s)
  | m :: ms =>
      let '(r, s1) := dispatch (Call_create_nft c (mr_metadata m) (mr_price m)) (mr_origin m) s in
      let '(rs, s2) := serve c ms s1 in (is_ok r :: rs, s2)
  end.

Definition room s c : option nat :=
  (λ col, 256 - length (bv_inner col.(coll_nfts)))%nat <$> collections s c.

(** A request is served as long as there is room, and takes one place. *)
Lemma serve_one c m s n :
  proper_request m = true → room s c = Some n →
  let '(r, s') := dispatch (Call_create_nft c (mr_metadata m) (mr_price m)) (mr_origin m) s in
  is_ok r = (0 <? n)%nat ∧ room s' c = Some (n - 1)%nat.
Proof.
  unfold proper_request. intros [Hs Hm]%andb_true_iff Hn.
  destruct (dispatch _ _ s) as [r s'] eqn:Hd. cbv beta iota.
  pose proof (dispatch_accepts_iff_allowed (Call_create_nft c (mr_metadata m) (mr_price m))
    (mr_origin m) s) as Hacc.
  destruct (ensure_signed _) as [who|]; [|done]. rewrite Hd in Hacc. cbn in Hacc.
  unfold room in *. destruct (collections s c) as [col|] eqn:Hc; [|done].
  injection Hn as Hn. rewrite Hm in Hacc. cbn in Hacc.
  pose proof (bv_inner_bound (coll_nfts col)) as Hb.
  apply dispatch_cases in Hd as [(e & -> & ->)|(w & -> & _ & He)]; cbn in Hacc.
  - rewrite Hc. symmetry in Hacc. apply Nat.leb_gt in Hacc. replace n with 0%nat by lia.
    split; [done|apply (f_equal Some); lia].
  - symmetry in Hacc. apply Nat.leb_le in Hacc.
    inversion He as [| | |? ? ? col' bmd items Hc' Hmd Hpush| | |]; subst.
    rewrite Hc in Hc'. injection Hc' as <-.
    unfold after_create_nft, add_event. storage_unfold. rewrite sm_get_insert_eq. cbn.
    apply bv_try_push_Some in Hpush as [Hpush _]. rewrite Hpush, length_app. cbn.
    split; [destruct (256 - length (bv_inner (coll_nfts col)))%nat eqn:?; [lia|done]|apply (f_equal Some); lia].
Qed.
(** C16. A collection always takes new items up to its capacity, and no more:
    however many proper requests come, from whomever, the first ones are all
    accepted until the collection holds 256 items, and all later ones are
    refused. *)
Theorem collection_serves_until_full c ms s n :
  room s c = Some n → Forall (λ m, proper_request m = true) ms →
  (serve c ms s).1 = replicate (n `min` length ms) true ++ replicate (length ms - n) false ∧
  room (serve c ms s).2 c = Some (n - length ms)%nat.
Proof.
  intros Hn Hms. revert s n Hn. induction Hms as [|m ms Hm Hms IH]; intros s n Hn; cbn.
  { rewrite Nat.min_0_r, Nat.sub_0_r. by split. }
  pose proof (serve_one c m s n Hm Hn) as H1.
  destruct (dispatch _ _ s) as [r s1]. destruct H1 as [Hr Hn1].
  specialize (IH s1 _ Hn1). destruct (serve c ms s1) as [rs s2]. cbn in *.
  destruct IH as [-> ->]. rewrite Hr. destruct n as [|n]; cbn.
  - split; [|done]. rewrite Nat.sub_0_r. done.
  - by rewrite Nat.sub_0_r.
Qed.
End room.

(** ** The accounts at work *)

(** Bob's purchase touches two accounts. *)
Lemma bought_ledger :
  bool_decide (ledger bought =@{gmap N N}
    <[1 := 4700]> (<[2 := 4300]> (ledger minted))) = true.
Proof. vm_compute. reflexivity. Qed.

Lemma dispatch_conserves_money_witness :
  holdings bought [1; 2; 3; 1000] = holdings minted [1; 2; 3; 1000] ∧
  holdings minted [1; 2; 3; 1000] = 15000.
Proof.
  split; [|vm_compute; reflexivity].
  apply (dispatch_conserves_money (C := TestConfig) (Call_mint_nft 0 0) (Some 2) minted (Ok ())
    bought [1; 2; 3; 1000] bought_ok).
  - apply (bool_decide_unpack _). vm_compute. reflexivity.
  - pose proof bought_ledger as Hl. apply bool_decide_eq_true in Hl.
    intros a Ha. destruct (decide (a = 1)) as [->|H1]; [by left|].
    destruct (decide (a = 2)) as [->|H2]; [by right; left|]. exfalso. apply Ha.
    unfold balance. rewrite Hl. cbn. unfold Ledgers.free.
    by rewrite !lookup_insert_ne by done.
Defined.

(** Three hundred requests in the collection of [minted], which holds one item. *)
Definition rush : list mint_request := replicate 300 (mkMint (C := TestConfig) (Some 2) [] 1).

Lemma collection_serves_until_full_witness :
  (serve 0 rush minted).1 = replicate 255 true ++ replicate 45 false.
Proof.
  apply (collection_serves_until_full (C := TestConfig) 0 rush minted 255).
  - apply (bool_decide_eq_true_1 _). vm_compute. reflexivity.
  - apply Forall_replicate. reflexivity.
Defined.
