(* ===== verification/NftOrder.v ===== *)
(** * The order of calls

What a call reads and writes of the store, and that nothing else matters to it or
changes by it. Calls that share nothing may run in any order: the block author who
orders them has no influence on what becomes of them. *)
From S2P Require Import Prelude Frame NftPallet NftSpec FrameModel.

Local Open Scope N_scope.

Section order.
Context {C : Config} {HC : ConfigLaws C}.
Implicit Types (s t : Storage) (o : RuntimeOrigin) (cl : Call).

(** ** Footprints *)

(** The parts of the store. *)
Inductive cell :=
| CArtist (a : AccountId)
| CCollection (c : CollectionId)
| CItem (c : CollectionId) (i : ItemId)
| CNextItem (c : CollectionId)
| CNextCollection
| CLedger.

(** Two stores agree on a part. *)
Definition same_cell (x : cell) s t : Prop :=
  match x with
  | CArtist a => sm_get s.(Artists) a = sm_get t.(Artists) a
  | CCollection c => collections s c = collections t c
  | CItem c i => nfts s c i = nfts t c i
  | CNextItem c => sm_get s.(NextItemId) c = sm_get t.(NextItemId) c
  | CNextCollection => s.(NextCollectionId) = t.(NextCollectionId)
  | CLedger => s.(ledger) = t.(ledger)
  end.

(** The parts a call may read or write, whatever the store. A new collection gets an
    identifier that depends on the store, so its creation touches all of them, and a
    new item likewise all items of its collection. *)
Definition touches o cl (x : cell) : bool :=
  match ensure_signed o with
  | Err _ => false
  | Ok who =>
      match cl, x with
      | Call_register_artist, CArtist a => bool_decide (a = who)
      | Call_register_artist, CLedger => true
      | Call_create_collection _, CArtist a => bool_decide (a = who)
      | Call_create_collection _, CCollection _ => true
      | Call_create_collection _, CNextCollection => true
      | Call_delete_collection c, CCollection c' => c =? c'
      | Call_create_nft c _ _, CCollection c' => c =? c'
      | Call_create_nft c _ _, CNextItem c' => c =? c'
      | Call_create_nft c _ _, CItem c' _ => c =? c'
      | Call_transfer_nft c i _, CItem c' i' => (c =? c') && (i =? i')
      | Call_burn_nft c i, CItem c' i' => (c =? c') && (i =? i')
      | Call_burn_nft c _, CCollection c' => c =? c'
      | Call_mint_nft c i, CItem c' i' => (c =? c') && (i =? i')
      | Call_mint_nft _ _, CLedger => true
      | _, _ => false
      end
  end.

(** A transaction of a block, and two that share no part of the store. *)
Definition tx : Type := RuntimeOrigin * Call.

Definition independent (a b : tx) : Prop :=
  ∀ x, touches a.1 a.2 x && touches b.1 b.2 x = false.

Lemma independent_sym a b : independent a b → independent b a.
Proof. intros H x. by rewrite andb_comm. Qed.

(** ** Calls and their footprints *)

#[local] Instance same_cell_equivalence x : Equivalence (same_cell x).
Proof. split; destruct x; cbn; intros ?; intros; congruence. Qed.

Lemma dispatch_run cl o s :
  dispatch cl o s =
  match call_body cl o s with
  | (Ok x, s') => (Ok x, s')
  | (Err e, _) => (Err e, s)
  end.
Proof.
  unfold dispatch. destruct (call_body cl o s) as [[x|e] s'] eqn:E;
    [by apply with_storage_layer_ok|by eapply with_storage_layer_err].
Qed.

(** A call changes nothing outside its footprint. *)
Lemma dispatch_frame cl o s x :
  touches o cl x = false → same_cell x (dispatch cl o s).2 s.
Proof.
  destruct (dispatch cl o s) as [r s'] eqn:Hd. cbn [snd]. unfold touches.
  apply dispatch_cases in Hd as [(e & _ & ->)|(who & _ & -> & He)]; [done|].
  destruct He; destruct x; cbn; intros Ht; try done;
    unfold after_register, after_create_collection, after_delete_collection,
      after_create_nft, after_give, after_burn, add_event; storage_unfold;
    rewrite ?sm_get_insert, ?sm_get_remove; repeat case_decide; simplify_eq;
    rewrite ?N.eqb_refl, ?bool_decide_true in Ht by done; done.
Qed.

(** Two stores agree on the footprint of a call. *)
Definition agree o cl s t : Prop := ∀ x, touches o cl x = true → same_cell x s t.

(** Two runs of a call: the same result, the same values in the footprint, and the
    same events. *)
Definition same_run o cl s t : Prop :=
  (dispatch cl o s).1 = (dispatch cl o t).1 ∧
  agree o cl (dispatch cl o s).2 (dispatch cl o t).2 ∧
  ∃ es, events (dispatch cl o s).2 = events s ++ es ∧ events (dispatch cl o t).2 = events t ++ es.

Lemma same_run_err o cl s t e :
  agree o cl s t → dispatch cl o s = (Err e, s) → dispatch cl o t = (Err e, t) →
  same_run o cl s t.
Proof.
  intros H Hs Ht. unfold same_run. rewrite Hs, Ht. split_and!; [done..|].
  exists []. by rewrite !app_nil_r.
Qed.

Lemma same_run_ok o cl s t s' t' es :
  dispatch cl o s = (Ok (), s') → dispatch cl o t = (Ok (), t') →
  events s' = events s ++ es → events t' = events t ++ es → agree o cl s' t' →
  same_run o cl s t.
Proof. intros Hs Ht ? ? ?. unfold same_run. rewrite Hs, Ht. eauto. Qed.
#[local] Hint Resolve same_run_err : core.
End order.

(** ** A call depends on nothing outside its footprint *)
Section local.
Context {C : Config} {HC : ConfigLaws C} (o : RuntimeOrigin) (who : AccountId)
  (Ho : ensure_signed o = Ok who) (s t : Storage).
#[local] Hint Resolve same_run_err : core.

(** The runs of a call in both stores, from the equation of its body. *)
Ltac both_runs cl run Es Et :=
  pose proof (dispatch_run cl o s) as Es; pose proof (dispatch_run cl o t) as Et;
  cbn [call_body] in Es, Et; rewrite run, Ho in Es, Et.

(** The stores agree on a part of the footprint. *)
Ltac part H x Hx :=
  pose proof (H x ltac:(unfold touches; rewrite Ho; cbn;
    rewrite ?N.eqb_refl, ?bool_decide_true by done; done)) as Hx; cbn in Hx.

(** The values of the footprint after both runs. *)
Ltac same_cells H :=
  let x := fresh "x" in let Hx := fresh "Hx" in
  intros x Hx; pose proof (H x Hx) as Hsame; unfold touches in Hx; rewrite Ho in Hx;
  destruct x; try discriminate Hx; cbn [same_cell] in *;
  unfold after_register, after_create_collection, after_delete_collection,
    after_create_nft, after_give, after_burn, add_event;
  storage_unfold; rewrite ?sm_get_insert, ?sm_get_remove; repeat case_decide; congruence.

Ltac both_succeed H := eapply same_run_ok; [done..|]; same_cells H.

Lemma register_artist_local :
  agree o Call_register_artist s t → same_run o Call_register_artist s t.
Proof using HC Ho.
  intros H. both_runs Call_register_artist register_artist_run Es Et.
  part H (CArtist who) Ha. part H CLedger Hl.
  rewrite sm_contains_key_get in Es, Et. rewrite <- Ha, <- Hl in Et.
  destruct (bool_decide _); [eauto|].
  destruct (transfer _ _ _ _ _) as [[[]|e] l] eqn:Etr; [|eauto]. both_succeed H.
Qed.

Lemma create_collection_local md :
  agree o (Call_create_collection md) s t → same_run o (Call_create_collection md) s t.
Proof using HC Ho.
  intros H. both_runs (Call_create_collection md) create_collection_run Es Et.
  part H (CArtist who) Ha. part H CNextCollection Hn.
  unfold artists in Es, Et. rewrite <- Ha in Et.
  destruct (default false _); [|eauto]. destruct (bv_try_from md) as [bmd|]; [|eauto].
  eapply (same_run_ok _ _ _ _ _ _ [CollectionCreated (next_collection_id s) who]); [done..| |].
  - unfold next_collection_id. by rewrite Hn.
  - same_cells H.
Qed.

Lemma delete_collection_local c :
  agree o (Call_delete_collection c) s t → same_run o (Call_delete_collection c) s t.
Proof using HC Ho.
  intros H. both_runs (Call_delete_collection c) delete_collection_run Es Et.
  part H (CCollection c) Hc. rewrite <- Hc in Et.
  destruct (collections s c) as [col|]; [|eauto]. destruct (bool_decide _); [|eauto].
  both_succeed H.
Qed.

Lemma create_nft_local c md p :
  agree o (Call_create_nft c md p) s t → same_run o (Call_create_nft c md p) s t.
Proof using HC Ho.
  intros H. both_runs (Call_create_nft c md p) create_nft_run Es Et.
  part H (CCollection c) Hc. part H (CNextItem c) Hi.
  assert (Hn : next_item_id s c = next_item_id t c) by (unfold next_item_id; by rewrite Hi).
  rewrite <- Hc, <- Hn in Et.
  destruct (collections s c) as [col|]; [|eauto]. destruct (bv_try_from md) as [bmd|]; [|eauto].
  destruct (bv_try_push _ _) as [items|]; [|eauto].
  eapply (same_run_ok _ _ _ _ _ _ [NFTMinted c (next_item_id s c) who]); [done..| |].
  - by rewrite Hn.
  - same_cells H.
Qed.

Lemma transfer_nft_local c i to :
  agree o (Call_transfer_nft c i to) s t → same_run o (Call_transfer_nft c i to) s t.
Proof using HC Ho.
  intros H. both_runs (Call_transfer_nft c i to) transfer_nft_run Es Et.
  part H (CItem c i) Hi. rewrite <- Hi in Et.
  destruct (nfts s c i) as [n|]; [|eauto]. destruct (bool_decide _); [|eauto]. both_succeed H.
Qed.

Lemma burn_nft_local c i :
  agree o (Call_burn_nft c i) s t → same_run o (Call_burn_nft c i) s t.
Proof using HC Ho.
  intros H. both_runs (Call_burn_nft c i) burn_nft_run Es Et.
  part H (CItem c i) Hi. part H (CCollection c) Hc. rewrite <- Hi, <- Hc in Et.
  destruct (nfts s c i) as [n|]; [|eauto]. destruct (bool_decide _); [|eauto].
  destruct (is_sold n); [eauto|]. destruct (collections s c) as [col|]; [|eauto].
  both_succeed H.
Qed.

Lemma mint_nft_local c i :
  agree o (Call_mint_nft c i) s t → same_run o (Call_mint_nft c i) s t.
Proof using HC Ho.
  intros H. both_runs (Call_mint_nft c i) mint_nft_run Es Et.
  part H (CItem c i) Hi. part H CLedger Hl. rewrite <- Hi, <- Hl in Et.
  destruct (nfts s c i) as [n|]; [|eauto]. destruct (is_sold n); [eauto|].
  destruct (bool_decide _); [eauto|].
  destruct (transfer _ _ _ _ _) as [[[]|e] l] eqn:Etr; [|eauto]. both_succeed H.
Qed.
End local.

Section blocks.
Context {C : Config} {HC : ConfigLaws C}.
#[local] Existing Instance same_cell_equivalence.
Implicit Types (s t : Storage) (o : RuntimeOrigin) (cl : Call).

Lemma dispatch_local cl o s t : agree o cl s t → same_run o cl s t.
Proof.
  intros H. destruct (ensure_signed o) as [who|e] eqn:Ho.
  - destruct cl; eauto using register_artist_local, create_collection_local,
      delete_collection_local, create_nft_local, transfer_nft_local, burn_nft_local,
      mint_nft_local.
  - apply (same_run_err _ _ _ _ (FrameError e) H); rewrite dispatch_run;
      pose proof (call_body_run cl o) as Hr; rewrite Ho in Hr; by rewrite Hr.
Qed.

(** ** Stores with the same content *)

(** The same values in every part, and the same events, in whatever order. *)
Definition same_content s t : Prop := (∀ x, same_cell x s t) ∧ events s ≡ₚ events t.

#[export] Instance same_content_equivalence : Equivalence same_content.
Proof.
  split.
  - intros s. split; [|done]. intros x. reflexivity.
  - intros s t [H He]. split; [|done]. intros x. symmetry. apply H.
  - intros s t u [H He] [H' He']. split; [|by etrans].
    intros x. etrans; [apply H|apply H'].
Qed.

Lemma dispatch_same_content cl o s t :
  same_content s t →
  (dispatch cl o s).1 = (dispatch cl o t).1 ∧
  same_content (dispatch cl o s).2 (dispatch cl o t).2.
Proof.
  intros [H He]. destruct (dispatch_local cl o s t (λ x _, H x)) as (Hr & Ha & es & Es & Et).
  split; [done|]. split; [|by rewrite Es, Et, He].
  intros x. destruct (touches o cl x) eqn:Hx; [by apply Ha|].
  rewrite (dispatch_frame cl o s x Hx), (dispatch_frame cl o t x Hx). apply H.
Qed.

(** ** Two calls in either order *)

(** A call that shares nothing with another does the same before and after it. *)
Lemma independent_agree a b s :
  independent a b → agree a.1 a.2 s (dispatch b.2 b.1 s).2.
Proof.
  intros Hi x Hx. symmetry. apply dispatch_frame. specialize (Hi x). by rewrite Hx in Hi.
Qed.

Lemma independent_commute a b s :
  independent a b →
  let s1 := (dispatch a.2 a.1 s).2 in let s2 := (dispatch b.2 b.1 s).2 in
  (dispatch a.2 a.1 s).1 = (dispatch a.2 a.1 s2).1 ∧
  (dispatch b.2 b.1 s).1 = (dispatch b.2 b.1 s1).1 ∧
  same_content (dispatch b.2 b.1 s1).2 (dispatch a.2 a.1 s2).2.
Proof.
  intros Hi s1 s2. pose proof (independent_sym _ _ Hi) as Hi'.
  destruct (dispatch_local _ _ _ _ (independent_agree a b s Hi)) as (Ra & Aa & ea & Ea & Ea').
  destruct (dispatch_local _ _ _ _ (independent_agree b a s Hi')) as (Rb & Ab & eb & Eb & Eb').
  split_and!; [done..|]. split.
  - intros x. specialize (Hi x). destruct (touches a.1 a.2 x) eqn:Hxa.
    + rewrite (dispatch_frame b.2 b.1 s1 x Hi). by apply Aa.
    + rewrite (dispatch_frame a.2 a.1 s2 x Hxa). destruct (touches b.1 b.2 x) eqn:Hxb.
      * symmetry. by apply Ab.
      * unfold s1, s2. by rewrite !dispatch_frame.
  - subst s1 s2. rewrite Eb', Ea', Ea, Eb, <- !app_assoc. by rewrite (Permutation_app_comm ea eb).
Qed.

(** ** Blocks *)

(** The transactions of a block in their order, each with its result. *)
Fixpoint run_block (txs : list tx) (s : Storage) : list (tx * result unit CallError) * Storage :=
  match txs with
  | [] => ([], s)
  | a :: txs =>
      let '(r, s1) := dispatch a.2 a.1 s in
      let '(rs, s') := run_block txs s1 in
      ((a, r) :: rs, s')
  end.

(** One exchange of two neighbours that share nothing. *)
Inductive exchange : list tx → list tx → Prop :=
| exchange_here a b txs : independent a b → exchange (a :: b :: txs) (b :: a :: txs)
| exchange_later a txs txs' : exchange txs txs' → exchange (a :: txs) (a :: txs').

(** Any number of exchanges. *)
Definition reordered : list tx → list tx → Prop := rtc exchange.

(** Two blocks have the same outcome: each transaction the same result, and the
    stores the same content. *)
Definition same_outcome (p q : list (tx * result unit CallError) * Storage) : Prop :=
  p.1 ≡ₚ q.1 ∧ same_content p.2 q.2.

Lemma run_block_cons a txs s :
  run_block (a :: txs) s =
  ((a, (dispatch a.2 a.1 s).1) :: (run_block txs (dispatch a.2 a.1 s).2).1,
   (run_block txs (dispatch a.2 a.1 s).2).2).
Proof. cbn. destruct (dispatch a.2 a.1 s). by destruct (run_block txs _). Qed.

Lemma run_block_same_content txs s t :
  same_content s t →
  (run_block txs s).1 = (run_block txs t).1 ∧
  same_content (run_block txs s).2 (run_block txs t).2.
Proof.
  revert s t. induction txs as [|a txs IH]; intros s t H; [done|].
  rewrite !run_block_cons. cbn [fst snd].
  destruct (dispatch_same_content a.2 a.1 s t H) as [Hr Hc].
  destruct (IH _ _ Hc) as [Hrs Hcs]. by rewrite Hr, Hrs.
Qed.

Lemma exchange_same_outcome txs txs' s :
  exchange txs txs' → same_outcome (run_block txs s) (run_block txs' s).
Proof.
  intros Hx. revert s. induction Hx as [a b txs Hi|a txs txs' _ IH]; intros s.
  - destruct (independent_commute a b s Hi) as (Ra & Rb & Hc).
    destruct (run_block_same_content txs _ _ Hc) as [Hrs Hcs].
    rewrite !run_block_cons. split; cbn [fst snd]; [|exact Hcs].
    rewrite <- Ra, <- Rb, Hrs. apply Permutation_swap.
  - rewrite !run_block_cons. destruct (IH (dispatch a.2 a.1 s).2) as [Hp Hc].
    split; cbn [fst snd]; [by rewrite Hp|done].
Qed.

(** Transactions that share nothing can be brought into any order by exchanges. *)
Lemma permutation_reordered txs txs' :
  txs ≡ₚ txs' → NoDup txs →
  (∀ a b, a ∈ txs → b ∈ txs → a ≠ b → independent a b) → reordered txs txs'.
Proof.
  induction 1 as [|a txs txs' Hp IH|a b txs|txs1 txs2 txs3 Hp1 IH1 _ IH2]; intros Hd Hi.
  - done.
  - apply NoDup_cons in Hd as [_ Hd].
    assert (Hr : reordered txs txs') by (apply IH; [done|]; intros; apply Hi; by try right).
    clear -Hr. induction Hr as [|? ? ? Hx _ IH]; [done|].
    eapply rtc_l; [by apply exchange_later|done].
  - apply rtc_once, exchange_here, Hi; [by left|by right; left|].
    intros ->. apply NoDup_cons in Hd as [Hn _]. apply Hn. by left.
  - etrans; [by apply IH1|]. apply IH2; [by rewrite <- Hp1|]. intros a b. rewrite <- Hp1. apply Hi.
Qed.

(** C5. The order of calls that share nothing does not matter: a block whose
    transactions are exchanged, neighbour by neighbour, with others that touch no
    part of the store they touch, gives each transaction the result it had, leaves
    every artist, collection, item, counter and balance the same, and deposits the
    same events in some order. A block of distinct transactions that pairwise share
    nothing has this outcome in every order. *)
Theorem order_of_independent_calls_is_irrelevant txs txs' s :
  (reordered txs txs' → same_outcome (run_block txs s) (run_block txs' s)) ∧
  (txs ≡ₚ txs' → NoDup txs →
   (∀ a b, a ∈ txs → b ∈ txs → a ≠ b → independent a b) →
   same_outcome (run_block txs s) (run_block txs' s)).
Proof.
  assert (H : reordered txs txs' → same_outcome (run_block txs s) (run_block txs' s)).
  { induction 1 as [|x y z Hx _ [Hp Hc]]; [done|].
    destruct (exchange_same_outcome _ _ s Hx) as [Hp' Hc']. split; by etrans. }
  split; [done|]. intros Hp Hd Hi. by apply H, permutation_reordered.
Qed.
End blocks.

(** ** At work *)

(** Account 2 buys the item, its creator deletes the collection, and account 3 tries
    to put an item in a collection that does not exist. *)
Definition some_block : list (tx (C := TestConfig)) :=
  [(Some 2, Call_mint_nft 0 0); (Some 1, Call_delete_collection 0);
   (Some 3, Call_create_nft 1 [] 5)].

(** Two buyers of one item do touch the same: the first gets it. *)
Definition two_buyers (a b : N) : list (tx (C := TestConfig)) :=
  [(Some a, Call_mint_nft 0 0); (Some b, Call_mint_nft 0 0)].

Example first_buyer_wins :
  owner <$> nfts (run_block (two_buyers 2 3) minted).2 0 0 = Some 2 ∧
  owner <$> nfts (run_block (two_buyers 3 2) minted).2 0 0 = Some 3.
Proof. split; vm_compute; reflexivity. Qed.

Lemma order_of_independent_calls_is_irrelevant_witness :
  same_outcome (run_block some_block minted) (run_block (reverse some_block) minted) ∧
  map (λ p, is_ok p.2) (run_block some_block minted).1 = [true; true; false].
Proof.
  split; [|vm_compute; reflexivity].
  apply (order_of_independent_calls_is_irrelevant (C := TestConfig) some_block
    (reverse some_block) minted).
  - symmetry. apply reverse_Permutation.
  - repeat (apply NoDup_cons; split; [rewrite ?list_elem_of_In; cbn; intuition discriminate|]).
    apply NoDup_nil. exact I.
  - intros a b Ha Hb Hne. rewrite list_elem_of_In in Ha, Hb. cbn in Ha, Hb.
    repeat match goal with H : _ ∨ _ |- _ => destruct H as [<-|H] end; try done;
      intros x; destruct x; cbn; rewrite ?andb_false_r; try done;
      destruct c as [|[]]; cbn; by rewrite ?andb_false_r.
Defined.
