(* ===== verification/NftShop.v ===== *)
(** * The marketplace the pallet implements

An abstract marketplace: shops that hold their items themselves, one after the
other, and the loose items of shops that closed. The pallet keeps the items apart
from the lists of their identifiers, in two maps that every call has to keep in
step; this file shows that seen through [shops] it is that marketplace, call by
call and over whole runs. *)
From S2P Require Import Prelude Frame NftPallet NftSpec FrameModel NftInvariant NftMarket NftRules NftLimits NftOrder.

Local Open Scope N_scope.

(** ** The marketplace *)
Section market.
Context {C : Config}.

Record article := mkArticle {
  a_owner : AccountId;
  a_text : list u8;
  a_sold : bool;
  a_price : Balance;
}.

Record shop := mkShop {
  sh_keeper : AccountId;
  sh_text : list u8;
  sh_stock : list (ItemId * article);
}.

Record market := mkMarket {
  m_artist : AccountId → bool;
  m_shop : CollectionId → option shop;
  m_loose : CollectionId → ItemId → option article;
  m_next_shop : CollectionId;
  m_next_item : CollectionId → ItemId;
  m_money : Ledger;
}.

(** The first article under an identifier. *)
Fixpoint article_in (l : list (ItemId * article)) (i : ItemId) : option article :=
  match l with
  | [] => None
  | (j, a) :: l => if j =? i then Some a else article_in l i
  end.

Definition find_article (m : market) (c : CollectionId) (i : ItemId) : option article :=
  match m.(m_shop) c with
  | Some sh => article_in sh.(sh_stock) i
  | None => m.(m_loose) c i
  end.

(** ** What one can do on it *)

Definition put_shop (c : CollectionId) (sh : option shop) (m : market) : market :=
  mkMarket m.(m_artist) (λ c', if c' =? c then sh else m.(m_shop) c') m.(m_loose)
    m.(m_next_shop) m.(m_next_item) m.(m_money).
Definition put_money (l : Ledger) (m : market) : market :=
  mkMarket m.(m_artist) m.(m_shop) m.(m_loose) m.(m_next_shop) m.(m_next_item) l.

(** An article changes hands: sold, wherever it is. *)
Definition hand_over (c : CollectionId) (i : ItemId) (to : AccountId) (m : market) : market :=
  let sold a := mkArticle to a.(a_text) true a.(a_price) in
  mkMarket m.(m_artist)
    (λ c', if c' =? c
      then (λ sh, mkShop sh.(sh_keeper) sh.(sh_text)
             (map (λ p, if p.1 =? i then (p.1, sold p.2) else p) sh.(sh_stock))) <$> m.(m_shop) c'
      else m.(m_shop) c')
    (λ c' i', if (c' =? c) && (i' =? i) then sold <$> m.(m_loose) c' i' else m.(m_loose) c' i')
    m.(m_next_shop) m.(m_next_item) m.(m_money).

(** A call on the marketplace; nothing if it is refused. *)
Definition market_call (who : AccountId) (cl : Call) (m : market) : option market :=
  match cl with
  | Call_register_artist =>
      if m.(m_artist) who then None else
      match transfer who pallet_account registration_fee KeepAlive m.(m_money) with
      | (Ok _, l) =>
          Some (mkMarket (λ a, if bool_decide (a = who) then true else m.(m_artist) a)
            m.(m_shop) m.(m_loose) m.(m_next_shop) m.(m_next_item) l)
      | (Err _, _) => None
      end
  | Call_create_collection text =>
      if m.(m_artist) who && (length text <=? 256)%nat then
        let c := m.(m_next_shop) in
        Some (mkMarket m.(m_artist)
          (λ c', if c' =? c then Some (mkShop who text []) else m.(m_shop) c')
          m.(m_loose) (saturating_add u32_MAX c 1) m.(m_next_item) m.(m_money))
      else None
  | Call_delete_collection c =>
      sh ← m.(m_shop) c;
      if bool_decide (sh.(sh_keeper) = who) then
        Some (mkMarket m.(m_artist) (λ c', if c' =? c then None else m.(m_shop) c')
          (λ c' i, if c' =? c then article_in sh.(sh_stock) i else m.(m_loose) c' i)
          m.(m_next_shop) m.(m_next_item) m.(m_money))
      else None
  | Call_create_nft c text p =>
      sh ← m.(m_shop) c;
      if (length text <=? 256)%nat && (length sh.(sh_stock) <? 256)%nat then
        let i := m.(m_next_item) c in
        Some (mkMarket m.(m_artist)
          (λ c', if c' =? c
             then Some (mkShop sh.(sh_keeper) sh.(sh_text)
               (sh.(sh_stock) ++ [(i, mkArticle who text false p)]))
             else m.(m_shop) c')
          m.(m_loose) m.(m_next_shop)
          (λ c', if c' =? c then saturating_add u32_MAX i 1 else m.(m_next_item) c')
          m.(m_money))
      else None
  | Call_transfer_nft c i to =>
      a ← find_article m c i;
      if bool_decide (a.(a_owner) = who) then Some (hand_over c i to m) else None
  | Call_burn_nft c i =>
      sh ← m.(m_shop) c;
      a ← article_in sh.(sh_stock) i;
      if bool_decide (a.(a_owner) = who) && negb a.(a_sold) then
        Some (put_shop c (Some (mkShop sh.(sh_keeper) sh.(sh_text)
          (filter (λ p, p.1 ≠ i) sh.(sh_stock)))) m)
      else None
  | Call_mint_nft c i =>
      a ← find_article m c i;
      if negb a.(a_sold) && negb (bool_decide (a.(a_owner) = who)) then
        match transfer who a.(a_owner) a.(a_price) KeepAlive m.(m_money) with
        | (Ok _, l) => Some (hand_over c i who (put_money l m))
        | (Err _, _) => None
        end
      else None
  end.

(** ** The pallet seen as a marketplace *)

Definition article_of (n : NFT) : article :=
  mkArticle n.(owner) (bv_inner n.(nft_metadata)) n.(is_sold) n.(price).

Definition stock (s : Storage) (c : CollectionId) (ids : list ItemId) : list (ItemId * article) :=
  omap (λ i, (i,.) ∘ article_of <$> nfts s c i) ids.

Definition shops (s : Storage) : market := {|
  m_artist := artists s;
  m_shop c := (λ col, mkShop col.(creator) (bv_inner col.(coll_metadata))
                (stock s c (bv_inner col.(coll_nfts)))) <$> collections s c;
  m_loose c i := match collections s c with Some _ => None | None => article_of <$> nfts s c i end;
  m_next_shop := next_collection_id s;
  m_next_item := next_item_id s;
  m_money := ledger s;
|}.

(** Two marketplaces that nobody can tell apart. *)
Record market_eq (m1 m2 : market) : Prop := mkMarketEq {
  eq_artist a : m1.(m_artist) a = m2.(m_artist) a;
  eq_shop c : m1.(m_shop) c = m2.(m_shop) c;
  eq_loose c i : m1.(m_loose) c i = m2.(m_loose) c i;
  eq_next_shop : m1.(m_next_shop) = m2.(m_next_shop);
  eq_next_item c : m1.(m_next_item) c = m2.(m_next_item) c;
  eq_money : m1.(m_money) = m2.(m_money);
}.
End market.

(** ** The stock of a shop *)
Section stock.
Context {C : Config} {HC : ConfigLaws C}.
Implicit Types (s t : Storage) (c : CollectionId) (i : ItemId).

(** No counter has reached its maximum. *)
Definition unsaturated s : Prop :=
  next_collection_id s < u32_MAX ∧ ∀ c, next_item_id s c < u32_MAX.

Lemma stock_cons s c i ids :
  stock s c (i :: ids) =
  match nfts s c i with Some n => (i, article_of n) :: stock s c ids | None => stock s c ids end.
Proof. unfold stock. cbn. by destruct (nfts s c i). Qed.

Lemma stock_ext s t c ids :
  (∀ i, i ∈ ids → nfts s c i = nfts t c i) → stock s c ids = stock t c ids.
Proof.
  induction ids as [|i ids IH]; intros H; [done|]. rewrite !stock_cons.
  rewrite (H i ltac:(by left)), IH by (intros; apply H; by right). done.
Qed.

Lemma article_in_stock s c ids i :
  article_in (stock s c ids) i = if decide (i ∈ ids) then article_of <$> nfts s c i else None.
Proof.
  induction ids as [|j ids IH]; [done|]. rewrite stock_cons.
  destruct (decide (j = i)) as [->|Hne].
  - rewrite decide_True by left. destruct (nfts s c i) as [n|] eqn:Hn; cbn.
    + by rewrite N.eqb_refl.
    + rewrite IH. by case_decide; rewrite ?Hn.
  - replace (article_in _ i) with (article_in (stock s c ids) i).
    + rewrite IH. destruct (decide (i ∈ ids)) as [Hin|Hin].
      * by rewrite decide_True by (by right).
      * rewrite decide_False; [done|]. intros [?|?]%elem_of_cons; congruence.
    + destruct (nfts s c j); [|done]. cbn. by apply N.eqb_neq in Hne as ->.
Qed.

(** An article handed over in the stock. *)
Lemma stock_hand_over s t c ids i to n :
  nfts s c i = Some n →
  nfts t c i = Some (mkNFT to n.(nft_metadata) true n.(price)) →
  (∀ j, j ≠ i → nfts t c j = nfts s c j) →
  stock t c ids =
  map (λ p, if p.1 =? i then (p.1, mkArticle to p.2.(a_text) true p.2.(a_price)) else p)
    (stock s c ids).
Proof.
  intros Hs Ht Ho. induction ids as [|j ids IH]; [done|]. rewrite !stock_cons, IH.
  destruct (N.eqb_spec j i) as [->|Hne].
  - rewrite Hs, Ht. cbn. by rewrite N.eqb_refl.
  - rewrite (Ho j Hne). destruct (nfts s c j); [|done]. cbn. by apply N.eqb_neq in Hne as ->.
Qed.

(** An article taken out of the stock. *)
Lemma stock_remove s t c ids i :
  (∀ j, j ≠ i → nfts t c j = nfts s c j) →
  stock t c (retain (λ j, negb (j =? i)) ids) = filter (λ p, p.1 ≠ i) (stock s c ids).
Proof.
  intros Ho. induction ids as [|j ids IH]; [done|].
  rewrite stock_cons, retain_cons. destruct (N.eqb_spec j i) as [->|Hne]; cbn [negb].
  - rewrite IH. destruct (nfts s c i); [|done]. rewrite filter_cons, decide_False; [done|]. cbn. tauto.
  - rewrite stock_cons, (Ho j Hne), IH. destruct (nfts s c j); [|done].
    by rewrite filter_cons, decide_True.
Qed.

Lemma stock_app s c ids ids' : stock s c (ids ++ ids') = stock s c ids ++ stock s c ids'.
Proof. apply omap_app. Qed.

Lemma stock_length s c ids :
  (∀ i, i ∈ ids → is_Some (nfts s c i)) → length (stock s c ids) = length ids.
Proof.
  induction ids as [|i ids IH]; intros H; [done|]. rewrite stock_cons.
  destruct (H i ltac:(by left)) as [n ->]. cbn. rewrite IH; [done|].
  intros; apply H; by right.
Qed.

(** The articles of the marketplace are the stored items. *)
Lemma find_shops s c i :
  Inv s → unsaturated s → find_article (shops s) c i = article_of <$> nfts s c i.
Proof.
  intros HI [Hc _]. unfold find_article. cbn.
  destruct (collections s c) as [col|] eqn:E; cbn; [|done].
  rewrite article_in_stock. case_decide as Hin; [done|].
  destruct (nfts s c i) as [n|] eqn:Hn; [|done].
  by destruct Hin; eapply inv_indexed.
Qed.
End stock.

(** ** Each call *)
Section calls.
Context {C : Config} {HC : ConfigLaws C}.
Implicit Types (s : Storage) (c : CollectionId) (i : ItemId) (who : AccountId).

Ltac after_unfold :=
  unfold after_register, after_create_collection, after_delete_collection,
    after_create_nft, after_give, after_burn, add_event.

Lemma known_artist s who : Inv s → sm_contains_key s.(Artists) who = artists s who.
Proof.
  intros HI. unfold artists. rewrite sm_contains_key_get.
  destruct (sm_get (Artists s) who) as [b|] eqn:Hb; cbn.
  - by rewrite (inv_artists s HI who b Hb).
  - done.
Qed.

Lemma register_market s who l :
  Inv s → sm_contains_key s.(Artists) who = false →
  transfer who pallet_account registration_fee KeepAlive s.(ledger) = (Ok (), l) →
  ∃ m, market_call who Call_register_artist (shops s) = Some m ∧
    market_eq (shops (after_register who l s)) m.
Proof.
  intros HI Hk Ht. cbn. rewrite <- (known_artist s who HI), Hk, Ht.
  eexists. split; [done|]. split; try done. intros a. cbn. unfold artists. cbn.
  rewrite sm_get_insert. repeat case_decide; repeat case_bool_decide; first [done|congruence].
Qed.

Lemma create_collection_market s who md bmd :
  Inv s → unsaturated s → artists s who = true → bv_try_from md = Some bmd →
  ∃ m, market_call who (Call_create_collection md) (shops s) = Some m ∧
    market_eq (shops (after_create_collection who bmd s)) m.
Proof.
  intros HI [Hc _] Ha Hb. cbn. rewrite Ha, try_from_fits, Hb, bool_decide_true by done.
  apply bv_try_from_Some in Hb as [Hb _]. eexists. split; [done|].
  assert (Hfresh : ∀ i, nfts s (next_collection_id s) i = None).
  { intros i. destruct (nfts s _ i) eqn:Hn; [|done].
    by apply (inv_nft_collection_id s HI), not_allocated_self in Hn. }
  split; try done; intros c; cbn; unfold collections; cbn; rewrite sm_get_insert.
  - destruct (N.eqb_spec c (next_collection_id s)) as [->|Hne].
    + rewrite decide_True by done. cbn. by rewrite Hb, bv_inner_new.
    + by rewrite decide_False.
  - intros i. case_decide as Hd; [|done]. subst c. rewrite Hfresh. by case_match.
Qed.

Lemma delete_collection_market s who c col :
  Inv s → collections s c = Some col → col.(creator) = who → unsaturated s →
  ∃ m, market_call who (Call_delete_collection c) (shops s) = Some m ∧
    market_eq (shops (after_delete_collection c s)) m.
Proof.
  intros HI Hc Hw [Hlt _]. cbn. rewrite Hc. cbn. rewrite bool_decide_true by done.
  eexists. split; [done|]. split; try done; intros c'; cbn; unfold collections; cbn;
    rewrite sm_get_remove.
  - destruct (N.eqb_spec c' c) as [->|Hne]; [by rewrite decide_True|by rewrite decide_False].
  - intros i. destruct (N.eqb_spec c' c) as [->|Hne]; [rewrite decide_True by done|by rewrite decide_False].
    rewrite article_in_stock. change (nfts (after_delete_collection c s)) with (nfts s).
    case_decide as Hin; [done|]. destruct (nfts s c i) as [n|] eqn:Hn; [|done].
    by destruct Hin; eapply inv_indexed.
Qed.

Lemma shop_found s c col :
  collections s c = Some col →
  (shops s).(m_shop) c =
    Some (mkShop col.(creator) (bv_inner col.(coll_metadata)) (stock s c (bv_inner col.(coll_nfts)))).
Proof. intros Hc. cbn. by rewrite Hc. Qed.

Lemma listed_length s c col :
  Inv s → collections s c = Some col →
  length (stock s c (bv_inner col.(coll_nfts))) = length (bv_inner col.(coll_nfts)).
Proof. intros HI Hc. apply stock_length. intros i. by eapply inv_listed. Qed.

Lemma create_nft_market s who c md p col bmd items :
  Inv s → unsaturated s → collections s c = Some col → bv_try_from md = Some bmd →
  bv_try_push col.(coll_nfts) (next_item_id s c) = Some items →
  ∃ m, market_call who (Call_create_nft c md p) (shops s) = Some m ∧
    market_eq (shops (after_create_nft who c col items bmd p s)) m.
Proof.
  intros HI [_ Hlt] Hc Hb Hp. cbn [market_call]. rewrite (shop_found s c col Hc). cbn -[shops Nat.ltb Nat.leb].
  rewrite (listed_length s c col HI Hc), try_from_fits, Hb, bool_decide_true by done.
  rewrite (try_push_fits _ (next_item_id s c)), Hp, bool_decide_true by done. cbn -[shops Nat.ltb Nat.leb].
  apply bv_try_from_Some in Hb as [Hb _]. apply bv_try_push_Some in Hp as [Hp _].
  assert (Hfresh : nfts s c (next_item_id s c) = None).
  { destruct (nfts s c _) eqn:Hn; [|done].
    by apply (inv_nft_item_id s HI), not_allocated_self in Hn. }
  eexists. split; [done|]. set (s' := after_create_nft who c col items bmd p s).
  assert (Hn : ∀ c' i', nfts s' c' i' = if decide ((c, next_item_id s c) = (c', i'))
    then Some (mkNFT who bmd false p) else nfts s c' i').
  { intros c' i'. unfold s'. after_unfold. storage_unfold. apply sm_get_insert. }
  assert (Hcol : ∀ c', collections s' c' = if decide (c = c')
    then Some (mkCollection col.(creator) col.(coll_metadata) items) else collections s c').
  { intros c'. unfold s'. after_unfold. storage_unfold. rewrite !sm_get_insert. by case_decide. }
  split; try done; intros c'; cbn; rewrite ?Hcol.
  - destruct (N.eqb_spec c' c) as [->|Hne].
    + rewrite decide_True by done. cbn. do 2 f_equal. rewrite Hp, stock_app. f_equal.
      * apply stock_ext. intros i Hi. rewrite Hn, decide_False; [done|]. intros [= ?]. subst i.
        destruct (inv_listed s HI _ _ _ Hc Hi). congruence.
      * rewrite stock_cons, Hn, decide_True by done. by rewrite <- Hb.
    + rewrite decide_False by done. destruct (collections s c') as [col'|]; [|done]. cbn.
      do 2 f_equal. apply stock_ext. intros i _. rewrite Hn, decide_False; [done|congruence].
  - intros i. case_decide as Hd; [subst c'; by rewrite Hc|]. rewrite Hn, decide_False by congruence.
    done.
  - unfold s', next_item_id. after_unfold. storage_unfold. rewrite sm_get_insert.
    destruct (N.eqb_spec c' c) as [->|Hne]; [by rewrite decide_True|by rewrite decide_False].
Qed.

(** An item that changes hands, in a shop or loose. *)
Lemma hand_over_market s s' c i to n :
  nfts s c i = Some n →
  (∀ c' i', nfts s' c' i' = if decide ((c, i) = (c', i'))
     then Some (mkNFT to n.(nft_metadata) true n.(price)) else nfts s c' i') →
  (∀ a, artists s' a = artists s a) → (∀ c', collections s' c' = collections s c') →
  next_collection_id s' = next_collection_id s →
  (∀ c', next_item_id s' c' = next_item_id s c') →
  market_eq (shops s') (hand_over c i to (put_money (ledger s') (shops s))).
Proof.
  intros Hi Hn Ha Hc Hnc Hni. split; try done; cbn; intros c'; rewrite ?Hc.
  - destruct (N.eqb_spec c' c) as [->|Hne].
    + destruct (collections s c) as [col|]; [|done]. cbn. do 2 f_equal.
      apply (stock_hand_over _ _ _ _ _ _ _ Hi); [by rewrite Hn, decide_True|].
      intros j Hj. rewrite Hn, decide_False; [done|congruence].
    + destruct (collections s c') as [col|]; [|done]. cbn. do 2 f_equal.
      apply stock_ext. intros j _. rewrite Hn, decide_False; [done|congruence].
  - intros i'. rewrite Hn. destruct (N.eqb_spec c' c) as [->|Hne]; cbn.
    + destruct (N.eqb_spec i' i) as [->|Hne].
      * rewrite decide_True, Hi by done. by destruct (collections s c).
      * by rewrite decide_False by congruence.
    + by rewrite decide_False by congruence.
Qed.

Lemma after_give_nfts from to c i n s c' i' :
  nfts (after_give from to c i n s) c' i' =
  if decide ((c, i) = (c', i')) then Some (mkNFT to n.(nft_metadata) true n.(price))
  else nfts s c' i'.
Proof. after_unfold. storage_unfold. apply sm_get_insert. Qed.

Lemma transfer_nft_market s who c i to n :
  Inv s → unsaturated s → nfts s c i = Some n → n.(owner) = who →
  ∃ m, market_call who (Call_transfer_nft c i to) (shops s) = Some m ∧
    market_eq (shops (after_give who to c i n s)) m.
Proof.
  intros HI Hu Hn Hw. cbn [market_call]. rewrite (find_shops s c i HI Hu), Hn. cbn -[shops Nat.ltb Nat.leb].
  rewrite bool_decide_true by done. eexists. split; [done|].
  by apply (hand_over_market s (after_give who to c i n s) c i to n Hn
    (after_give_nfts who to c i n s)).
Qed.

Lemma mint_nft_market s who c i n l :
  Inv s → unsaturated s → nfts s c i = Some n → n.(is_sold) = false → n.(owner) ≠ who →
  transfer who n.(owner) n.(price) KeepAlive s.(ledger) = (Ok (), l) →
  ∃ m, market_call who (Call_mint_nft c i) (shops s) = Some m ∧
    market_eq (shops (after_give n.(owner) who c i n (put_ledger l s))) m.
Proof.
  intros HI Hu Hn Hs Hw Ht. cbn [market_call]. rewrite (find_shops s c i HI Hu), Hn. cbn -[shops Nat.ltb Nat.leb].
  rewrite Hs, bool_decide_false by done. cbn -[shops Nat.ltb Nat.leb]. change (m_money (shops s)) with (ledger s).
  rewrite Ht. eexists. split; [done|].
  by apply (hand_over_market s (after_give n.(owner) who c i n (put_ledger l s)) c i who n Hn
    (after_give_nfts _ who c i n (put_ledger l s))).
Qed.

Lemma burn_nft_market s who c i n col :
  Inv s → unsaturated s → nfts s c i = Some n → n.(owner) = who → n.(is_sold) = false →
  collections s c = Some col →
  ∃ m, market_call who (Call_burn_nft c i) (shops s) = Some m ∧
    market_eq (shops (after_burn who c i col s)) m.
Proof.
  intros HI Hu Hn Hw Hs Hc. pose proof (find_shops s c i HI Hu) as Hf.
  unfold find_article in Hf. rewrite (shop_found s c col Hc), Hn in Hf. cbn in Hf.
  cbn [market_call]. rewrite (shop_found s c col Hc). cbn -[shops]. rewrite Hf. cbn -[shops].
  rewrite bool_decide_true, Hs by done. cbn -[shops]. eexists. split; [done|].
  set (s' := after_burn who c i col s).
  assert (Hn' : ∀ c' i', nfts s' c' i' = if decide ((c, i) = (c', i')) then None else nfts s c' i').
  { intros c' i'. unfold s'. after_unfold. storage_unfold. apply sm_get_remove. }
  assert (Hcol : ∀ c', collections s' c' = if decide (c = c')
    then Some (mkCollection col.(creator) col.(coll_metadata)
      (bv_retain (λ id, negb (id =? i)) col.(coll_nfts))) else collections s c').
  { intros c'. unfold s'. after_unfold. storage_unfold. apply sm_get_insert. }
  split; try done; intros c'; cbn; rewrite ?Hcol.
  - destruct (N.eqb_spec c' c) as [->|Hne].
    + rewrite decide_True by done. cbn. do 2 f_equal. rewrite bv_inner_retain.
      apply stock_remove. intros j Hj. rewrite Hn', decide_False; [done|congruence].
    + rewrite decide_False by done. destruct (collections s c') as [col'|]; [|done]. cbn.
      do 2 f_equal. apply stock_ext. intros j _. rewrite Hn', decide_False; [done|congruence].
  - intros i'. case_decide as Hd; [subst c'; by rewrite Hc|]. rewrite Hn', decide_False by congruence.
    done.
Qed.

(** What the pallet does, the marketplace does. *)
Lemma effect_market s who cl s' :
  Inv s → unsaturated s → call_effect s who cl s' →
  ∃ m, market_call who cl (shops s) = Some m ∧ market_eq (shops s') m.
Proof.
  intros HI Hu []; eauto using register_market, create_collection_market,
    delete_collection_market, create_nft_market, transfer_nft_market, burn_nft_market,
    mint_nft_market.
Qed.

(** What the marketplace does, the pallet does. *)
Lemma market_effect s who cl m :
  Inv s → unsaturated s → market_call who cl (shops s) = Some m → ∃ s', call_effect s who cl s'.
Proof.
  intros HI Hu.
  assert (Hfind : ∀ c i a, find_article (shops s) c i = Some a →
    ∃ n, nfts s c i = Some n ∧ a = article_of n).
  { intros c i a. rewrite (find_shops s c i HI Hu). destruct (nfts s c i); naive_solver. }
  destruct cl as [|md|c|c md p|c i to|c i|c i]; cbn -[shops Nat.leb Nat.ltb].
  - cbn. rewrite <- (known_artist s who HI). destruct (sm_contains_key _ _) eqn:Hk; [done|].
    destruct (transfer _ _ _ _ _) as [[[]|] l] eqn:Ht; [|done]. intros _. by eexists; econstructor.
  - cbn. destruct (artists s who) eqn:Ha; [|done]. rewrite try_from_fits.
    destruct (bv_try_from md) as [b|] eqn:Hb; [|done]. intros _. by eexists; econstructor.
  - cbn. destruct (collections s c) as [col|] eqn:Hc; [|done]. cbn.
    case_bool_decide; [|done]. intros _. by eexists; econstructor.
  - destruct (collections s c) as [col|] eqn:Hc; [|cbn; by rewrite Hc].
    rewrite (shop_found s c col Hc). cbn -[shops Nat.leb Nat.ltb].
    rewrite (listed_length s c col HI Hc), try_from_fits, (try_push_fits _ (next_item_id s c)).
    destruct (bv_try_from md) as [b|] eqn:Hb; [|done].
    destruct (bv_try_push _ _) as [items|] eqn:Hp; [|done]. intros _. by eexists; econstructor.
  - destruct (find_article _ _ _) as [a|] eqn:Hf; [|done].
    destruct (Hfind _ _ _ Hf) as (n & Hn & ->). cbn -[shops].
    case_bool_decide; [|done]. intros _. by eexists; econstructor.
  - destruct (collections s c) as [col|] eqn:Hc; [|cbn; by rewrite Hc].
    specialize (Hfind c i). unfold find_article in Hfind. rewrite (shop_found s c col Hc) in *.
    cbn -[shops] in *. destruct (article_in _ _) as [a|] eqn:Hf; [|done].
    destruct (Hfind _ eq_refl) as (n & Hn & ->). cbn -[shops]. case_bool_decide; [|done].
    destruct (is_sold n) eqn:Hs; [done|]. intros _. by eexists; econstructor.
  - destruct (find_article _ _ _) as [a|] eqn:Hf; [|done].
    destruct (Hfind _ _ _ Hf) as (n & Hn & ->). cbn -[shops].
    destruct (is_sold n) eqn:Hs; [done|]. case_bool_decide as Hw; [done|]. cbn.
    destruct (transfer _ _ _ _ _) as [[[]|] l] eqn:Ht; [|done]. intros _. by eexists; econstructor.
Qed.
End calls.

(** ** Runs *)
Section runs.
Context {C : Config} {HC : ConfigLaws C}.
Implicit Types (s : Storage) (m : market).

#[export] Instance market_eq_equivalence : Equivalence market_eq.
Proof.
  split.
  - by intros m; split.
  - by intros m1 m2 []; split.
  - intros m1 m2 m3 [] []; split; intros; etrans; eauto.
Qed.

#[export] Instance find_article_proper : Proper (market_eq ==> eq ==> eq ==> eq) find_article.
Proof.
  intros m1 m2 H c ? <- i ? <-. unfold find_article.
  rewrite (eq_shop _ _ H), (eq_loose _ _ H). done.
Qed.

#[export] Instance hand_over_proper c i to : Proper (market_eq ==> market_eq) (hand_over c i to).
Proof. intros m1 m2 []. split; cbn; intros; rewrite ?eq_shop0, ?eq_loose0; done. Qed.

#[export] Instance put_money_proper l : Proper (market_eq ==> market_eq) (put_money l).
Proof. intros m1 m2 []. by split. Qed.

#[export] Instance market_call_proper who cl :
  Proper (market_eq ==> option_Forall2 market_eq) (market_call who cl).
Proof.
  intros m1 m2 H. destruct cl as [|md|c|c md p|c i to|c i|c i]; cbn -[Nat.leb Nat.ltb];
    rewrite ?H, ?(eq_artist _ _ H), ?(eq_money _ _ H), ?(eq_shop _ _ H).
  - destruct (m_artist m2 who); [constructor|].
    destruct (transfer _ _ _ _ _) as [[[]|] l]; constructor. destruct H; split; intros; cbn; try done.
    by rewrite eq_artist0.
  - destruct (_ && _); constructor. rewrite (eq_next_shop _ _ H).
    destruct H; split; intros; cbn; try done. by rewrite eq_shop0.
  - destruct (m_shop m2 c) as [sh|]; [|constructor]. cbn. case_bool_decide; constructor.
    destruct H; split; intros; cbn; try done; [by rewrite eq_shop0|by rewrite eq_loose0].
  - destruct (m_shop m2 c) as [sh|]; [|constructor]. cbn -[Nat.leb Nat.ltb].
    destruct (_ && _); constructor. rewrite (eq_next_item _ _ H).
    destruct H; split; intros; cbn; try done; [by rewrite eq_shop0|by rewrite eq_next_item0].
  - destruct (find_article m2 c i) as [a|]; [|constructor]. cbn.
    case_bool_decide; constructor. by rewrite H.
  - destruct (m_shop m2 c) as [sh|]; [|constructor]. cbn.
    destruct (article_in _ _) as [a|]; [|constructor]. cbn. destruct (_ && _); constructor.
    destruct H; split; intros; cbn; try done. by rewrite eq_shop0.
  - destruct (find_article m2 c i) as [a|]; [|constructor]. cbn.
    destruct (_ && _); [|constructor]. destruct (transfer _ _ _ _ _) as [[[]|] l]; constructor.
    by rewrite H.
Qed.

(** What a transaction does on the marketplace. *)
Definition market_tx (a : tx) (m : market) : option market :=
  match ensure_signed a.1 with Ok who => market_call who a.2 m | Err _ => None end.

(** The transactions of a block, with whether each is accepted. *)
Fixpoint market_run (txs : list tx) (m : market) : list bool * market :=
  match txs with
  | [] => ([], m)
  | a :: txs =>
      let next := market_tx a m in
      let '(bs, m') := market_run txs (default m next) in
      (bool_decide (is_Some next) :: bs, m')
  end.

Lemma market_run_cons a txs m :
  market_run (a :: txs) m =
  (bool_decide (is_Some (market_tx a m)) :: (market_run txs (default m (market_tx a m))).1,
   (market_run txs (default m (market_tx a m))).2).
Proof. cbn. by destruct (market_run _ _). Qed.

#[export] Instance market_tx_proper a : Proper (market_eq ==> option_Forall2 market_eq) (market_tx a).
Proof.
  intros m1 m2 H. unfold market_tx. destruct (ensure_signed a.1); [|constructor].
  by apply market_call_proper.
Qed.

Lemma market_run_proper txs m1 m2 :
  market_eq m1 m2 →
  (market_run txs m1).1 = (market_run txs m2).1 ∧
  market_eq (market_run txs m1).2 (market_run txs m2).2.
Proof.
  revert m1 m2. induction txs as [|a txs IH]; intros m1 m2 H; [done|]. rewrite !market_run_cons.
  assert (Hm : ∀ n1 n2, option_Forall2 market_eq n1 n2 →
    bool_decide (is_Some n1) = bool_decide (is_Some n2) ∧
    market_eq (default m1 n1) (default m2 n2)) by (by intros ? ? []).
  destruct (Hm _ _ (market_tx_proper a _ _ H)) as [Hb Hd].
  destruct (IH _ _ Hd) as [Hr He]. cbn [fst snd]. by rewrite Hb, Hr.
Qed.

(** One call, refused or not. *)
Lemma dispatch_market s a :
  Inv s → unsaturated s →
  is_ok (dispatch a.2 a.1 s).1 = bool_decide (is_Some (market_tx a (shops s))) ∧
  market_eq (shops (dispatch a.2 a.1 s).2) (default (shops s) (market_tx a (shops s))).
Proof.
  intros HI Hu. unfold market_tx.
  destruct (dispatch a.2 a.1 s) as [r s'] eqn:Hd. pose proof Hd as Hd'. cbn [fst snd].
  apply dispatch_cases in Hd as [(e & -> & ->)|(who & -> & -> & He)].
  - destruct (ensure_signed a.1) as [who|] eqn:Ho; [|done].
    destruct (market_call who a.2 (shops s)) as [m|] eqn:Hm; [|done].
    destruct (market_effect _ _ _ _ HI Hu Hm) as [s' He].
    enough (dispatch a.2 a.1 s = (Ok (), s')) by congruence. apply dispatch_ok. eauto.
  - by destruct (effect_market _ _ _ _ HI Hu He) as (m & -> & Heq).
Qed.

Lemma run_block_run txs s : ∃ tr, sys_run s tr (run_block txs s).2.
Proof.
  revert s. induction txs as [|a txs IH]; intros s.
  { exists []. apply run_nil. }
  rewrite run_block_cons. destruct (IH (dispatch a.2 a.1 s).2) as [tr Htr].
  eexists. eapply run_cons; [|exact Htr]. constructor. apply surjective_pairing.
Qed.

(** Counters only grow. *)
Lemma run_block_unsaturated txs s :
  Inv s → unsaturated (run_block txs s).2 → unsaturated s.
Proof.
  intros HI [Hc Hi]. destruct (run_block_run txs s) as [tr Hr]. split.
  - pose proof (next_collection_run _ _ _ Hr HI). lia.
  - intros c. pose proof (next_item_run _ _ _ c Hr HI). specialize (Hi c). lia.
Qed.

Lemma Inv_dispatch s a : Inv s → Inv (dispatch a.2 a.1 s).2.
Proof. intros HI. eapply Inv_step; [done|]. constructor. apply surjective_pairing. Qed.

(** C3. The pallet is a marketplace of shops that hold their own items: from every
    reachable store, and as long as no counter reaches its maximum, a block of calls
    is accepted and refused, call by call, as on the marketplace, and leaves the
    store that, seen as a marketplace, is the one they leave there. So the two maps
    of collections and items, the lists of identifiers in one and the records in the
    other, are never out of step, in any order of creating, selling, passing on,
    burning and closing. *)
Theorem pallet_refines_marketplace txs s :
  reachable s → unsaturated (run_block txs s).2 →
  map (λ p, is_ok p.2) (run_block txs s).1 = (market_run txs (shops s)).1 ∧
  market_eq (shops (run_block txs s).2) (market_run txs (shops s)).2.
Proof.
  intros HI%Inv_reachable. revert s HI.
  induction txs as [|a txs IH]; intros s HI Hu; [done|].
  destruct (dispatch_market s a HI (run_block_unsaturated _ _ HI Hu)) as [Hb Hm].
  rewrite run_block_cons in *. rewrite market_run_cons. cbn [fst snd map] in *.
  destruct (IH _ (Inv_dispatch s a HI) Hu) as [Hr He].
  destruct (market_run_proper txs _ _ Hm) as [Hr' He'].
  split; [by rewrite Hb, Hr, Hr'|by etrans].
Qed.
End runs.

(** ** At work *)

(** Account 2 buys the item of shop 0 and passes it on to account 3; its keeper closes
    the shop; nobody can burn the item now, and its owner gives it away once more. *)
Definition closing_sale : list (tx (C := TestConfig)) :=
  [(Some 2, Call_mint_nft 0 0); (Some 2, Call_transfer_nft 0 0 3);
   (Some 1, Call_delete_collection 0); (Some 3, Call_burn_nft 0 0);
   (Some 3, Call_transfer_nft 0 0 2)].

Lemma pallet_refines_marketplace_witness :
  map (λ p, is_ok p.2) (run_block closing_sale minted).1 = [true; true; true; false; true] ∧
  (market_run closing_sale (shops minted)).1 = [true; true; true; false; true] ∧
  a_owner <$> m_loose (market_run closing_sale (shops minted)).2 0 0 = Some 2.
Proof.
  destruct (pallet_refines_marketplace closing_sale minted) as [Hr He].
  - apply reachable_run_calls.
  - split; [vm_compute; reflexivity|]. intros c. unfold next_item_id.
    replace (NextItemId (run_block closing_sale minted).2) with ({[0 := 1]} : gmap N N)
      by (vm_compute; reflexivity).
    change (sm_get ({[0 := 1]} : gmap N N) c) with (({[0 := 1]} : gmap N N) !! c).
    destruct (decide (c = 0)) as [->|Hne]; [reflexivity|].
    rewrite lookup_singleton_ne by done. reflexivity.
  - split; [vm_compute; reflexivity|]. split; [rewrite <- Hr; vm_compute; reflexivity|].
    rewrite <- (eq_loose _ _ He). vm_compute. reflexivity.
Defined.
