(* ===== verification/NftIndex.v ===== *)
(** * What the events tell

Who watches the chain sees the events of the pallet and not its storage. An index
kept from the events alone, as an indexer or a web client keeps it, is compared here
with the store. *)
From S2P Require Import Prelude Frame NftPallet NftSpec FrameModel NftOrder.

Local Open Scope N_scope.

(** ** The index *)
Section index.
Context {C : Config}.

(** Who is an artist, who keeps a collection, and who owns an item, with whether it
    is sold. *)
Record index := mkIndex {
  ix_artist : AccountId → bool;
  ix_keeper : CollectionId → option AccountId;
  ix_item : CollectionId → ItemId → option (AccountId * bool);
}.

Definition put_item (c : CollectionId) (i : ItemId) (x : option (AccountId * bool)) (ix : index) :
    index :=
  mkIndex ix.(ix_artist) ix.(ix_keeper)
    (λ c' i', if (c' =? c) && (i' =? i) then x else ix.(ix_item) c' i').

Definition put_keeper (c : CollectionId) (x : option AccountId) (ix : index) : index :=
  mkIndex ix.(ix_artist) (λ c', if c' =? c then x else ix.(ix_keeper) c') ix.(ix_item).

(** What an event says. *)
Definition learn (ix : index) (e : Event) : index :=
  match e with
  | ArtistRegistered who =>
      mkIndex (λ a, if bool_decide (a = who) then true else ix.(ix_artist) a)
        ix.(ix_keeper) ix.(ix_item)
  | CollectionCreated c who => put_keeper c (Some who) ix
  | CollectionDeleted c => put_keeper c None ix
  | NFTMinted c i who => put_item c i (Some (who, false)) ix
  | NFTTransferred c i _ to => put_item c i (Some (to, true)) ix
  | NFTBurned c i _ => put_item c i None ix
  | CollectionUpdated _ | CollectionFrozenEvent _ | NFTBatchMinted _ _ _ => ix
  end.

(** What the store says. *)
Definition index_of (s : Storage) : index := {|
  ix_artist := artists s;
  ix_keeper c := creator <$> collections s c;
  ix_item c i := (λ n, (n.(owner), n.(is_sold))) <$> nfts s c i;
|}.

Record index_eq (x y : index) : Prop := mkIndexEq {
  eq_ix_artist a : x.(ix_artist) a = y.(ix_artist) a;
  eq_ix_keeper c : x.(ix_keeper) c = y.(ix_keeper) c;
  eq_ix_item c i : x.(ix_item) c i = y.(ix_item) c i;
}.

#[export] Instance index_eq_equivalence : Equivalence index_eq.
Proof.
  split.
  - by intros x; split.
  - by intros x y []; split.
  - intros x y z [] []; split; intros; etrans; eauto.
Qed.

#[export] Instance learn_proper : Proper (index_eq ==> eq ==> index_eq) learn.
Proof.
  intros x y [] e ? <-. destruct e; split; intros; cbn; rewrite ?eq_ix_artist0, ?eq_ix_keeper0,
    ?eq_ix_item0; done.
Qed.

#[export] Instance learn_all_proper : Proper (index_eq ==> eq ==> index_eq) (foldl learn).
Proof.
  intros x y H es ? <-. revert x y H. induction es as [|e es IH]; intros x y H; [done|].
  cbn. apply IH. by rewrite H.
Qed.
End index.

(** ** The store and the index *)
Section told.
Context {C : Config} {HC : ConfigLaws C}.
Implicit Types (s : Storage).

(** The one event of a successful call tells what it did. *)
Lemma effect_told s who cl s' :
  call_effect s who cl s' →
  ∃ e, events s' = events s ++ [e] ∧ index_eq (index_of s') (learn (index_of s) e).
Proof.
  destruct 1; (eexists; split; [done|]); split; intros; cbn;
    unfold after_register, after_create_collection, after_delete_collection,
      after_create_nft, after_give, after_burn, add_event; storage_unfold;
    rewrite ?sm_get_insert, ?sm_get_remove; repeat case_decide; simplify_eq;
    rewrite ?N.eqb_refl, ?bool_decide_true by done; try done.
  all: try match goal with H : sm_get _ _ = Some _ |- creator <$> Some _ = _ => by rewrite H end.
  all: repeat match goal with
    | |- context [?x =? ?y] => destruct (N.eqb_spec x y); subst
    end; cbn; first [congruence | naive_solver].
Qed.

(** So does the absence of one after a refusal. *)
Lemma dispatch_told cl origin s :
  ∃ es, events (dispatch cl origin s).2 = events s ++ es ∧
        index_eq (index_of (dispatch cl origin s).2) (foldl learn (index_of s) es).
Proof.
  destruct (dispatch cl origin s) as [r s'] eqn:Hd.
  destruct (dispatch_cases _ _ _ _ _ Hd) as [(e & _ & ->)|(who & _ & _ & He)].
  - exists []. by rewrite app_nil_r.
  - destruct (effect_told _ _ _ _ He) as (e & Hev & Hix). by exists [e].
Qed.

(** C14. Over any sequence of calls, accepted and refused, the events deposited
    say who is an artist, who keeps each collection, who owns each item and whether
    it is sold: reading them one by one on top of what was known before gives what
    the store holds afterwards. *)
Theorem events_tell_the_state txs s :
  ∃ es, events (run_block txs s).2 = events s ++ es ∧
        index_eq (index_of (run_block txs s).2) (foldl learn (index_of s) es).
Proof.
  revert s. induction txs as [|[origin cl] txs IH]; intros s.
  - exists []. by rewrite app_nil_r.
  - rewrite run_block_cons. cbn [fst snd].
    destruct (dispatch_told cl origin s) as (es1 & Hev1 & Hix1).
    destruct (IH (dispatch cl origin s).2) as (es2 & Hev2 & Hix2).
    exists (es1 ++ es2). rewrite Hev2, Hev1, foldl_app, <- Hix1.
    by rewrite <- app_assoc.
Qed.
End told.

(** ** The first sale, read from its events *)

(** Alice registers, creates a collection and an item, Bob buys it, and Carol asks
    for it in vain. *)
Definition first_sale : list (option N * Call (C := TestConfig)) :=
  [(Some 1, Call_register_artist); (Some 1, Call_create_collection []);
   (Some 1, Call_create_nft 0 [] 700); (Some 2, Call_mint_nft 0 0);
   (Some 3, Call_mint_nft 0 0)].

Lemma events_tell_the_state_witness :
  (∃ es, events (run_block first_sale start).2 = events start ++ es ∧
     index_eq (index_of (run_block first_sale start).2) (foldl learn (index_of start) es)) ∧
  map (λ p, is_ok p.2) (run_block first_sale start).1 = [true; true; true; true; false] ∧
  let ix := foldl learn (index_of start) (events (run_block first_sale start).2) in
  ix_keeper ix 0 = Some 1 ∧ ix_item ix 0 0 = Some (2, true).
Proof.
  split; [apply (events_tell_the_state (C := TestConfig) first_sale start)|].
  repeat split; vm_compute; reflexivity.
Defined.
