(* ===== verification/Codec.v ===== *)
(** * Encoding of the pallet's calls, events and stored values

The pallet derives [Encode], [Decode] and [MaxEncodedLen] for its data
(src/pallets/template/src/lib.rs): a struct is the encoding of its fields in
their order, a call its [call_index] and then its arguments, an event its
position in the enum and then its fields. The encodings of the field types are
the SCALE library's. *)
From S2P Require Import Prelude Frame NftPallet FrameModel.

Local Open Scope N_scope.

(** ** Codecs *)

(** An encoding, its decoder, which also returns the rest of the input, and the
    values the Rust type can hold. *)
Record codec (A : Type) := mkCodec {
  encode : A → list u8;
  decode : list u8 → option (A * list u8);
  holds : A → Prop;
}.
Arguments mkCodec {A} e d h : rename.
Arguments encode {A} c : rename.
Arguments decode {A} c : rename.
Arguments holds {A} c : rename.

(** Decoding undoes encoding, whatever follows. *)
Definition lossless {A} (c : codec A) : Prop :=
  ∀ a rest, holds c a → decode c (encode c a ++ rest) = Some (a, rest).

(** No encoding is longer than [n] bytes. *)
Definition sized {A} (c : codec A) (n : nat) : Prop :=
  ∀ a, holds c a → (length (encode c a) ≤ n)%nat.

Definition prod_codec {A B} (ca : codec A) (cb : codec B) : codec (A * B) := mkCodec
  (λ '(a, b), encode ca a ++ encode cb b)
  (λ bs, '(a, bs) ← decode ca bs; '(b, bs) ← decode cb bs; Some ((a, b), bs))
  (λ '(a, b), holds ca a ∧ holds cb b).

Definition map_codec {A B} (f : A → B) (g : B → A) (c : codec A) : codec B := mkCodec
  (λ b, encode c (g b))
  (λ bs, '(a, bs) ← decode c bs; Some (f a, bs))
  (λ b, holds c (g b)).

Lemma prod_lossless {A B} (ca : codec A) (cb : codec B) :
  lossless ca → lossless cb → lossless (prod_codec ca cb).
Proof.
  intros Ha Hb [a b] rest [Va Vb]. cbn.
  rewrite <- app_assoc, (Ha a _ Va). cbn. by rewrite (Hb b _ Vb).
Qed.

Lemma prod_sized {A B} (ca : codec A) (cb : codec B) n m :
  sized ca n → sized cb m → sized (prod_codec ca cb) (n + m).
Proof.
  intros Ha Hb [a b] [Va Vb]. cbn. rewrite length_app.
  specialize (Ha a Va). specialize (Hb b Vb). lia.
Qed.

Lemma map_lossless {A B} (f : A → B) (g : B → A) c :
  (∀ b, f (g b) = b) → lossless c → lossless (map_codec f g c).
Proof. intros Hfg Hc b rest Vb. cbn. rewrite (Hc _ _ Vb). cbn. by rewrite Hfg. Qed.

Lemma map_sized {A B} (f : A → B) (g : B → A) c n : sized c n → sized (map_codec f g c) n.
Proof. intros Hc b. apply Hc. Qed.

(** Encodings are prefix-free: two values encoded at the start of one input are
    the same value. *)
Lemma lossless_prefix {A} (c : codec A) a1 a2 r1 r2 :
  lossless c → holds c a1 → holds c a2 →
  encode c a1 ++ r1 = encode c a2 ++ r2 → a1 = a2 ∧ r1 = r2.
Proof.
  intros Hc H1 H2 He. pose proof (Hc a1 r1 H1) as E. rewrite He, (Hc a2 r2 H2) in E.
  by simplify_eq.
Qed.

Create HintDb codec.
#[export] Hint Resolve prod_lossless prod_sized map_sized : codec.

(** ** Interface to the SCALE library *)

Class Scale {C : Config} := {
  c_account : codec AccountId;
  c_u32 : codec N;
  c_u128 : codec N;
  c_bool : codec bool;
  c_vec_u8 : codec (list u8);
  c_vec_u32 : codec (list ItemId);
  c_bounded_u8 : codec (BVec u8);
  c_bounded_u32 : codec (BVec ItemId);
  (** [AccountId::max_encoded_len()]. *)
  account_len : nat;
}.

(** Fixed-width integers take their width; a bounded vector of at most 256
    elements takes a length of at most two bytes and its elements. *)
Class ScaleLaws {C : Config} (S : Scale) : Prop := {
  account_ok : lossless c_account; account_sized : sized c_account account_len;
  u32_ok : lossless c_u32; u32_sized : sized c_u32 4;
  u128_ok : lossless c_u128; u128_sized : sized c_u128 16;
  bool_ok : lossless c_bool; bool_sized : sized c_bool 1;
  vec_u8_ok : lossless c_vec_u8;
  vec_u32_ok : lossless c_vec_u32;
  bounded_u8_ok : lossless c_bounded_u8; bounded_u8_sized : sized c_bounded_u8 (2 + 256);
  bounded_u32_ok : lossless c_bounded_u32;
  bounded_u32_sized : sized c_bounded_u32 (2 + 4 * 256);
}.
#[export] Hint Resolve account_ok account_sized u32_ok u32_sized u128_ok u128_sized bool_ok
  bool_sized vec_u8_ok vec_u32_ok bounded_u8_ok bounded_u8_sized bounded_u32_ok
  bounded_u32_sized : codec.

(** ** The derived codecs *)
Section derived.
Context {C : Config} {S : Scale}.

(** [#[derive(Encode, Decode, MaxEncodedLen)] struct NFT]. *)
Definition NFT_codec : codec NFT :=
  map_codec (λ '(o, (m, (s, p))), mkNFT o m s p)
    (λ n, (n.(owner), (n.(nft_metadata), (n.(is_sold), n.(price)))))
    (prod_codec c_account (prod_codec c_bounded_u8 (prod_codec c_bool c_u128))).
Definition NFT_max_encoded_len : nat := account_len + ((2 + 256) + (1 + 16)).

Definition Collection_codec : codec Collection :=
  map_codec (λ '(o, (m, l)), mkCollection o m l)
    (λ c, (c.(creator), (c.(coll_metadata), c.(coll_nfts))))
    (prod_codec c_account (prod_codec c_bounded_u8 c_bounded_u32)).
Definition Collection_max_encoded_len : nat := account_len + ((2 + 256) + (2 + 4 * 256)).

(** An index as a byte. *)
Definition index_byte (n : N) : u8 := default Byte.x00 (Byte.of_N n).

(** The arguments of a call, after its index. *)
Definition encode_args (c : Call) : list u8 :=
  match c with
  | Call_register_artist => []
  | Call_create_collection md => encode c_vec_u8 md
  | Call_delete_collection c => encode c_u32 c
  | Call_create_nft c md p => encode c_u32 c ++ encode c_vec_u8 md ++ encode c_u128 p
  | Call_transfer_nft c i to => encode c_u32 c ++ encode c_u32 i ++ encode c_account to
  | Call_burn_nft c i => encode c_u32 c ++ encode c_u32 i
  | Call_mint_nft c i => encode c_u32 c ++ encode c_u32 i
  end.

Definition decode_args (index : N) (bs : list u8) : option (Call * list u8) :=
  match index with
  | 0 => Some (Call_register_artist, bs)
  | 1 => '(md, bs) ← decode c_vec_u8 bs; Some (Call_create_collection md, bs)
  | 4 => '(c, bs) ← decode c_u32 bs; Some (Call_delete_collection c, bs)
  | 6 => '(c, bs) ← decode c_u32 bs; '(md, bs) ← decode c_vec_u8 bs;
         '(p, bs) ← decode c_u128 bs; Some (Call_create_nft c md p, bs)
  | 7 => '(c, bs) ← decode c_u32 bs; '(i, bs) ← decode c_u32 bs;
         '(to, bs) ← decode c_account bs; Some (Call_transfer_nft c i to, bs)
  | 8 => '(c, bs) ← decode c_u32 bs; '(i, bs) ← decode c_u32 bs; Some (Call_burn_nft c i, bs)
  | 9 => '(c, bs) ← decode c_u32 bs; '(i, bs) ← decode c_u32 bs; Some (Call_mint_nft c i, bs)
  | _ => None
  end.

Definition holds_call (c : Call) : Prop :=
  match c with
  | Call_register_artist => True
  | Call_create_collection md => holds c_vec_u8 md
  | Call_delete_collection c => holds c_u32 c
  | Call_create_nft c md p => holds c_u32 c ∧ holds c_vec_u8 md ∧ holds c_u128 p
  | Call_transfer_nft c i to => holds c_u32 c ∧ holds c_u32 i ∧ holds c_account to
  | Call_burn_nft c i | Call_mint_nft c i => holds c_u32 c ∧ holds c_u32 i
  end.

(** The [Call] enum of [#[pallet::call]]. *)
Definition Call_codec : codec Call := mkCodec
  (λ c, index_byte (call_index c) :: encode_args c)
  (λ bs, match bs with [] => None | b :: bs => decode_args (Byte.to_N b) bs end)
  holds_call.

(** The [Event] enum of [#[pallet::event]]. *)
Definition event_index (e : Event) : N :=
  match e with
  | ArtistRegistered _ => 0
  | CollectionCreated _ _ => 1
  | CollectionUpdated _ => 2
  | CollectionFrozenEvent _ => 3
  | CollectionDeleted _ => 4
  | NFTMinted _ _ _ => 5
  | NFTBatchMinted _ _ _ => 6
  | NFTTransferred _ _ _ _ => 7
  | NFTBurned _ _ _ => 8
  end.

Definition encode_event_args (e : Event) : list u8 :=
  match e with
  | ArtistRegistered who => encode c_account who
  | CollectionCreated c who => encode c_u32 c ++ encode c_account who
  | CollectionUpdated c | CollectionFrozenEvent c | CollectionDeleted c => encode c_u32 c
  | NFTMinted c i who | NFTBurned c i who =>
      encode c_u32 c ++ encode c_u32 i ++ encode c_account who
  | NFTBatchMinted c ids who =>
      encode c_u32 c ++ encode c_vec_u32 ids ++ encode c_account who
  | NFTTransferred c i from to =>
      encode c_u32 c ++ encode c_u32 i ++ encode c_account from ++ encode c_account to
  end.

Definition decode_event_args (index : N) (bs : list u8) : option (Event * list u8) :=
  match index with
  | 0 => '(who, bs) ← decode c_account bs; Some (ArtistRegistered who, bs)
  | 1 => '(c, bs) ← decode c_u32 bs; '(who, bs) ← decode c_account bs;
         Some (CollectionCreated c who, bs)
  | 2 => '(c, bs) ← decode c_u32 bs; Some (CollectionUpdated c, bs)
  | 3 => '(c, bs) ← decode c_u32 bs; Some (CollectionFrozenEvent c, bs)
  | 4 => '(c, bs) ← decode c_u32 bs; Some (CollectionDeleted c, bs)
  | 5 => '(c, bs) ← decode c_u32 bs; '(i, bs) ← decode c_u32 bs;
         '(who, bs) ← decode c_account bs; Some (NFTMinted c i who, bs)
  | 6 => '(c, bs) ← decode c_u32 bs; '(ids, bs) ← decode c_vec_u32 bs;
         '(who, bs) ← decode c_account bs; Some (NFTBatchMinted c ids who, bs)
  | 7 => '(c, bs) ← decode c_u32 bs; '(i, bs) ← decode c_u32 bs;
         '(from, bs) ← decode c_account bs; '(to, bs) ← decode c_account bs;
         Some (NFTTransferred c i from to, bs)
  | 8 => '(c, bs) ← decode c_u32 bs; '(i, bs) ← decode c_u32 bs;
         '(who, bs) ← decode c_account bs; Some (NFTBurned c i who, bs)
  | _ => None
  end.

Definition holds_event (e : Event) : Prop :=
  match e with
  | ArtistRegistered who => holds c_account who
  | CollectionCreated c who => holds c_u32 c ∧ holds c_account who
  | CollectionUpdated c | CollectionFrozenEvent c | CollectionDeleted c => holds c_u32 c
  | NFTMinted c i who | NFTBurned c i who =>
      holds c_u32 c ∧ holds c_u32 i ∧ holds c_account who
  | NFTBatchMinted c ids who => holds c_u32 c ∧ holds c_vec_u32 ids ∧ holds c_account who
  | NFTTransferred c i from to =>
      holds c_u32 c ∧ holds c_u32 i ∧ holds c_account from ∧ holds c_account to
  end.

Definition Event_codec : codec Event := mkCodec
  (λ e, index_byte (event_index e) :: encode_event_args e)
  (λ bs, match bs with [] => None | b :: bs => decode_event_args (Byte.to_N b) bs end)
  holds_event.
End derived.

(** ** Properties *)
Section properties.
Context {C : Config} {S : Scale} {HS : ScaleLaws S}.

(** Decoders undo the encodings of the fields one after the other. *)
Lemma decode_next {A B} (c : codec A) (a : A) rest (f : A * list u8 → option B) :
  lossless c → holds c a → (decode c (encode c a ++ rest)) ≫= f = f (a, rest).
Proof. intros Hc Ha. by rewrite (Hc a rest Ha). Qed.

Ltac decode_all :=
  repeat (rewrite <- ?app_assoc;
          rewrite decode_next by (first [eauto with codec | done])); try done.

Lemma Call_lossless : lossless Call_codec.
Proof.
  intros c rest Hc. destruct c; cbn in *; destruct_and?; decode_all.
Qed.

Lemma Event_lossless : lossless Event_codec.
Proof. intros e rest He. destruct e; cbn in *; destruct_and?; decode_all. Qed.

Lemma NFT_lossless : lossless NFT_codec.
Proof. apply map_lossless; [by intros []|eauto 10 with codec]. Qed.

Lemma Collection_lossless : lossless Collection_codec.
Proof. apply map_lossless; [by intros []|eauto 10 with codec]. Qed.

Lemma NFT_sized : sized NFT_codec NFT_max_encoded_len.
Proof. apply map_sized. eauto 10 with codec. Qed.

Lemma Collection_sized : sized Collection_codec Collection_max_encoded_len.
Proof. apply map_sized. eauto 10 with codec. Qed.

(** C20. What a client sends and what it reads back is unambiguous: a call and
    an event are recovered from their encoding, whatever bytes follow it; input
    that starts with an index no call has is refused; and so is empty input. *)
Theorem calls_and_events_roundtrip :
  (∀ c rest, holds Call_codec c → decode Call_codec (encode Call_codec c ++ rest) = Some (c, rest)) ∧
  (∀ e rest, holds Event_codec e →
     decode Event_codec (encode Event_codec e ++ rest) = Some (e, rest)) ∧
  (∀ b rest, Byte.to_N b ∉ [0; 1; 4; 6; 7; 8; 9] → decode Call_codec (b :: rest) = None) ∧
  decode Call_codec [] = None.
Proof.
  split_and!; [exact Call_lossless|exact Event_lossless| |done].
  intros b rest Hb. cbn. rewrite !not_elem_of_cons in Hb. destruct_and!.
  destruct (Byte.to_N b) as [|p]; [done|].
  do 4 (destruct p as [p|p|]; try done).
Qed.

(** C21. Every value the pallet stores is recovered from its encoding, and the
    encoding of an item or a collection is never longer than the length declared
    for it. *)
Theorem stored_values_roundtrip (n : NFT) (col : Collection) rest :
  (holds NFT_codec n →
     decode NFT_codec (encode NFT_codec n ++ rest) = Some (n, rest) ∧
     (length (encode NFT_codec n) ≤ NFT_max_encoded_len)%nat) ∧
  (holds Collection_codec col →
     decode Collection_codec (encode Collection_codec col ++ rest) = Some (col, rest) ∧
     (length (encode Collection_codec col) ≤ Collection_max_encoded_len)%nat).
Proof.
  split; intros Hv; split.
  - by apply NFT_lossless.
  - by apply NFT_sized.
  - by apply Collection_lossless.
  - by apply Collection_sized.
Qed.
End properties.
