(* ===== verification/ScaleModel.v ===== *)
(** * A SCALE implementation

Little-endian integers, compact lengths and length-prefixed vectors, for the
executable configuration of [FrameModel]. It discharges the laws of [Codec] and
gives the codecs of the pallet concrete runs. *)
From S2P Require Import Prelude Frame NftPallet FrameModel Codec.

Local Open Scope N_scope.

(** ** Fixed-width integers *)

Fixpoint le_encode (k : nat) (x : N) : list u8 :=
  match k with
  | O => []
  | S k => index_byte (x mod 256) :: le_encode k (x / 256)
  end.

Fixpoint le_decode (k : nat) (bs : list u8) : option (N * list u8) :=
  match k, bs with
  | O, _ => Some (0, bs)
  | S k, b :: bs => '(x, bs) ← le_decode k bs; Some (Byte.to_N b + 256 * x, bs)
  | S _, [] => None
  end.

Definition le_codec (k : nat) : codec N :=
  mkCodec (le_encode k) (le_decode k) (λ x, x < 256 ^ N.of_nat k).

Lemma index_byte_to_N n : n < 256 → Byte.to_N (index_byte n) = n.
Proof.
  intros Hn. unfold index_byte. destruct (Byte.of_N n) as [b|] eqn:Hb; cbn.
  - by apply Byte.to_of_N in Hb.
  - apply Byte.of_N_None_iff in Hb. lia.
Qed.

Lemma le_lossless k : lossless (le_codec k).
Proof.
  intros x rest Hx. cbn in *. revert x Hx. induction k as [|k IH]; intros x Hx; cbn.
  { f_equal. f_equal. cbn in Hx. lia. }
  rewrite index_byte_to_N by (apply N.mod_lt; lia).
  rewrite IH.
  - cbn. f_equal. f_equal. pose proof (N.div_mod x 256). lia.
  - apply N.Div0.div_lt_upper_bound. rewrite Nat2N.inj_succ, N.pow_succ_r' in Hx. lia.
Qed.

Lemma le_length k x : length (le_encode k x) = k.
Proof. revert x. induction k as [|k IH]; intros x; cbn; [done|]. by rewrite IH. Qed.

Lemma le_sized k : sized (le_codec k) k.
Proof. intros x _. cbn. by rewrite le_length. Qed.

(** ** Booleans *)

Definition bool_codec : codec bool := mkCodec
  (λ b : bool, [index_byte (if b then 1 else 0)])
  (λ bs : list u8,
     match bs with
     | [] => None
     | b :: bs =>
         match Byte.to_N b with 0 => Some (false, bs) | 1 => Some (true, bs) | _ => None end
     end)
  (λ _, True).

Lemma bool_lossless : lossless bool_codec.
Proof. by intros [] rest _. Qed.

(** ** Compact lengths: one, two or four bytes, the width in the low two bits *)

Definition compact_encode (n : N) : list u8 :=
  if n <? 64 then le_encode 1 (4 * n)
  else if n <? 16384 then le_encode 2 (4 * n + 1)
  else le_encode 4 (4 * n + 2).

Definition compact_decode (bs : list u8) : option (N * list u8) :=
  match bs with
  | [] => None
  | b :: _ =>
      let width := match Byte.to_N b mod 4 with
                   | 0 => Some 1%nat | 1 => Some 2%nat | 2 => Some 4%nat | _ => None end in
      k ← width; '(x, bs) ← le_decode k bs; Some (x / 4, bs)
  end.

Definition compact_codec : codec N :=
  mkCodec compact_encode compact_decode (λ n, n < 1073741824).

(** A value written with its width in the low bits is read back. *)
Lemma compact_width k n w rest :
  (0 < k)%nat → w < 4 →
  match w with 0 => Some 1%nat | 1 => Some 2%nat | 2 => Some 4%nat | _ => None end = Some k →
  4 * n + w < 256 ^ N.of_nat k →
  compact_decode (le_encode k (4 * n + w) ++ rest) = Some (n, rest).
Proof.
  intros Hk Hw Hwk Hn. pose proof (le_lossless k (4 * n + w) rest Hn) as Hd. cbn in Hd.
  destruct k as [|k]; [lia|]. unfold compact_decode.
  change (le_encode (S k) (4 * n + w) ++ rest) with
    (index_byte ((4 * n + w) mod 256) :: (le_encode k ((4 * n + w) / 256) ++ rest)) in Hd |- *.
  cbv beta iota zeta. rewrite index_byte_to_N by (apply N.mod_lt; lia).
  replace (((4 * n + w) mod 256) mod 4) with w.
  - rewrite Hwk. cbn [mbind option_bind]. rewrite Hd. cbn. f_equal. f_equal.
    symmetry. apply N.div_unique with w; lia.
  - pose proof (N.div_mod (4 * n + w) 256 ltac:(done)) as Hdm.
    pose proof (N.mod_lt (4 * n + w) 256 ltac:(done)).
    apply N.mod_unique with (n - 64 * ((4 * n + w) / 256)); [done|].
    generalize dependent ((4 * n + w) / 256). generalize dependent ((4 * n + w) mod 256). lia.
Qed.

Lemma compact_lossless : lossless compact_codec.
Proof.
  intros n rest Hn. cbn in *. unfold compact_encode.
  destruct (N.ltb_spec n 64).
  { rewrite <- (N.add_0_r (4 * n)). apply compact_width; cbn; try lia; done. }
  destruct (N.ltb_spec n 16384); apply compact_width; cbn; try lia; done.
Qed.

Lemma compact_length n : n ≤ 256 → (length (compact_encode n) ≤ 2)%nat.
Proof.
  intros Hn. unfold compact_encode. destruct (N.ltb_spec n 64); [rewrite le_length; lia|].
  destruct (N.ltb_spec n 16384); [rewrite le_length|]; lia.
Qed.

(** ** Vectors *)
Section vectors.
Context {A : Type} (c : codec A) (Hc : lossless c).

Fixpoint elements_decode (k : nat) (bs : list u8) : option (list A * list u8) :=
  match k with
  | O => Some ([], bs)
  | S k => '(a, bs) ← decode c bs; '(l, bs) ← elements_decode k bs; Some (a :: l, bs)
  end.

Definition vec_codec : codec (list A) := mkCodec
  (λ l, compact_encode (N.of_nat (length l)) ++ concat (encode c <$> l))
  (λ bs, '(k, bs) ← compact_decode bs; elements_decode (N.to_nat k) bs)
  (λ l, N.of_nat (length l) < 1073741824 ∧ Forall (holds c) l).

Lemma elements_lossless l rest :
  Forall (holds c) l →
  elements_decode (length l) (concat (encode c <$> l) ++ rest) = Some (l, rest).
Proof.
  induction 1 as [|a l Ha Hl IH]; cbn; [done|].
  rewrite <- app_assoc, (Hc a _ Ha). cbn. by rewrite IH.
Qed.

Lemma vec_lossless : lossless vec_codec.
Proof.
  intros l rest [Hn Hl]. cbn. rewrite <- app_assoc.
  rewrite (compact_lossless (N.of_nat (length l)) _ Hn). cbn. rewrite Nat2N.id.
  by apply elements_lossless.
Qed.

Lemma vec_length k l :
  sized c k → Forall (holds c) l → (length l ≤ 256)%nat →
  (length (encode vec_codec l) ≤ 2 + k * 256)%nat.
Proof.
  intros Hk Hl Hn. cbn. rewrite length_app.
  pose proof (compact_length (N.of_nat (length l))).
  assert (length (concat (encode c <$> l)) ≤ k * length l)%nat; [|nia].
  clear Hn H. induction Hl as [|a l Ha Hl IH]; cbn; [lia|].
  rewrite length_app. specialize (Hk a Ha). lia.
Qed.

(** A bounded vector refuses an input with too many elements. *)
Definition bounded_codec : codec (blist 256 A) := mkCodec
  (λ b, encode vec_codec (blist_list b))
  (λ bs, '(l, bs) ← decode vec_codec bs; b ← blist_from l; Some (b, bs))
  (λ b, Forall (holds c) (blist_list b)).

Lemma blist_from_list (b : blist 256 A) : blist_from (blist_list b) = Some b.
Proof.
  destruct b as [l H]. cbn. pose proof H as Hl. apply bool_decide_eq_true in Hl.
  destruct (blist_from_fits (bound := 256) l Hl) as ([l' H'] & -> & Heq). cbn in Heq. subst l'.
  f_equal. f_equal. apply proof_irrel.
Qed.

Lemma bounded_holds (b : blist 256 A) :
  holds bounded_codec b → holds vec_codec (blist_list b).
Proof.
  intros Hb. split; [|exact Hb]. destruct b as [l H]. cbn in *.
  apply bool_decide_eq_true in H. lia.
Qed.

Lemma bounded_lossless : lossless bounded_codec.
Proof.
  intros b rest Hb. cbn -[vec_codec]. rewrite (vec_lossless _ _ (bounded_holds b Hb)). cbn.
  by rewrite blist_from_list.
Qed.

Lemma bounded_sized k : sized c k → sized bounded_codec (2 + k * 256).
Proof.
  intros Hk b Hb. apply vec_length; [exact Hk|exact Hb|].
  destruct b as [l H]. exact (proj1 (bool_decide_eq_true _) H).
Qed.
End vectors.

(** ** The instance *)

Definition byte_codec : codec u8 := mkCodec
  (λ b, [b]) (λ bs : list u8, match bs with [] => None | b :: bs => Some (b, bs) end) (λ _, True).

(** An account is 32 bytes. *)
#[export] Instance TestScale : @Scale TestConfig := {
  c_account := le_codec 32;
  c_u32 := le_codec 4;
  c_u128 := le_codec 16;
  c_bool := bool_codec;
  c_vec_u8 := vec_codec byte_codec;
  c_vec_u32 := vec_codec (le_codec 4);
  c_bounded_u8 := bounded_codec byte_codec;
  c_bounded_u32 := bounded_codec (le_codec 4);
  account_len := 32%nat;
}.

#[export] Instance TestScaleLaws : @ScaleLaws TestConfig TestScale.
Proof.
  assert (Hb : lossless byte_codec) by done.
  assert (Hbs : sized byte_codec 1) by (intros b _; done).
  split.
  all: try apply le_lossless; try apply le_sized.
  - apply bool_lossless.
  - by intros [] _.
  - by apply vec_lossless.
  - apply vec_lossless, le_lossless.
  - by apply bounded_lossless.
  - by apply (bounded_sized byte_codec 1).
  - apply bounded_lossless, le_lossless.
  - apply (bounded_sized (le_codec 4) 4), le_sized.
Qed.

(** ** The codecs at work *)

(** Buying item 3 of collection 258: the index of the call, and two little-endian
    identifiers. *)
Example mint_call_bytes :
  map Byte.to_N (encode Call_codec (Call_mint_nft 258 3)) = [9; 2; 1; 0; 0; 3; 0; 0; 0].
Proof. vm_compute. reflexivity. Qed.

Lemma calls_and_events_roundtrip_witness :
  decode Call_codec (encode Call_codec (Call_mint_nft 258 3) ++ [Byte.xff]) =
    Some (Call_mint_nft 258 3, [Byte.xff]) ∧
  decode Call_codec [Byte.x02] = None.
Proof.
  destruct (calls_and_events_roundtrip (C := TestConfig) (S := TestScale)) as (Hc & _ & Hi & _).
  split.
  - apply (Hc (Call_mint_nft 258 3) [Byte.xff]). split; reflexivity.
  - apply Hi. apply (bool_decide_unpack _). reflexivity.
Defined.

(** A sold item of account 7. *)
Definition sold_item : @NFT TestConfig := mkNFT (7 : @AccountId TestConfig) bv_new true 700.

Lemma stored_values_roundtrip_witness :
  decode NFT_codec (encode NFT_codec sold_item ++ []) = Some (sold_item, []) ∧
  (length (encode NFT_codec sold_item) ≤ 307)%nat.
Proof.
  apply (stored_values_roundtrip (C := TestConfig) (S := TestScale) sold_item
    (mkCollection (7 : @AccountId TestConfig) bv_new bv_new) []).
  cbn. repeat split; constructor.
Defined.
