(* ===== verification/Weights.v ===== *)
(** * Weights (src/runtime/src/weights, src/pallets/template/src/weights.rs)

The interface to sp_weights and sp_arithmetic that the runtime's numbers are
written against, the constants of the runtime's weight files with the sanity
checks those files carry, and the pallet's weight functions. *)
From S2P Require Import Prelude.

Local Open Scope N_scope.

(** ** Interface *)

(** [frame_support::weights::RuntimeDbWeight]. *)
Record RuntimeDbWeight := mkDbWeight { read : N; write : N }.

(** [Weight], [Perbill] and the constants of sp_weights. *)
Class SpWeights := {
  Weight : Type;
  from_parts : N → N → Weight;
  ref_time : Weight → N;
  proof_size : Weight → N;
  weight_saturating_add : Weight → Weight → Weight;
  weight_saturating_div : Weight → N → Weight;
  (** [a - b]. *)
  weight_sub : Weight → Weight → Weight;
  Perbill : Type;
  from_percent : N → Perbill;
  from_rational : N → N → Perbill;
  (** The number of parts per billion. *)
  deconstruct : Perbill → N;
  (** [perbill * n] and [perbill * weight]. *)
  perbill_mul : Perbill → N → N;
  perbill_mul_weight : Perbill → Weight → Weight;
  (** [RuntimeDbWeight::reads] and [RuntimeDbWeight::writes]. *)
  db_reads : RuntimeDbWeight → N → Weight;
  db_writes : RuntimeDbWeight → N → Weight;
  WEIGHT_REF_TIME_PER_SECOND : N;
  WEIGHT_REF_TIME_PER_MILLIS : N;
  WEIGHT_REF_TIME_PER_MICROS : N;
  WEIGHT_REF_TIME_PER_NANOS : N;
}.

(** Their documented behaviour: a weight is a pair of [u64]; a [Perbill] is a
    number of billionths, made from a percentage or, rounding down, from a
    fraction, and multiplied rounding to the nearest. *)
Class SpWeightsLaws (W : SpWeights) : Prop := {
  ref_time_from_parts t p : ref_time (from_parts t p) = t;
  proof_size_from_parts t p : proof_size (from_parts t p) = p;
  ref_time_saturating_add a b :
    ref_time (weight_saturating_add a b) = saturating_add u64_MAX (ref_time a) (ref_time b);
  proof_size_saturating_add a b :
    proof_size (weight_saturating_add a b) =
    saturating_add u64_MAX (proof_size a) (proof_size b);
  ref_time_saturating_div a n : n ≠ 0 → ref_time (weight_saturating_div a n) = ref_time a / n;
  proof_size_saturating_div a n :
    n ≠ 0 → proof_size (weight_saturating_div a n) = proof_size a / n;
  ref_time_sub a b : ref_time b ≤ ref_time a → ref_time (weight_sub a b) = ref_time a - ref_time b;
  proof_size_sub a b :
    proof_size b ≤ proof_size a → proof_size (weight_sub a b) = proof_size a - proof_size b;
  deconstruct_from_percent x : deconstruct (from_percent x) = N.min x 100 * 10000000;
  deconstruct_from_rational p q :
    q ≠ 0 → deconstruct (from_rational p q) = N.min p q * 1000000000 / q;
  perbill_mul_nearest f n :
    2 * (perbill_mul f n * 1000000000) ≤ 2 * (deconstruct f * n) + 1000000000 ∧
    2 * (deconstruct f * n) ≤ 2 * (perbill_mul f n * 1000000000) + 1000000000;
  ref_time_perbill_mul f w : ref_time (perbill_mul_weight f w) = perbill_mul f (ref_time w);
  proof_size_perbill_mul f w :
    proof_size (perbill_mul_weight f w) = perbill_mul f (proof_size w);
  ref_time_db_reads w n : ref_time (db_reads w n) = saturating_mul u64_MAX w.(read) n;
  ref_time_db_writes w n : ref_time (db_writes w n) = saturating_mul u64_MAX w.(write) n;
  per_second : WEIGHT_REF_TIME_PER_SECOND = 1000000000000;
  per_millis : WEIGHT_REF_TIME_PER_MILLIS = 1000000000;
  per_micros : WEIGHT_REF_TIME_PER_MICROS = 1000000;
  per_nanos : WEIGHT_REF_TIME_PER_NANOS = 1000;
}.

Create Rewrite HintDb weights.
#[export] Hint Rewrite @ref_time_from_parts @proof_size_from_parts
  @ref_time_saturating_add @proof_size_saturating_add @deconstruct_from_percent
  @ref_time_perbill_mul @proof_size_perbill_mul @ref_time_db_reads @ref_time_db_writes
  @per_second @per_millis @per_micros @per_nanos using typeclasses eauto : weights.

Section perbill.
Context {W : SpWeights} {HW : SpWeightsLaws W}.

(** A product that is a whole number is exact. *)
Lemma perbill_mul_exact f n k :
  deconstruct f * n = k * 1000000000 → perbill_mul f n = k.
Proof. intros H. pose proof (perbill_mul_nearest f n). lia. Qed.

Lemma perbill_mul_mono f n m : n ≤ m → perbill_mul f n ≤ perbill_mul f m.
Proof.
  intros Hle. destruct (decide (n = m)) as [->|Hne]; [done|].
  pose proof (perbill_mul_nearest f n). pose proof (perbill_mul_nearest f m).
  destruct (decide (deconstruct f = 0)) as [Hz|Hz]; [nia|].
  assert (deconstruct f * n < deconstruct f * m) by nia. nia.
Qed.

(** A share of at most one hundred percent is at most the whole. *)
Lemma perbill_mul_le x n : x ≤ 100 → perbill_mul (from_percent x) n ≤ n.
Proof.
  intros Hx. pose proof (perbill_mul_nearest (from_percent x) n) as [Hn _].
  rewrite deconstruct_from_percent in Hn. nia.
Qed.
End perbill.

(** ** The weight files of the runtime *)
Section files.
Context {W : SpWeights}.

(** block_weights.rs *)
Definition BlockExecutionWeight : Weight :=
  from_parts (saturating_mul u64_MAX WEIGHT_REF_TIME_PER_NANOS 5000000) 0.

Definition block_weight_sane : bool :=
  (wrapping_mul u64_MAX 100 WEIGHT_REF_TIME_PER_MICROS <=? ref_time BlockExecutionWeight) &&
  (ref_time BlockExecutionWeight <=? wrapping_mul u64_MAX 50 WEIGHT_REF_TIME_PER_MILLIS).

(** extrinsic_weights.rs *)
Definition ExtrinsicBaseWeight : Weight :=
  from_parts (saturating_mul u64_MAX WEIGHT_REF_TIME_PER_NANOS 125000) 0.

Definition extrinsic_weight_sane : bool :=
  (wrapping_mul u64_MAX 10 WEIGHT_REF_TIME_PER_MICROS <=? ref_time ExtrinsicBaseWeight) &&
  (ref_time ExtrinsicBaseWeight <=? WEIGHT_REF_TIME_PER_MILLIS).

(** rocksdb_weights.rs *)
Definition RocksDbWeight : RuntimeDbWeight :=
  mkDbWeight (wrapping_mul u64_MAX 25000 WEIGHT_REF_TIME_PER_NANOS)
             (wrapping_mul u64_MAX 100000 WEIGHT_REF_TIME_PER_NANOS).

(** paritydb_weights.rs *)
Definition ParityDbWeight : RuntimeDbWeight :=
  mkDbWeight (wrapping_mul u64_MAX 8000 WEIGHT_REF_TIME_PER_NANOS)
             (wrapping_mul u64_MAX 50000 WEIGHT_REF_TIME_PER_NANOS).

(** The four assertions that both database files make of their weight. *)
Definition db_weight_sane (w : RuntimeDbWeight) : bool :=
  (WEIGHT_REF_TIME_PER_MICROS <=? ref_time (db_reads w 1)) &&
  (WEIGHT_REF_TIME_PER_MICROS <=? ref_time (db_writes w 1)) &&
  (ref_time (db_reads w 1) <=? WEIGHT_REF_TIME_PER_MILLIS) &&
  (ref_time (db_writes w 1) <=? WEIGHT_REF_TIME_PER_MILLIS).

Definition rocksdb_sane : bool := db_weight_sane RocksDbWeight.
Definition paritydb_sane : bool := db_weight_sane ParityDbWeight.
End files.

(** ** The weight functions of the pallet *)

(** [WeightInfo] of the pallet. *)
Class WeightInfo `{SpWeights} := {
  do_something : Weight;
  cause_error : Weight;
}.

Section pallet_weights.
Context {W : SpWeights}.

(** [SubstrateWeight<T>], where [T::DbWeight] is [db]. *)
Definition SubstrateWeight (db : RuntimeDbWeight) : WeightInfo := {|
  do_something := weight_saturating_add (from_parts 9000000 0) (db_writes db 1);
  cause_error :=
    weight_saturating_add
      (weight_saturating_add (from_parts 6000000 1489) (db_reads db 1))
      (db_writes db 1);
|}.

(** The implementation for [()], with the [RocksDbWeight] of frame_support. *)
Definition UnitWeight (frame_support_RocksDbWeight : RuntimeDbWeight) : WeightInfo := {|
  do_something :=
    weight_saturating_add (from_parts 9000000 0) (db_writes frame_support_RocksDbWeight 1);
  cause_error :=
    weight_saturating_add
      (weight_saturating_add (from_parts 6000000 1489)
         (db_reads frame_support_RocksDbWeight 1))
      (db_writes frame_support_RocksDbWeight 1);
|}.
End pallet_weights.

(** ** An executable instance *)

Definition TestWeights : SpWeights := {|
  Weight := N * N;
  from_parts t p := (t, p);
  ref_time := fst;
  proof_size := snd;
  weight_saturating_add a b :=
    (saturating_add u64_MAX a.1 b.1, saturating_add u64_MAX a.2 b.2);
  weight_saturating_div a n := (a.1 / n, a.2 / n);
  weight_sub a b := (a.1 - b.1, a.2 - b.2);
  Perbill := N;
  from_percent x := N.min x 100 * 10000000;
  from_rational p q := N.min p q * 1000000000 / q;
  deconstruct f := f;
  perbill_mul f n := (f * n + 500000000) / 1000000000;
  perbill_mul_weight f w :=
    ((f * w.1 + 500000000) / 1000000000, (f * w.2 + 500000000) / 1000000000);
  db_reads w n := (saturating_mul u64_MAX w.(read) n, 0);
  db_writes w n := (saturating_mul u64_MAX w.(write) n, 0);
  WEIGHT_REF_TIME_PER_SECOND := 1000000000000;
  WEIGHT_REF_TIME_PER_MILLIS := 1000000000;
  WEIGHT_REF_TIME_PER_MICROS := 1000000;
  WEIGHT_REF_TIME_PER_NANOS := 1000;
|}.

#[export] Instance TestWeightsLaws : SpWeightsLaws TestWeights.
Proof.
  split; try done. cbn. intros f n.
  generalize (f * n). intros x.
  pose proof (N.div_mod (x + 500000000) 1000000000 ltac:(done)).
  pose proof (N.mod_lt (x + 500000000) 1000000000 ltac:(done)).
  set (q := (x + 500000000) / 1000000000) in *.
  set (r := (x + 500000000) mod 1000000000) in *. clearbody q r. lia.
Qed.

(** ** Properties *)
Section properties.
Context {W : SpWeights} {HW : SpWeightsLaws W}.

(** The sanity checks of the four weight files hold: a block with no
    extrinsics weighs between 100 microseconds and 50 milliseconds, an empty
    extrinsic between 10 microseconds and 1 millisecond, and one database access
    of either backend between 1 microsecond and 1 millisecond. *)
Theorem weight_files_are_sane :
  block_weight_sane = true ∧ extrinsic_weight_sane = true ∧
  rocksdb_sane = true ∧ paritydb_sane = true.
Proof.
  unfold block_weight_sane, extrinsic_weight_sane, rocksdb_sane, paritydb_sane,
    db_weight_sane, BlockExecutionWeight, ExtrinsicBaseWeight.
  autorewrite with weights. unfold RocksDbWeight, ParityDbWeight.
  rewrite ?per_nanos. by vm_compute.
Qed.
End properties.

Lemma weight_files_are_sane_witness : @block_weight_sane TestWeights = true.
Proof. apply weight_files_are_sane. Defined.
