(* ===== verification/Runtime.v ===== *)
(** * The runtime's constants, fees and limits

src/runtime/src/lib.rs and src/runtime/src/configs: time and currency units, the
weight-to-fee polynomial, the block limits, the parameters of the configured
pallets, and the pallet table. *)
From S2P Require Import Prelude Frame NftPallet FrameModel Weights.

Local Open Scope N_scope.

(** [x as u32]. *)
Definition as_u32 (x : N) : N := x mod (u32_MAX + 1).

(** ** Units of time and currency (lib.rs) *)

Definition MILLI_SECS_PER_BLOCK : N := 6000.
Definition SLOT_DURATION : N := MILLI_SECS_PER_BLOCK.
Definition MINUTES : N := 60000 / as_u32 MILLI_SECS_PER_BLOCK.
Definition HOURS : N := wrapping_mul u32_MAX MINUTES 60.
Definition DAYS : N := wrapping_mul u32_MAX HOURS 24.

Definition UNIT : Balance := 1000000000000.
Definition MILLI_UNIT : Balance := 1000000000.
Definition MICRO_UNIT : Balance := 1000000.
Definition EXISTENTIAL_DEPOSIT : Balance := MILLI_UNIT.

(** Parameters of the consensus hook. *)
Definition UNINCLUDED_SEGMENT_CAPACITY : N := 3.
Definition BLOCK_PROCESSING_VELOCITY : N := 1.
Definition RELAY_CHAIN_SLOT_DURATION_MILLIS : N := 6000.

(** ** The weight-to-fee polynomial (lib.rs) *)

(** [sp_weights::WeightToFeeCoefficient]. *)
Record WeightToFeeCoefficient `{SpWeights} := mkCoefficient {
  coeff_integer : Balance;
  coeff_frac : Perbill;
  negative : bool;
  degree : N;
}.

Section fees.
Context {W : SpWeights}.

Definition polynomial : list WeightToFeeCoefficient :=
  let p := MILLI_UNIT / 10 in
  let q := wrapping_mul u128_MAX 100 (ref_time ExtrinsicBaseWeight) in
  [mkCoefficient _ (p / q) (from_rational (p mod q) q) false 1].

(** [TransactionByteFee], and the fee of the length of an extrinsic
    ([ConstantMultiplier]). *)
Definition TransactionByteFee : Balance := wrapping_mul u128_MAX 10 MICRO_UNIT.
End fees.

(** The evaluation of a polynomial, which the trait provides. *)
Class WeightToFee `{SpWeights} := {
  eval_polynomial : list WeightToFeeCoefficient → Weight → Balance;
}.

(** On a single positive term of degree one it is the fraction of the weight
    plus the whole multiple, saturating. *)
Class WeightToFeeLaws {W : SpWeights} (F : WeightToFee) : Prop := {
  eval_linear k f w :
    eval_polynomial [mkCoefficient _ k f false 1] w =
    saturating_add u128_MAX (perbill_mul f (ref_time w))
      (saturating_mul u128_MAX k (ref_time w));
}.

(** The runtime's [WeightToFee::weight_to_fee]. *)
Definition weight_to_fee {W : SpWeights} {F : WeightToFee} (w : Weight) : Balance :=
  eval_polynomial polynomial w.

(** ** Block limits (lib.rs, configs/mod.rs) *)

Inductive DispatchClass := Normal | Operational | Mandatory.

#[export] Instance DispatchClass_eq_dec : EqDecision DispatchClass.
Proof. solve_decision. Defined.

(** [frame_system::limits::WeightsPerClass]. *)
Record WeightsPerClass `{SpWeights} := mkPerClass {
  base_extrinsic : Weight;
  max_extrinsic : option Weight;
  max_total : option Weight;
  reserved : option Weight;
}.

(** [frame_system::limits::BlockWeights] and its builder. *)
Class BlockWeightsApi `{SpWeights} := {
  Builder : Type;
  BlockWeights : Type;
  builder : Builder;
  base_block : Weight → Builder → Builder;
  for_class : list DispatchClass → (WeightsPerClass → WeightsPerClass) → Builder → Builder;
  avg_block_initialization : Perbill → Builder → Builder;
  (** [None] stands for the panic of [build_or_panic]. *)
  build_or_panic : Builder → option BlockWeights;
  class_of_builder : Builder → DispatchClass → WeightsPerClass;
  per_class : BlockWeights → DispatchClass → WeightsPerClass;
  max_block : BlockWeights → Weight;
  BlockLength : Type;
  max_with_normal_ratio : N → Perbill → BlockLength;
}.

Section totals.
Context {W : SpWeights}.

(** The larger of two weights, in time and in proof size. *)
Definition weight_max (a b : Weight) : Weight :=
  from_parts (N.max (ref_time a) (ref_time b)) (N.max (proof_size a) (proof_size b)).

(** The largest total a class may use; nothing for a class without a total. *)
Definition largest_total (limits : DispatchClass → WeightsPerClass) : Weight :=
  let total c := match (limits c).(max_total) with Some w => w | None => from_parts 0 0 end in
  weight_max (total Normal) (weight_max (total Operational) (total Mandatory)).
End totals.

(** [for_class] applies the function to the classes it names; building keeps what
    was set for a class, and may fill in its [max_extrinsic]; the block is as
    large as the largest total of a class; and at first mandatory extrinsics have
    no total. *)
Class BlockWeightsLaws {W : SpWeights} (B : BlockWeightsApi) : Prop := {
  base_block_class w b c : class_of_builder (base_block w b) c = class_of_builder b c;
  for_class_class cs f b c :
    class_of_builder (for_class cs f b) c =
    if decide (c ∈ cs) then f (class_of_builder b c) else class_of_builder b c;
  avg_class r b c :
    class_of_builder (avg_block_initialization r b) c = class_of_builder b c;
  build_class b w c :
    build_or_panic b = Some w →
    base_extrinsic (per_class w c) = base_extrinsic (class_of_builder b c) ∧
    max_total (per_class w c) = max_total (class_of_builder b c) ∧
    reserved (per_class w c) = reserved (class_of_builder b c);
  build_max_block b w :
    build_or_panic b = Some w → max_block w = largest_total (class_of_builder b);
  builder_mandatory : max_total (class_of_builder builder Mandatory) = None;
}.

Section limits.
Context {W : SpWeights} {B : BlockWeightsApi}.

(** [cumulus_primitives_core::relay_chain::MAX_POV_SIZE], a [u32]. *)
Variable MAX_POV_SIZE : N.

Definition AVERAGE_ON_INITIALIZE_RATIO : Perbill := from_percent 5.
Definition NORMAL_DISPATCH_RATIO : Perbill := from_percent 75.
Definition MAXIMUM_BLOCK_WEIGHT : Weight :=
  from_parts (saturating_mul u64_MAX WEIGHT_REF_TIME_PER_SECOND 2) MAX_POV_SIZE.

Definition all_classes : list DispatchClass := [Normal; Operational; Mandatory].

Definition set_base_extrinsic (weights : WeightsPerClass) : WeightsPerClass :=
  mkPerClass _ ExtrinsicBaseWeight weights.(max_extrinsic) weights.(max_total)
    weights.(reserved).
Definition set_normal (weights : WeightsPerClass) : WeightsPerClass :=
  mkPerClass _ weights.(base_extrinsic) weights.(max_extrinsic)
    (Some (perbill_mul_weight NORMAL_DISPATCH_RATIO MAXIMUM_BLOCK_WEIGHT))
    weights.(reserved).
Definition set_operational (weights : WeightsPerClass) : WeightsPerClass :=
  mkPerClass _ weights.(base_extrinsic) weights.(max_extrinsic)
    (Some MAXIMUM_BLOCK_WEIGHT)
    (Some (weight_sub MAXIMUM_BLOCK_WEIGHT
             (perbill_mul_weight NORMAL_DISPATCH_RATIO MAXIMUM_BLOCK_WEIGHT))).

Definition RuntimeBlockWeights : option BlockWeights :=
  build_or_panic
    (avg_block_initialization AVERAGE_ON_INITIALIZE_RATIO
      (for_class [Operational] set_operational
        (for_class [Normal] set_normal
          (for_class all_classes set_base_extrinsic
            (base_block BlockExecutionWeight builder))))).

Definition RuntimeBlockLength : BlockLength :=
  max_with_normal_ratio (5 * 1024 * 1024) NORMAL_DISPATCH_RATIO.

Definition ReservedXcmpWeight : Weight := weight_saturating_div MAXIMUM_BLOCK_WEIGHT 4.
Definition ReservedDmpWeight : Weight := weight_saturating_div MAXIMUM_BLOCK_WEIGHT 4.

Definition MessageQueueServiceWeight : option Weight :=
  (λ w, perbill_mul_weight (from_percent 35) (max_block w)) <$> RuntimeBlockWeights.
End limits.

(** ** Parameters of the configured pallets (configs/mod.rs) *)

Definition SS58Prefix : N := 42.
Definition TemplatePalletId : string := "template".
Definition PotId : string := "PotStake".
Definition Period : N := wrapping_mul u32_MAX 6 HOURS.
Definition Offset : N := 0.
Definition SessionLength : N := wrapping_mul u32_MAX 6 HOURS.
Definition KickThreshold : N := Period.
Definition MaxAuthorities : N := 100000.
Definition MaxCandidates : N := 100.
Definition MinEligibleCollators : N := 4.
Definition MaxInvulnerables : N := 20.
Definition MessageQueueHeapSize : N := 103 * 1024.
Definition MaxPageSize : N := N.shiftl 1 16.

(** ** The pallet table (lib.rs, [mod runtime]) *)

Definition pallets : list (N * string) :=
  [ (0, "System"); (1, "ParachainSystem"); (2, "Timestamp"); (3, "ParachainInfo");
    (10, "Balances"); (11, "TransactionPayment"); (15, "Sudo");
    (20, "Authorship"); (21, "CollatorSelection"); (22, "Session"); (23, "Aura");
    (24, "AuraExt"); (30, "XcmpQueue"); (31, "PolkadotXcm"); (32, "CumulusXcm");
    (33, "MessageQueue"); (50, "TemplatePallet") ]%string.

(** ** Instances for concrete runs *)

Definition TestWeightToFee : @WeightToFee TestWeights := {|
  eval_polynomial cs w :=
    match cs with
    | [c] =>
        saturating_add u128_MAX (perbill_mul c.(coeff_frac) (ref_time w))
          (saturating_mul u128_MAX c.(coeff_integer) (ref_time w))
    | _ => 0
    end;
|}.

#[export] Instance TestWeightToFeeLaws : WeightToFeeLaws TestWeightToFee.
Proof. by split. Qed.

(** A builder that keeps the limits of each class, with none set at first. *)
Definition TestBlockWeights : @BlockWeightsApi TestWeights := {|
  Builder := DispatchClass → @WeightsPerClass TestWeights;
  BlockWeights := DispatchClass → @WeightsPerClass TestWeights;
  builder := λ _, mkPerClass TestWeights (0, 0) None None None;
  base_block _ b := b;
  for_class cs f b := λ c, if decide (c ∈ cs) then f (b c) else b c;
  avg_block_initialization _ b := b;
  build_or_panic b := Some b;
  class_of_builder b := b;
  per_class b := b;
  max_block b := largest_total (W := TestWeights) b;
  BlockLength := N * N;
  max_with_normal_ratio n r := (n, r);
|}.

#[export] Instance TestBlockWeightsLaws : BlockWeightsLaws TestBlockWeights.
Proof. split; try done; cbn; [by intros b w c [= <-]|by intros b w [= <-]]. Qed.

(** ** Properties *)

(** The time units are those of a six-second block: a minute, an hour and a
    day of blocks last as long as their names say, a session is six hours, the
    kick threshold is a whole session, and the slot duration is the relay
    chain's, one block per relay slot. *)
Theorem time_units_are_consistent :
  MINUTES * MILLI_SECS_PER_BLOCK = 60 * 1000 ∧
  HOURS * MILLI_SECS_PER_BLOCK = 3600 * 1000 ∧
  DAYS * MILLI_SECS_PER_BLOCK = 24 * 3600 * 1000 ∧
  Period * MILLI_SECS_PER_BLOCK = 6 * 3600 * 1000 ∧
  SessionLength = Period ∧ KickThreshold mod Period = Offset ∧
  SLOT_DURATION * BLOCK_PROCESSING_VELOCITY = RELAY_CHAIN_SLOT_DURATION_MILLIS.
Proof. by vm_compute. Qed.

Section fee_properties.
Context {W : SpWeights} {HW : SpWeightsLaws W} {F : WeightToFee} {HF : WeightToFeeLaws F}.

Lemma polynomial_term :
  polynomial = [mkCoefficient _ 0 (from_rational 100000000 12500000000) false 1].
Proof.
  unfold polynomial, ExtrinsicBaseWeight. rewrite ref_time_from_parts, per_nanos. done.
Qed.

Lemma polynomial_frac : deconstruct (from_rational 100000000 12500000000) = 8000000.
Proof. by rewrite deconstruct_from_rational. Qed.

Lemma weight_to_fee_frac w :
  ref_time w ≤ u64_MAX →
  weight_to_fee w = perbill_mul (from_rational 100000000 12500000000) (ref_time w).
Proof.
  intros Hw. unfold weight_to_fee. rewrite polynomial_term, eval_linear.
  pose proof (perbill_mul_nearest (from_rational 100000000 12500000000) (ref_time w)) as Hn.
  rewrite polynomial_frac in Hn.
  unfold saturating_add, saturating_mul, u128_MAX, u64_MAX in *. lia.
Qed.

(** The weight fee is one unit of balance for every 125 picoseconds of
    computation, to the nearest unit, for every weight there is, without
    overflow; a heavier call never pays less. *)
Theorem weight_fee_rate w w' :
  ref_time w ≤ ref_time w' → ref_time w' ≤ u64_MAX →
  2 * (weight_to_fee w * 125) ≤ 2 * ref_time w + 125 ∧
  2 * ref_time w ≤ 2 * (weight_to_fee w * 125) + 125 ∧
  weight_to_fee w ≤ weight_to_fee w'.
Proof.
  intros Hle Hw. rewrite !weight_to_fee_frac by lia.
  pose proof (perbill_mul_nearest (from_rational 100000000 12500000000) (ref_time w)) as Hn.
  rewrite polynomial_frac in Hn. split_and!; [lia..|]. by apply perbill_mul_mono.
Qed.

Lemma base_weight_fee : weight_to_fee ExtrinsicBaseWeight = MICRO_UNIT.
Proof.
  unfold ExtrinsicBaseWeight.
  rewrite weight_to_fee_frac; rewrite ref_time_from_parts, per_nanos; [|by vm_compute].
  apply perbill_mul_exact. by rewrite polynomial_frac.
Qed.

(** The base weight of an extrinsic costs one micro-unit, a thousandth of
    [MILLI_UNIT], and a second of computation eight milli-units. *)
Theorem extrinsic_base_fee :
  weight_to_fee ExtrinsicBaseWeight = MICRO_UNIT ∧
  weight_to_fee (from_parts WEIGHT_REF_TIME_PER_SECOND 0) = 8 * MILLI_UNIT.
Proof.
  split; [exact base_weight_fee|].
  rewrite weight_to_fee_frac; rewrite ref_time_from_parts, per_second; [|by vm_compute].
  apply perbill_mul_exact. by rewrite polynomial_frac.
Qed.
End fee_properties.

Section limit_properties.
Context {W : SpWeights} {HW : SpWeightsLaws W} {B : BlockWeightsApi} {HB : BlockWeightsLaws B}.

(** The block is the maximum weight the runtime names. *)
Lemma max_block_weight pov w :
  RuntimeBlockWeights pov = Some w →
  ref_time (max_block w) = ref_time (MAXIMUM_BLOCK_WEIGHT pov) ∧
  proof_size (max_block w) = proof_size (MAXIMUM_BLOCK_WEIGHT pov).
Proof.
  unfold RuntimeBlockWeights. intros Hb. rewrite (build_max_block _ _ Hb).
  unfold largest_total. rewrite !avg_class, !for_class_class, !base_block_class.
  change (max_total (if decide (Normal ∈ [Operational]) then _ else _)) with
    (Some (perbill_mul_weight NORMAL_DISPATCH_RATIO (MAXIMUM_BLOCK_WEIGHT pov))).
  change (max_total (if decide (Operational ∈ [Operational]) then _ else _)) with
    (Some (MAXIMUM_BLOCK_WEIGHT pov)).
  change (max_total (if decide (Mandatory ∈ [Operational]) then _ else _)) with
    (max_total (class_of_builder builder Mandatory)).
  rewrite builder_mandatory. unfold weight_max.
  rewrite !ref_time_from_parts, !proof_size_from_parts, ref_time_perbill_mul,
    proof_size_perbill_mul.
  pose proof (perbill_mul_le 75 (ref_time (MAXIMUM_BLOCK_WEIGHT pov)) ltac:(done)).
  pose proof (perbill_mul_le 75 (proof_size (MAXIMUM_BLOCK_WEIGHT pov)) ltac:(done)).
  unfold NORMAL_DISPATCH_RATIO. lia.
Qed.

(** Every class pays the base weight of the weight file. *)
Lemma runtime_base_extrinsic pov w c :
  RuntimeBlockWeights pov = Some w → base_extrinsic (per_class w c) = ExtrinsicBaseWeight.
Proof.
  unfold RuntimeBlockWeights. intros Hb. destruct (build_class _ _ c Hb) as (-> & _ & _).
  rewrite avg_class, !for_class_class. by destruct c.
Qed.

(** In the block limits of the runtime every class pays the same base
    weight; normal extrinsics may use one and a half seconds of computation out
    of two, operational ones all of it; and what is reserved for operational
    extrinsics is exactly what normal ones may not use, in time and in proof
    size. *)
Theorem block_limits_partition pov w :
  RuntimeBlockWeights pov = Some w →
  (∀ c, base_extrinsic (per_class w c) = ExtrinsicBaseWeight) ∧
  ∃ normal res,
    max_total (per_class w Normal) = Some normal ∧
    max_total (per_class w Operational) = Some (MAXIMUM_BLOCK_WEIGHT pov) ∧
    reserved (per_class w Operational) = Some res ∧
    ref_time normal = 1500000000000 ∧
    ref_time normal + ref_time res = ref_time (MAXIMUM_BLOCK_WEIGHT pov) ∧
    proof_size normal + proof_size res = proof_size (MAXIMUM_BLOCK_WEIGHT pov) ∧
    ref_time (MAXIMUM_BLOCK_WEIGHT pov) = 2 * WEIGHT_REF_TIME_PER_SECOND.
Proof.
  intros Hb. split; [intros c; by eapply runtime_base_extrinsic|].
  unfold RuntimeBlockWeights in Hb.
  destruct (build_class _ _ Normal Hb) as (_ & Hn & _).
  destruct (build_class _ _ Operational Hb) as (_ & Ho & Hr).
  rewrite avg_class, !for_class_class in Hn, Ho, Hr. cbn in Hn, Ho, Hr.
  assert (Hle : ∀ n, perbill_mul NORMAL_DISPATCH_RATIO n ≤ n)
    by (intros n; by apply perbill_mul_le).
  assert (Hsub : ∀ f m, ref_time (perbill_mul_weight f m) = perbill_mul f (ref_time m) ∧
                        proof_size (perbill_mul_weight f m) = perbill_mul f (proof_size m))
    by (intros; by rewrite ref_time_perbill_mul, proof_size_perbill_mul).
  assert (Ht : ref_time (MAXIMUM_BLOCK_WEIGHT pov) = 2 * WEIGHT_REF_TIME_PER_SECOND).
  { unfold MAXIMUM_BLOCK_WEIGHT. by rewrite ref_time_from_parts, per_second. }
  do 2 eexists. split_and!; [exact Hn|exact Ho|exact Hr|..|exact Ht].
  - rewrite ref_time_perbill_mul, Ht, per_second. apply perbill_mul_exact.
    unfold NORMAL_DISPATCH_RATIO. by rewrite deconstruct_from_percent.
  - rewrite ref_time_sub; rewrite ref_time_perbill_mul; [|done].
    specialize (Hle (ref_time (MAXIMUM_BLOCK_WEIGHT pov))). lia.
  - rewrite proof_size_sub; rewrite proof_size_perbill_mul; [|done].
    specialize (Hle (proof_size (MAXIMUM_BLOCK_WEIGHT pov))). lia.
Qed.
End limit_properties.

(** With the runtime's existential deposit as the minimum balance, the
    registration fee of the pallet is a tenth of a unit, and the product does
    not overflow. *)
Theorem runtime_registration_fee {C : Config} :
  minimum_balance = EXISTENTIAL_DEPOSIT →
  registration_fee = UNIT / 10 ∧ EXISTENTIAL_DEPOSIT * 100 ≤ u128_MAX.
Proof. intros Hm. unfold registration_fee. rewrite Hm. by vm_compute. Qed.

(** No two pallets share an index or a name, and the collator pallets come
    in the order that must not change. *)
Theorem pallet_table_well_formed :
  NoDup pallets.*1 ∧ NoDup pallets.*2 ∧
  filter (λ p, 20 ≤ p.1 < 24) pallets =
    [(20, "Authorship"); (21, "CollatorSelection"); (22, "Session"); (23, "Aura")]%string.
Proof. split_and!; [by vm_compute; apply (bool_decide_unpack _)|by vm_compute; apply (bool_decide_unpack _)|by vm_compute]. Qed.

(** ** Examples *)

Lemma weight_fee_rate_witness :
  @weight_to_fee TestWeights TestWeightToFee (1000, 0) ≤
  @weight_to_fee TestWeights TestWeightToFee (2000, 0) ∧
  2 * (@weight_to_fee TestWeights TestWeightToFee (1000, 0) * 125) ≤ 2 * 1000 + 125.
Proof.
  destruct (weight_fee_rate (W := TestWeights) (F := TestWeightToFee) (1000, 0) (2000, 0))
    as (Hu & _ & Hm); [vm_compute; discriminate..|].
  split; [exact Hm|exact Hu].
Defined.

Lemma extrinsic_base_fee_witness :
  @weight_to_fee TestWeights TestWeightToFee (@ExtrinsicBaseWeight TestWeights) = MICRO_UNIT.
Proof. apply (extrinsic_base_fee (W := TestWeights) (F := TestWeightToFee)). Defined.

Lemma block_limits_partition_witness :
  ∃ w, @RuntimeBlockWeights TestWeights TestBlockWeights (5 * 1024 * 1024) = Some w ∧
    @max_total TestWeights (w Operational) =
      Some (@MAXIMUM_BLOCK_WEIGHT TestWeights (5 * 1024 * 1024)).
Proof.
  eexists. split; [reflexivity|].
  destruct (block_limits_partition (W := TestWeights) (B := TestBlockWeights)
    (5 * 1024 * 1024) _ eq_refl) as (_ & n & r & _ & Ho & _).
  exact Ho.
Defined.

Lemma runtime_registration_fee_witness :
  @registration_fee (ConfigWith EXISTENTIAL_DEPOSIT) = UNIT / 10.
Proof. apply (runtime_registration_fee (C := ConfigWith EXISTENTIAL_DEPOSIT)). reflexivity. Defined.
