(* ===== verification/Wiring.v ===== *)
(** * Which pallet serves which (src/runtime/src/configs)

The pallets a configuration hands work to: for each [Config] implementation of
configs/mod.rs and xcm_config.rs that names other pallets of the runtime, the roles
it gives them. *)
From S2P Require Import Prelude Weights Runtime.

Local Open Scope N_scope.
Local Open Scope string_scope.

(** The associated types that name a pallet of the runtime. *)
Inductive role :=
| OnTimestampSet | FindAuthor | EventHandler | AccountStore | OnChargeTransaction
| SelfParaId | OutboundXcmpMessageSource | DmpQueue | XcmpMessageHandler
| QueueChangeHandler | QueuePausedQuery | ChannelInfo | XcmpQueue | SessionManager
| Currency | ValidatorRegistration | AssetTransactor | TraderCurrency | ResponseHandler
| AssetTrap | AssetClaims | SubscriptionService | XcmRecorder | UmpRouter | XcmpRouter.

#[export] Instance role_eq_dec : EqDecision role.
Proof. solve_decision. Defined.

(** The pallet that is configured, the role, and the pallet that has it. *)
Definition wire : Type := string * role * string.

Definition timestamp_wires : list wire := [("Timestamp", OnTimestampSet, "Aura")].
Definition authorship_wires : list wire :=
  [("Authorship", FindAuthor, "Aura"); ("Authorship", EventHandler, "CollatorSelection")].
Definition balances_wires : list wire := [("Balances", AccountStore, "System")].
Definition transaction_payment_wires : list wire :=
  [("TransactionPayment", OnChargeTransaction, "Balances")].
Definition parachain_system_wires : list wire :=
  [("ParachainSystem", SelfParaId, "ParachainInfo");
   ("ParachainSystem", OutboundXcmpMessageSource, "XcmpQueue");
   ("ParachainSystem", DmpQueue, "MessageQueue");
   ("ParachainSystem", XcmpMessageHandler, "XcmpQueue")].
Definition message_queue_wires : list wire :=
  [("MessageQueue", QueueChangeHandler, "XcmpQueue");
   ("MessageQueue", QueuePausedQuery, "XcmpQueue")].
Definition xcmp_queue_wires : list wire :=
  [("XcmpQueue", ChannelInfo, "ParachainSystem"); ("XcmpQueue", XcmpQueue, "MessageQueue")].
Definition session_wires : list wire := [("Session", SessionManager, "CollatorSelection")].
Definition collator_selection_wires : list wire :=
  [("CollatorSelection", Currency, "Balances");
   ("CollatorSelection", ValidatorRegistration, "Session")].
Definition template_wires : list wire := [("TemplatePallet", Currency, "Balances")].

(** The executor runs for [PolkadotXcm], [CumulusXcm] and [MessageQueue]; its
    configuration is listed under the first. *)
Definition executor_wires : list wire :=
  [("PolkadotXcm", AssetTransactor, "Balances"); ("PolkadotXcm", TraderCurrency, "Balances");
   ("PolkadotXcm", ResponseHandler, "PolkadotXcm"); ("PolkadotXcm", AssetTrap, "PolkadotXcm");
   ("PolkadotXcm", AssetClaims, "PolkadotXcm");
   ("PolkadotXcm", SubscriptionService, "PolkadotXcm");
   ("PolkadotXcm", XcmRecorder, "PolkadotXcm")].
Definition polkadot_xcm_wires : list wire :=
  [("PolkadotXcm", UmpRouter, "ParachainSystem"); ("PolkadotXcm", XcmpRouter, "XcmpQueue");
   ("PolkadotXcm", Currency, "Balances")].

Definition wires : list wire :=
  timestamp_wires ++ authorship_wires ++ balances_wires ++ transaction_payment_wires ++
  parachain_system_wires ++ message_queue_wires ++ xcmp_queue_wires ++ session_wires ++
  collator_selection_wires ++ template_wires ++ executor_wires ++ polkadot_xcm_wires.

(** The roles that move money. *)
Definition moves_money (r : role) : bool :=
  bool_decide (r ∈ [OnChargeTransaction; Currency; AssetTransactor; TraderCurrency]).

(** A property of every wire, by computation. *)
Lemma wires_check (P : wire → Prop) `{!∀ w, Decision (P w)} w :
  bool_decide (Forall P wires) = true → w ∈ wires → P w.
Proof. rewrite bool_decide_eq_true, Forall_forall. auto. Qed.

(** A list of pairs with different first components is a function. *)
Lemma pairs_functional {A B} (l : list (A * B)) a b b' :
  NoDup l.*1 → (a, b) ∈ l → (a, b') ∈ l → b = b'.
Proof.
  induction l as [|[a0 b0] l IH]; cbn; [by intros _ ?%elem_of_nil|].
  intros [Hn Hd]%NoDup_cons H1 H2. apply elem_of_cons in H1, H2.
  assert (Hin : ∀ b, (a, b) ∈ l → a ∈ l.*1) by (intros b1; apply (list_elem_of_fmap_2 fst)).
  destruct H1 as [H1|H1], H2 as [H2|H2]; simplify_eq; naive_solver.
Qed.

(** The configurations fit together: they name only pallets of the runtime, and give
    each role once; whatever moves money, fees, messages or the pallet, moves it in
    the one ledger of [Balances]; the messages of the relay chain and of the siblings
    end in the one [MessageQueue]; and the pallet that hears of the siblings' queues
    there, and may pause them, is the one that fills them. *)
Theorem wiring_is_consistent :
  (∀ p r q, (p, r, q) ∈ wires → p ∈ pallets.*2 ∧ q ∈ pallets.*2) ∧
  (∀ p r q q', (p, r, q) ∈ wires → (p, r, q') ∈ wires → q = q') ∧
  (∀ p r q, (p, r, q) ∈ wires → moves_money r = true → q = "Balances") ∧
  (∀ q, ("ParachainSystem", DmpQueue, q) ∈ wires → q = "MessageQueue") ∧
  (∀ q q', ("ParachainSystem", XcmpMessageHandler, q) ∈ wires → (q, XcmpQueue, q') ∈ wires →
     q' = "MessageQueue" ∧ ("MessageQueue", QueueChangeHandler, q) ∈ wires ∧
     ("MessageQueue", QueuePausedQuery, q) ∈ wires).
Proof.
  split_and!.
  - intros p r q. apply (wires_check (λ w, w.1.1 ∈ pallets.*2 ∧ w.2 ∈ pallets.*2)). by vm_compute.
  - intros p r q q' H1 H2.
    apply (pairs_functional wires (p, r)); [|done..]. apply (bool_decide_unpack _). by vm_compute.
  - intros p r q H Hm.
    refine (wires_check (λ w, moves_money w.1.2 = true → w.2 = "Balances") _ _ H Hm). by vm_compute.
  - intros q H.
    refine (wires_check (λ w, w.1 = ("ParachainSystem", DmpQueue) → w.2 = "MessageQueue") _ _ H eq_refl).
    by vm_compute.
  - intros q q' H H'.
    assert (q = "XcmpQueue") as ->.
    { refine (wires_check (λ w, w.1 = ("ParachainSystem", XcmpMessageHandler) → w.2 = "XcmpQueue")
        _ _ H eq_refl). by vm_compute. }
    split; [|split; by apply (bool_decide_unpack _); vm_compute].
    refine (wires_check (λ w, w.1 = ("XcmpQueue", XcmpQueue) → w.2 = "MessageQueue") _ _ H' eq_refl).
    by vm_compute.
Qed.
