(* ===== verification/Xcm.v ===== *)
(** * Cross-consensus messages (src/runtime/src/configs/xcm_config.rs)

Which messages from other chains the runtime lets in, what they may cost, where
its own messages go, and which accounts foreign locations stand for. The file
composes filters of the xcm libraries; their operators are an interface, and the
composition is translated. *)
From S2P Require Import Prelude Frame NftPallet FrameModel Weights Runtime.

Local Open Scope N_scope.

(** ** Interface *)

(** Locations and instructions of the XCM language, with what is asked of them. *)
Class XcmTypes `{SpWeights} := {
  Location : Type;
  Junction : Type;
  BodyId : Type;
  BodyId_eq_dec :: EqDecision BodyId;
  Instruction : Type;
  InteriorLocation : Type;
  ProcessMessageError : Type;
  (** [Location::unpack]: the number of parents, and the interior. *)
  unpack : Location → N * list Junction;
  Location_parent : Location;
  (** The [id] of a [Plurality] junction, and of a [Parachain] one. *)
  plurality_id : Junction → option BodyId;
  parachain_junction : Junction → option N;
  Executive : BodyId;
  Parachain_interior : N → InteriorLocation;
  (** A [SetTopic]. *)
  sets_topic : Instruction → bool;
  (** An [InitiateReserveWithdraw], [DepositReserveAsset] or [TransferReserveAsset]
      whose reserve or destination is the relay chain. *)
  reserve_to_relay : Instruction → bool;
  (** An [UnpaidExecution] whose limit is at least the given weight. *)
  unpaid : Instruction → Weight → bool;
  (** The message loads assets and buys the given weight with them first. *)
  pays : list Instruction → Weight → bool;
  (** The properties of a message: the weight credit it comes with, and its id. *)
  Properties : Type;
  weight_credit : Properties → Weight;
  (** Origin and rest of a message after its leading [UniversalOrigin] and
      [DescendOrigin] instructions; an error if they are not allowed. *)
  compute_origin : InteriorLocation → N → Location → list Instruction →
    result (Location * list Instruction) ProcessMessageError;
}.

(** [ShouldExecute]: a filter sees the origin and the weight of a message, may
    change its instructions and properties, and refuses it with an error. *)
Definition barrier `{X : XcmTypes} : Type :=
  Location → Weight → rust (list Instruction * Properties) ProcessMessageError unit.

(** The filters of xcm_builder. *)
Class XcmBarriers `{X : XcmTypes} := {
  TrailingSetTopicAsId : barrier → barrier;
  DenyThenTry : barrier → barrier → barrier;
  DenyReserveTransferToRelayChain : barrier;
  TakeWeightCredit : barrier;
  WithComputedOrigin : barrier → InteriorLocation → N → barrier;
  AllowTopLevelPaidExecutionFrom : (Location → bool) → barrier;
  AllowExplicitUnpaidExecutionFrom : (Location → bool) → barrier;
  (** A tuple of filters. *)
  any_barrier : list barrier → barrier;
}.

Section without_topic.
Context `{X : XcmTypes}.

(** A message without a final [SetTopic]. *)
Definition without_topic (xs : list Instruction) : list Instruction :=
  match last xs with
  | Some x => if sets_topic x then removelast xs else xs
  | None => xs
  end.

(** The credit covers the weight, in time and in proof size. *)
Definition covers (credit w : Weight) : bool :=
  (ref_time w <=? ref_time credit) && (proof_size w <=? proof_size credit).
End without_topic.

(** What the filters document. *)
Class XcmBarriersLaws `{B : XcmBarriers} : Prop := {
  (** The inner filter sees the message without its topic, and the same credit. *)
  trailing_inner b o w xs p : ∃ p', weight_credit p' = weight_credit p ∧
    (TrailingSetTopicAsId b o w (xs, p)).1 = (b o w (without_topic xs, p')).1;
  (** A message passes if it is not denied and then allowed. *)
  deny_then_try deny allow o w s :
    DenyThenTry deny allow o w s = (deny o w;; allow o w) s;
  deny_reserve o w xs p :
    if existsb reserve_to_relay xs
    then is_ok (DenyReserveTransferToRelayChain o w (xs, p)).1 = false
    else DenyReserveTransferToRelayChain o w (xs, p) = (Ok (), (xs, p));
  (** The filters of a tuple are tried in order; the first that passes decides. *)
  any_none o w s : is_ok (any_barrier [] o w s).1 = false;
  any_some b bs o w s :
    any_barrier (b :: bs) o w s =
    match b o w s with
    | (Ok x, s') => (Ok x, s')
    | (Err _, s') => any_barrier bs o w s'
    end;
  (** Enough credit lets a message pass; otherwise nothing changes. *)
  take_credit o w xs p :
    if covers (weight_credit p) w
    then is_ok (TakeWeightCredit o w (xs, p)).1 = true
    else ∃ e, TakeWeightCredit o w (xs, p) = (Err e, (xs, p));
  computed_origin b u n o w xs p :
    is_ok (WithComputedOrigin b u n o w (xs, p)).1 =
    match compute_origin u n o xs with
    | Ok (o', xs') => is_ok (b o' w (xs', p)).1
    | Err _ => false
    end;
  (** Payment from an allowed origin; a refused message is left as it was. *)
  allow_paid f o w xs p :
    if f o && pays xs w
    then is_ok (AllowTopLevelPaidExecutionFrom f o w (xs, p)).1 = true
    else ∃ e, AllowTopLevelPaidExecutionFrom f o w (xs, p) = (Err e, (xs, p));
  allow_unpaid f o w xs p :
    is_ok (AllowExplicitUnpaidExecutionFrom f o w (xs, p)).1 =
    f o && match xs with x :: _ => unpaid x w | [] => false end;
  (** Instructions are of one kind. *)
  topic_not_reserve x : sets_topic x = true → reserve_to_relay x = false;
  unpaid_pays_not x xs w w' : unpaid x w = true → pays (x :: xs) w' = false;
  parent_unpacks : unpack Location_parent = (1, []);
}.

(** ** Definitions *)
Section config.
Context `{B : XcmBarriers}.

(** [Everything] and [Nothing] of frame_support. *)
Definition Everything {A} (_ : A) : bool := true.
Definition Nothing {A} (_ : A) : bool := false.

Definition RelayLocation : Location := Location_parent.

Definition UnitWeightCost : Weight := from_parts 1000000000 (64 * 1024).
Definition MaxInstructions : N := 100.
Definition MaxAssetsIntoHolding : N := 64.

(** [UniversalLocation], where [parachain_id] is [ParachainInfo::parachain_id()]. *)
Definition UniversalLocation (parachain_id : N) : InteriorLocation :=
  Parachain_interior parachain_id.

(** [ParentOrParentsExecutivePlurality::contains]. *)
Definition ParentOrParentsExecutivePlurality (location : Location) : bool :=
  match unpack location with
  | (1, []) => true
  | (1, [j]) =>
      match plurality_id j with Some id => bool_decide (id = Executive) | None => false end
  | _ => false
  end.

Definition Barrier (parachain_id : N) : barrier :=
  TrailingSetTopicAsId
    (DenyThenTry
       DenyReserveTransferToRelayChain
       (any_barrier
          [ TakeWeightCredit;
            WithComputedOrigin
              (any_barrier
                 [ AllowTopLevelPaidExecutionFrom Everything;
                   AllowExplicitUnpaidExecutionFrom ParentOrParentsExecutivePlurality ])
              (UniversalLocation parachain_id) 8 ])).

(** The filters of [pallet_xcm::Config]. *)
Definition XcmExecuteFilter {A} : A → bool := Nothing.
Definition XcmTeleportFilter {A} : A → bool := Everything.
Definition XcmReserveTransferFilter {A} : A → bool := Nothing.
End config.

(** ** The decision of the barrier *)
Section decision.
Context `{B : XcmBarriers}.

(** Paid for, or asked for free by the relay chain or its executive body. *)
Definition entitled (o : Location) (xs : list Instruction) (w : Weight) : bool :=
  pays xs w ||
  (ParentOrParentsExecutivePlurality o && match xs with x :: _ => unpaid x w | [] => false end).

(** The messages the runtime lets in. *)
Definition admits (id : N) (o : Location) (w : Weight) (xs : list Instruction)
    (p : Properties) : bool :=
  let xs := without_topic xs in
  negb (existsb reserve_to_relay xs) &&
  (covers (weight_credit p) w ||
   match compute_origin (UniversalLocation id) 8 o xs with
   | Ok (o', xs') => entitled o' xs' w
   | Err _ => false
   end).
End decision.

Section barrier_properties.
Context `{B : XcmBarriers} {HB : XcmBarriersLaws}.

(** A topic hides no reserve transfer. *)
Lemma existsb_without_topic xs :
  existsb reserve_to_relay (without_topic xs) = existsb reserve_to_relay xs.
Proof.
  unfold without_topic. destruct xs as [|x xs _] using rev_ind; [done|].
  rewrite last_snoc. destruct (sets_topic x) eqn:Hx; [|done].
  rewrite removelast_last, existsb_app. cbn. by rewrite (topic_not_reserve x Hx), !orb_false_r.
Qed.

Lemma any_one b o w s : is_ok (any_barrier [b] o w s).1 = is_ok (b o w s).1.
Proof.
  rewrite any_some. destruct (b o w s) as [[[]|e] s']; [done|].
  by rewrite any_none.
Qed.

(** The inner tuple: payment first, then the free execution of the relay chain. *)
Lemma inner_decides o w xs p :
  is_ok (any_barrier
    [ AllowTopLevelPaidExecutionFrom Everything;
      AllowExplicitUnpaidExecutionFrom ParentOrParentsExecutivePlurality ] o w (xs, p)).1 =
  entitled o xs w.
Proof.
  rewrite any_some. unfold entitled. pose proof (allow_paid Everything o w xs p) as Hp. cbn in Hp.
  destruct (pays xs w); cbn.
  - by destruct (AllowTopLevelPaidExecutionFrom _ _ _ _) as [[[]|] ?].
  - destruct Hp as [e ->]. by rewrite any_one, allow_unpaid.
Qed.

Lemma barrier_decides id o w xs p :
  is_ok (Barrier id o w (xs, p)).1 = admits id o w xs p.
Proof.
  unfold Barrier, admits. edestruct trailing_inner as (p' & Hc & ->). rewrite deny_then_try, <- Hc.
  pose proof (deny_reserve o w (without_topic xs) p') as Hd.
  destruct (existsb reserve_to_relay (without_topic xs)) eqn:Hr; cbn.
  { destruct (DenyReserveTransferToRelayChain _ _ _) as [[[]|e] s] eqn:E; [done|].
    by rewrite (bind_err _ _ _ _ _ E). }
  rewrite (bind_ok _ _ _ _ _ Hd), any_some.
  pose proof (take_credit o w (without_topic xs) p') as Ht.
  destruct (covers (weight_credit p') w); cbn.
  - by destruct (TakeWeightCredit _ _ _) as [[[]|] ?].
  - destruct Ht as [e ->]. rewrite any_one, computed_origin.
    destruct (compute_origin _ _ _ _) as [[o' xs']|]; [apply inner_decides|done].
Qed.

(** The relay chain, or its executive body. *)
Definition relay_or_executive (o : Location) : Prop :=
  unpack o = (1, []) ∨ ∃ j, unpack o = (1, [j]) ∧ plurality_id j = Some Executive.

Lemma contains_spec o :
  ParentOrParentsExecutivePlurality o = true ↔ relay_or_executive o.
Proof.
  unfold ParentOrParentsExecutivePlurality, relay_or_executive.
  split; [|intros [-> |(j & -> & ->)]; [done|by rewrite bool_decide_true]].
  destruct (unpack o) as [[|[|[]|]] [|j [|]]] eqn:E; try done; [by left|].
  destruct (plurality_id j) eqn:Hj; [|done]. rewrite bool_decide_eq_true. intros ->. eauto.
Qed.

(** C24. The barrier lets in exactly the messages none of whose top-level
    instructions is a reserve transfer through the relay chain and that either come
    with enough weight credit or, after their origin is computed, pay for their
    weight or ask for free execution on behalf of the relay chain or its executive
    body. So no message with such an instruction at its top level gets in, from
    anywhere and at any price, and without credit nobody but those two executes for
    free. The messages nested in instructions are not looked at, by the barrier or
    here. *)
Theorem barrier_is_safe id o w xs p :
  is_ok (Barrier id o w (xs, p)).1 = admits id o w xs p ∧
  (existsb reserve_to_relay xs = true → is_ok (Barrier id o w (xs, p)).1 = false) ∧
  (∀ o' x xs', covers (weight_credit p) w = false →
     compute_origin (UniversalLocation id) 8 o (without_topic xs) = Ok (o', x :: xs') →
     unpaid x w = true → is_ok (Barrier id o w (xs, p)).1 = true → relay_or_executive o').
Proof.
  rewrite barrier_decides. unfold admits. split_and!; [done|..].
  - intros Hr. by rewrite existsb_without_topic, Hr.
  - intros o' x xs' -> -> Hu [_ He]%andb_true_iff. apply contains_spec. revert He.
    unfold entitled. rewrite (unpaid_pays_not _ _ _ _ Hu), Hu. cbn. by rewrite andb_true_r.
Qed.
End barrier_properties.

(** ** Accounts of locations, and the router *)

(** [ConvertLocation] and [SendXcm] of the xcm libraries: a tuple of either tries
    its members in order. *)
Class XcmRouting (AccountId Message Ticket SendError : Type) `{X : XcmTypes} := {
  ParentIsPreset : Location → option AccountId;
  SiblingParachainConvertsVia : Location → option AccountId;
  AccountId32Aliases : Location → option AccountId;
  (** Validation of a message for a destination. *)
  ParentAsUmp : Location → Message → result Ticket SendError;
  XcmpQueue : Location → Message → result Ticket SendError;
  WithUniqueTopic : (Location → Message → result Ticket SendError) →
    Location → Message → result Ticket SendError;
  NotApplicable : SendError;
  SendError_eq_dec :: EqDecision SendError;
}.

(** Each converter and router is for one kind of location; the wrapper that adds
    a topic sends to the same places as what it wraps. *)
Class XcmRoutingLaws {AccountId Message Ticket SendError : Type}
    `{R : XcmRouting AccountId Message Ticket SendError} : Prop := {
  parent_converts l : is_Some (ParentIsPreset l) → unpack l = (1, []);
  sibling_converts l : is_Some (SiblingParachainConvertsVia l) →
    ∃ j, unpack l = (1, [j]) ∧ is_Some (parachain_junction j);
  aliases_converts l : is_Some (AccountId32Aliases l) → ∃ j, unpack l = (0, [j]);
  ump_applies l m : ParentAsUmp l m ≠ Err NotApplicable ↔ unpack l = (1, []);
  xcmp_applies l m : XcmpQueue l m ≠ Err NotApplicable ↔
    ∃ j, unpack l = (1, [j]) ∧ is_Some (parachain_junction j);
  topic_applies f l m : (∀ m, f l m = Err NotApplicable) →
    WithUniqueTopic f l m = Err NotApplicable;
  topic_sends f l m : (∀ m, f l m ≠ Err NotApplicable) →
    WithUniqueTopic f l m ≠ Err NotApplicable;
}.

Section routing.
Context {AccountId Message Ticket SendError : Type}
  `{R : XcmRouting AccountId Message Ticket SendError}.

(** The first converter of a tuple that applies. *)
Fixpoint convert_first (cs : list (Location → option AccountId)) (l : Location) :
    option AccountId :=
  match cs with
  | [] => None
  | c :: cs => match c l with Some a => Some a | None => convert_first cs l end
  end.

Definition location_converters : list (Location → option AccountId) :=
  [ParentIsPreset; SiblingParachainConvertsVia; AccountId32Aliases].
Definition LocationToAccountId : Location → option AccountId :=
  convert_first location_converters.

(** The first router of a tuple that applies; any other error ends the search. *)
Fixpoint send_first (rs : list (Location → Message → result Ticket SendError))
    (l : Location) (m : Message) : result Ticket SendError :=
  match rs with
  | [] => Err NotApplicable
  | r :: rs =>
      match r l m with
      | Ok t => Ok t
      | Err e => if bool_decide (e = NotApplicable) then send_first rs l m else Err e
      end
  end.

Definition routers : list (Location → Message → result Ticket SendError) :=
  [ParentAsUmp; XcmpQueue].
Definition XcmRouter : Location → Message → result Ticket SendError :=
  WithUniqueTopic (send_first routers).
End routing.

Section routing_properties.
Context {AccountId Message Ticket SendError : Type}
  `{R : XcmRouting AccountId Message Ticket SendError} {HR : XcmRoutingLaws}.
Implicit Types (l : Location) (m : Message).

(** At most one converter applies to a location. *)
Lemma converters_disjoint c1 c2 l :
  c1 ∈ location_converters → c2 ∈ location_converters →
  is_Some (c1 l) → is_Some (c2 l) → c1 l = c2 l.
Proof.
  unfold location_converters. rewrite !elem_of_cons, !elem_of_nil.
  intros Hc1 Hc2 H1 H2.
  repeat match goal with H : _ ∨ _ |- _ => destruct H end; subst; try done;
    repeat match goal with
    | H : is_Some (ParentIsPreset _) |- _ => apply parent_converts in H
    | H : is_Some (SiblingParachainConvertsVia _) |- _ => apply sibling_converts in H as (? & ? & ?)
    | H : is_Some (AccountId32Aliases _) |- _ => apply aliases_converts in H as (? & ?)
    end; congruence.
Qed.

Lemma convert_first_Some (cs : list (Location → option AccountId)) l (a : AccountId) :
  (∀ c1 c2 : Location → option AccountId, c1 ∈ cs → c2 ∈ cs → is_Some (c1 l) → is_Some (c2 l) → c1 l = c2 l) →
  convert_first cs l = Some a ↔ ∃ c, c ∈ cs ∧ c l = Some a.
Proof.
  induction cs as [|c cs IH]; intros Hd; cbn.
  { split; [done|]. by intros (c & Hc%elem_of_nil & _). }
  destruct (c l) as [a'|] eqn:E.
  - split; [intros [= <-]; exists c; split; [left|done]|].
    intros (c2 & Hc2 & H2). rewrite <- E, <- H2. apply Hd; eauto; by left.
  - rewrite IH; [|intros; apply Hd; by try right].
    split; intros (c2 & Hc2 & H2).
    + exists c2. split; [by right|done].
    + apply elem_of_cons in Hc2 as [->|]; [congruence|eauto].
Qed.

(** The places a message can be sent to. *)
Definition reachable_destination l : Prop :=
  unpack l = (1, []) ∨ ∃ j, unpack l = (1, [j]) ∧ is_Some (parachain_junction j).

Lemma send_first_applies l m :
  send_first routers l m ≠ Err NotApplicable ↔ reachable_destination l.
Proof.
  unfold reachable_destination. rewrite <- (ump_applies l m), <- (xcmp_applies l m). cbn.
  destruct (ParentAsUmp l m) as [t|e]; [naive_solver|].
  case_bool_decide; [subst|naive_solver].
  destruct (XcmpQueue l m) as [t|e]; [naive_solver|].
  case_bool_decide as He; [subst; split; [done|by intros [?|?]]|naive_solver].
Qed.

Lemma applicable_or_not (r : result Ticket SendError) :
  r = Err NotApplicable ∨ r ≠ Err NotApplicable.
Proof. destruct r as [t|e]; [by right|]. destruct (decide (e = NotApplicable)); naive_solver. Qed.

(** A location stands for the same account in whatever order its
    converters are tried; and the router takes messages for the relay chain and
    for sibling parachains, and turns away all others as not its own. *)
Theorem locations_are_unambiguous l m :
  (∀ cs, cs ≡ₚ location_converters → convert_first cs l = LocationToAccountId l) ∧
  (XcmRouter l m ≠ Err NotApplicable ↔ reachable_destination l).
Proof.
  split.
  - intros cs Hcs. apply option_eq. intros a. unfold LocationToAccountId.
    assert (Hd : ∀ c1 c2 : Location → option AccountId, c1 ∈ cs → c2 ∈ cs →
      is_Some (c1 l) → is_Some (c2 l) → c1 l = c2 l)
      by (intros c1 c2; rewrite Hcs; apply converters_disjoint).
    rewrite (convert_first_Some cs l a Hd), (convert_first_Some location_converters).
    + by setoid_rewrite Hcs.
    + intros c1 c2. apply converters_disjoint.
  - unfold XcmRouter. split.
    + intros Hs. apply (send_first_applies l m).
      destruct (applicable_or_not (send_first routers l m)) as [Hn|]; [exfalso|done].
      apply Hs, topic_applies. intros m'.
      destruct (applicable_or_not (send_first routers l m')) as [|Hm]; [done|].
      apply send_first_applies, (send_first_applies l m) in Hm. done.
    + intros Hr. apply topic_sends. intros m'. by apply send_first_applies.
Qed.
End routing_properties.

(** ** The price of a message *)

(** [FixedWeightBounds<UnitWeight, Call, MaxInstructions>]. *)
Class XcmWeigher `{X : XcmTypes} := {
  FixedWeightBounds : Weight → N → list Instruction → option Weight;
  (** Neither a [Transact] nor an instruction with a message inside. *)
  plain : Instruction → bool;
}.

(** A plain message costs the unit for each instruction, and is refused if it has
    more than the limit. *)
Class XcmWeigherLaws `{G : XcmWeigher} : Prop := {
  weigh_plain u n xs :
    forallb plain xs = true →
    N.of_nat (length xs) * ref_time u ≤ u64_MAX →
    N.of_nat (length xs) * proof_size u ≤ u64_MAX →
    if N.of_nat (length xs) <=? n
    then ∃ w, FixedWeightBounds u n xs = Some w ∧
      ref_time w = N.of_nat (length xs) * ref_time u ∧
      proof_size w = N.of_nat (length xs) * proof_size u
    else FixedWeightBounds u n xs = None;
}.

Section weigher.
Context `{G : XcmWeigher}.

(** [XcmConfig::Weigher]. *)
Definition Weigher : list Instruction → option Weight :=
  FixedWeightBounds UnitWeightCost MaxInstructions.
End weigher.

Section weigher_properties.
Context `{G : XcmWeigher} {HW : SpWeightsLaws _} {HG : XcmWeigherLaws} {L : BlockWeightsApi}
  {HL : BlockWeightsLaws L}.

(** The weight of a plain message is the unit for each of its instructions. *)
Lemma plain_weight xs :
  forallb plain xs = true → N.of_nat (length xs) ≤ u32_MAX →
  if N.of_nat (length xs) <=? 100
  then ∃ w, Weigher xs = Some w ∧ ref_time w = N.of_nat (length xs) * 1000000000 ∧
    proof_size w = N.of_nat (length xs) * (64 * 1024)
  else Weigher xs = None.
Proof using HG HW G.
  intros Hp Hn. pose proof (weigh_plain UnitWeightCost MaxInstructions xs Hp) as Hw. revert Hw.
  unfold Weigher, UnitWeightCost, MaxInstructions, u32_MAX in *.
  rewrite ref_time_from_parts, proof_size_from_parts. intros Hw.
  apply Hw; unfold u64_MAX; lia.
Qed.

(** The queue may use 35 percent of a block, in time and in proof size. *)
Lemma queue_limit qw :
  MessageQueueServiceWeight (5 * 1024 * 1024) = Some qw →
  ref_time qw = 700000000000 ∧ proof_size qw = 1835008.
Proof using HW HL.
  unfold MessageQueueServiceWeight.
  destruct (RuntimeBlockWeights (5 * 1024 * 1024)) as [bw|] eqn:Hb; [|done].
  cbn [fmap option_fmap option_map]. intros [= <-]. destruct (max_block_weight _ _ Hb) as [Ht Hs].
  unfold MAXIMUM_BLOCK_WEIGHT in Ht, Hs.
  rewrite ref_time_from_parts, per_second in Ht. rewrite proof_size_from_parts in Hs.
  rewrite ref_time_perbill_mul, proof_size_perbill_mul, Ht, Hs.
  split; apply perbill_mul_exact; by rewrite deconstruct_from_percent.
Qed.

(** C30. With the relay chain's five-megabyte blocks, a plain message is
    weighed exactly if it has at most one hundred instructions, but the message
    queue, which may use 35 percent of a block, can serve it only if it has at
    most 28, and no block can hold it if it has more than 80: the proof size of
    an instruction is the limit, not its time. *)
Theorem message_size_limits bw qw xs :
  RuntimeBlockWeights (5 * 1024 * 1024) = Some bw →
  MessageQueueServiceWeight (5 * 1024 * 1024) = Some qw →
  forallb plain xs = true → N.of_nat (length xs) ≤ u32_MAX →
  (is_Some (Weigher xs) ↔ (length xs ≤ 100)%nat) ∧
  (∀ w, Weigher xs = Some w →
     (covers qw w = true ↔ (length xs ≤ 28)%nat) ∧
     (covers (max_block bw) w = true ↔ (length xs ≤ 80)%nat)).
Proof.
  intros Hb Hq Hp Hn. destruct (queue_limit _ Hq) as [Hqt Hqs].
  destruct (max_block_weight _ _ Hb) as [Ht Hs]. unfold MAXIMUM_BLOCK_WEIGHT in Ht, Hs.
  rewrite ref_time_from_parts, per_second in Ht. rewrite proof_size_from_parts in Hs.
  pose proof (plain_weight xs Hp Hn) as Hw. unfold u32_MAX in Hn.
  change (saturating_mul u64_MAX 1000000000000 2) with 2000000000000 in Ht.
  destruct (N.leb_spec (N.of_nat (length xs)) 100).
  - destruct Hw as (w & -> & Hwt & Hws). split; [split; [lia|by eauto]|].
    intros w' [= <-]. unfold covers. rewrite Hqt, Hqs, Ht, Hs, Hwt, Hws.
    rewrite !andb_true_iff, !N.leb_le. lia.
  - rewrite Hw. split; [|done]. split; [by intros [? [=]]|lia].
Qed.
End weigher_properties.
