(* ===== verification/XcmModel.v ===== *)
(** * An executable instance of the XCM interfaces

A small message language with the instructions the filters look at, the filters
as their documentation describes them, and concrete messages. *)
From S2P Require Import Prelude Frame NftPallet FrameModel Weights Runtime Xcm.

Local Open Scope N_scope.

#[local] Existing Instances TestWeights TestBlockWeights.

(** ** The language *)

Inductive junction := JPlurality (executive : bool) | JParachain (id : N) | JAccount (id : N).

Inductive instruction :=
| ISetTopic
| IReserveToRelay
| IUnpaid (limit : N * N)
| IPay (limit : N * N)
| IDescend (j : junction)
| ITransact.

Definition location : Type := N * list junction.

(** The leading [IDescend]s of a message move its origin inwards. *)
Fixpoint descend (n : nat) (o : location) (xs : list instruction) : location * list instruction :=
  match n, xs with
  | S n, IDescend j :: xs => descend n (o.1, o.2 ++ [j]) xs
  | _, _ => (o, xs)
  end.

Definition TestXcm : @XcmTypes TestWeights := {|
  Location := location; Junction := junction; BodyId := bool; Instruction := instruction;
  InteriorLocation := list junction; ProcessMessageError := string;
  unpack l := l; Location_parent := (1, []);
  plurality_id j := match j with JPlurality b => Some b | _ => None end;
  parachain_junction j := match j with JParachain id => Some id | _ => None end;
  Executive := true; Parachain_interior id := [JParachain id];
  sets_topic x := match x with ISetTopic => true | _ => false end;
  reserve_to_relay x := match x with IReserveToRelay => true | _ => false end;
  unpaid x w := match x with IUnpaid l => (w.1 <=? l.1) && (w.2 <=? l.2) | _ => false end;
  pays xs w := match xs with IPay l :: _ => (w.1 <=? l.1) && (w.2 <=? l.2) | _ => false end;
  Properties := N * N; weight_credit p := p;
  compute_origin _ n o xs := Ok (descend (N.to_nat n) o xs);
|}.
#[local] Existing Instance TestXcm.

(** ** The filters *)

Section filters.
Abbreviation filter := (location → N * N →
  rust (list instruction * (N * N)) string unit).

(** Runs a filter on part of a message. *)
Definition on_part (b : filter) (o : location) (w : N * N) (xs : list instruction) (p : N * N) :
    result unit string * (list instruction * (N * N)) := b o w (xs, p).

Definition pass_if (b : bool) : rust (list instruction * (N * N)) string unit :=
  ensure b "Unsupported"%string.

Fixpoint first_pass (bs : list filter) : filter := λ o w s,
  match bs with
  | [] => (Err "Unsupported"%string, s)
  | b :: bs =>
      match b o w s with
      | (Ok x, s') => (Ok x, s')
      | (Err _, s') => first_pass bs o w s'
      end
  end.

Definition TestBarriers : @XcmBarriers TestWeights TestXcm := {|
  TrailingSetTopicAsId b := λ o w '(xs, p), on_part b o w (without_topic xs) p;
  DenyThenTry deny allow := λ o w, deny o w;; allow o w;
  DenyReserveTransferToRelayChain := λ _ _ '(xs, p),
    pass_if (negb (existsb reserve_to_relay xs)) (xs, p);
  TakeWeightCredit := λ _ w '(xs, p),
    if covers p w then (Ok (), (xs, weight_sub p w)) else (Err "Overweight"%string, (xs, p));
  WithComputedOrigin b := λ _ n o w '(xs, p),
    let '(o', xs') := descend (N.to_nat n) o xs in on_part b o' w xs' p;
  AllowTopLevelPaidExecutionFrom f := λ o w '(xs, p), pass_if (f o && pays xs w) (xs, p);
  AllowExplicitUnpaidExecutionFrom f := λ o w '(xs, p),
    pass_if (f o && match xs with x :: _ => unpaid x w | [] => false end) (xs, p);
  any_barrier := first_pass;
|}.
End filters.
#[local] Existing Instance TestBarriers.

#[export] Instance TestBarriersLaws : @XcmBarriersLaws TestWeights TestXcm TestBarriers.
Proof.
  split; try done.
  - intros b o w xs p. by exists p.
  - intros o w xs p. cbn. by case_match.
  - intros o w xs p. cbn. destruct (covers _ _); [done|eauto].
  - intros b u n o w xs p. cbn. by destruct (descend _ _ _).
  - intros f o w xs p. cbn. unfold pass_if, ensure. destruct (_ && _); [done|eauto].
  - intros f o w xs p. cbn. unfold pass_if, ensure. by destruct (_ && _).
  - by intros [].
  - by intros [].
Qed.

(** ** The barrier at work *)

(** The relay chain's executive body asks to transact for free. *)
Definition executive_call : list instruction :=
  [IDescend (JPlurality true); IUnpaid (10, 10); ITransact; ISetTopic].

Example executive_is_let_in :
  is_ok (Barrier 1000 ((1, []) : location) (10, 10) (executive_call, (0, 0))).1 = true.
Proof. vm_compute. reflexivity. Qed.

Example sibling_is_not_let_in :
  is_ok (Barrier 1000 ((1, [JParachain 7]) : location) (10, 10)
    ([IUnpaid (10, 10); ITransact], (0, 0))).1 = false.
Proof. vm_compute. reflexivity. Qed.

Lemma barrier_is_safe_witness :
  relay_or_executive ((1, [JPlurality true]) : location) ∧
  is_ok (Barrier 1000 ((1, []) : location) (10, 10)
    ([IPay (10, 10); IReserveToRelay; ISetTopic], (100, 100))).1 = false.
Proof.
  split.
  - apply (barrier_is_safe (B := TestBarriers) 1000 ((1, []) : location) (10, 10)
      executive_call (0, 0)) with (x := IUnpaid (10, 10)) (xs' := [ITransact]);
      vm_compute; reflexivity.
  - apply (barrier_is_safe (B := TestBarriers) 1000 ((1, []) : location) (10, 10)
      [IPay (10, 10); IReserveToRelay; ISetTopic] (100, 100)). reflexivity.
Defined.

(** ** Accounts and routes *)

Definition TestRouting : @XcmRouting N (list instruction) location string TestWeights TestXcm := {|
  ParentIsPreset l := match l with (1, []) => Some 0 | _ => None end;
  SiblingParachainConvertsVia l := match l with (1, [JParachain id]) => Some (1 + id) | _ => None end;
  AccountId32Aliases l := match l with (0, [JAccount id]) => Some id | _ => None end;
  ParentAsUmp l _ := match l with (1, []) => Ok l | _ => Err "NotApplicable"%string end;
  XcmpQueue l _ := match l with (1, [JParachain _]) => Ok l | _ => Err "NotApplicable"%string end;
  WithUniqueTopic f := λ l m, f l (m ++ [ISetTopic]);
  NotApplicable := "NotApplicable"%string;
|}.
#[local] Existing Instance TestRouting.

#[export] Instance TestRoutingLaws :
  @XcmRoutingLaws N (list instruction) location string TestWeights TestXcm TestRouting.
Proof.
  split; cbn.
  - intros [p js] Hs. repeat case_match; subst; try done; by destruct Hs.
  - intros [p js] Hs. repeat case_match; subst; try (by destruct Hs). eauto.
  - intros [p js] Hs. repeat case_match; subst; try (by destruct Hs). eauto.
  - intros [p js] m. repeat case_match; subst; by split.
  - intros [p js] m. split.
    + intros Hs. repeat case_match; subst; try done. eauto.
    + by intros ([] & [= -> ->] & [? [=]]).
  - intros f l m Hf. apply Hf.
  - intros f l m Hf. apply Hf.
Qed.

Lemma locations_are_unambiguous_witness :
  convert_first [AccountId32Aliases; ParentIsPreset; SiblingParachainConvertsVia]
    ((1, [JParachain 7]) : location) = Some 8 ∧
  XcmRouter ((0, [JAccount 3]) : location) [] = Err "NotApplicable"%string.
Proof.
  destruct (locations_are_unambiguous (R := TestRouting) ((1, [JParachain 7]) : location) [])
    as [Hc _].
  split; [|reflexivity]. rewrite Hc; [reflexivity|].
  unfold location_converters. symmetry.
  exact (Permutation_app_comm [ParentIsPreset; SiblingParachainConvertsVia] [AccountId32Aliases]).
Defined.

(** ** Prices *)

Definition TestWeigher : @XcmWeigher TestWeights TestXcm := {|
  FixedWeightBounds u n xs :=
    if N.of_nat (length xs) <=? n
    then Some (N.of_nat (length xs) * u.1, N.of_nat (length xs) * u.2) else None;
  plain x := match x with ITransact => false | _ => true end;
|}.
#[local] Existing Instance TestWeigher.

#[export] Instance TestWeigherLaws : @XcmWeigherLaws TestWeights TestXcm TestWeigher.
Proof. split. intros u n xs _ _ _. cbn. case_match; eauto. Qed.

(** Thirty payments: weighed, too large for the queue, small enough for a block. *)
Definition thirty : list instruction := replicate 30 (IPay (0, 0)).

Lemma message_size_limits_witness :
  ∃ w, Weigher thirty = Some w ∧ covers (700000000000, 1835008) w = false.
Proof.
  eexists. split; [reflexivity|].
  destruct (message_size_limits (G := TestWeigher) (L := TestBlockWeights)
    _ (700000000000, 1835008) thirty eq_refl) as [_ Hw];
    [vm_compute; reflexivity|reflexivity|vm_compute; discriminate|].
  destruct (Hw _ eq_refl) as [Hq _].
  apply not_true_is_false. intros Hc. apply Hq in Hc. vm_compute in Hc. lia.
Defined.
