(* ===== verification/XcmOrigin.v ===== *)
(** * Who a foreign message acts for (src/runtime/src/configs/xcm_config.rs)

A [Transact] in a message asks for a local origin of some kind; the runtime's list
of converters decides which, and the pallet sees the result. The converters are
the xcm libraries'; the list is translated. *)
From S2P Require Import Prelude Frame NftPallet NftSpec FrameModel Weights Runtime Xcm XcmModel.

Local Open Scope N_scope.

(** ** Interface *)

Inductive OriginKind := OK_Native | OK_SovereignAccount | OK_Superuser | OK_Xcm.

#[export] Instance OriginKind_eq_dec : EqDecision OriginKind.
Proof. solve_decision. Defined.

(** [ConvertOrigin]: a local origin, or the location handed back. *)
Definition origin_converter `{C : Config} `{X : XcmTypes} : Type :=
  Location → OriginKind → result RuntimeOrigin Location.

(** The origins of the runtime, and the converters of xcm_builder. *)
Class XcmOrigins {C : Config} `{R : XcmRouting AccountId Message Ticket SendError} := {
  signed : AccountId → RuntimeOrigin;
  RelayChainOrigin : RuntimeOrigin;
  SiblingPara : N → RuntimeOrigin;
  XcmOrigin : Location → RuntimeOrigin;
  is_root : RuntimeOrigin → bool;
  SovereignSignedViaLocation : (Location → option AccountId) → origin_converter;
  RelayChainAsNative : RuntimeOrigin → origin_converter;
  SiblingParachainAsNative : origin_converter;
  SignedAccountId32AsNative : origin_converter;
  XcmPassthrough : origin_converter;
}.

(** Each converter is for one kind of origin and one kind of location; only a
    signed origin has a signer, and none of these is root. *)
Class XcmOriginsLaws `{O : XcmOrigins} : Prop := {
  sovereign_converts f l k :
    SovereignSignedViaLocation f l k =
    match k, f l with OK_SovereignAccount, Some a => Ok (signed a) | _, _ => Err l end;
  relay_converts o l k :
    RelayChainAsNative o l k =
    match k, unpack l with OK_Native, (1, []) => Ok o | _, _ => Err l end;
  sibling_para_converts l k :
    SiblingParachainAsNative l k =
    match k, unpack l with
    | OK_Native, (1, [j]) =>
        match parachain_junction j with Some id => Ok (SiblingPara id) | None => Err l end
    | _, _ => Err l
    end;
  account_converts l k :
    SignedAccountId32AsNative l k =
    match k, AccountId32Aliases l with OK_Native, Some a => Ok (signed a) | _, _ => Err l end;
  xcm_converts l k :
    XcmPassthrough l k = match k with OK_Xcm => Ok (XcmOrigin l) | _ => Err l end;
  signed_signer a : ensure_signed (signed a) = Ok a;
  relay_no_signer : is_ok (ensure_signed RelayChainOrigin) = false;
  sibling_no_signer id : is_ok (ensure_signed (SiblingPara id)) = false;
  xcm_no_signer l : is_ok (ensure_signed (XcmOrigin l)) = false;
  signed_not_root a : is_root (signed a) = false;
  relay_not_root : is_root RelayChainOrigin = false;
  sibling_not_root id : is_root (SiblingPara id) = false;
  xcm_not_root l : is_root (XcmOrigin l) = false;
}.

(** ** Definitions *)
Section origins.
Context `{O : XcmOrigins}.

(** The first converter of a tuple that applies. *)
Fixpoint convert_origin_first (cs : list origin_converter) (l : Location) (k : OriginKind) :
    result RuntimeOrigin Location :=
  match cs with
  | [] => Err l
  | c :: cs =>
      match c l k with
      | Ok o => Ok o
      | Err l => convert_origin_first cs l k
      end
  end.

Definition XcmOriginToTransactDispatchOrigin : origin_converter :=
  convert_origin_first
    [ SovereignSignedViaLocation LocationToAccountId;
      RelayChainAsNative RelayChainOrigin;
      SiblingParachainAsNative;
      SignedAccountId32AsNative;
      XcmPassthrough ].
End origins.

(** ** Properties *)
Section properties.
Context `{O : XcmOrigins} {HR : XcmRoutingLaws} {HO : XcmOriginsLaws}
  {HC : ConfigLaws C}.

(** The origin a location is given, by the kind it asks for. *)
Lemma transact_origin l k :
  XcmOriginToTransactDispatchOrigin l k =
  match k with
  | OK_SovereignAccount =>
      match LocationToAccountId l with Some a => Ok (signed a) | None => Err l end
  | OK_Native =>
      match unpack l with
      | (1, []) => Ok RelayChainOrigin
      | (1, [j]) =>
          match parachain_junction j with
          | Some id => Ok (SiblingPara id)
          | None =>
              match AccountId32Aliases l with Some a => Ok (signed a) | None => Err l end
          end
      | _ => match AccountId32Aliases l with Some a => Ok (signed a) | None => Err l end
      end
  | OK_Superuser => Err l
  | OK_Xcm => Ok (XcmOrigin l)
  end.
Proof.
  unfold XcmOriginToTransactDispatchOrigin. cbn [convert_origin_first].
  destruct k;
    repeat (rewrite ?sovereign_converts, ?relay_converts, ?sibling_para_converts,
      ?account_converts, ?xcm_converts; try case_match; simplify_eq; try done).
Qed.

(** An account that aliases a local location is what the location stands for. *)
Lemma alias_is_account l a : AccountId32Aliases l = Some a → LocationToAccountId l = Some a.
Proof.
  intros Ha. destruct (aliases_converts l ltac:(by eexists)) as [j Hj].
  unfold LocationToAccountId, location_converters. cbn.
  destruct (ParentIsPreset l) eqn:E1.
  { by rewrite (parent_converts l ltac:(by eexists)) in Hj. }
  destruct (SiblingParachainConvertsVia l) eqn:E2.
  { destruct (sibling_converts l ltac:(by eexists)) as (j' & Hj' & _). by rewrite Hj' in Hj. }
  by rewrite Ha.
Qed.

(** The signer of a converted origin, if it has one. *)
Ltac signer_of Ha :=
  lazymatch type of Ha with
  | ensure_signed (signed ?a) = _ => rewrite (signed_signer a) in Ha; injection Ha as <-
  | ensure_signed RelayChainOrigin = _ =>
      pose proof relay_no_signer as F; rewrite Ha in F; discriminate
  | ensure_signed (SiblingPara ?id) = _ =>
      pose proof (sibling_no_signer id) as F; rewrite Ha in F; discriminate
  | ensure_signed (XcmOrigin ?l) = _ =>
      pose proof (xcm_no_signer l) as F; rewrite Ha in F; discriminate
  end.

(** No message is root. *)
Lemma transact_not_root l k o : XcmOriginToTransactDispatchOrigin l k = Ok o → is_root o = false.
Proof.
  rewrite transact_origin. intros Ho. repeat case_match; simplify_eq;
    auto using signed_not_root, relay_not_root, sibling_not_root, xcm_not_root.
Qed.

(** Who signs for a message: the account its location stands for. *)
Lemma transact_signer l k o a :
  XcmOriginToTransactDispatchOrigin l k = Ok o → ensure_signed o = Ok a →
  LocationToAccountId l = Some a ∧ k ≠ OK_Xcm ∧ (k = OK_Native → ∃ j, unpack l = (0, [j])).
Proof.
  assert (Hal : ∀ a, AccountId32Aliases l = Some a → ∃ j, unpack l = (0, [j]))
    by (intros; apply aliases_converts; by eexists).
  rewrite transact_origin. intros Ho Ha.
  repeat case_match; simplify_eq; signer_of Ha;
    (split_and!; [first [done|by apply alias_is_account]|done|]); intros ?; try done;
    by eapply Hal.
Qed.

(** C25. A message acts only for the account of its own location: whatever kind
    of origin it asks for, a call of the pallet it makes is not made as root, and
    succeeds only with the effect of the call signed by the account its location
    stands for; a foreign location must ask for its sovereign account, and one
    that asks for the native origin is a local account. *)
Theorem foreign_calls_are_earned l k o cl s s' :
  XcmOriginToTransactDispatchOrigin l k = Ok o →
  dispatch cl o s = (Ok (), s') →
  is_root o = false ∧ (k = OK_SovereignAccount ∨ k = OK_Native) ∧
  ∃ a, LocationToAccountId l = Some a ∧ call_effect s a cl s' ∧
    (k = OK_Native → ∃ j, unpack l = (0, [j])).
Proof.
  intros Ho (a & Ha & He)%dispatch_ok.
  destruct (transact_signer l k o a Ho Ha) as (Hl & Hx & Hn).
  split_and!; [by eapply transact_not_root|destruct k; eauto; by rewrite transact_origin in Ho|eauto].
Qed.
End properties.

(** ** An executable instance *)

#[local] Existing Instances TestWeights TestXcm TestRouting.

(** An origin is a signer or none; the origins of chains and messages have none. *)
Definition TestOrigins :
  @XcmOrigins TestConfig (list instruction) location string TestWeights TestXcm TestRouting := {|
  signed a := Some a;
  RelayChainOrigin := None;
  SiblingPara _ := None;
  XcmOrigin _ := None;
  is_root _ := false;
  SovereignSignedViaLocation f l k :=
    match k, f l with OK_SovereignAccount, Some a => Ok (Some a) | _, _ => Err l end;
  RelayChainAsNative o l k :=
    match k, l with OK_Native, (1, []) => Ok o | _, _ => Err l end;
  SiblingParachainAsNative l k :=
    match k, l with OK_Native, (1, [JParachain _]) => Ok None | _, _ => Err l end;
  SignedAccountId32AsNative l k :=
    match k, AccountId32Aliases (XcmRouting := TestRouting) l with
    | OK_Native, Some a => Ok (Some a)
    | _, _ => Err l
    end;
  XcmPassthrough l k := match k with OK_Xcm => Ok None | _ => Err l end;
|}.

#[export] Instance TestOriginsLaws :
  @XcmOriginsLaws TestConfig (list instruction) location string TestWeights TestXcm TestRouting
    TestOrigins.
Proof.
  split; try done. intros [n js] k. cbn. by repeat case_match.
Qed.

(** The sibling chain 0, whose account is 1, registers as an artist. *)
Lemma foreign_calls_are_earned_witness :
  ∃ o s', XcmOriginToTransactDispatchOrigin (O := TestOrigins) ((1, [JParachain 0]) : location)
      OK_SovereignAccount = Ok o ∧
    is_ok (dispatch (C := TestConfig) Call_register_artist o start).1 = true ∧
    ∃ a, LocationToAccountId (R := TestRouting) ((1, [JParachain 0]) : location) = Some a ∧
      call_effect start a Call_register_artist s'.
Proof.
  exists (Some 1), (dispatch (C := TestConfig) Call_register_artist (Some 1) start).2.
  split; [reflexivity|]. split; [vm_compute; reflexivity|].
  pose proof (unit_run_ok (dispatch (C := TestConfig) Call_register_artist (Some 1)) start
    ltac:(vm_compute; reflexivity)) as Hd.
  destruct (foreign_calls_are_earned (O := TestOrigins) ((1, [JParachain 0]) : location)
    OK_SovereignAccount (Some 1) Call_register_artist start _ eq_refl Hd) as (_ & _ & a & Ha & He & _).
  exists a. split; [exact Ha|exact He].
Defined.
