(* ===== verification/Chain.v ===== *)
(** * Everybody acts at once

The pallet under all its callers: signed extrinsics, and the calls that foreign
messages make with the origins of src/runtime/src/configs/xcm_config.rs, in any
order. What a run of them can do to an account that takes no part in it. The calls
of the other pallets of the runtime, [Sudo] and [Balances] among them, are not acts
here. *)
From S2P Require Import Prelude Frame NftPallet NftSpec FrameModel NftInvariant NftMarket NftRules Weights Runtime Xcm XcmModel XcmOrigin.

Local Open Scope N_scope.

(** ** Acts *)
Section acts.
Context `{O : XcmOrigins}.

(** A call of the pallet, in an extrinsic signed by an account, or in the [Transact]
    of a location that asks for a kind of origin. *)
Inductive act :=
| Signed (who : AccountId) (cl : Call)
| Transact (l : Location) (k : OriginKind) (cl : Call).

(** A call that fails, and one whose origin is not converted, leave the store. *)
Definition perform (s : Storage) (a : act) : Storage :=
  match a with
  | Signed who cl => (dispatch cl (signed who) s).2
  | Transact l k cl =>
      match XcmOriginToTransactDispatchOrigin l k with
      | Ok o => (dispatch cl o s).2
      | Err _ => s
      end
  end.

Definition perform_all : Storage → list act → Storage := foldl perform.

(** The account that acts: the signer, or the one the location stands for. *)
Definition actor (a : act) : option AccountId :=
  match a with Signed who _ => Some who | Transact l _ _ => LocationToAccountId l end.

Definition idle (who : AccountId) (acts : list act) : Prop :=
  Forall (λ a, actor a ≠ Some who) acts.

(** What an account has on sale in an item, and what it has with all of them. *)
Definition listed_price (s : Storage) (who : AccountId) (x : CollectionId * ItemId) : Balance :=
  match nfts s x.1 x.2 with
  | Some n => if bool_decide (n.(owner) = who) && negb n.(is_sold) then n.(price) else 0
  | None => 0
  end.

Definition worth (s : Storage) (who : AccountId) (items : list (CollectionId * ItemId)) : Balance :=
  balance s who + foldr N.add 0 (listed_price s who <$> items).
End acts.

(** ** Sums *)
Section sums.
Context {A : Type} `{EqDecision A}.
Implicit Types (f g : A → N) (l : list A).

Lemma sum_mono f g l :
  (∀ x, x ∈ l → f x ≤ g x) → foldr N.add 0 (f <$> l) ≤ foldr N.add 0 (g <$> l).
Proof.
  induction l as [|x l IH]; intros H; cbn; [done|].
  pose proof (H x ltac:(by left)). specialize (IH (λ y Hy, H y ltac:(by right))).
  cbn in IH. lia.
Qed.

(** Two sums that differ in one place only. *)
Lemma sum_but_one f g l y :
  NoDup l → (∀ x, x ∈ l → x ≠ y → f x ≤ g x) →
  foldr N.add 0 (f <$> l) ≤ foldr N.add 0 (g <$> l) + f y.
Proof.
  induction 1 as [|x l Hx _ IH]; intros H; cbn; [lia|].
  destruct (decide (x = y)) as [->|Hne].
  - assert (foldr N.add 0 (f <$> l) ≤ foldr N.add 0 (g <$> l)); [|cbn in *; lia].
    apply sum_mono. intros z Hz. apply H; [by right|]. by intros ->.
  - pose proof (H x ltac:(by left) Hne). specialize (IH (λ z Hz, H z ltac:(by right))).
    cbn in IH. lia.
Qed.
End sums.

(** ** Properties *)
Section properties.
Context `{O : XcmOrigins} {HR : XcmRoutingLaws} {HO : XcmOriginsLaws} {HC : ConfigLaws C}.
Implicit Types (s : Storage) (a : act) (who : AccountId).

(** An act does nothing, or has the effect of a call of its actor. *)
Lemma perform_effect s a :
  perform s a = s ∨ ∃ w cl, actor a = Some w ∧ call_effect s w cl (perform s a).
Proof.
  destruct a as [w cl|l k cl]; cbn [perform actor].
  - destruct (dispatch cl (signed w) s) as [r s'] eqn:Hd.
    apply dispatch_cases in Hd as [(e & _ & ->)|(w' & _ & Hw & He)]; [by left|right].
    rewrite signed_signer in Hw. injection Hw as <-. eauto.
  - destruct (XcmOriginToTransactDispatchOrigin l k) as [o|] eqn:Ho; [|by left].
    destruct (dispatch cl o s) as [r s'] eqn:Hd.
    apply dispatch_cases in Hd as [(e & _ & ->)|(w & _ & Hw & He)]; [by left|right].
    destruct (transact_signer _ _ _ _ Ho Hw) as [Hl _]. eauto.
Qed.

Lemma perform_step s a : perform s a = s ∨ ∃ lb, sys_step s lb (perform s a).
Proof.
  destruct a as [w cl|l k cl]; cbn [perform actor].
  - right. eexists. constructor. apply surjective_pairing.
  - destruct (XcmOriginToTransactDispatchOrigin l k); [right|by left].
    eexists. constructor. apply surjective_pairing.
Qed.

(** Another account's call takes nothing out of a balance. *)
Lemma effect_balance s w cl s' who :
  call_effect s w cl s' → w ≠ who → balance s who ≤ balance s' who.
Proof.
  intros He Hw. apply N.le_ngt. intros Hlt.
  assert (w = who); [|done]. unfold balance in Hlt. inversion He; subst; cbn in Hlt; try lia;
    match goal with Ht : transfer _ _ _ _ _ = _ |- _ =>
      apply (transfer_lowers _ _ _ _ _ who) in Ht; [done|done]
    end.
Qed.

(** Another account's call leaves an item of this one as it is, or buys it. *)
Lemma effect_item s w cl s' who c i n :
  Inv s → i < u32_MAX → call_effect s w cl s' → w ≠ who →
  nfts s c i = Some n → n.(owner) = who →
  nfts s' c i = Some n ∨
  cl = Call_mint_nft c i ∧ n.(is_sold) = false ∧ balance s' who = balance s who + n.(price).
Proof.
  intros HI Hlt He Hw Hn Ho.
  destruct (effect_existing _ _ _ _ _ _ _ HI (or_introl Hlt) He Hn)
    as [?|[(to & _ & Hto & _)|[(_ & Hb & _)|(-> & Hb & Hs & _ & Ht)]]]; [by left|congruence..|].
  right. split_and!; [done..|]. rewrite Ho in Ht. unfold balance.
  by destruct (transfer_moves _ _ _ _ _ Ht Hw) as (_ & _ & ->).
Qed.

(** What it has on sale in an item stays, or is paid out. *)
Lemma effect_listed s w cl s' who (x : CollectionId * ItemId) :
  Inv s → x.2 < u32_MAX → call_effect s w cl s' → w ≠ who →
  listed_price s who x ≤ listed_price s' who x ∨
  cl = Call_mint_nft x.1 x.2 ∧ balance s' who = balance s who + listed_price s who x.
Proof.
  intros HI Hlt He Hw. unfold listed_price at 1 3.
  destruct (nfts s x.1 x.2) as [n|] eqn:Hn; [|left; lia].
  case_bool_decide as Ho; cbn; [|left; lia]. destruct (is_sold n) eqn:Hs; cbn; [left; lia|].
  destruct (effect_item _ _ _ _ _ _ _ _ HI Hlt He Hw Hn Ho) as [Hn'|(-> & _ & Hb)]; [left|by right].
  unfold listed_price. rewrite Hn', Hs, bool_decide_true by done. cbn. lia.
Qed.

Lemma effect_worth s w cl s' who (items : list (CollectionId * ItemId)) :
  Inv s → (∀ x, x ∈ items → x.2 < u32_MAX) →
  NoDup items → call_effect s w cl s' → w ≠ who → worth s who items ≤ worth s' who items.
Proof.
  intros HI Hlt Hd He Hw. unfold worth. pose proof (effect_balance _ _ _ _ _ He Hw) as Hb.
  assert (Hx : ∀ x, x ∈ items → listed_price s who x ≤ listed_price s' who x ∨
    cl = Call_mint_nft x.1 x.2 ∧ balance s' who = balance s who + listed_price s who x)
    by eauto using effect_listed.
  destruct (decide (Forall (λ x, listed_price s who x ≤ listed_price s' who x) items)) as [Ha|Ha].
  - rewrite Forall_forall in Ha. pose proof (sum_mono _ _ items Ha). lia.
  - apply not_Forall_Exists, Exists_exists in Ha as (y & Hy & Hn); [|solve_decision].
    destruct (Hx y Hy) as [|[-> Hp]]; [done|].
    pose proof (sum_but_one (listed_price s who) (listed_price s' who) items y Hd) as Hs.
    rewrite Hp. enough (∀ x, x ∈ items → x ≠ y → listed_price s who x ≤ listed_price s' who x)
      as Ho by (specialize (Hs Ho); lia).
    intros x Hin Hne. destruct (Hx x Hin) as [|[E _]]; [done|]. exfalso. apply Hne.
    destruct x, y. cbn in E. congruence.
Qed.

Lemma perform_Inv s a : Inv s → Inv (perform s a).
Proof. intros HI. destruct (perform_step s a) as [->|[lb Hs]]; [done|eauto with inv]. Qed.

(** C9. In the NFT pallet, who does nothing loses nothing: in whatever order other
    accounts sign calls of the pallet and the messages of other chains transact
    them, an account that signs no such call, and for whose locations none is
    transacted, keeps its balance; each of its items under an identifier below the
    largest, 2^32-1, is still there as it was, or was on sale and its price has been
    added to the balance; and what it has in money and on sale in such items together
    never becomes less. This is about the calls of this pallet only: what other
    pallets do to a balance, by an extrinsic of [Balances] or [Sudo] say, is not, and
    a call that they dispatch in the name of an account counts as signed by it. *)
Theorem idle_accounts_keep_what_they_have s acts who (items : list (CollectionId * ItemId)) :
  reachable s → idle who acts → NoDup items →
  (∀ x, x ∈ items → x.2 < u32_MAX) →
  balance s who ≤ balance (perform_all s acts) who ∧
  worth s who items ≤ worth (perform_all s acts) who items ∧
  ∀ c i n, (c, i) ∈ items → nfts s c i = Some n → n.(owner) = who →
    nfts (perform_all s acts) c i = Some n ∨
    n.(is_sold) = false ∧ balance s who + n.(price) ≤ balance (perform_all s acts) who.
Proof.
  intros HI%Inv_reachable Hidle Hd. revert s HI.
  induction Hidle as [|a acts Ha Hidle IH]; intros s HI Hlt; [split_and!; auto|].
  change (perform_all s (a :: acts)) with (perform_all (perform s a) acts) in *.
  pose proof (perform_Inv s a HI) as HI1.
  destruct (IH (perform s a) HI1 Hlt) as (Hb1 & Hw1 & Hi1).
  destruct (perform_effect s a) as [E|(w & cl & Hact & He)]; [by rewrite E in * |].
  assert (Hw : w ≠ who) by congruence.
  pose proof (effect_balance _ _ _ _ _ He Hw) as Hb.
  pose proof (effect_worth _ _ _ _ _ _ HI Hlt Hd He Hw) as Hw0.
  split_and!; [lia|lia|]. intros c i n Hin Hn Ho.
  destruct (effect_item _ _ _ _ _ _ _ _ HI (Hlt _ Hin) He Hw Hn Ho) as [Hn1|(_ & Hs & Hp)].
  - destruct (Hi1 _ _ _ Hin Hn1 Ho) as [|[Hs Hp]]; [by left|right]. split; [done|lia].
  - right. split; [done|lia].
Qed.
End properties.

(** ** At work *)

#[local] Existing Instances TestWeights TestXcm TestRouting TestOrigins.

(** Account 2 buys the item of account 1 and passes it on; the sibling chain 6,
    whose account is 7, tries to burn it, and to create one as itself. *)
Definition busy : list act :=
  [Transact ((1, [JParachain 6]) : location) OK_SovereignAccount (Call_burn_nft 0 0);
   Signed 2 (Call_mint_nft 0 0);
   Transact ((1, [JParachain 6]) : location) OK_SovereignAccount (Call_create_nft 0 [] 5);
   Signed 2 (Call_transfer_nft 0 0 3)].

Lemma idle_accounts_keep_what_they_have_witness :
  idle 1 busy ∧ worth minted 1 [(0, 0)] ≤ worth (perform_all minted busy) 1 [(0, 0)] ∧
  owner <$> nfts (perform_all minted busy) 0 0 = Some 3 ∧
  balance minted 1 < balance (perform_all minted busy) 1.
Proof.
  assert (Hi : idle 1 busy) by (repeat constructor; vm_compute; discriminate).
  split; [exact Hi|]. split; [|split; [vm_compute; reflexivity|vm_compute; reflexivity]].
  apply (idle_accounts_keep_what_they_have (O := TestOrigins) minted busy 1 [(0, 0)]).
  - apply reachable_run_calls.
  - exact Hi.
  - apply NoDup_singleton.
  - intros x Hx. apply list_elem_of_singleton in Hx as ->. vm_compute. reflexivity.
Defined.
