(* ===== verification/Governance.v ===== *)
(** * Who governs the chain, and what its users may do across chains

The privileged origins of src/runtime/src/configs/mod.rs and the configuration of
[pallet_xcm] in src/runtime/src/configs/xcm_config.rs, over the origins that
messages are given in [XcmOrigin]. *)
From S2P Require Import Prelude Frame NftPallet FrameModel Weights Runtime Xcm XcmModel XcmOrigin.

Local Open Scope N_scope.

(** ** Interface *)

(** [EnsureOrigin]: what the origin stands for, or the origin handed back. *)
Definition ensure_origin {C : Config} (Success : Type) : Type :=
  RuntimeOrigin → result Success RuntimeOrigin.

(** The guards of frame_system, frame_support and pallet_xcm, and the calls of
    pallet_xcm that its filters guard. *)
Class XcmGovernance `{O : XcmOrigins} := {
  Defense : BodyId;
  EnsureRoot : ensure_origin ();
  EnsureXcm : (Location → bool) → ensure_origin Location;
  IsVoiceOfBody : Location → BodyId → Location → bool;
  EitherOfDiverse {A B} : ensure_origin A → ensure_origin B → ensure_origin (A + B);
  (** [EnsureXcmOrigin] over a conversion of local origins. *)
  EnsureXcmOrigin : (RuntimeOrigin → result Location RuntimeOrigin) → ensure_origin Location;
  SignedToAccountId32 : RuntimeOrigin → result Location RuntimeOrigin;
  XState : Type;
  XAssets : Type;
  XError : Type;
  Filtered : XError;
  (** [execute] and [reserve_transfer_assets], from the guard and the filter the
      runtime configures. *)
  pallet_xcm_execute : ensure_origin Location → (Location * list Instruction → bool) →
    RuntimeOrigin → list Instruction → rust XState XError unit;
  pallet_xcm_reserve_transfer : ensure_origin Location → (Location * XAssets → bool) →
    RuntimeOrigin → XAssets → rust XState XError unit;
}.

(** Root passes its guard and nobody else; an origin of a message passes if its
    location does; the voice of a body is the body under the prefix; a signed
    origin is a local account's location; and what a filter does not contain is
    filtered. *)
Class XcmGovernanceLaws `{G : XcmGovernance} : Prop := {
  ensure_root o : is_ok (EnsureRoot o) = is_root o;
  either_of {A B} (l : ensure_origin A) (r : ensure_origin B) o :
    is_ok (EitherOfDiverse l r o) = is_ok (l o) || is_ok (r o);
  ensure_xcm f l : is_ok (EnsureXcm f (XcmOrigin l)) = f l;
  ensure_xcm_signed f a : is_ok (EnsureXcm f (signed a)) = false;
  ensure_xcm_relay f : is_ok (EnsureXcm f RelayChainOrigin) = false;
  ensure_xcm_sibling f id : is_ok (EnsureXcm f (SiblingPara id)) = false;
  voice_of_body p b l :
    IsVoiceOfBody p b l = true →
    ∃ j, unpack l = ((unpack p).1, (unpack p).2 ++ [j]) ∧ plurality_id j = Some b;
  relay_unpacks : unpack Location_parent = (1, []);
  other_body : Defense ≠ Executive;
  signed_location a : ∃ l j,
    SignedToAccountId32 (signed a) = Ok l ∧ unpack l = (0, [j]) ∧
    AccountId32Aliases l = Some a;
  ensure_local f o l : f o = Ok l → EnsureXcmOrigin f o = Ok l;
  execute_filtered g f o m l s :
    g o = Ok l → f (l, m) = false → pallet_xcm_execute g f o m s = (Err Filtered, s);
  reserve_filtered g f o m l s :
    g o = Ok l → f (l, m) = false → pallet_xcm_reserve_transfer g f o m s = (Err Filtered, s);
}.

(** ** Definitions *)

(** What [pallet_xcm] is configured with. *)
Record pallet_xcm_Config `{G : XcmGovernance} := mkPalletXcm {
  SendXcmOrigin : ensure_origin Location;
  ExecuteXcmOrigin : ensure_origin Location;
  ExecuteFilter : Location * list Instruction → bool;
  TeleportFilter : Location * XAssets → bool;
  ReserveTransferFilter : Location * XAssets → bool;
  VERSION_DISCOVERY_QUEUE_SIZE : N;
  SovereignAccountOf : Location → option AccountId;
  MaxLockers : N;
  AdminOrigin : ensure_origin ();
  MaxRemoteLockConsumers : N;
}.

Section governance.
Context `{G : XcmGovernance}.

(** configs/mod.rs *)
Definition StakingAdminBodyId : BodyId := Defense.
Definition CollatorSelectionUpdateOrigin : ensure_origin (() + Location) :=
  EitherOfDiverse EnsureRoot (EnsureXcm (IsVoiceOfBody RelayLocation StakingAdminBodyId)).
(** The [ControllerOrigin] of the XCMP queue. *)
Definition ControllerOrigin : ensure_origin () := EnsureRoot.

(** xcm_config.rs *)
Definition LocalOriginToLocation : RuntimeOrigin → result Location RuntimeOrigin :=
  SignedToAccountId32.

Definition pallet_xcm_config : pallet_xcm_Config := {|
  SendXcmOrigin := EnsureXcmOrigin LocalOriginToLocation;
  ExecuteXcmOrigin := EnsureXcmOrigin LocalOriginToLocation;
  ExecuteFilter := XcmExecuteFilter;
  TeleportFilter := XcmTeleportFilter;
  ReserveTransferFilter := XcmReserveTransferFilter;
  VERSION_DISCOVERY_QUEUE_SIZE := 100;
  SovereignAccountOf := LocationToAccountId;
  MaxLockers := 8;
  AdminOrigin := EnsureRoot;
  MaxRemoteLockConsumers := 0;
|}.

(** The calls of [pallet_xcm] under this configuration. *)
Definition xcm_execute : RuntimeOrigin → list Instruction → rust XState XError unit :=
  pallet_xcm_execute pallet_xcm_config.(ExecuteXcmOrigin) pallet_xcm_config.(ExecuteFilter).
Definition xcm_reserve_transfer : RuntimeOrigin → XAssets → rust XState XError unit :=
  pallet_xcm_reserve_transfer pallet_xcm_config.(ExecuteXcmOrigin)
    pallet_xcm_config.(ReserveTransferFilter).
End governance.

(** ** Properties *)
Section properties.
Context `{G : XcmGovernance} {HR : XcmRoutingLaws} {HO : XcmOriginsLaws}
  {HG : XcmGovernanceLaws}.

(** Which of the origins a message is given pass the guard of a location. *)
Lemma message_passes f l k o :
  XcmOriginToTransactDispatchOrigin l k = Ok o →
  is_ok (EnsureXcm f o) = true ↔ k = OK_Xcm ∧ f l = true.
Proof.
  rewrite transact_origin. intros Ho.
  repeat case_match; simplify_eq;
    rewrite ?ensure_xcm_signed, ?ensure_xcm_relay, ?ensure_xcm_sibling, ?ensure_xcm;
    (split; [by auto|by intros [? ?]]).
Qed.

(** C29. Only root and the staking body of the relay chain govern the collators: no
    signed account does, and of the messages of other chains exactly those that
    ask for their own origin and come from the body the relay chain calls
    [Defense], so neither a sibling chain nor the relay chain itself nor its
    executive body; and no message controls the queue of the siblings or
    administers [pallet_xcm]. *)
Theorem collators_are_governed l k o :
  XcmOriginToTransactDispatchOrigin l k = Ok o →
  (is_ok (CollatorSelectionUpdateOrigin o) = true ↔
   k = OK_Xcm ∧ IsVoiceOfBody RelayLocation StakingAdminBodyId l = true) ∧
  (is_ok (CollatorSelectionUpdateOrigin o) = true →
   ∃ j, unpack l = (1, [j]) ∧ plurality_id j = Some Defense ∧
     ParentOrParentsExecutivePlurality l = false) ∧
  (∀ a, is_ok (CollatorSelectionUpdateOrigin (signed a)) = false) ∧
  (∀ r, is_root r = true → is_ok (CollatorSelectionUpdateOrigin r) = true) ∧
  is_ok (ControllerOrigin o) = false ∧ is_ok (pallet_xcm_config.(AdminOrigin) o) = false.
Proof.
  intros Ho. pose proof (transact_not_root l k o Ho) as Hroot.
  unfold CollatorSelectionUpdateOrigin, ControllerOrigin. cbn [AdminOrigin pallet_xcm_config].
  assert (Hiff : is_ok (EitherOfDiverse EnsureRoot
      (EnsureXcm (IsVoiceOfBody RelayLocation StakingAdminBodyId)) o) = true ↔
      k = OK_Xcm ∧ IsVoiceOfBody RelayLocation StakingAdminBodyId l = true).
  { rewrite either_of, ensure_root, Hroot. cbn. by apply message_passes. }
  split_and!.
  - exact Hiff.
  - intros [_ Hv]%Hiff. apply voice_of_body in Hv as (j & Hj & Hb).
    unfold RelayLocation in Hj. rewrite relay_unpacks in Hj. cbn in Hj.
    exists j. split_and!; [done..|].
    unfold ParentOrParentsExecutivePlurality. rewrite Hj, Hb.
    apply bool_decide_eq_false, other_body.
  - intros a. by rewrite either_of, ensure_root, signed_not_root, ensure_xcm_signed.
  - intros r Hr. by rewrite either_of, ensure_root, Hr.
  - by rewrite ensure_root.
  - by rewrite ensure_root.
Qed.

(** A user is a location and the location is that user: the location a signed
    origin is sent out under stands for the same account when it comes back, and
    acts for it with the native origin and the sovereign one; with that location
    a user may neither execute a message on this chain nor transfer through a
    reserve: both are filtered and change nothing. *)
Theorem local_origins_roundtrip a m assets s :
  ∃ l, pallet_xcm_config.(SendXcmOrigin) (signed a) = Ok l ∧
    LocationToAccountId l = Some a ∧
    XcmOriginToTransactDispatchOrigin l OK_Native = Ok (signed a) ∧
    XcmOriginToTransactDispatchOrigin l OK_SovereignAccount = Ok (signed a) ∧
    xcm_execute (signed a) m s = (Err Filtered, s) ∧
    xcm_reserve_transfer (signed a) assets s = (Err Filtered, s).
Proof.
  destruct (signed_location a) as (l & j & Hl & Hu & Ha).
  pose proof (ensure_local SignedToAccountId32 (signed a) l Hl) as He.
  pose proof (alias_is_account l a Ha) as Hacc.
  exists l. split_and!; [exact He|exact Hacc|..].
  - by rewrite transact_origin, Hu, Ha.
  - by rewrite transact_origin, Hacc.
  - by eapply execute_filtered.
  - by eapply reserve_filtered.
Qed.
End properties.
