(* ===== verification/GovernanceModel.v ===== *)
(** * Origins to govern with

A configuration whose origins are told apart: root, a signer, the relay chain, a
sibling chain, and the location of a message; with the guards of [Governance] on
them. *)
From S2P Require Import Prelude Frame NftPallet FrameModel Weights Runtime Xcm XcmModel XcmOrigin Governance.

Local Open Scope N_scope.

#[local] Existing Instances TestWeights TestXcm TestRouting.

Inductive origin :=
| ORoot
| OSigned (a : N)
| ORelay
| OSibling (id : N)
| OXcm (l : location).

(** The configuration of the examples with these origins. *)
Definition OriginConfig : Config := {|
  AccountId := N;
  DispatchError := string;
  RuntimeOrigin := origin;
  ensure_signed o := match o with OSigned a => Ok a | _ => Err "BadOrigin"%string end;
  Ledger := gmap N N;
  Config_Currency := Ledgers.currency 10;
  PalletId := string;
  PalletId_get := "template"%string;
  into_account_truncating := λ _, 1000;
  BVec := BVec (Config := TestConfig);
  AMap := AMap (Config := TestConfig);
  Config_AMap := Config_AMap (Config := TestConfig);
  CMap := CMap (Config := TestConfig);
  Config_CMap := Config_CMap (Config := TestConfig);
  NMap := NMap (Config := TestConfig);
  Config_NMap := Config_NMap (Config := TestConfig);
|}.
#[local] Existing Instance OriginConfig.

Definition GovOrigins :
  @XcmOrigins OriginConfig (list instruction) location string TestWeights TestXcm TestRouting := {|
  signed := OSigned;
  RelayChainOrigin := ORelay;
  SiblingPara := OSibling;
  XcmOrigin := OXcm;
  is_root o := match o with ORoot => true | _ => false end;
  SovereignSignedViaLocation f l k :=
    match k, f l with OK_SovereignAccount, Some a => Ok (OSigned a) | _, _ => Err l end;
  RelayChainAsNative o l k :=
    match k, l with OK_Native, (1, []) => Ok o | _, _ => Err l end;
  SiblingParachainAsNative l k :=
    match k, l with OK_Native, (1, [JParachain id]) => Ok (OSibling id) | _, _ => Err l end;
  SignedAccountId32AsNative l k :=
    match k, AccountId32Aliases (XcmRouting := TestRouting) l with
    | OK_Native, Some a => Ok (OSigned a)
    | _, _ => Err l
    end;
  XcmPassthrough l k := match k with OK_Xcm => Ok (OXcm l) | _ => Err l end;
|}.
#[local] Existing Instance GovOrigins.

#[export] Instance GovOriginsLaws :
  @XcmOriginsLaws OriginConfig (list instruction) location string TestWeights TestXcm TestRouting
    GovOrigins.
Proof. split; try done. intros [n js] k. cbn. by repeat case_match. Qed.

(** The voice of a body: its plurality under the prefix. *)
Definition voice (p : location) (b : bool) (l : location) : bool :=
  match last l.2 with
  | Some (JPlurality b') =>
      (l.1 =? p.1) && bool_decide (length l.2 = S (length p.2)) && Bool.eqb b b' &&
      match p.2 with [] => true | _ => false end
  | _ => false
  end.

Definition TestGovernance :
  @XcmGovernance OriginConfig (list instruction) location string TestWeights TestXcm TestRouting
    GovOrigins := {|
  Defense := false;
  EnsureRoot o := match o with ORoot => Ok () | _ => Err o end;
  EnsureXcm f o := match o with OXcm l => if f l then Ok l else Err o | _ => Err o end;
  IsVoiceOfBody := voice;
  EitherOfDiverse A B l r o :=
    match l o with
    | Ok a => Ok (inl a)
    | Err o' => match r o with Ok b => Ok (inr b) | Err _ => Err o' end
    end;
  EnsureXcmOrigin f o := match f o with Ok l => Ok l | Err o => Err o end;
  SignedToAccountId32 o := match o with OSigned a => Ok (0, [JAccount a]) | _ => Err o end;
  XState := list (list instruction);
  XAssets := N;
  XError := string;
  Filtered := "Filtered"%string;
  pallet_xcm_execute g f o m := λ s,
    match g o with
    | Ok l => if f (l, m) then (Ok (), m :: s) else (Err "Filtered"%string, s)
    | Err _ => (Err "BadOrigin"%string, s)
    end;
  pallet_xcm_reserve_transfer g f o m := λ s,
    match g o with
    | Ok l => if f (l, m) then (Ok (), s) else (Err "Filtered"%string, s)
    | Err _ => (Err "BadOrigin"%string, s)
    end;
|}.

#[export] Instance TestGovernanceLaws :
  @XcmGovernanceLaws OriginConfig (list instruction) location string TestWeights TestXcm
    TestRouting GovOrigins TestGovernance.
Proof.
  split; try done; cbn.
  - by intros [].
  - intros A B l r o. by destruct (l o), (r o).
  - intros f l. by destruct (f l).
  - intros [pn pj] b [n js]. unfold voice. cbn. intros H.
    destruct (last js) as [[b'| |]|] eqn:Hl; try done. revert H.
    rewrite !andb_true_iff, bool_decide_eq_true, N.eqb_eq, Bool.eqb_true_iff.
    intros [[[-> Hlen] ->] Hp]. destruct pj as [|? ?]; [|done].
    destruct js as [|j [|? ?]]; try done. cbn in Hl. injection Hl as ->.
    by exists (JPlurality b').
  - intros a. by exists (0, [JAccount a]), (JAccount a).
  - intros f o l Ho. by rewrite Ho.
  - intros g f o m l s Hg Hf. by rewrite Hg, Hf.
  - intros g f o m l s Hg Hf. by rewrite Hg, Hf.
Qed.

(** The staking body of the relay chain governs; its executive body does not. *)
Lemma collators_are_governed_witness :
  is_ok (CollatorSelectionUpdateOrigin (G := TestGovernance) (OXcm (1, [JPlurality false]))) = true ∧
  is_ok (CollatorSelectionUpdateOrigin (G := TestGovernance) (OXcm (1, [JPlurality true]))) = false.
Proof.
  split.
  - destruct (collators_are_governed (G := TestGovernance) (1, [JPlurality false]) OK_Xcm
      (OXcm (1, [JPlurality false])) eq_refl) as [Hi _].
    apply Hi. split; reflexivity.
  - destruct (collators_are_governed (G := TestGovernance) (1, [JPlurality true]) OK_Xcm
      (OXcm (1, [JPlurality true])) eq_refl) as [Hi _].
    apply not_true_is_false. intros H. apply Hi in H as [_ H]. vm_compute in H. discriminate.
Defined.

Lemma local_origins_roundtrip_witness :
  ∃ l, SendXcmOrigin (pallet_xcm_config (G := TestGovernance)) (OSigned 7) = Ok l ∧
    LocationToAccountId (R := TestRouting) l = Some 7 ∧
    xcm_execute (G := TestGovernance) (OSigned 7) [ITransact] [] = (Err "Filtered"%string, []).
Proof.
  destruct (local_origins_roundtrip (G := TestGovernance) 7 [ITransact] 0 [])
    as (l & Hl & Ha & _ & _ & He & _).
  exists l. split; [exact Hl|]. split; [exact Ha|exact He].
Defined.
