(* ===== verification/XcmExecutor.v ===== *)
(** * What messages do with assets ([XcmConfig] of src/runtime/src/configs/xcm_config.rs)

The configuration of the XCM executor: which asset the chain holds for whom, whom
it believes about assets elsewhere, and what a message pays for its weight. The
adapters are the xcm libraries'; how they are put together is the runtime's. *)
From S2P Require Import Prelude Frame NftPallet FrameModel Weights Runtime Xcm XcmModel XcmOrigin.

Local Open Scope N_scope.

(** ** Interface *)

(** [TransactAsset]: a deposit to, and a withdrawal from, the account of a
    location. *)
Record transactor {Asset Location Ledger XcmError : Type} := mkTransactor {
  deposit_asset : Asset → Location → rust Ledger XcmError unit;
  withdraw_asset : Asset → Location → rust Ledger XcmError unit;
}.
Arguments transactor : clear implicits.

(** Assets of a message, and the adapters of xcm_builder and parachains_common. *)
Class XcmAssets {C : Config} `{X : XcmTypes} := {
  Asset : Type;
  asset_id : Asset → Location;
  (** The amount of a fungible asset. *)
  fungible : Asset → option Balance;
  XcmError : Type;
  TooExpensive : XcmError;
  IsConcrete : Location → Asset → option Balance;
  FungibleAdapter : (Asset → option Balance) → (Location → option AccountId) →
    transactor Asset Location Ledger XcmError;
  NativeAsset : Asset → Location → bool;
  (** What a message holds: the amount of each fungible asset. *)
  Holding : Type;
  held : Holding → Location → Balance;
  (** [WeightTrader]: [UsingComponents] over a price and an asset, with the fees
      taken so far. *)
  Traded : Type;
  traded : Traded → Balance;
  UsingComponents : (Weight → Balance) → Location → Weight → Holding →
    rust Traded XcmError Holding;
}.

(** The asset of a location is the fungible one of that id; the adapter mints and
    burns on the account a location stands for, which may lose a rest below the
    existential deposit as dust, and leaves the ledger alone when it fails; an
    asset is native to a chain if the chain is its id; and weight is
    bought with the price in the asset, or not at all. *)
Class XcmAssetsLaws `{A : XcmAssets} : Prop := {
  concrete loc what n :
    IsConcrete loc what = Some n ↔ asset_id what = loc ∧ fungible what = Some n;
  deposit_mints f g what who l l' :
    deposit_asset (FungibleAdapter f g) what who l = (Ok (), l') →
    ∃ n a, f what = Some n ∧ g who = Some a ∧
      free_balance l' a = free_balance l a + n ∧
      ∀ b, b ≠ a → free_balance l' b = free_balance l b;
  withdraw_burns f g what who l l' :
    withdraw_asset (FungibleAdapter f g) what who l = (Ok (), l') →
    ∃ n a, f what = Some n ∧ g who = Some a ∧ n ≤ free_balance l a ∧
      free_balance l' a ≤ free_balance l a - n ∧
      ∀ b, b ≠ a → free_balance l' b = free_balance l b;
  deposit_fails f g what who l e l' :
    deposit_asset (FungibleAdapter f g) what who l = (Err e, l') → l' = l;
  withdraw_fails f g what who l e l' :
    withdraw_asset (FungibleAdapter f g) what who l = (Err e, l') → l' = l;
  native what o : NativeAsset what o = true → asset_id what = o;
  relay_location : unpack Location_parent = (1, []);
  buys price asset w paid t :
    if price w <=? held paid asset
    then ∃ unused t', UsingComponents price asset w paid t = (Ok unused, t') ∧
      held unused asset = held paid asset - price w ∧
      (∀ other, other ≠ asset → held unused other = held paid other) ∧
      traded t' = saturating_add u128_MAX (traded t) (price w)
    else UsingComponents price asset w paid t = (Err TooExpensive, t);
}.

(** ** Definitions *)

(** [xcm_executor::Config]: the associated types that are built from something of the
    runtime's. Those that name one of its pallets are in [Wiring]; the others name a
    library type, or [()] for what the chain does not do. *)
Record xcm_executor_Config {C : Config} {AccountId' Message Ticket SendError : Type}
    `{R : XcmRouting AccountId' Message Ticket SendError} {A : XcmAssets (X := X)}
    {B : XcmBarriers (X := X)} {O : Type} := mkXcmConfig {
  xc_XcmSender : Location → Message → result Ticket SendError;
  xc_AssetTransactor : transactor Asset Location Ledger XcmError;
  xc_OriginConverter : Location → OriginKind → result O Location;
  xc_IsReserve : Asset → Location → bool;
  xc_IsTeleporter : Asset → Location → bool;
  xc_UniversalLocation : InteriorLocation;
  xc_Barrier : barrier;
  xc_Weigher : list Instruction → option Weight;
  xc_Trader : Weight → Holding → rust Traded XcmError Holding;
  xc_MaxAssetsIntoHolding : N;
  xc_UniversalAliases : Location * Junction → bool;
  xc_SafeCallFilter : Call → bool;
  xc_Aliasers : Location * Location → bool;
}.

Section config.
Context `{O : XcmOrigins} {A : XcmAssets (C := C) (X := X)} {B : XcmBarriers (X := X)}
  {G : XcmWeigher (X := X)} {F : WeightToFee}.
(** [ParachainInfo::parachain_id()]. *)
Variable parachain_id : N.

Definition LocalAssetTransactor : transactor Asset Location Ledger XcmError :=
  FungibleAdapter (IsConcrete RelayLocation) LocationToAccountId.

Definition Trader : Weight → Holding → rust Traded XcmError Holding :=
  UsingComponents weight_to_fee RelayLocation.

(** The tuple [()] contains nothing. *)
Definition IsTeleporter (_ : Asset) (_ : Location) : bool := false.

Definition XcmConfig : xcm_executor_Config (R := R) (A := A) (O := RuntimeOrigin) := {|
  xc_XcmSender := XcmRouter;
  xc_AssetTransactor := LocalAssetTransactor;
  xc_OriginConverter := XcmOriginToTransactDispatchOrigin;
  xc_IsReserve := NativeAsset;
  xc_IsTeleporter := IsTeleporter;
  xc_UniversalLocation := UniversalLocation parachain_id;
  xc_Barrier := Barrier parachain_id;
  xc_Weigher := Weigher;
  xc_Trader := Trader;
  xc_MaxAssetsIntoHolding := MaxAssetsIntoHolding;
  xc_UniversalAliases := Nothing;
  xc_SafeCallFilter := Everything;
  xc_Aliasers := Nothing;
|}.
End config.

(** ** Properties *)
Section properties.
Context `{O : XcmOrigins} {A : XcmAssets (C := C) (X := X)} {B : XcmBarriers (X := X)}
  {G : XcmWeigher (X := X)} {F : WeightToFee}.
Context {HA : XcmAssetsLaws}.
Implicit Types (what : Asset) (who from : Location) (l : Ledger).

(** What the adapter holds is the relay chain's asset. *)
Lemma transacted_is_relay what n :
  IsConcrete RelayLocation what = Some n →
  asset_id what = RelayLocation ∧ fungible what = Some n.
Proof. apply concrete. Qed.

(** A deposit gives the amount to the account of the location, and to no other. *)
Lemma deposit_inv what who l l' :
  deposit_asset LocalAssetTransactor what who l = (Ok (), l') →
  ∃ n a, asset_id what = RelayLocation ∧ fungible what = Some n ∧
    LocationToAccountId who = Some a ∧ free_balance l' a = free_balance l a + n ∧
    ∀ b, b ≠ a → free_balance l' b = free_balance l b.
Proof. intros (n & a & Hn & ? & ? & ?)%deposit_mints. apply concrete in Hn as []. eauto 8. Qed.

Lemma withdraw_inv what who l l' :
  withdraw_asset LocalAssetTransactor what who l = (Ok (), l') →
  ∃ n a, asset_id what = RelayLocation ∧ fungible what = Some n ∧
    LocationToAccountId who = Some a ∧ n ≤ free_balance l a ∧
    free_balance l' a ≤ free_balance l a - n ∧
    ∀ b, b ≠ a → free_balance l' b = free_balance l b.
Proof. intros (n & a & Hn & ? & ? & ?)%withdraw_burns. apply concrete in Hn as []. eauto 9. Qed.

(** C28. The only asset of the chain is the relay chain's, and only the relay chain
    is believed to back it: a deposit that succeeds is of that asset, and gives
    its amount to the account the beneficiary stands for and to no other account;
    no chain can teleport it in, and the one chain that is trusted as its reserve
    is the relay chain itself; a deposit or a withdrawal of any other asset is
    refused and changes nothing; and an asset taken from one account and given to
    another makes no balance out of nothing. *)
Theorem only_the_relay_chain_backs_assets id what who from l l' :
  let cfg := XcmConfig id in
  (deposit_asset cfg.(xc_AssetTransactor) what who l = (Ok (), l') →
     cfg.(xc_IsTeleporter) what from = false ∧
     (cfg.(xc_IsReserve) what from = true → unpack from = (1, [])) ∧
     ∃ n a, fungible what = Some n ∧ LocationToAccountId who = Some a ∧
       free_balance l' a = free_balance l a + n ∧
       ∀ b, b ≠ a → free_balance l' b = free_balance l b) ∧
  (asset_id what ≠ RelayLocation →
     (∃ e, deposit_asset cfg.(xc_AssetTransactor) what who l = (Err e, l)) ∧
     ∃ e, withdraw_asset cfg.(xc_AssetTransactor) what from l = (Err e, l)) ∧
  ((withdraw_asset cfg.(xc_AssetTransactor) what from;;
    deposit_asset cfg.(xc_AssetTransactor) what who) l = (Ok (), l') →
   ∃ n a b, fungible what = Some n ∧ LocationToAccountId from = Some a ∧
     LocationToAccountId who = Some b ∧ n ≤ free_balance l a ∧
     (a ≠ b → free_balance l' a + n ≤ free_balance l a ∧
        free_balance l' b = free_balance l b + n) ∧
     (a = b → free_balance l' a ≤ free_balance l a) ∧
     ∀ c, c ≠ a → c ≠ b → free_balance l' c = free_balance l c).
Proof.
  cbv zeta. cbn [XcmConfig xc_AssetTransactor xc_IsTeleporter xc_IsReserve]. split_and!.
  - intros (n & a & Hid & Hd)%deposit_inv. split_and!; [done| |by exists n, a; naive_solver].
    intros Hr%native. by rewrite <- relay_location, <- Hr, Hid.
  - intros Hid. split.
    + destruct (deposit_asset LocalAssetTransactor what who l) as [[[]|e] l1] eqn:E.
      * by apply deposit_inv in E as (? & ? & ? & _).
      * apply deposit_fails in E as ->. eauto.
    + destruct (withdraw_asset LocalAssetTransactor what from l) as [[[]|e] l1] eqn:E.
      * by apply withdraw_inv in E as (? & ? & ? & _).
      * apply withdraw_fails in E as ->. eauto.
  - destruct (withdraw_asset LocalAssetTransactor what from l) as [[[]|e] l1] eqn:E;
      [rewrite (bind_ok _ _ _ _ _ E)|by rewrite (bind_err _ _ _ _ _ E)].
    apply withdraw_inv in E as (n & a & _ & Hn & Ha & Hle & Hw & Hwo).
    intros (n' & b & _ & Hn' & Hb & Hd & Hdo)%deposit_inv. simplify_eq.
    exists n, a, b. split_and!; [done..| | |].
    + intros Hne. rewrite (Hdo a Hne), Hd, (Hwo b) by congruence. split; [lia|done].
    + intros ->. rewrite Hd. lia.
    + intros c Hca Hcb. by rewrite Hdo, Hwo.
Qed.
End properties.

Section prices.
Context `{O : XcmOrigins} {A : XcmAssets (C := C) (X := X)} {B : XcmBarriers (X := X)}
  {G : XcmWeigher (X := X)} {F : WeightToFee}.
Context {HA : XcmAssetsLaws} {HG : XcmWeigherLaws} {HW : SpWeightsLaws _} {HF : WeightToFeeLaws F}.

(** Eight micro-units for each unit of time of an instruction. *)
Lemma instructions_fee w n :
  ref_time w = n * 1000000000 → n * 1000000000 ≤ u64_MAX →
  weight_to_fee w = 8 * MICRO_UNIT * n.
Proof using HW HF.
  intros Ht Hn. rewrite weight_to_fee_frac by (by rewrite Ht). apply perbill_mul_exact.
  rewrite polynomial_frac, Ht. unfold MICRO_UNIT. lia.
Qed.

(** A plain message has a price: eight micro-units for each of its
    instructions, up to the hundred there can be; it is taken out of the relay
    chain's asset that the message holds, and out of no other, and is booked by
    the trader; a message that holds less buys nothing and pays nothing; and a
    message of more instructions has no price at all. *)
Theorem plain_messages_have_a_price id xs paid t :
  let cfg := XcmConfig id in
  let price := 8 * MICRO_UNIT * N.of_nat (length xs) in
  forallb plain xs = true → N.of_nat (length xs) ≤ u32_MAX →
  ((100 < length xs)%nat → cfg.(xc_Weigher) xs = None) ∧
  ((length xs ≤ 100)%nat →
   ∃ w, cfg.(xc_Weigher) xs = Some w ∧
     (held paid RelayLocation < price → cfg.(xc_Trader) w paid t = (Err TooExpensive, t)) ∧
     (price ≤ held paid RelayLocation →
      ∃ unused t', cfg.(xc_Trader) w paid t = (Ok unused, t') ∧
        held unused RelayLocation = held paid RelayLocation - price ∧
        (∀ other, other ≠ RelayLocation → held unused other = held paid other) ∧
        traded t' = saturating_add u128_MAX (traded t) price)).
Proof.
  cbv zeta. cbn [XcmConfig xc_Weigher xc_Trader]. intros Hp Hn.
  pose proof (plain_weight xs Hp Hn) as Hw. split.
  { intros Hl. destruct (N.leb_spec (N.of_nat (length xs)) 100); [lia|done]. }
  intros Hl. destruct (N.leb_spec (N.of_nat (length xs)) 100); [|lia].
  destruct Hw as (w & Hw & Ht & _). exists w.
  pose proof (instructions_fee w _ Ht ltac:(unfold u64_MAX; lia)) as Hfee.
  pose proof (buys weight_to_fee RelayLocation w paid t) as Hb. rewrite Hfee in Hb.
  unfold Trader. split_and!; [done|..]; intros Hh.
  - destruct (N.leb_spec (8 * MICRO_UNIT * N.of_nat (length xs)) (held paid RelayLocation)); [lia|done].
  - destruct (N.leb_spec (8 * MICRO_UNIT * N.of_nat (length xs)) (held paid RelayLocation)); [done|lia].
Qed.
End prices.
