(* ===== verification/ExecutorModel.v ===== *)
(** * Assets to move

Assets named by a location, a ledger that mints and burns, and messages that pay
for themselves, for the configuration of [XcmExecutor]. *)
From S2P Require Import Prelude Frame NftPallet FrameModel Weights Runtime Xcm XcmModel XcmOrigin Governance GovernanceModel XcmExecutor.

Local Open Scope N_scope.

#[local] Existing Instances TestWeights TestXcm TestRouting TestBarriers TestWeigher
  TestWeightToFee OriginConfig GovOrigins.

#[export] Instance junction_eq_dec : EqDecision junction.
Proof. solve_decision. Defined.

Definition same (a b : location) : bool := bool_decide (a = b).

Lemma same_true a b : same a b = true ↔ a = b.
Proof. apply bool_decide_eq_true. Qed.
Lemma same_self a : same a a = true.
Proof. by apply same_true. Qed.
Lemma same_other a b : a ≠ b → same a b = false.
Proof. apply bool_decide_false. Qed.

(** An asset is its id, and its amount if it is fungible. *)
Definition asset : Type := location * option N.

(** What an account may hold: nothing, or the existential deposit of 10. *)
Definition mint (a n : N) : rust (gmap N N) string unit := λ l,
  if Ledgers.free l a + n <? 10 then (Err "BelowMinimum"%string, l)
  else (Ok (), <[a := Ledgers.free l a + n]> l).

(** A rest below the existential deposit is dust. *)
Definition burn (a n : N) : rust (gmap N N) string unit := λ l,
  if Ledgers.free l a <? n then (Err "FundsUnavailable"%string, l)
  else if Ledgers.free l a - n <? 10 then (Ok (), <[a := 0]> l)
  else (Ok (), <[a := Ledgers.free l a - n]> l).

(** An operation on the account of a location. *)
Definition on_account (op : N → N → rust (gmap N N) string unit)
    (f : asset → option N) (g : location → option N) (what : asset) (who : location) :
    rust (gmap N N) string unit := λ l,
  match f what, g who with
  | Some n, Some a => op a n l
  | _, _ => (Err "AssetNotHandled"%string, l)
  end.

Definition TestAssets : @XcmAssets OriginConfig TestWeights TestXcm := {|
  Asset := asset;
  asset_id := fst;
  fungible := snd;
  XcmError := string;
  TooExpensive := "TooExpensive"%string;
  IsConcrete loc what := if same what.1 loc then what.2 else None;
  FungibleAdapter f g := mkTransactor _ _ _ _ (on_account mint f g) (on_account burn f g);
  NativeAsset what o := same what.1 o;
  Holding := location → N;
  held h := h;
  Traded := N;
  traded t := t;
  UsingComponents price a w h := λ t,
    if price w <=? h a
    then (Ok (λ b, if same b a then h a - price w else h b),
      saturating_add u128_MAX t (price w))
    else (Err "TooExpensive"%string, t);
|}.
#[local] Existing Instance TestAssets.

Lemma on_account_ok op f g what who l l' :
  on_account op f g what who l = (Ok (), l') →
  ∃ n a, f what = Some n ∧ g who = Some a ∧ op a n l = (Ok (), l').
Proof. unfold on_account. destruct (f what), (g who); naive_solver. Qed.

#[export] Instance TestAssetsLaws : @XcmAssetsLaws OriginConfig TestWeights TestXcm TestAssets.
Proof.
  split; cbn.
  - intros loc [i n] m. cbn. destruct (same i loc) eqn:E; [apply same_true in E; tauto|].
    split; [done|]. intros [-> _]. by rewrite same_self in E.
  - intros f g what who l l' (n & a & Hf & Hg & H)%on_account_ok. exists n, a.
    unfold mint in H. destr_in H. simplify_eq. split_and!; [done..| |].
    + by rewrite Ledgers.free_insert, decide_True.
    + intros b Hb. by rewrite Ledgers.free_insert, decide_False.
  - intros f g what who l l' (n & a & Hf & Hg & H)%on_account_ok. exists n, a.
    unfold burn in H. destruct (N.ltb_spec (Ledgers.free l a) n) as [|Hle]; [done|].
    case_match; simplify_eq; (split_and!; [done..| |]);
      try (intros b Hb; by rewrite Ledgers.free_insert, decide_False);
      rewrite Ledgers.free_insert, decide_True by done; lia.
  - intros f g what who l e l' H. unfold on_account, mint in H. repeat case_match; naive_solver.
  - intros f g what who l e l' H. unfold on_account, burn in H. repeat case_match; naive_solver.
  - intros [i n] o. cbn. by rewrite same_true.
  - done.
  - intros price a w h t. destruct (price w <=? h a) eqn:E; [|done].
    do 2 eexists. split_and!; [done| | |done]; cbn.
    + by rewrite same_self.
    + intros b Hb. by rewrite same_other.
Qed.

(** ** At work *)

Definition relay_asset (n : N) : asset := ((1, []), Some n).

(** The relay chain sends 100 to account 7, which passes 40 on to account 8; a
    sibling cannot send its own asset. *)
Example deposits :
  let t := xc_AssetTransactor (XcmConfig 1000) in
  (deposit_asset t (relay_asset 100) (0, [JAccount 7]) ∅).2 !! 7 = Some 100 ∧
  (deposit_asset t ((1, [JParachain 3]), Some 100) (0, [JAccount 7]) ∅).1 =
    Err "AssetNotHandled"%string.
Proof. by vm_compute. Qed.

Lemma only_the_relay_chain_backs_assets_witness :
  ∃ l', (withdraw_asset (xc_AssetTransactor (XcmConfig 1000)) (relay_asset 40) (0, [JAccount 7]);;
      deposit_asset (xc_AssetTransactor (XcmConfig 1000)) (relay_asset 40) (0, [JAccount 8]))
      {[7 := 100]} = (Ok (), l') ∧
    ∃ n a b, snd (relay_asset 40) = Some n ∧
      LocationToAccountId (R := TestRouting) (0, [JAccount 7]) = Some a ∧
      LocationToAccountId (R := TestRouting) (0, [JAccount 8]) = Some b ∧
      (a ≠ b → Ledgers.free l' b = Ledgers.free {[7 := 100]} b + n).
Proof.
  eexists. split; [reflexivity|].
  destruct (only_the_relay_chain_backs_assets (A := TestAssets) 1000 (relay_asset 40) (0, [JAccount 8])
    (0, [JAccount 7]) {[7 := 100]} (<[8 := 40]> (<[7 := 60]> {[7 := 100]}))) as (_ & _ & Hm).
  destruct (Hm eq_refl) as (n & a & b & Hn & Ha & Hb & _ & Hd & _).
  exists n, a, b. split; [exact Hn|]. split; [exact Ha|]. split; [exact Hb|].
  intros Hne. exact (proj2 (Hd Hne)).
Defined.

(** Three payments cost 24 micro-units. *)
Lemma plain_messages_have_a_price_witness :
  ∃ w unused t', xc_Weigher (XcmConfig 1000) [IPay (0, 0); IPay (0, 0); ISetTopic] = Some w ∧
    xc_Trader (XcmConfig 1000) w (λ _, 30000000) 0 = (Ok unused, t') ∧
    unused (1, []) = 6000000.
Proof.
  destruct (plain_messages_have_a_price (A := TestAssets) (B := TestBarriers)
    (G := TestWeigher) (F := TestWeightToFee) 1000 [IPay (0, 0); IPay (0, 0); ISetTopic]
    (λ _, 30000000) 0 eq_refl) as [_ Hw]; [vm_compute; discriminate|].
  destruct Hw as (w & Hw & _ & Hb); [cbn; lia|].
  destruct Hb as (unused & t' & Ht & Hu & _); [vm_compute; discriminate|].
  exists w, unused, t'. split; [exact Hw|]. split; [exact Ht|].
  transitivity (30000000 - 8 * MICRO_UNIT * 3); [exact Hu|reflexivity].
Defined.
