(* ===== verification/Inbound.v ===== *)
(** * Messages that arrive (src/runtime/src/configs/mod.rs)

How the configuration wires the messages of the relay chain and of the sibling
chains into one message queue and from there into the executor: under which origin
each is stored, whose queue may be paused, and as whom it is processed. *)
From S2P Require Import Prelude Frame NftPallet FrameModel Weights Runtime Xcm XcmModel XcmOrigin XcmExecutor.

Local Open Scope N_scope.

(** ** Interface *)

(** The message queue, the adapters of frame_support and parachains_common in front
    of it, and the message processor of xcm_builder behind it. *)
Class InboundQueues `{O : XcmOrigins} {A : XcmAssets (C := C) (X := X)} := {
  (** [AggregateMessageOrigin], and its conversion into a location. *)
  AggregateMessageOrigin : Type;
  AggregateMessageOrigin_eq_dec :: EqDecision AggregateMessageOrigin;
  AMO_Parent : AggregateMessageOrigin;
  AMO_Sibling : N → AggregateMessageOrigin;
  AMO_into : AggregateMessageOrigin → Location;
  (** [ParaIdToSibling::convert]. *)
  ParaIdToSibling : N → AggregateMessageOrigin;
  (** A message in bytes, and the instructions it decodes to. *)
  Bytes : Type;
  decode_message : Bytes → option (list Instruction);
  (** The storage of [MessageQueue]: the messages of each origin. *)
  Queues : Type;
  queued : Queues → AggregateMessageOrigin → list Bytes;
  enqueue_message : Bytes → AggregateMessageOrigin → Queues → Queues;
  EnqueueWithOrigin : (Bytes → AggregateMessageOrigin → Queues → Queues) →
    AggregateMessageOrigin → Bytes → Queues → Queues;
  TransformOrigin : (Bytes → AggregateMessageOrigin → Queues → Queues) →
    (N → AggregateMessageOrigin) → Bytes → N → Queues → Queues;
  (** The channels of [XcmpQueue], which hears of the footprint of a sibling's
      queue and may pause it. *)
  Channels : Type;
  Footprint : Type;
  XcmpQueue_is_paused : Channels → N → bool;
  XcmpQueue_on_queue_changed : N → Footprint → Channels → Channels;
  narrow_query : (Channels → N → bool) → Channels → AggregateMessageOrigin → bool;
  narrow_handler : (N → Footprint → Channels → Channels) →
    AggregateMessageOrigin → Footprint → Channels → Channels;
  (** [ProcessXcmMessage::process_message] over an executor, under a limit on the
      weight: whether the message ran to its end. *)
  ProcessXcmMessage {B : XcmBarriers (X := X)} :
    xcm_executor_Config (R := R) (A := A) (O := RuntimeOrigin) →
    Bytes → AggregateMessageOrigin → Weight → result bool ProcessMessageError;
}.

(** Messages are appended to the queue of their origin; the adapters fill in the
    origin; what is for siblings only does not concern the others; a message runs
    only if it decodes, weighs no more than the limit, and the barrier lets it in
    without credit; and the accounts of siblings differ. *)
Class InboundQueuesLaws `{Q : InboundQueues} : Prop := {
  parent_into : unpack (AMO_into AMO_Parent) = (1, []);
  sibling_into s : ∃ j, unpack (AMO_into (AMO_Sibling s)) = (1, [j]) ∧
    parachain_junction j = Some s ∧ plurality_id j = None;
  parent_no_sibling s : AMO_Parent ≠ AMO_Sibling s;
  sibling_inj s s' : AMO_Sibling s = AMO_Sibling s' → s = s';
  para_id_to_sibling s : ParaIdToSibling s = AMO_Sibling s;
  enqueue_appends m o q o' :
    queued (enqueue_message m o q) o' = queued q o' ++ (if decide (o = o') then [m] else []);
  with_origin e o m q : EnqueueWithOrigin e o m q = e m o q;
  transform_origin e f m s q : TransformOrigin e f m s q = e m (f s) q;
  query_parent f ch : narrow_query f ch AMO_Parent = false;
  query_sibling f ch s : narrow_query f ch (AMO_Sibling s) = f ch s;
  handler_parent f fp ch : narrow_handler f AMO_Parent fp ch = ch;
  handler_sibling f fp ch s : narrow_handler f (AMO_Sibling s) fp ch = f s fp ch;
  processes {B : XcmBarriers} cfg m o limit :
    is_ok (ProcessXcmMessage cfg m o limit) = true →
    ∃ xs w p, decode_message m = Some xs ∧ cfg.(xc_Weigher) xs = Some w ∧
      covers limit w = true ∧ ref_time (weight_credit p) = 0 ∧ proof_size (weight_credit p) = 0 ∧
      is_ok (cfg.(xc_Barrier) (AMO_into o) w (xs, p)).1 = true;
  sibling_account s : is_Some (SiblingParachainConvertsVia (AMO_into (AMO_Sibling s)));
  sibling_accounts_differ s s' :
    SiblingParachainConvertsVia (AMO_into (AMO_Sibling s)) =
    SiblingParachainConvertsVia (AMO_into (AMO_Sibling s')) → s = s';
}.

(** ** Definitions *)
Section inbound.
Context `{Q : InboundQueues}.

Definition RelayOrigin : AggregateMessageOrigin := AMO_Parent.

(** [DmpQueue] of the parachain system, and the [XcmpQueue] of the pallet of that
    name. *)
Definition DmpQueue : Bytes → Queues → Queues := EnqueueWithOrigin enqueue_message RelayOrigin.
Definition InboundXcmpQueue : Bytes → N → Queues → Queues :=
  TransformOrigin enqueue_message ParaIdToSibling.

Definition QueueChangeHandler : AggregateMessageOrigin → Footprint → Channels → Channels :=
  narrow_handler XcmpQueue_on_queue_changed.
Definition QueuePausedQuery : Channels → AggregateMessageOrigin → bool :=
  narrow_query XcmpQueue_is_paused.

(** [MessageProcessor], without the feature [runtime-benchmarks]. *)
Definition MessageProcessor {B : XcmBarriers (X := X)} {G : XcmWeigher (X := X)} {F : WeightToFee}
    (parachain_id : N) : Bytes → AggregateMessageOrigin → Weight → result bool ProcessMessageError :=
  ProcessXcmMessage (XcmConfig parachain_id).

(** Who a message arrives from, and the arrival of messages in any order. *)
Inductive sender := FromRelay | FromSibling (id : N).

Definition receive (q : Queues) (a : sender * Bytes) : Queues :=
  match a.1 with
  | FromRelay => DmpQueue a.2 q
  | FromSibling id => InboundXcmpQueue a.2 id q
  end.

(** The origin a sender is stored under. *)
Definition origin_of (x : sender) : AggregateMessageOrigin :=
  match x with FromRelay => AMO_Parent | FromSibling id => AMO_Sibling id end.
End inbound.

#[export] Instance sender_eq_dec : EqDecision sender.
Proof. solve_decision. Defined.

(** ** Properties *)
Section queues.
Context `{Q : InboundQueues} {HQ : InboundQueuesLaws} {HR : XcmRoutingLaws} {HO : XcmOriginsLaws}.

Lemma origin_of_inj x y : origin_of x = origin_of y → x = y.
Proof.
  destruct x, y; cbn; intros E; try done.
  - by apply parent_no_sibling in E.
  - by apply eq_sym, parent_no_sibling in E.
  - by apply sibling_inj in E as ->.
Qed.

(** One arrival: the message joins the queue of its sender. *)
Lemma receive_queued q a x :
  queued (receive q a) (origin_of x) =
  queued q (origin_of x) ++ (if decide (a.1 = x) then [a.2] else []).
Proof.
  assert (E : receive q a = enqueue_message a.2 (origin_of a.1) q).
  { unfold receive, DmpQueue, InboundXcmpQueue.
    destruct (a.1); cbn; [apply with_origin|by rewrite transform_origin, para_id_to_sibling]. }
  rewrite E, enqueue_appends. f_equal.
  destruct (decide (a.1 = x)) as [->|Hne]; [by rewrite decide_True|].
  rewrite decide_False; [done|]. intros ?%origin_of_inj. done.
Qed.

(** The account of a sibling is its sovereign account. *)
Lemma sibling_account_of s :
  LocationToAccountId (AMO_into (AMO_Sibling s)) =
  SiblingParachainConvertsVia (AMO_into (AMO_Sibling s)).
Proof.
  destruct (sibling_into s) as (j & Hj & _), (sibling_account s) as [a Ha].
  unfold LocationToAccountId, location_converters. cbn [convert_first].
  destruct (ParentIsPreset _) eqn:E; [|by rewrite Ha].
  by rewrite (parent_converts _ ltac:(by eexists)) in Hj.
Qed.

(** C27. Messages are kept apart by their senders: however the messages of the relay
    chain and of the siblings are interleaved, the queue of each sender holds
    exactly its own messages in the order in which they arrived, behind what it
    held before; a message of the relay chain that asks for the native origin is
    given the relay chain's, one of a sibling that sibling's, and two siblings
    that ask for their sovereign accounts sign as different accounts; and the
    queue of the relay chain is never paused, that of a sibling exactly if its
    channel is. *)
Theorem senders_are_kept_apart q arrivals x ch :
  (queued (foldl receive q arrivals) (origin_of x) =
   queued q (origin_of x) ++ (filter (λ a, a.1 = x) arrivals).*2) ∧
  XcmOriginToTransactDispatchOrigin (AMO_into (origin_of x)) OK_Native =
    Ok (match x with FromRelay => RelayChainOrigin | FromSibling s => SiblingPara s end) ∧
  (∀ s s' a,
     XcmOriginToTransactDispatchOrigin (AMO_into (origin_of (FromSibling s)))
       OK_SovereignAccount = Ok (signed a) →
     XcmOriginToTransactDispatchOrigin (AMO_into (origin_of (FromSibling s')))
       OK_SovereignAccount = Ok (signed a) → s = s') ∧
  QueuePausedQuery ch (origin_of x) =
    match x with FromRelay => false | FromSibling s => XcmpQueue_is_paused ch s end ∧
  ∀ fp, QueueChangeHandler (origin_of x) fp ch =
    match x with FromRelay => ch | FromSibling s => XcmpQueue_on_queue_changed s fp ch end.
Proof.
  split_and!.
  - revert q. induction arrivals as [|a arrivals IH]; intros q; cbn [foldl].
    { by rewrite app_nil_r. }
    rewrite IH, receive_queued, filter_cons.
    destruct (decide (a.1 = x)); cbn; by rewrite <- app_assoc.
  - rewrite transact_origin. destruct x as [|s]; cbn [origin_of].
    + by rewrite parent_into.
    + destruct (sibling_into s) as (j & -> & Hj & _). by rewrite Hj.
  - intros s s' a. cbn [origin_of]. rewrite !transact_origin, !sibling_account_of.
    destruct (SiblingParachainConvertsVia (AMO_into (AMO_Sibling s))) as [b|] eqn:E; [|done].
    destruct (SiblingParachainConvertsVia (AMO_into (AMO_Sibling s'))) as [b'|] eqn:E'; [|done].
    intros Hb Hb'. apply sibling_accounts_differ. rewrite E, E'. f_equal.
    apply (f_equal (λ r, match r with Ok o => ensure_signed o | Err _ => ensure_signed (signed a) end))
      in Hb, Hb'.
    rewrite !signed_signer in Hb, Hb'. congruence.
  - destruct x; cbn; [apply query_parent|apply query_sibling].
  - intros fp. destruct x; cbn; [apply handler_parent|apply handler_sibling].
Qed.
End queues.

Section processing.
Context `{Q : InboundQueues} {HQ : InboundQueuesLaws} {B : XcmBarriers (X := X)}
  {HB : XcmBarriersLaws} {G : XcmWeigher (X := X)} {HG : XcmWeigherLaws}
  {HW : SpWeightsLaws _} {F : WeightToFee} {HF : WeightToFeeLaws F} {L : BlockWeightsApi} {HL : BlockWeightsLaws L}.

(** C26. What the message queue runs is paid for or comes from the relay chain: a plain
    message under its sender's own origin that is processed within the weight the
    queue may use in a block moves no reserve through the relay chain, has at most
    28 instructions, and pays for its whole weight first, at eight micro-units for
    each instruction; only the relay chain itself may ask for free execution
    instead, and no sibling can. *)
Theorem siblings_pay_for_messages id limit x m xs :
  MessageQueueServiceWeight (5 * 1024 * 1024) = Some limit →
  decode_message m = Some xs → forallb plain xs = true → xs ≠ [] →
  N.of_nat (length xs) ≤ u32_MAX →
  compute_origin (UniversalLocation id) 8 (AMO_into (origin_of x)) (without_topic xs) =
    Ok (AMO_into (origin_of x), without_topic xs) →
  is_ok (MessageProcessor id m (origin_of x) limit) = true →
  existsb reserve_to_relay xs = false ∧ (length xs ≤ 28)%nat ∧
  ∃ w, Weigher xs = Some w ∧ weight_to_fee w = 8 * MICRO_UNIT * N.of_nat (length xs) ∧
    (pays (without_topic xs) w = true ∨
     x = FromRelay ∧ ∃ i rest, without_topic xs = i :: rest ∧ unpaid i w = true).
Proof.
  intros Hq Hdec Hp Hne Hn Hdir Hrun.
  apply (processes (XcmConfig id)) in Hrun as (xs' & w & p & Hd & Hw & Hc & Ht & _ & Hb).
  rewrite Hdec in Hd. injection Hd as <-. cbn [XcmConfig xc_Weigher xc_Barrier] in Hw, Hb.
  destruct (queue_limit _ Hq) as [_ Hqs]. pose proof (plain_weight xs Hp Hn) as Hpw.
  destruct (N.of_nat (length xs) <=? 100); [|congruence].
  destruct Hpw as (w' & Hw' & Hwt & Hws). simplify_eq.
  assert (0 < length xs)%nat by (destruct xs; cbn; [done|lia]).
  rewrite barrier_decides in Hb. unfold admits in Hb.
  rewrite Hdir, existsb_without_topic in Hb.
  apply andb_true_iff in Hb as [Hr%negb_true_iff Hb].
  assert (covers (weight_credit p) w = false) as Hno.
  { unfold covers. rewrite Ht, Hwt. apply andb_false_iff. left. apply N.leb_gt. lia. }
  rewrite Hno in Hb. cbn [orb] in Hb. split_and!; [done| |exists w; split_and!; [done| |]].
  - apply andb_true_iff in Hc as [_ Hc%N.leb_le]. rewrite Hqs, Hws in Hc. lia.
  - apply instructions_fee; [done|]. unfold u32_MAX, u64_MAX in *. lia.
  - apply orb_true_iff in Hb as [Hb|[Hf Hb]%andb_true_iff]; [by left|right].
    destruct (without_topic xs) as [|i rest] eqn:E; [done|]. split; [|eauto].
    destruct x as [|s]; [done|]. exfalso. apply contains_spec in Hf as [Hf|(j & Hf & Hj)].
    + destruct (sibling_into s) as (j & Hj & _). cbn in Hf. congruence.
    + destruct (sibling_into s) as (j' & Hj' & _ & Hs). cbn in Hf. congruence.
Qed.
End processing.
