(* ===== verification/InboundModel.v ===== *)
(** * Messages to receive

One list of messages for each origin, channels that are paused when their sibling
sends too much, and a processor that weighs a message and asks the barrier, for the
wiring of [Inbound]. *)
From S2P Require Import Prelude Frame NftPallet FrameModel Weights Runtime Xcm XcmModel XcmOrigin Governance GovernanceModel XcmExecutor ExecutorModel Inbound.

Local Open Scope N_scope.

#[local] Existing Instances TestWeights TestXcm TestRouting TestBarriers TestWeigher
  TestWeightToFee TestBlockWeights OriginConfig GovOrigins TestAssets.

(** [AggregateMessageOrigin] with its three kinds of origin. *)
Inductive aggregate := Here | Parent | Sibling (id : N).

#[export] Instance aggregate_eq_dec : EqDecision aggregate.
Proof. solve_decision. Defined.

Definition queues : Type := aggregate → list (list instruction).

(** The channels that are suspended. *)
Definition channels : Type := N → bool.

(** A message runs to its end. *)
Definition process {B : @XcmBarriers TestWeights TestXcm}
    (cfg : xcm_executor_Config (R := TestRouting) (A := TestAssets) (O := origin))
    (m : list instruction) (from : location) (limit : N * N) : result bool string :=
  match cfg.(xc_Weigher) m with
  | None => Err "Unsupported"%string
  | Some w =>
      if covers limit w then
        match (cfg.(xc_Barrier) from w (m, (0, 0))).1 with
        | Ok _ => Ok true
        | Err e => Err e
        end
      else Err "Overweight"%string
  end.

Definition TestQueues :
  @InboundQueues OriginConfig (list instruction) location string TestWeights TestXcm
    TestRouting GovOrigins TestAssets := {|
  AggregateMessageOrigin := aggregate;
  AMO_Parent := Parent;
  AMO_Sibling := Sibling;
  AMO_into o :=
    match o with Here => (0, []) | Parent => (1, []) | Sibling id => (1, [JParachain id]) end;
  ParaIdToSibling := Sibling;
  Bytes := list instruction;
  decode_message m := Some m;
  Queues := queues;
  queued q := q;
  enqueue_message m o q := λ o', q o' ++ (if decide (o = o') then [m] else []);
  EnqueueWithOrigin e o m q := e m o q;
  TransformOrigin e f m s q := e m (f s) q;
  Channels := channels;
  Footprint := N;
  XcmpQueue_is_paused ch := ch;
  XcmpQueue_on_queue_changed s fp ch := λ s', if decide (s = s') then 32 <? fp else ch s';
  narrow_query f ch o := match o with Sibling s => f ch s | _ => false end;
  narrow_handler f o fp ch := match o with Sibling s => f s fp ch | _ => ch end;
  ProcessXcmMessage B cfg m o limit :=
    process cfg m
      (match o with Here => (0, []) | Parent => (1, []) | Sibling id => (1, [JParachain id]) end)
      limit;
|}.
#[local] Existing Instance TestQueues.

#[export] Instance TestQueuesLaws :
  @InboundQueuesLaws OriginConfig (list instruction) location string TestWeights TestXcm
    TestRouting GovOrigins TestAssets TestQueues.
Proof.
  split; try done; cbn.
  - intros s. by exists (JParachain s).
  - intros s s' [=]. done.
  - intros B cfg m o limit. unfold process. change (N * N)%type with Weight in limit.
    destruct (xc_Weigher cfg m) as [w|] eqn:Hw; [|done]. destruct (covers _ w) eqn:Hc; [|done].
    intros H. exists m, w, (0, 0). split_and!; try done.
    destruct o; cbn in *; destruct (xc_Barrier _ _ _ _) as [[] ?]; done.
  - intros s s' H. injection H. lia.
Qed.

(** ** At work *)

(** Three messages of two senders. *)
Definition arrivals : list (sender * list instruction) :=
  [(FromSibling 7, [ITransact]); (FromRelay, [ISetTopic]); (FromSibling 7, [ISetTopic])].

Lemma senders_are_kept_apart_witness :
  queued (foldl receive (λ _, []) arrivals) (origin_of (FromSibling 7)) =
    [[ITransact]; [ISetTopic]] ∧
  QueuePausedQuery (λ s, s =? 7) (origin_of (FromSibling 7)) = true.
Proof.
  destruct (senders_are_kept_apart (Q := TestQueues) (λ _, []) arrivals (FromSibling 7)
    (λ s, s =? 7)) as (Hq & _ & _ & Hp & _).
  split; [exact Hq|exact Hp].
Defined.

(** The sibling chain 7 pays for a message; the queue runs it. *)
Definition paid_message : list instruction := [IPay (2000000000, 131072); ISetTopic].

Lemma siblings_pay_for_messages_witness :
  is_ok (MessageProcessor 1000 paid_message (Sibling 7) (700000000000, 1835008)) = true ∧
  ∃ w, Weigher paid_message = Some w ∧ weight_to_fee w = 16000000 ∧
    pays (without_topic paid_message) w = true.
Proof.
  split; [vm_compute; reflexivity|].
  destruct (siblings_pay_for_messages (Q := TestQueues) (B := TestBarriers) (G := TestWeigher)
    (F := TestWeightToFee) (L := TestBlockWeights)
    1000 (700000000000, 1835008) (FromSibling 7) paid_message paid_message)
    as (_ & _ & w & Hw & Hf & Hp); try reflexivity; [discriminate|vm_compute; discriminate|].
  exists w. split; [exact Hw|]. split; [exact Hf|]. destruct Hp as [Hp|[Hx _]]; [exact Hp|discriminate].
Defined.
