(* ===== verification/Fees.v ===== *)
(** * What a call of the pallet costs

The weights the pallet declares for its calls (src/pallets/template/src/lib.rs)
under the fee configuration of the runtime ([pallet_transaction_payment::Config]
in src/runtime/src/configs/mod.rs). *)
From S2P Require Import Prelude Frame NftPallet FrameModel Weights Runtime.

Local Open Scope N_scope.

(** ** Interface *)

(** The fee of pallet_transaction_payment, made from the two conversions a runtime
    configures. *)
Class TransactionPayment `{W : SpWeights} := {
  Multiplier : Type;
  (** [ConstantMultiplier<Balance, M>] on a length. *)
  ConstantMultiplier : Balance → N → Balance;
  (** The weight fee times the multiplier of the moment. *)
  adjust : Multiplier → Balance → Balance;
  compute_fee : (Weight → Balance) → (N → Balance) → Weight → Multiplier →
    N → Weight → Balance → Balance;
}.

(** A fee is the fee of the base weight, the fee of the length, the adjusted fee
    of the weight, and the tip; a multiple of nothing is nothing. *)
Class TransactionPaymentLaws `{P : TransactionPayment} : Prop := {
  constant_multiplier m len : ConstantMultiplier m len = saturating_mul u128_MAX len m;
  adjust_zero k : adjust k 0 = 0;
  compute_fee_parts wf lf base k len w tip :
    compute_fee wf lf base k len w tip =
    saturating_add u128_MAX
      (saturating_add u128_MAX (saturating_add u128_MAX (wf base) (lf len)) (adjust k (wf w)))
      tip;
}.

(** ** Definitions *)
Section fees.
Context {C : Config} `{P : TransactionPayment} {F : WeightToFee} {B : BlockWeightsApi}.

(** [#[pallet::weight(Weight::default())]] on every call, in the default class. *)
Definition call_weight (c : Call) : Weight :=
  match c with
  | Call_register_artist => from_parts 0 0
  | Call_create_collection _ => from_parts 0 0
  | Call_delete_collection _ => from_parts 0 0
  | Call_create_nft _ _ _ => from_parts 0 0
  | Call_transfer_nft _ _ _ => from_parts 0 0
  | Call_burn_nft _ _ => from_parts 0 0
  | Call_mint_nft _ _ => from_parts 0 0
  end.
Definition call_class (c : Call) : DispatchClass := Normal.

(** [type LengthToFee]. *)
Definition LengthToFee : N → Balance := ConstantMultiplier TransactionByteFee.

(** The fee of an extrinsic of [len] bytes that makes a call of the pallet. *)
Definition call_fee (limits : BlockWeights) (k : Multiplier) (len : N) (c : Call)
    (tip : Balance) : Balance :=
  compute_fee weight_to_fee LengthToFee (base_extrinsic (per_class limits (call_class c)))
    k len (call_weight c) tip.
End fees.

(** ** Properties *)
Section properties.
Context {C : Config} `{P : TransactionPayment} {F : WeightToFee} {B : BlockWeightsApi}.
Context {HW : SpWeightsLaws W} {HP : TransactionPaymentLaws} {HF : WeightToFeeLaws F}
  {HB : BlockWeightsLaws B}.

(** The fee of the length never reaches a bound. *)
Lemma length_fee len :
  len ≤ u32_MAX → LengthToFee len = MICRO_UNIT * (10 * len).
Proof.
  intros Hlen. unfold LengthToFee. rewrite constant_multiplier.
  unfold TransactionByteFee. rewrite wrapping_mul_exact by (by vm_compute).
  unfold u32_MAX, MICRO_UNIT, u128_MAX, saturating_mul in *. lia.
Qed.

(** Nothing to compute costs nothing. *)
Lemma zero_weight_is_free p : weight_to_fee (from_parts 0 p) = 0.
Proof.
  rewrite weight_to_fee_frac; rewrite ref_time_from_parts; [|done].
  by apply perbill_mul_exact; rewrite N.mul_0_r.
Qed.

(** Every call of the pallet costs the same, whatever it computes or stores and
    however busy the chain is: one micro-unit, ten more for each byte of the
    extrinsic, and the tip. *)
Lemma call_fee_is_flat pov limits k len c tip :
  RuntimeBlockWeights pov = Some limits → len ≤ u32_MAX →
  call_fee limits k len c tip = saturating_add u128_MAX (MICRO_UNIT * (1 + 10 * len)) tip.
Proof.
  intros Hb Hlen. unfold call_fee.
  rewrite compute_fee_parts, (runtime_base_extrinsic _ _ _ Hb), base_weight_fee.
  replace (call_weight c) with (from_parts 0 0) by (by destruct c).
  rewrite zero_weight_is_free, adjust_zero, (length_fee _ Hlen).
  unfold u32_MAX, MICRO_UNIT, u128_MAX, saturating_add in *. lia.
Qed.
End properties.

(** ** An executable instance *)

(** The multiplier is a number of percent. *)
Definition TestTransactionPayment : @TransactionPayment TestWeights := {|
  Multiplier := N;
  ConstantMultiplier m len := saturating_mul u128_MAX len m;
  adjust k fee := k * fee / 100;
  compute_fee wf lf base k len w tip :=
    saturating_add u128_MAX
      (saturating_add u128_MAX (saturating_add u128_MAX (wf base) (lf len)) (k * wf w / 100))
      tip;
|}.

#[export] Instance TestTransactionPaymentLaws :
  @TransactionPaymentLaws TestWeights TestTransactionPayment.
Proof. split; try done. intros k. cbn. by rewrite N.mul_0_r. Qed.
