(* ===== verification/Genesis.v ===== *)
(** * Genesis presets (src/runtime/src/genesis_config_presets.rs)

The genesis configuration of the two test networks, built from development
seeds, and the lookup of a preset by name. *)
From S2P Require Import Prelude Frame Runtime.

Local Open Scope N_scope.

(** ** Interface *)

(** Accounts and keys from seeds, preset names, and the [ParaId] type. *)
Class GenesisTypes := {
  GAccountId : Type;
  AuraId : Type;
  get_account_id_from_seed : string → GAccountId;
  get_collator_keys_from_seed : string → AuraId;
  XCM_VERSION : N;
  PresetId : Type;
  (** [PresetId::from(&str)] and [TryInto<&str>]. *)
  preset_from : string → PresetId;
  preset_try_into : PresetId → option string;
  LOCAL_TESTNET_RUNTIME_PRESET : string;
  DEV_RUNTIME_PRESET : string;
}.

Class GenesisTypesLaws (G : GenesisTypes) : Prop := {
  preset_roundtrip s : preset_try_into (preset_from s) = Some s;
  preset_inj i s : preset_try_into i = Some s → i = preset_from s;
  presets_differ : LOCAL_TESTNET_RUNTIME_PRESET ≠ DEV_RUNTIME_PRESET;
}.

(** ** Data *)
Section data.
Context {G : GenesisTypes}.

(** [SessionKeys] of [impl_opaque_keys!]. *)
Record SessionKeys := mkSessionKeys { aura : AuraId }.

(** The genesis configuration: the fields the presets set. The others keep the
    default of their pallet. *)
Record BalancesConfig := mkBalances { balances : list (GAccountId * Balance) }.
Record ParachainInfoConfig := mkParachainInfo { parachain_id : N }.
Record CollatorSelectionConfig := mkCollatorSelection {
  invulnerables : list GAccountId;
  candidacy_bond : Balance;
}.
Record SessionConfig := mkSession {
  keys : list (GAccountId * GAccountId * SessionKeys);
}.
Record PolkadotXcmConfig := mkXcm { safe_xcm_version : option N }.
Record SudoConfig := mkSudo { key : option GAccountId }.

Record RuntimeGenesisConfig := mkGenesisConfig {
  balances_config : BalancesConfig;
  parachain_info : ParachainInfoConfig;
  collator_selection : CollatorSelectionConfig;
  session : SessionConfig;
  polkadot_xcm : PolkadotXcmConfig;
  sudo : SudoConfig;
}.
End data.

(** serde_json: [None] stands for a serialization error. *)
Class Json `{GenesisTypes} := {
  Value : Type;
  to_value : RuntimeGenesisConfig → option Value;
  to_string : Value → option string;
}.

(** ** Definitions *)
Section presets.
Context {G : GenesisTypes} {J : Json}.

(** [Result::expect]: the error is the message of the panic. *)
Definition expect {A} (o : option A) (msg : string) : result A string := ok_or o msg.

Definition SAFE_XCM_VERSION : N := XCM_VERSION.

Definition template_session_keys (keys : AuraId) : SessionKeys := mkSessionKeys keys.

(** The [config] that [testnet_genesis] builds. *)
Definition testnet_config (invulnerables : list (GAccountId * AuraId))
    (endowed_accounts : list GAccountId) (root : GAccountId) (id : N) :
    RuntimeGenesisConfig :=
  mkGenesisConfig
    (mkBalances ((λ k, (k, N.shiftl 1 60)) <$> endowed_accounts))
    (mkParachainInfo id)
    (mkCollatorSelection ((λ '(acc, _), acc) <$> invulnerables)
       (wrapping_mul u128_MAX EXISTENTIAL_DEPOSIT 16))
    (mkSession ((λ '(acc, aura), (acc, acc, template_session_keys aura)) <$> invulnerables))
    (mkXcm (Some SAFE_XCM_VERSION))
    (mkSudo (Some root)).

Definition testnet_genesis (invulnerables : list (GAccountId * AuraId))
    (endowed_accounts : list GAccountId) (root : GAccountId) (id : N) :
    result Value string :=
  expect (to_value (testnet_config invulnerables endowed_accounts root id))
    "Could not build genesis config.".

Definition local_testnet_genesis : result Value string :=
  testnet_genesis
    [(get_account_id_from_seed "Alice", get_collator_keys_from_seed "Alice");
     (get_account_id_from_seed "Bob", get_collator_keys_from_seed "Bob")]
    [get_account_id_from_seed "Alice"; get_account_id_from_seed "Bob";
     get_account_id_from_seed "Charlie"; get_account_id_from_seed "Dave";
     get_account_id_from_seed "Eve"; get_account_id_from_seed "Ferdie";
     get_account_id_from_seed "Alice//stash"; get_account_id_from_seed "Bob//stash";
     get_account_id_from_seed "Charlie//stash"; get_account_id_from_seed "Dave//stash";
     get_account_id_from_seed "Eve//stash"; get_account_id_from_seed "Ferdie//stash"]
    (get_account_id_from_seed "Alice") 1000.

Definition development_config_genesis : result Value string :=
  testnet_genesis
    [(get_account_id_from_seed "Alice", get_collator_keys_from_seed "Alice");
     (get_account_id_from_seed "Bob", get_collator_keys_from_seed "Bob")]
    [get_account_id_from_seed "Alice"; get_account_id_from_seed "Bob";
     get_account_id_from_seed "Charlie"; get_account_id_from_seed "Dave";
     get_account_id_from_seed "Eve"; get_account_id_from_seed "Ferdie";
     get_account_id_from_seed "Alice//stash"; get_account_id_from_seed "Bob//stash";
     get_account_id_from_seed "Charlie//stash"; get_account_id_from_seed "Dave//stash";
     get_account_id_from_seed "Eve//stash"; get_account_id_from_seed "Ferdie//stash"]
    (get_account_id_from_seed "Alice") 1000.

(** The outer [Err] is a panic; [Ok None] an unknown preset. *)
Definition get_preset (id : PresetId) : result (option (list Byte.byte)) string :=
  let serialize (patch : result Value string) :=
    match patch with
    | Err msg => Err msg
    | Ok patch =>
        match expect (to_string patch) "serialization to json is expected to work. qed." with
        | Err msg => Err msg
        | Ok text => Ok (Some (String.list_byte_of_string text))
        end
    end in
  match preset_try_into id with
  | Some name =>
      if String.eqb name LOCAL_TESTNET_RUNTIME_PRESET then serialize local_testnet_genesis
      else if String.eqb name DEV_RUNTIME_PRESET then serialize development_config_genesis
      else Ok None
  | None => Ok None
  end.

Definition preset_names : list PresetId :=
  [preset_from DEV_RUNTIME_PRESET; preset_from LOCAL_TESTNET_RUNTIME_PRESET].
End presets.

(** ** What a genesis configuration must satisfy *)
Section wellformed.
Context {G : GenesisTypes}.

Definition total_issuance (c : RuntimeGenesisConfig) : N :=
  foldr N.add 0 (snd <$> balances (balances_config c)).

(** Accounts are endowed once, each at least with the existential deposit; every
    invulnerable collator has session keys under its own account, can afford the
    candidacy bond, and occurs once; and the sudo key is an endowed account. *)
Record genesis_ok (c : RuntimeGenesisConfig) : Prop := mkGenesisOk {
  ok_endowed_once : NoDup (fst <$> balances (balances_config c));
  ok_deposit : Forall (λ ab, EXISTENTIAL_DEPOSIT ≤ ab.2) (balances (balances_config c));
  ok_keys :
    (λ k, k.1.1) <$> keys (session c) = invulnerables (collator_selection c) ∧
    (λ k, k.1.2) <$> keys (session c) = invulnerables (collator_selection c);
  ok_invulnerables :
    NoDup (invulnerables (collator_selection c)) ∧
    Forall (λ a, ∃ b, (a, b) ∈ balances (balances_config c) ∧
                      candidacy_bond (collator_selection c) + EXISTENTIAL_DEPOSIT ≤ b)
      (invulnerables (collator_selection c));
  ok_sudo : ∃ a b, key (sudo c) = Some a ∧ (a, b) ∈ balances (balances_config c);
}.

(** Whatever the endowed accounts and collators, a configuration built by
    [testnet_config] is well-formed if the accounts are distinct and the
    collators and the root are among the endowed. *)
Lemma testnet_config_ok invs endowed root id :
  NoDup endowed → NoDup invs.*1 → Forall (λ a, a ∈ endowed) invs.*1 → root ∈ endowed →
  genesis_ok (testnet_config invs endowed root id).
Proof.
  intros Hn Hi Ha Hr. unfold testnet_config. split; cbn.
  - rewrite <- list_fmap_compose. cbn. by rewrite list_fmap_id.
  - apply Forall_fmap, Forall_true. intros a. by vm_compute.
  - rewrite <- !list_fmap_compose. split; apply list_fmap_ext; by intros ? [] ?.
  - split.
    + erewrite list_fmap_ext; [exact Hi|]. by intros ? [] ?.
    + assert (Heq : ((λ '(acc, _), acc) <$> invs : list GAccountId) = invs.*1)
        by (apply list_fmap_ext; by intros ? [] ?).
      rewrite Heq. eapply Forall_impl; [exact Ha|]. cbn. intros a Hin.
      exists (N.shiftl 1 60). split; [|by vm_compute].
      apply list_elem_of_fmap. eauto.
  - exists root, (N.shiftl 1 60). split; [done|]. apply list_elem_of_fmap. eauto.
Qed.
End wellformed.

(** ** An executable instance

Accounts are their seeds, and a configuration is written as its issuance. *)
Definition TestGenesisTypes : GenesisTypes := {|
  GAccountId := string;
  AuraId := string;
  get_account_id_from_seed s := s;
  get_collator_keys_from_seed s := s;
  XCM_VERSION := 4;
  PresetId := string;
  preset_from s := s;
  preset_try_into := Some;
  LOCAL_TESTNET_RUNTIME_PRESET := "local_testnet";
  DEV_RUNTIME_PRESET := "development";
|}.

#[export] Instance TestGenesisTypesLaws : GenesisTypesLaws TestGenesisTypes.
Proof. split; cbn; congruence. Qed.

Definition TestJson : @Json TestGenesisTypes := {|
  Value := N;
  to_value c := Some (@total_issuance TestGenesisTypes c);
  to_string v := Some (pretty.pretty v);
|}.

(** ** Properties *)
Section properties.
Context {G : GenesisTypes} {HG : GenesisTypesLaws G} {J : Json}.

Lemma preset_from_inj s1 s2 : preset_from s1 = preset_from s2 → s1 = s2.
Proof.
  intros Hs. pose proof (preset_roundtrip s1) as H1.
  rewrite Hs, preset_roundtrip in H1. by injection H1.
Qed.

(** What [get_preset] answers for a name, by the three arms of its match. *)
Lemma get_preset_name s :
  get_preset (preset_from s) = Ok None ↔
  s ≠ DEV_RUNTIME_PRESET ∧ s ≠ LOCAL_TESTNET_RUNTIME_PRESET.
Proof.
  unfold get_preset. rewrite preset_roundtrip.
  destruct (String.eqb_spec s LOCAL_TESTNET_RUNTIME_PRESET) as [->|].
  { unfold local_testnet_genesis, testnet_genesis, expect. split; [|tauto].
    by repeat destr_goal. }
  destruct (String.eqb_spec s DEV_RUNTIME_PRESET) as [->|]; [|tauto].
  unfold development_config_genesis, testnet_genesis, expect. split; [|tauto].
  by repeat destr_goal.
Qed.

(** A lookup knows exactly the listed names. *)
Lemma get_preset_unknown id : get_preset id = Ok None ↔ id ∉ preset_names.
Proof.
  unfold preset_names. rewrite !not_elem_of_cons.
  destruct (preset_try_into id) as [name|] eqn:Hid.
  - apply preset_inj in Hid as ->. rewrite get_preset_name.
    split; [|intros (H1 & H2 & _); split; by intros ->].
    intros [H1 H2]. split_and!; [by intros ?%preset_from_inj..|apply not_elem_of_nil].
  - unfold get_preset. rewrite Hid. split; [|done]. intros _.
    split_and!; [intros ->; by rewrite preset_roundtrip in Hid..|apply not_elem_of_nil].
Qed.

(** The listed preset names are exactly the presets there are: a lookup
    answers "unknown" for every name but those two, and for those two it gives
    the same genesis. *)
Theorem presets_are_the_listed_ones id :
  (get_preset id = Ok None ↔ id ∉ preset_names) ∧
  get_preset (preset_from DEV_RUNTIME_PRESET) =
    get_preset (preset_from LOCAL_TESTNET_RUNTIME_PRESET).
Proof.
  split; [apply get_preset_unknown|].
  unfold get_preset. rewrite !preset_roundtrip, !String.eqb_refl.
  pose proof presets_differ.
  by destruct (String.eqb_spec DEV_RUNTIME_PRESET LOCAL_TESTNET_RUNTIME_PRESET).
Qed.

(** The seeds of the endowed accounts. *)
Definition endowed_seeds : list string :=
  ["Alice"; "Bob"; "Charlie"; "Dave"; "Eve"; "Ferdie"; "Alice//stash"; "Bob//stash";
   "Charlie//stash"; "Dave//stash"; "Eve//stash"; "Ferdie//stash"].

(** The configuration both presets are the JSON of. *)
Definition preset_config : RuntimeGenesisConfig :=
  testnet_config
    ((λ s, (get_account_id_from_seed s, get_collator_keys_from_seed s)) <$> ["Alice"; "Bob"])
    (get_account_id_from_seed <$> endowed_seeds) (get_account_id_from_seed "Alice") 1000.

Lemma local_testnet_genesis_config :
  local_testnet_genesis = expect (to_value preset_config) "Could not build genesis config.".
Proof. done. Qed.

Lemma development_genesis_config :
  development_config_genesis = expect (to_value preset_config) "Could not build genesis config.".
Proof. done. Qed.

(** Different seeds give different accounts. *)
Definition seeds_distinct : Prop :=
  ∀ s1 s2, get_account_id_from_seed s1 = get_account_id_from_seed s2 → s1 = s2.

Lemma preset_config_ok : seeds_distinct → genesis_ok preset_config.
Proof.
  intros Hinj. apply testnet_config_ok.
  - apply (NoDup_fmap_2 (Inj0 := Hinj) get_account_id_from_seed endowed_seeds).
    apply (bool_decide_unpack _); by vm_compute.
  - apply (NoDup_fmap_2 (Inj0 := Hinj) get_account_id_from_seed ["Alice"; "Bob"]).
    apply (bool_decide_unpack _); by vm_compute.
  - cbn. repeat constructor; by rewrite ?elem_of_cons; auto.
  - by left.
Qed.

(** If different seeds give different accounts, both presets are the JSON of
    one well-formed configuration: twelve accounts endowed once each, two
    collators with keys and enough for their bond, an endowed sudo key,
    parachain 1000, and an issuance that a balance can hold. *)
Theorem presets_are_well_formed :
  (∀ s1 s2, get_account_id_from_seed s1 = get_account_id_from_seed s2 → s1 = s2) →
  ∃ c, genesis_ok c ∧
    local_testnet_genesis = expect (to_value c) "Could not build genesis config." ∧
    development_config_genesis = expect (to_value c) "Could not build genesis config." ∧
    length (balances (balances_config c)) = 12%nat ∧
    length (invulnerables (collator_selection c)) = 2%nat ∧
    candidacy_bond (collator_selection c) = 16 * MILLI_UNIT ∧
    parachain_id (parachain_info c) = 1000 ∧
    total_issuance c = 12 * 2 ^ 60 ∧ total_issuance c ≤ u128_MAX.
Proof.
  intros Hinj. exists preset_config. split; [by apply preset_config_ok|].
  split; [apply local_testnet_genesis_config|].
  split; [apply development_genesis_config|by vm_compute].
Qed.
End properties.

Lemma presets_are_the_listed_ones_witness :
  @get_preset TestGenesisTypes TestJson "development" =
  @get_preset TestGenesisTypes TestJson "local_testnet" ∧
  (@get_preset TestGenesisTypes TestJson "mainnet" = Ok None ↔
   ("mainnet"%string : string) ∉ (@preset_names TestGenesisTypes : list string)).
Proof.
  split; apply (presets_are_the_listed_ones (G := TestGenesisTypes) (J := TestJson) "mainnet").
Defined.

Lemma presets_are_well_formed_witness :
  ∃ c, @genesis_ok TestGenesisTypes c ∧
    @local_testnet_genesis TestGenesisTypes TestJson = Ok (12 * 2 ^ 60).
Proof.
  destruct (presets_are_well_formed (G := TestGenesisTypes) (J := TestJson))
    as (c & Hc & _); [done|].
  exists c. split; [exact Hc|]. vm_compute. reflexivity.
Defined.
