(* ===== verification/Apis.v ===== *)
(** * The runtime's interface to the node (src/runtime/src/apis.rs)

The methods a node calls on the runtime, and the table of benchmarks
(src/runtime/src/benchmarks.rs). Each method runs on the chain's storage and may
panic. What the methods forward to is an interface. *)
From S2P Require Import Prelude Frame NftPallet FrameModel Weights Runtime Fees Genesis.

Local Open Scope N_scope.

(** ** Interface *)

(** The types of a block and of what the methods take and return. *)
Class RuntimeTypes := {
  RState : Type;
  Block : Type;
  Header : Type;
  Extrinsic : Type;
  Hash : Type;
  RAccountId : Type;
  OtherCall : Type;
  ExtrinsicInclusionMode : Type;
  ApplyExtrinsicResult : Type;
  TransactionSource : Type;
  TransactionValidity : Type;
  InherentData : Type;
  CheckInherentsResult : Type;
  KeyTypeId : Type;
  FeeDetails : Type;
  CollationInfo : Type;
  ApiVersions : Type;
  RawMetadata : Type;
  OpaqueMetadata : Type;
}.

(** A method of the runtime: an error is a panic. *)
Definition api `{RuntimeTypes} (A : Type) : Type := rust RState string A.

(** [sp_version::RuntimeVersion]. *)
Record RuntimeVersion `{RuntimeTypes} := mkVersion {
  spec_name : string;
  impl_name : string;
  authoring_version : N;
  spec_version : N;
  impl_version : N;
  apis : ApiVersions;
  transaction_version : N;
  state_version : N;
}.

(** The block executive, the system pallets and the inherents. *)
Class FrameRuntime `{T : RuntimeTypes} {G : GenesisTypes} := {
  RUNTIME_API_VERSIONS : ApiVersions;
  Authorities_get : api (list AuraId);
  (** The consensus hook, from the length of a slot in milliseconds, the velocity
      and the capacity of the unincluded segment. *)
  FixedVelocityConsensusHook : N → N → N → Hash → N → api bool;
  Executive_execute_block : Block → api unit;
  Executive_initialize_block : Header → api ExtrinsicInclusionMode;
  Executive_apply_extrinsic : Extrinsic → api ApplyExtrinsicResult;
  Executive_finalize_block : api Header;
  Executive_validate_transaction :
    TransactionSource → Extrinsic → Hash → api TransactionValidity;
  Executive_offchain_worker : Header → api unit;
  create_extrinsics : InherentData → api (list Extrinsic);
  check_extrinsics : InherentData → Block → api CheckInherentsResult;
  Runtime_metadata : RawMetadata;
  OpaqueMetadata_new : RawMetadata → OpaqueMetadata;
  Runtime_metadata_at_version : N → option OpaqueMetadata;
  Runtime_metadata_versions : list N;
  SessionKeys_generate : option (list Byte.byte) → api (list Byte.byte);
  SessionKeys_decode : list Byte.byte → option (list (list Byte.byte * KeyTypeId));
  System_account_nonce : RAccountId → api N;
  ParachainSystem_collect_collation_info : Header → api CollationInfo;
}.

(** ** Version, slots, blocks *)
Section methods.
Context {C : Config} {G : GenesisTypes} {T : RuntimeTypes} {R : FrameRuntime}.

Definition VERSION : RuntimeVersion :=
  mkVersion _ "parachain-template-runtime" "parachain-template-runtime"
    1 1 0 RUNTIME_API_VERSIONS 1 1.

(** [NativeVersion]: the version of the node's own runtime, and the versions it may
    write blocks with besides. *)
Record NativeVersion := mkNativeVersion {
  runtime_version : RuntimeVersion;
  can_author_with : list N;
}.
Definition native_version : NativeVersion := mkNativeVersion VERSION [].

(** [SlotDuration::from_millis] keeps the milliseconds. *)
Definition impl_slot_duration : N := SLOT_DURATION.

Definition ConsensusHook : Hash → N → api bool :=
  FixedVelocityConsensusHook RELAY_CHAIN_SLOT_DURATION_MILLIS BLOCK_PROCESSING_VELOCITY
    UNINCLUDED_SEGMENT_CAPACITY.

Definition impl_can_build_upon (included_hash : Hash) (slot : N) : api bool :=
  ConsensusHook included_hash slot.

(** [AuraApi] and [AuraUnincludedSegmentApi]. *)
Definition slot_duration : api N := mret impl_slot_duration.
Definition authorities : api (list AuraId) := Authorities_get.
Definition can_build_upon (included_hash : Hash) (slot : N) : api bool :=
  impl_can_build_upon included_hash slot.

(** [Core]. *)
Definition version : api RuntimeVersion := mret VERSION.
Definition execute_block (block : Block) : api unit := Executive_execute_block block.
Definition initialize_block (header : Header) : api ExtrinsicInclusionMode :=
  Executive_initialize_block header.

(** [Metadata]. *)
Definition metadata : api OpaqueMetadata := mret (OpaqueMetadata_new Runtime_metadata).
Definition metadata_at_version (version : N) : api (option OpaqueMetadata) :=
  mret (Runtime_metadata_at_version version).
Definition metadata_versions : api (list N) := mret Runtime_metadata_versions.

(** [BlockBuilder]. *)
Definition apply_extrinsic (extrinsic : Extrinsic) : api ApplyExtrinsicResult :=
  Executive_apply_extrinsic extrinsic.
Definition finalize_block : api Header := Executive_finalize_block.
Definition inherent_extrinsics (data : InherentData) : api (list Extrinsic) :=
  create_extrinsics data.
Definition check_inherents (block : Block) (data : InherentData) : api CheckInherentsResult :=
  check_extrinsics data block.

(** [TaggedTransactionQueue] and [OffchainWorkerApi]. *)
Definition validate_transaction (source : TransactionSource) (tx : Extrinsic)
    (block_hash : Hash) : api TransactionValidity :=
  Executive_validate_transaction source tx block_hash.
Definition offchain_worker (header : Header) : api unit := Executive_offchain_worker header.

(** [SessionKeys]. *)
Definition generate_session_keys (seed : option (list Byte.byte)) : api (list Byte.byte) :=
  SessionKeys_generate seed.
Definition decode_session_keys (encoded : list Byte.byte) :
    api (option (list (list Byte.byte * KeyTypeId))) :=
  mret (SessionKeys_decode encoded).

(** [AccountNonceApi] and [CollectCollationInfo]. *)
Definition account_nonce (account : RAccountId) : api N := System_account_nonce account.
Definition collect_collation_info (header : Header) : api CollationInfo :=
  ParachainSystem_collect_collation_info header.
End methods.

(** ** What a transaction costs *)

(** What is known of a call before it runs, and the quote for it. *)
Record DispatchInfo `{SpWeights} := mkDispatchInfo {
  info_weight : Weight;
  info_class : DispatchClass;
  pays_fee : bool;
}.
Record RuntimeDispatchInfo `{SpWeights} := mkQuote {
  quote_weight : Weight;
  quote_class : DispatchClass;
  partial_fee : Balance;
}.

(** The calls of the pallet, and those of the other pallets. *)
Inductive RuntimeCall `{Config} `{RuntimeTypes} : Type :=
| RuntimeCall_TemplatePallet (c : Call)
| RuntimeCall_Other (c : OtherCall).

(** What [pallet_transaction_payment] is configured with. *)
Record FeeConfig {W : SpWeights} {B : BlockWeightsApi} := mkFeeConfig {
  cfg_weight_to_fee : Weight → Balance;
  cfg_length_to_fee : N → Balance;
  cfg_operational_multiplier : N;
  cfg_block_weights : option BlockWeights;
}.

Section weight_min.
Context {W : SpWeights}.

(** [Weight::min]. *)
Definition weight_min (a b : Weight) : Weight :=
  from_parts (N.min (ref_time a) (ref_time b)) (N.min (proof_size a) (proof_size b)).
End weight_min.

(** The queries of [pallet_transaction_payment] under a configuration. *)
Class FeeQueries `{C : Config} `{P : TransactionPayment} {B : BlockWeightsApi}
    {T : RuntimeTypes} := {
  other_dispatch_info : OtherCall → DispatchInfo;
  fee_multiplier : RState → Multiplier;
  Pallet_query_info : FeeConfig → Extrinsic → N → api RuntimeDispatchInfo;
  Pallet_query_fee_details : FeeConfig → Extrinsic → N → api FeeDetails;
  Pallet_weight_to_fee : FeeConfig → Weight → api Balance;
  Pallet_length_to_fee : FeeConfig → N → api Balance;
  Pallet_query_call_info :
    FeeConfig → (RuntimeCall → DispatchInfo) → RuntimeCall → N → api RuntimeDispatchInfo;
  Pallet_query_call_fee_details :
    FeeConfig → (RuntimeCall → DispatchInfo) → RuntimeCall → N → api FeeDetails;
}.

(** A weight is capped by the maximum of a block before it is converted; the fee
    of a call that pays is computed without a tip, with the multiplier of the
    moment; queries change nothing. *)
Class FeeQueriesLaws `{Q : FeeQueries} : Prop := {
  quote_weight_fee cfg limits w s :
    cfg.(cfg_block_weights) = Some limits →
    Pallet_weight_to_fee cfg w s =
      (Ok (cfg.(cfg_weight_to_fee) (weight_min w (max_block limits))), s);
  quote_length_fee cfg len s :
    Pallet_length_to_fee cfg len s = (Ok (cfg.(cfg_length_to_fee) len), s);
  quote_call_fee cfg limits info c len s :
    cfg.(cfg_block_weights) = Some limits → (info c).(pays_fee) = true →
    Pallet_query_call_info cfg info c len s =
      (Ok (mkQuote _ (info c).(info_weight) (info c).(info_class)
         (compute_fee cfg.(cfg_weight_to_fee) cfg.(cfg_length_to_fee)
            (base_extrinsic (per_class limits (info c).(info_class)))
            (fee_multiplier s) len (info c).(info_weight) 0)), s);
}.

Section fee_methods.
Context `{Q : FeeQueries} {F : WeightToFee}.
(** The maximal proof size of the relay chain. *)
Variable MAX_POV_SIZE : N.

Definition OperationalFeeMultiplier : N := 5.

Definition Runtime_fees : FeeConfig :=
  mkFeeConfig _ _ weight_to_fee LengthToFee OperationalFeeMultiplier
    (RuntimeBlockWeights MAX_POV_SIZE).

Definition get_dispatch_info (c : RuntimeCall) : DispatchInfo :=
  match c with
  | RuntimeCall_TemplatePallet c => mkDispatchInfo _ (call_weight c) (call_class c) true
  | RuntimeCall_Other c => other_dispatch_info c
  end.

(** [TransactionPaymentApi]. *)
Definition query_info (uxt : Extrinsic) (len : N) : api RuntimeDispatchInfo :=
  Pallet_query_info Runtime_fees uxt len.
Definition query_fee_details (uxt : Extrinsic) (len : N) : api FeeDetails :=
  Pallet_query_fee_details Runtime_fees uxt len.
Definition query_weight_to_fee (weight : Weight) : api Balance :=
  Pallet_weight_to_fee Runtime_fees weight.
Definition query_length_to_fee (length : N) : api Balance :=
  Pallet_length_to_fee Runtime_fees length.

(** [TransactionPaymentCallApi]. *)
Definition query_call_info (call : RuntimeCall) (len : N) : api RuntimeDispatchInfo :=
  Pallet_query_call_info Runtime_fees get_dispatch_info call len.
Definition query_call_fee_details (call : RuntimeCall) (len : N) : api FeeDetails :=
  Pallet_query_call_fee_details Runtime_fees get_dispatch_info call len.
Definition call_query_weight_to_fee (weight : Weight) : api Balance :=
  Pallet_weight_to_fee Runtime_fees weight.
Definition call_query_length_to_fee (length : N) : api Balance :=
  Pallet_length_to_fee Runtime_fees length.
End fee_methods.

(** ** Checks before an upgrade ([TryRuntime]) *)

(** What the methods of try-runtime call; the error of a failed check. *)
Class TryRuntimeApi `{W : SpWeights} {T : RuntimeTypes} := {
  UpgradeCheckSelect : Type;
  TryStateSelect : Type;
  TryRuntimeError : Type;
  try_runtime_upgrade : UpgradeCheckSelect → api (result Weight TryRuntimeError);
  try_execute_block :
    Block → bool → bool → TryStateSelect → api (result Weight TryRuntimeError);
  (** The message of [Result::unwrap]. *)
  unwrap_failed : TryRuntimeError → string;
}.

Section try_runtime.
Context {W : SpWeights} {B : BlockWeightsApi} {T : RuntimeTypes} {Y : TryRuntimeApi}.
Variable MAX_POV_SIZE : N.

(** [Result::unwrap]. *)
Definition unwrap {A} (r : result A TryRuntimeError) : api A :=
  try_ (match r with Ok a => Ok a | Err e => Err (unwrap_failed e) end).

(** [RuntimeBlockWeights::get()], which builds the limits or panics. *)
Definition RuntimeBlockWeights_get : api BlockWeights :=
  try_ (ok_or (RuntimeBlockWeights MAX_POV_SIZE) "block weights"%string).

Definition try_on_runtime_upgrade (checks : UpgradeCheckSelect) : api (Weight * Weight) :=
  r ← try_runtime_upgrade checks;
  weight ← unwrap r;
  limits ← RuntimeBlockWeights_get;
  mret (weight, max_block limits).

Definition try_execute (block : Block) (state_root_check signature_check : bool)
    (select : TryStateSelect) : api Weight :=
  r ← try_execute_block block state_root_check signature_check select;
  unwrap r.
End try_runtime.

(** ** Benchmarks (benchmarks.rs, and [Benchmark] of apis.rs) *)

(** What a benchmark runs on, and how one ends: with results, without any, or
    with the error that stops the run. *)
Inductive BenchmarkOutcome (R : Type) : Type :=
| Measured (results : R)
| Skipped
| Stopped (e : string).
Arguments Measured {R} results.
Arguments Skipped {R}.
Arguments Stopped {R} e.

Class Benchmarking {T : RuntimeTypes} := {
  BenchmarkConfig : Type;
  config_pallet : BenchmarkConfig → string;
  BenchmarkResults : Type;
  (** The name of a pallet and the results of a run. *)
  BenchmarkBatch : Type;
  batch : string → BenchmarkConfig → BenchmarkResults → BenchmarkBatch;
  BenchmarkList : Type;
  StorageInfo : Type;
  Whitelist : Type;
  whitelisted_storage_keys : Whitelist;
  storage_info : list StorageInfo;
  (** [<Location>::benchmarks(extra)] under the pallet's name. *)
  list_benchmark : string → string → bool → BenchmarkList;
  run_benchmark : string → BenchmarkConfig → Whitelist → RState →
    BenchmarkOutcome BenchmarkResults * RState;
  (** [add_benchmark!] of one pallet at its location. *)
  add_benchmark : BenchmarkConfig * Whitelist → string * string → list BenchmarkBatch →
    rust RState string (list BenchmarkBatch);
  initialize_for_set_code_benchmark : N → api unit;
  RuntimeEvent : Type;
  ValidationFunctionStored : RuntimeEvent;
  assert_last_event : RuntimeEvent → api unit;
}.

(** [add_benchmark!] runs the benchmark if the name is the one asked for. *)
Class BenchmarkingLaws {T : RuntimeTypes} (K : Benchmarking) : Prop := {
  add_other cfg wl p loc bs s :
    config_pallet cfg ≠ p → add_benchmark (cfg, wl) (p, loc) bs s = (Ok bs, s);
  add_this cfg wl p loc bs s :
    config_pallet cfg = p →
    add_benchmark (cfg, wl) (p, loc) bs s =
    match run_benchmark loc cfg wl s with
    | (Measured r, s') => (Ok (bs ++ [batch p cfg r]), s')
    | (Skipped, s') => (Ok bs, s')
    | (Stopped e, s') => (Err e, s')
    end;
}.

(** The table of [define_benchmarks!]: a pallet and where its benchmarks are. *)
Definition benchmarks : list (string * string) :=
  [ ("frame_system", "SystemBench::<Runtime>");
    ("pallet_balances", "Balances");
    ("pallet_session", "SessionBench::<Runtime>");
    ("pallet_timestamp", "Timestamp");
    ("pallet_message_queue", "MessageQueue");
    ("pallet_sudo", "Sudo");
    ("pallet_collator_selection", "CollatorSelection");
    ("cumulus_pallet_parachain_system", "ParachainSystem");
    ("cumulus_pallet_xcmp_queue", "XcmpQueue") ]%string.

Section benchmark_methods.
Context {T : RuntimeTypes} {K : Benchmarking}.

Definition benchmark_metadata (extra : bool) : list BenchmarkList * list StorageInfo :=
  ((λ '(p, loc), list_benchmark p loc extra) <$> benchmarks, storage_info).

(** [add_benchmarks!]: the entries of the table in their order. *)
Fixpoint add_benchmarks (params : BenchmarkConfig * Whitelist) (table : list (string * string))
    (batches : list BenchmarkBatch) : rust RState string (list BenchmarkBatch) :=
  match table with
  | [] => mret batches
  | entry :: table =>
      batches ← add_benchmark params entry batches;
      add_benchmarks params table batches
  end.

Definition dispatch_benchmark (config : BenchmarkConfig) :
    rust RState string (list BenchmarkBatch) :=
  let whitelist := whitelisted_storage_keys in
  let batches := [] in
  let params := (config, whitelist) in
  batches ← add_benchmarks params benchmarks batches;
  match batches with
  | [] => try_ (Err "Benchmark not found for this pallet."%string)
  | _ => mret batches
  end.

(** [impl frame_system_benchmarking::Config for Runtime]. *)
Definition setup_set_code_requirements (code : list Byte.byte) : api (result unit string) :=
  initialize_for_set_code_benchmark (as_u32 (N.of_nat (length code)));;
  mret (Ok ()).
Definition verify_set_code : api unit := assert_last_event ValidationFunctionStored.
End benchmark_methods.

(** ** Genesis ([GenesisBuilder]) *)

(** The helpers of frame_support, and the construction of the genesis storage from
    a configuration, which panics on a bad one. *)
Class GenesisHelper `{J : Json} {T : RuntimeTypes} := {
  (** [serde_json::from_slice]. *)
  from_slice : list Byte.byte → result RuntimeGenesisConfig string;
  default_config_json : list Byte.byte;
  BuildGenesisConfig_build : RuntimeGenesisConfig → api unit;
  empty_state : RState;
  helper_build_state : list Byte.byte → api (result unit string);
  helper_get_preset : option PresetId →
    (PresetId → result (option (list Byte.byte)) string) →
    result (option (list Byte.byte)) string;
}.

(** A configuration survives being written as JSON text; the text of a
    configuration is parsed and built, and other text is refused; without a name
    the preset is the default configuration; a well-formed configuration whose
    collators are within the limit builds on an empty storage. *)
Class GenesisHelperLaws `{H : GenesisHelper} : Prop := {
  json_roundtrip c : ∃ v text,
    to_value c = Some v ∧ to_string v = Some text ∧
    from_slice (String.list_byte_of_string text) = Ok c;
  build_state_json json s :
    helper_build_state json s =
    match from_slice json with
    | Ok c => (BuildGenesisConfig_build c;; mret (Ok ())) s
    | Err e => (Ok (Err ("Invalid JSON blob: " ++ e)%string), s)
    end;
  get_default_preset f : helper_get_preset None f = Ok (Some default_config_json);
  get_named_preset id f : helper_get_preset (Some id) f = f id;
  build_well_formed c :
    genesis_ok c →
    N.of_nat (length (invulnerables (collator_selection c))) ≤ MaxInvulnerables →
    ∃ s, BuildGenesisConfig_build c empty_state = (Ok (), s);
}.

Section genesis_methods.
Context `{H : GenesisHelper}.

Definition build_state (config : list Byte.byte) : api (result unit string) :=
  helper_build_state config.
Definition api_get_preset (id : option PresetId) : result (option (list Byte.byte)) string :=
  helper_get_preset id Genesis.get_preset.
Definition api_preset_names : list PresetId := Genesis.preset_names.
End genesis_methods.

(** ** Properties *)
Section genesis_properties.
Context `{H : GenesisHelper} {HG : GenesisTypesLaws _} {HH : GenesisHelperLaws}.

Lemma get_preset_listed id :
  id ∈ Genesis.preset_names →
  ∃ v text, to_value preset_config = Some v ∧ to_string v = Some text ∧
    from_slice (String.list_byte_of_string text) = Ok preset_config ∧
    Genesis.get_preset id = Ok (Some (String.list_byte_of_string text)).
Proof.
  destruct (json_roundtrip preset_config) as (v & text & Hv & Ht & Hf).
  intros Hid. exists v, text. split_and!; [done..|].
  unfold Genesis.get_preset.
  rewrite local_testnet_genesis_config, development_genesis_config, Hv. cbn. rewrite Ht. cbn.
  unfold Genesis.preset_names in Hid. rewrite !elem_of_cons in Hid.
  destruct Hid as [->|[->|[]%not_elem_of_nil]]; rewrite preset_roundtrip, String.eqb_refl; [|done].
  by destruct (String.eqb _ _).
Qed.

(** The genesis interface is complete: every preset the runtime lists is
    served as text, the runtime builds that text on an empty storage without a
    panic or an error, and what it builds is a well-formed configuration of two
    collators, of at most [MaxInvulnerables]; a name that is not listed is
    unknown, without a name the default is served, and text that is no
    configuration is refused and changes nothing. *)
Theorem genesis_api_serves_presets id json e s :
  (∀ s1 s2, get_account_id_from_seed s1 = get_account_id_from_seed s2 → s1 = s2) →
  from_slice json = Err e →
  (id ∈ api_preset_names → ∃ c bytes s',
     genesis_ok c ∧ length (invulnerables (collator_selection c)) = 2%nat ∧
     api_get_preset (Some id) = Ok (Some bytes) ∧
     build_state bytes empty_state = (Ok (Ok ()), s') ∧
     BuildGenesisConfig_build c empty_state = (Ok (), s')) ∧
  (id ∉ api_preset_names → api_get_preset (Some id) = Ok None) ∧
  api_get_preset None = Ok (Some default_config_json) ∧
  build_state json s = (Ok (Err ("Invalid JSON blob: " ++ e)%string), s).
Proof.
  intros Hinj Hjson. unfold api_get_preset, build_state, api_preset_names.
  rewrite get_default_preset, get_named_preset, build_state_json, Hjson.
  split_and!; [|by rewrite get_preset_unknown|done..].
  intros (v & text & _ & _ & Hf & Hg)%get_preset_listed.
  pose proof (preset_config_ok Hinj) as Hok.
  destruct (build_well_formed _ Hok) as [s' Hs']; [by vm_compute|].
  exists preset_config, (String.list_byte_of_string text), s'. split_and!; [done..| |done].
  rewrite build_state_json, Hf. by rewrite (bind_ok _ _ _ _ _ Hs').
Qed.
End genesis_properties.

Section fee_query_properties.
Context `{Q : FeeQueries} {F : WeightToFee}.
Context {HW : SpWeightsLaws W} {HP : TransactionPaymentLaws} {HF : WeightToFeeLaws F}
  {HB : BlockWeightsLaws B} {HQ : FeeQueriesLaws}.

(** The fee of a weight capped by a block. *)
Lemma capped_weight_fee pov limits w :
  RuntimeBlockWeights pov = Some limits →
  weight_to_fee (weight_min w (max_block limits)) =
  perbill_mul (from_rational 100000000 12500000000)
    (N.min (ref_time w) (2 * WEIGHT_REF_TIME_PER_SECOND)).
Proof.
  intros Hb. destruct (max_block_weight _ _ Hb) as [Ht _].
  assert (Hm : ref_time (max_block limits) = 2 * WEIGHT_REF_TIME_PER_SECOND)
    by (rewrite Ht; unfold MAXIMUM_BLOCK_WEIGHT; by rewrite ref_time_from_parts, per_second).
  rewrite weight_to_fee_frac; unfold weight_min; rewrite ref_time_from_parts, Hm; [done|].
  rewrite per_second. unfold u64_MAX. lia.
Qed.

(** The answers of the queries, under the runtime's configuration. *)
Lemma weight_query pov limits w s :
  RuntimeBlockWeights pov = Some limits →
  Pallet_weight_to_fee (Runtime_fees pov) w s =
    (Ok (weight_to_fee (weight_min w (max_block limits))), s).
Proof. intros Hb. exact (quote_weight_fee (Runtime_fees pov) limits w s Hb). Qed.

Lemma length_query pov len s :
  Pallet_length_to_fee (Runtime_fees pov) len s = (Ok (LengthToFee len), s).
Proof. exact (quote_length_fee (Runtime_fees pov) len s). Qed.

Lemma call_query pov limits c len s :
  RuntimeBlockWeights pov = Some limits →
  ∃ info, query_call_info pov (RuntimeCall_TemplatePallet c) len s = (Ok info, s) ∧
    partial_fee info = call_fee limits (fee_multiplier s) len c 0.
Proof.
  intros Hb. eexists. split.
  - exact (quote_call_fee (Runtime_fees pov) limits get_dispatch_info
      (RuntimeCall_TemplatePallet c) len s Hb eq_refl).
  - reflexivity.
Qed.

(** The heaviest block costs sixteen milli-units. *)
Lemma capped_weight_fee_le n :
  perbill_mul (from_rational 100000000 12500000000) (N.min n 2000000000000) ≤ 16 * MILLI_UNIT.
Proof.
  rewrite <- (perbill_mul_exact (from_rational 100000000 12500000000) 2000000000000
    (16 * MILLI_UNIT)) by (by rewrite polynomial_frac).
  apply perbill_mul_mono. lia.
Qed.

(** C31. What the runtime quotes is bounded and agrees: both fee interfaces
    answer a weight query alike, with the fee of the weight when it fits in a
    block and never more than sixteen milli-units; a length costs exactly ten
    micro-units a byte; and every call of the pallet is quoted one micro-unit plus
    its length, whatever it computes or stores and however busy the chain is. *)
Theorem quoted_fees_are_bounded pov limits w len c s :
  RuntimeBlockWeights pov = Some limits → len ≤ u32_MAX →
  (∃ fee, query_weight_to_fee pov w s = (Ok fee, s) ∧
     call_query_weight_to_fee pov w s = (Ok fee, s) ∧
     fee ≤ 16 * MILLI_UNIT ∧
     (ref_time w ≤ 2 * WEIGHT_REF_TIME_PER_SECOND → fee = weight_to_fee w)) ∧
  query_length_to_fee pov len s = (Ok (MICRO_UNIT * (10 * len)), s) ∧
  ∃ info, query_call_info pov (RuntimeCall_TemplatePallet c) len s = (Ok info, s) ∧
    partial_fee info = MICRO_UNIT * (1 + 10 * len).
Proof.
  intros Hb Hlen. split_and!.
  - exists (weight_to_fee (weight_min w (max_block limits))).
    split; [by apply weight_query|]. split; [by apply weight_query|].
    rewrite (capped_weight_fee _ _ _ Hb), per_second. split; [apply capped_weight_fee_le|].
    intros Hw. rewrite weight_to_fee_frac by (unfold u64_MAX; lia). f_equal. lia.
  - unfold query_length_to_fee. by rewrite length_query, length_fee.
  - destruct (call_query pov limits c len s Hb) as (info & Hi & Hf). exists info.
    split; [exact Hi|]. rewrite Hf, (call_fee_is_flat pov limits _ len c 0 Hb Hlen).
    unfold saturating_add, u32_MAX, u128_MAX, MICRO_UNIT in *. lia.
Qed.
End fee_query_properties.

Section try_runtime_properties.
Context {W : SpWeights} {HW : SpWeightsLaws W} {B : BlockWeightsApi} {HB : BlockWeightsLaws B}
  {T : RuntimeTypes} {Y : TryRuntimeApi}.

(** A dry run of an upgrade or of a block hides no failure: a failed check
    is a panic with its error, and otherwise the weight is the one measured, next
    to the two seconds a block may take. *)
Theorem try_runtime_hides_no_error pov checks block root sig select s e w s' limits :
  RuntimeBlockWeights pov = Some limits →
  (try_runtime_upgrade checks s = (Ok (Err e), s') →
   try_on_runtime_upgrade pov checks s = (Err (unwrap_failed e), s')) ∧
  (try_execute_block block root sig select s = (Ok (Err e), s') →
   try_execute block root sig select s = (Err (unwrap_failed e), s')) ∧
  (try_runtime_upgrade checks s = (Ok (Ok w), s') →
   ∃ m, try_on_runtime_upgrade pov checks s = (Ok (w, m), s') ∧
     ref_time m = 2 * WEIGHT_REF_TIME_PER_SECOND) ∧
  (try_execute_block block root sig select s = (Ok (Ok w), s') →
   try_execute block root sig select s = (Ok w, s')).
Proof.
  intros Hb. unfold try_on_runtime_upgrade, try_execute.
  split_and!; intros H; rewrite (bind_ok _ _ _ _ _ H); [done..| |done].
  unfold RuntimeBlockWeights_get. rewrite Hb. eexists. split; [done|].
  rewrite (proj1 (max_block_weight _ _ Hb)). unfold MAXIMUM_BLOCK_WEIGHT.
  by rewrite ref_time_from_parts, per_second.
Qed.
End try_runtime_properties.

Section benchmark_properties.
Context {T : RuntimeTypes} {K : Benchmarking} {HK : BenchmarkingLaws K}.

(** Entries of other pallets are passed over. *)
Lemma add_benchmarks_other cfg wl table bs s :
  config_pallet cfg ∉ table.*1 → add_benchmarks (cfg, wl) table bs s = (Ok bs, s).
Proof.
  induction table as [|[p loc] table IH]; [done|]. cbn. intros [Hp Ht]%not_elem_of_cons.
  rewrite (bind_ok _ _ _ _ _ (add_other cfg wl p loc bs s Hp)). auto.
Qed.

(** The one entry of a pallet decides, whatever comes around it. *)
Lemma add_benchmarks_entry cfg wl table bs s loc :
  NoDup table.*1 → (config_pallet cfg, loc) ∈ table →
  add_benchmarks (cfg, wl) table bs s =
  match run_benchmark loc cfg wl s with
  | (Measured r, s') => (Ok (bs ++ [batch (config_pallet cfg) cfg r]), s')
  | (Skipped, s') => (Ok bs, s')
  | (Stopped e, s') => (Err e, s')
  end.
Proof.
  induction table as [|[p l] table IH]; [by intros _ ?%not_elem_of_nil|].
  cbn. intros [Hp Hn]%NoDup_cons [[= <- <-]|Hin]%elem_of_cons.
  - pose proof (add_this cfg wl (config_pallet cfg) loc bs s eq_refl) as Ha.
    destruct (run_benchmark loc cfg wl s) as [[r| |e] s'];
      rewrite ?(bind_ok _ _ _ _ _ Ha), ?(bind_err _ _ _ _ _ Ha); [|..|done];
      by apply add_benchmarks_other.
  - assert (Hc : config_pallet cfg ∈ table.*1) by (by apply (list_elem_of_fmap_2 fst) in Hin).
    assert (Hne : config_pallet cfg ≠ p) by (by intros <-).
    rewrite (bind_ok _ _ _ _ _ (add_other cfg wl p l bs s Hne)). auto.
Qed.

(** A benchmark runs exactly the pallet it is asked for: a listed pallet
    gives one batch with the results of its one location, no batch is an error,
    an error of the run is passed on; a pallet that is not listed is not found,
    and that is the case of the chain's own pallet. *)
Theorem benchmarks_run_the_listed_pallets cfg s :
  (∀ loc, (config_pallet cfg, loc) ∈ benchmarks →
   dispatch_benchmark cfg s =
   match run_benchmark loc cfg whitelisted_storage_keys s with
   | (Measured r, s') => (Ok [batch (config_pallet cfg) cfg r], s')
   | (Skipped, s') => (Err "Benchmark not found for this pallet."%string, s')
   | (Stopped e, s') => (Err e, s')
   end) ∧
  (config_pallet cfg ∉ benchmarks.*1 →
   dispatch_benchmark cfg s = (Err "Benchmark not found for this pallet."%string, s)) ∧
  "pallet_parachain_template"%string ∉ benchmarks.*1.
Proof.
  split_and!.
  - intros loc Hin. unfold dispatch_benchmark.
    pose proof (add_benchmarks_entry cfg whitelisted_storage_keys benchmarks [] s loc
      ltac:(apply (bool_decide_unpack _); by vm_compute) Hin) as He.
    destruct (run_benchmark loc cfg whitelisted_storage_keys s) as [[r| |e] s'];
      by rewrite ?(bind_ok _ _ _ _ _ He), ?(bind_err _ _ _ _ _ He).
  - intros Ho. unfold dispatch_benchmark.
    by rewrite (bind_ok _ _ _ _ _ (add_benchmarks_other cfg whitelisted_storage_keys _ [] s Ho)).
  - apply (bool_decide_unpack _). by vm_compute.
Qed.
End benchmark_properties.
