(* ===== verification/ApiModel.v ===== *)
(** * A runtime to call

Implementations of the interfaces of [Apis]: a storage that remembers the genesis
configuration it was built from, JSON as a text of binary digits, and benchmarks
that all succeed. The examples run the interface of the runtime on them. *)
From Stdlib Require Import Ascii.
From S2P Require Import Prelude Frame NftPallet FrameModel Weights Runtime Fees Genesis Apis.

Local Open Scope N_scope.

(** ** Configurations as text *)

(** A positive number by its binary digits, the lowest first. *)
Fixpoint digits (p : positive) : string :=
  match p with
  | xH => ""
  | xO p => String "0"%char (digits p)
  | xI p => String "1"%char (digits p)
  end.

Fixpoint from_digits (s : string) : positive :=
  match s with
  | "" => xH
  | String c s => if Ascii.eqb c "1"%char then xI (from_digits s) else xO (from_digits s)
  end%string.

Lemma from_digits_digits p : from_digits (digits p) = p.
Proof. induction p as [p IH|p IH|]; cbn; by rewrite ?IH. Qed.

Abbreviation config := (@RuntimeGenesisConfig TestGenesisTypes) (only parsing).

(** A configuration as a tuple of its fields. *)
Definition fields (c : config) :=
  (balances (balances_config c), parachain_id (parachain_info c),
   (invulnerables (collator_selection c), candidacy_bond (collator_selection c)),
   prod_map id (@aura TestGenesisTypes) <$> keys (session c),
   safe_xcm_version (polkadot_xcm c), key (sudo c)).

Definition of_fields (t : list (string * N) * N * (list string * N) *
    list (string * string * string) * option N * option string) : config :=
  let '(bs, i, (invs, bond), ks, v, k) := t in
  mkGenesisConfig (G := TestGenesisTypes) (mkBalances (G := TestGenesisTypes) bs)
    (mkParachainInfo i) (mkCollatorSelection (G := TestGenesisTypes) invs bond)
    (mkSession (G := TestGenesisTypes) (prod_map id (mkSessionKeys (G := TestGenesisTypes)) <$> ks))
    (mkXcm v) (mkSudo (G := TestGenesisTypes) k).

Lemma of_fields_fields c : of_fields (fields c) = c.
Proof.
  destruct c as [[bs] [i] [invs bond] [ks] [v] [k]]. unfold fields, of_fields. cbn.
  do 2 f_equal. rewrite <- list_fmap_compose.
  rewrite <- (list_fmap_id ks) at 2. apply list_fmap_ext. by intros ? [? []] ?.
Qed.

Definition config_text (c : config) : string := digits (encode (fields c)).
Definition text_config (s : string) : option config := of_fields <$> decode (from_digits s).

Lemma text_config_text c : text_config (config_text c) = Some c.
Proof.
  unfold text_config, config_text. rewrite from_digits_digits, decode_encode.
  exact (f_equal Some (of_fields_fields c)).
Qed.

Definition TextJson : @Json TestGenesisTypes := {|
  Value := config;
  to_value := Some;
  to_string c := Some (config_text c);
|}.

(** ** The runtime *)

(** The storage is the configuration it was built from, if any. *)
Definition TestRuntimeTypes : RuntimeTypes := {|
  RState := option config;
  Block := N;
  Header := N;
  Extrinsic := N;
  Hash := N;
  RAccountId := N;
  OtherCall := unit;
  ExtrinsicInclusionMode := bool;
  ApplyExtrinsicResult := unit;
  TransactionSource := unit;
  TransactionValidity := bool;
  InherentData := unit;
  CheckInherentsResult := bool;
  KeyTypeId := N;
  FeeDetails := unit;
  CollationInfo := unit;
  ApiVersions := unit;
  RawMetadata := unit;
  OpaqueMetadata := unit;
|}.

#[local] Existing Instance TestRuntimeTypes.

Definition TestGenesisHelper : @GenesisHelper TestGenesisTypes TextJson TestRuntimeTypes := {|
  from_slice bytes := ok_or (text_config (String.string_of_list_byte bytes)) "syntax"%string;
  default_config_json := [];
  BuildGenesisConfig_build (c : config) := λ _, (Ok (), (Some c : option config));
  empty_state := None;
  helper_build_state json := λ s,
    match text_config (String.string_of_list_byte json) with
    | Some c => (Ok (Ok ()), Some c)
    | None => (Ok (Err "Invalid JSON blob: syntax"%string), s)
    end;
  helper_get_preset id f := match id with None => Ok (Some []) | Some id => f id end;
|}.

#[export] Instance TestGenesisHelperLaws :
  @GenesisHelperLaws TestGenesisTypes TextJson TestRuntimeTypes TestGenesisHelper.
Proof.
  split.
  - intros c. exists c, (config_text c). split_and!; [done..|]. cbn.
    by rewrite String.string_of_list_byte_of_string, text_config_text.
  - intros json s. cbn. by destruct (text_config _).
  - done.
  - done.
  - intros c _ _. by exists (Some c).
Qed.

(** The development preset, fetched and built; an empty text is not a
    configuration. *)
Lemma genesis_api_serves_presets_witness :
  (∃ c bytes, @genesis_ok TestGenesisTypes c ∧
    api_get_preset (J := TextJson) (H := TestGenesisHelper) (Some "development"%string) =
      Ok (Some bytes) ∧
    build_state (J := TextJson) (H := TestGenesisHelper) bytes None = (Ok (Ok ()), Some c)) ∧
  build_state (J := TextJson) (H := TestGenesisHelper) [] None =
    (Ok (Err "Invalid JSON blob: syntax"%string), None).
Proof.
  destruct (genesis_api_serves_presets (J := TextJson) (H := TestGenesisHelper)
    "development"%string [] "syntax"%string None) as (Hl & _ & _ & Hb);
    [intros ? ? Hs; exact Hs|vm_compute; reflexivity|].
  split; [|exact Hb].
  destruct Hl as (c & bytes & s' & Hok & _ & Hg & Hs & Hc); [by left|].
  exists c, bytes. split; [exact Hok|]. split; [exact Hg|].
  change ((@Ok unit string (), Some c) = (Ok (), s')) in Hc. injection Hc as <-. exact Hs.
Defined.

(** ** Fees *)

#[local] Existing Instance TestWeights.
#[local] Existing Instance TestTransactionPayment.
#[local] Existing Instance TestBlockWeights.

(** The multiplier is 900 percent; the fee of an opaque extrinsic is not asked. *)
Definition TestFeeQueries :
  @FeeQueries TestConfig TestWeights TestTransactionPayment TestBlockWeights TestRuntimeTypes := {|
  other_dispatch_info _ := mkDispatchInfo TestWeights (0, 0) Mandatory false;
  fee_multiplier _ := 900;
  Pallet_query_info _ _ _ := λ s, (Ok (mkQuote TestWeights (0, 0) Normal 0), s);
  Pallet_query_fee_details _ _ _ := λ s, (Ok (), s);
  Pallet_weight_to_fee cfg w := λ s,
    match cfg.(cfg_block_weights) with
    | Some limits =>
        (Ok (cfg.(cfg_weight_to_fee) (weight_min (W := TestWeights) w
          (max_block (BlockWeightsApi := TestBlockWeights) limits))), s)
    | None => (Err "limits"%string, s)
    end;
  Pallet_length_to_fee cfg len := λ s, (Ok (cfg.(cfg_length_to_fee) len), s);
  Pallet_query_call_info cfg info c len := λ s,
    match cfg.(cfg_block_weights), (info c).(pays_fee) with
    | Some limits, true =>
        (Ok (mkQuote TestWeights (info c).(info_weight) (info c).(info_class)
          (compute_fee (TransactionPayment := TestTransactionPayment)
            cfg.(cfg_weight_to_fee) cfg.(cfg_length_to_fee)
            (base_extrinsic (per_class (BlockWeightsApi := TestBlockWeights) limits
              (info c).(info_class)))
            900 len (info c).(info_weight) 0)), s)
    | Some limits, false =>
        (Ok (mkQuote TestWeights (info c).(info_weight) (info c).(info_class) 0), s)
    | None, _ => (Err "limits"%string, s)
    end;
  Pallet_query_call_fee_details _ _ _ _ := λ s, (Ok (), s);
|}.

#[export] Instance TestFeeQueriesLaws :
  @FeeQueriesLaws TestConfig TestWeights TestTransactionPayment TestBlockWeights
    TestRuntimeTypes TestFeeQueries.
Proof.
  split.
  - intros cfg limits w s Hc. cbn. by rewrite Hc.
  - done.
  - intros cfg limits info c len s Hc Hp. cbn. by rewrite Hc, Hp.
Qed.

(** An hour of computation is quoted as a block of it, and buying an item with an
    extrinsic of a hundred bytes as 1001 micro-units. *)
Lemma quoted_fees_are_bounded_witness :
  (∃ fee, query_weight_to_fee (Q := TestFeeQueries) (F := TestWeightToFee) (5 * 1024 * 1024)
     (3600000000000000, 0) None = (Ok fee, None) ∧ fee ≤ 16 * MILLI_UNIT) ∧
  ∃ info, query_call_info (Q := TestFeeQueries) (F := TestWeightToFee) (5 * 1024 * 1024)
     (RuntimeCall_TemplatePallet (Call_mint_nft 0 0)) 100 None = (Ok info, None) ∧
     partial_fee info = 1001 * MICRO_UNIT.
Proof.
  destruct (quoted_fees_are_bounded (Q := TestFeeQueries) (F := TestWeightToFee)
    (5 * 1024 * 1024) _ (3600000000000000, 0) 100 (Call_mint_nft 0 0) None eq_refl)
    as ((fee & Hf & _ & Hle & _) & _ & info & Hi & Hp); [vm_compute; discriminate|].
  split; [exists fee; split; [exact Hf|exact Hle]|].
  exists info. split; [exact Hi|exact Hp].
Defined.

(** ** Dry runs *)

(** An upgrade with checks fails, one without weighs one hundred. *)
Definition TestTryRuntime : @TryRuntimeApi TestWeights TestRuntimeTypes := {|
  UpgradeCheckSelect := bool;
  TryStateSelect := unit;
  TryRuntimeError := string;
  try_runtime_upgrade checks := λ s,
    (Ok (if checks then Err "try_state"%string else Ok (100, 0)), s);
  try_execute_block _ _ _ _ := λ s, (Ok (Ok (50, 0)), s);
  unwrap_failed e := ("called unwrap on an Err value: " ++ e)%string;
|}.

Lemma try_runtime_hides_no_error_witness :
  try_on_runtime_upgrade (B := TestBlockWeights) (Y := TestTryRuntime) (5 * 1024 * 1024)
    true None = (Err "called unwrap on an Err value: try_state"%string, None) ∧
  try_execute (Y := TestTryRuntime) 0 true true () None = (Ok (50, 0), None).
Proof.
  destruct (try_runtime_hides_no_error (B := TestBlockWeights) (Y := TestTryRuntime)
    (5 * 1024 * 1024) true 0 true true () None "try_state"%string (50, 0) None _ eq_refl)
    as (Hu & _ & _ & He).
  split; [apply Hu; reflexivity|apply He; reflexivity].
Defined.

(** ** Benchmarks *)

(** Every benchmark succeeds with the name of its location, but that of the
    sudo pallet, which stops. *)
Definition TestBenchmarking : @Benchmarking TestRuntimeTypes := {|
  BenchmarkConfig := string;
  config_pallet cfg := cfg;
  BenchmarkResults := string;
  BenchmarkBatch := string * string;
  batch p _ r := (p, r);
  BenchmarkList := string;
  StorageInfo := unit;
  Whitelist := unit;
  whitelisted_storage_keys := ();
  storage_info := [];
  list_benchmark p _ _ := p;
  run_benchmark loc _ _ s :=
    (if String.eqb loc "Sudo" then Stopped "stop" else Measured loc, s);
  add_benchmark '(cfg, _) '(p, loc) bs := λ s,
    if String.eqb cfg p then
      if String.eqb loc "Sudo" then (Err "stop"%string, s) else (Ok (bs ++ [(p, loc)]), s)
    else (Ok bs, s);
  initialize_for_set_code_benchmark _ := mret ();
  RuntimeEvent := unit;
  ValidationFunctionStored := ();
  assert_last_event _ := mret ();
|}.

#[export] Instance TestBenchmarkingLaws : BenchmarkingLaws TestBenchmarking.
Proof.
  split; cbn.
  - intros cfg _ p loc bs s Hne. by apply String.eqb_neq in Hne as ->.
  - intros cfg _ p loc bs s ->. rewrite String.eqb_refl. by destruct (String.eqb loc "Sudo").
Qed.

Lemma benchmarks_run_the_listed_pallets_witness :
  dispatch_benchmark (K := TestBenchmarking) "pallet_balances"%string None =
    (Ok [("pallet_balances", "Balances")]%string, None) ∧
  dispatch_benchmark (K := TestBenchmarking) "pallet_parachain_template"%string None =
    (Err "Benchmark not found for this pallet."%string, None).
Proof.
  split.
  - destruct (benchmarks_run_the_listed_pallets (K := TestBenchmarking)
      "pallet_balances"%string None) as [Hl _].
    apply (Hl "Balances"%string). right. left.
  - destruct (benchmarks_run_the_listed_pallets (K := TestBenchmarking)
      "pallet_parachain_template"%string None) as (_ & Ho & Hn).
    apply Ho. exact Hn.
Defined.
