(* ===== verification/Extrinsic.v ===== *)
(** * Transactions (src/runtime/src/lib.rs)

The call of the runtime as bytes, and what a signature covers: the call, the
[SignedExtra] of the transaction, and what the chain adds for each extension. The
extensions are FRAME's; which ones, in what order, is the runtime's. *)
From S2P Require Import Prelude Frame NftPallet FrameModel Codec Weights Runtime Genesis Fees Apis.

Local Open Scope N_scope.

(** ** Interface *)

(** A signed extension: the data a transaction carries for it, and the data the
    chain adds, or an error that invalidates the transaction. *)
Record Extension `{RuntimeTypes} (E I : Type) := mkExtension {
  explicit : codec E;
  implicit : codec I;
  additional_signed : RState → E → result I string;
}.
Arguments mkExtension {_ E I} _ _ _.
Arguments explicit {_ E I} _.
Arguments implicit {_ E I} _.
Arguments additional_signed {_ E I} _ _ _.

Class SignedExtensions `{T : RuntimeTypes} := {
  Era : Type;
  Mode : Type;
  genesis_hash : RState → Hash;
  CheckNonZeroSender : Extension () ();
  CheckSpecVersion : RuntimeVersion → Extension () N;
  CheckTxVersion : RuntimeVersion → Extension () N;
  CheckGenesis : Extension () Hash;
  CheckEra : Extension Era Hash;
  CheckNonce : Extension N ();
  CheckWeight : Extension () ();
  ChargeTransactionPayment : Extension Balance ();
  StorageWeightReclaim : Extension () ();
  CheckMetadataHash : Extension Mode (option Hash);
  (** A tuple of extensions, taken two at a time. *)
  ext_pair {E1 I1 E2 I2} : Extension E1 I1 → Extension E2 I2 → Extension (E1 * E2) (I1 * I2);
  (** The calls of the other pallets. *)
  other_call : codec OtherCall;
  (** What is signed of an encoded payload, and the hash of long ones. *)
  using_encoded : list u8 → list u8;
  blake2_256 : list u8 → list u8;
}.

(** An extension's data can be read back. *)
Definition faithful `{RuntimeTypes} {E I} (e : Extension E I) : Prop :=
  lossless (explicit e) ∧ lossless (implicit e) ∧
  ∀ s x i, additional_signed e s x = Ok i → holds (implicit e) i.

Class SignedExtensionsLaws `{X : SignedExtensions} : Prop := {
  non_zero_sender_ok : faithful CheckNonZeroSender;
  spec_version_ok v : faithful (CheckSpecVersion v);
  tx_version_ok v : faithful (CheckTxVersion v);
  genesis_ok_ext : faithful CheckGenesis;
  era_ok : faithful CheckEra;
  nonce_ok : faithful CheckNonce;
  weight_ok : faithful CheckWeight;
  payment_ok : faithful ChargeTransactionPayment;
  reclaim_ok : faithful StorageWeightReclaim;
  metadata_ok : faithful CheckMetadataHash;
  pair_explicit {E1 I1 E2 I2} (a : Extension E1 I1) (b : Extension E2 I2) :
    explicit (ext_pair a b) = prod_codec (explicit a) (explicit b);
  pair_implicit {E1 I1 E2 I2} (a : Extension E1 I1) (b : Extension E2 I2) :
    implicit (ext_pair a b) = prod_codec (implicit a) (implicit b);
  pair_additional {E1 I1 E2 I2} (a : Extension E1 I1) (b : Extension E2 I2) s x y :
    additional_signed (ext_pair a b) s (x, y) =
    match additional_signed a s x with
    | Err e => Err e
    | Ok i =>
        match additional_signed b s y with
        | Err e => Err e
        | Ok j => Ok (i, j)
        end
    end;
  (** The chain adds the hash of its genesis block, a hash of thirty-two bytes. *)
  check_genesis s : additional_signed CheckGenesis s () = Ok (genesis_hash s);
  genesis_width h : length (encode (implicit CheckGenesis) h) = 32%nat;
  era_width h : length (encode (implicit CheckEra) h) = 32%nat;
  (** A call begins with the index of its pallet, another one for each. *)
  other_call_ok : lossless other_call;
  other_call_index c : holds other_call c →
    ∃ n name rest, encode other_call c = index_byte n :: rest ∧
      (n, name) ∈ pallets ∧ name ≠ "TemplatePallet"%string;
  (** Payloads of more than 256 bytes are hashed to thirty-two. *)
  using_encoded_short bs : (length bs ≤ 256)%nat → using_encoded bs = bs;
  using_encoded_long bs : (256 < length bs)%nat → using_encoded bs = blake2_256 bs;
  blake2_width bs : length (blake2_256 bs) = 32%nat;
}.

(** ** Definitions *)
Section extrinsic.
Context {C : Config} {S : Scale} {G : GenesisTypes} {T : RuntimeTypes} {R : FrameRuntime}
  {X : SignedExtensions}.

(** The [SignedExtra] of the runtime, in its order. *)
Definition SignedExtra : Extension
    (() * (() * (() * (() * (Era * (N * (() * (Balance * (() * Mode)))))))))
    (() * (N * (N * (Hash * (Hash * (() * (() * (() * (() * option Hash))))))))) :=
  ext_pair CheckNonZeroSender
    (ext_pair (CheckSpecVersion VERSION)
      (ext_pair (CheckTxVersion VERSION)
        (ext_pair CheckGenesis
          (ext_pair CheckEra
            (ext_pair CheckNonce
              (ext_pair CheckWeight
                (ext_pair ChargeTransactionPayment
                  (ext_pair StorageWeightReclaim CheckMetadataHash)))))))).

(** The index of the pallet in [mod runtime]. *)
Definition TemplatePallet_index : N := 50.

(** [RuntimeCall]: the index of the pallet, then its call. *)
Definition RuntimeCall_codec : codec RuntimeCall := mkCodec
  (λ c, match c with
        | RuntimeCall_TemplatePallet c => index_byte TemplatePallet_index :: encode Call_codec c
        | RuntimeCall_Other c => encode other_call c
        end)
  (λ bs, match bs with
         | b :: rest =>
             if Byte.eqb b (index_byte TemplatePallet_index)
             then '(c, rest) ← decode Call_codec rest; Some (RuntimeCall_TemplatePallet c, rest)
             else '(c, rest) ← decode other_call bs; Some (RuntimeCall_Other c, rest)
         | [] => None
         end)
  (λ c, match c with
        | RuntimeCall_TemplatePallet c => holds Call_codec c
        | RuntimeCall_Other c => holds other_call c
        end).

(** The call, the extra, and what the chain adds. *)
Definition SignedPayload_codec :
    codec (RuntimeCall *
      ((() * (() * (() * (() * (Era * (N * (() * (Balance * (() * Mode))))))))) *
       (() * (N * (N * (Hash * (Hash * (() * (() * (() * (() * option Hash))))))))))) :=
  prod_codec RuntimeCall_codec (prod_codec (explicit SignedExtra) (implicit SignedExtra)).

(** The [SignedPayload] of [UncheckedExtrinsic]: the call, the extra and what the
    chain adds to it, encoded and possibly hashed; an error if an extension has
    nothing to add. *)
Definition signed_payload (s : RState) (call : RuntimeCall)
    (extra : () * (() * (() * (() * (Era * (N * (() * (Balance * (() * Mode))))))))) :
    result (list u8) string :=
  match additional_signed SignedExtra s extra with
  | Err e => Err e
  | Ok added =>
      Ok (using_encoded (encode SignedPayload_codec (call, (extra, added))))
  end.
End extrinsic.

(** ** Properties *)
Section properties.
Context {C : Config} {S : Scale} {G : GenesisTypes} {T : RuntimeTypes} {R : FrameRuntime}
  {X : SignedExtensions} {HS : ScaleLaws S} {HX : SignedExtensionsLaws}.

(** The bytes of the pallet indices differ. *)
Lemma other_pallet_byte n name :
  (n, name) ∈ pallets → name ≠ "TemplatePallet"%string →
  Byte.eqb (index_byte n) (index_byte TemplatePallet_index) = false.
Proof.
  assert (Hall : Forall (λ p, p.2 = "TemplatePallet"%string ∨
    Byte.eqb (index_byte p.1) (index_byte TemplatePallet_index) = false) pallets).
  { repeat (apply List.Forall_cons; [first [by right|by left]|]). apply List.Forall_nil. }
  rewrite Forall_forall in Hall. intros Hin Hne. by destruct (Hall _ Hin).
Qed.

Lemma RuntimeCall_lossless : lossless RuntimeCall_codec.
Proof.
  intros [c|c] rest Hc; cbn [encode holds decode RuntimeCall_codec] in *.
  - cbn [app]. change (Byte.eqb _ _) with true. cbv iota. by rewrite (Call_lossless c rest Hc).
  - destruct (other_call_index c Hc) as (n & name & tl & He & Hin & Hne).
    pose proof (other_call_ok c rest Hc) as Hd. rewrite He in *. cbn [app].
    rewrite (other_pallet_byte _ _ Hin Hne). cbn [app] in Hd. by rewrite Hd.
Qed.

Lemma added_pair {E1 I1 E2 I2} (a : Extension E1 I1) (b : Extension E2 I2) s x y i j :
  additional_signed (ext_pair a b) s (x, y) = Ok (i, j) →
  additional_signed a s x = Ok i ∧ additional_signed b s y = Ok j.
Proof.
  rewrite pair_additional. destruct (additional_signed a s x); [|done].
  destruct (additional_signed b s y); [|done]. by intros [= -> ->].
Qed.

Lemma faithful_pair {E1 I1 E2 I2} (a : Extension E1 I1) (b : Extension E2 I2) :
  faithful a → faithful b → faithful (ext_pair a b).
Proof.
  intros (Ha & Ha' & Hs) (Hb & Hb' & Hs'). unfold faithful.
  rewrite pair_explicit, pair_implicit. split_and!; [by apply prod_lossless..|].
  intros s [x y] [i j] [Hi Hj]%added_pair. split; eauto.
Qed.

Lemma SignedExtra_faithful : faithful SignedExtra.
Proof.
  unfold SignedExtra. repeat apply faithful_pair; auto using non_zero_sender_ok,
    spec_version_ok, tx_version_ok, genesis_ok_ext, era_ok, nonce_ok, weight_ok, payment_ok,
    reclaim_ok, metadata_ok.
Qed.

(** Two hashes are part of every payload. *)
Lemma implicit_width added : (64 ≤ length (encode (implicit SignedExtra) added))%nat.
Proof.
  unfold SignedExtra. rewrite !pair_implicit.
  destruct added as (a & b & c & g & e & rest). cbn [encode prod_codec].
  rewrite !length_app, genesis_width, era_width. lia.
Qed.

Lemma payload_width p : (32 < length (encode SignedPayload_codec p))%nat.
Proof.
  destruct p as (call & extra & added). unfold SignedPayload_codec. cbn [encode prod_codec].
  rewrite !length_app. pose proof (implicit_width added). lia.
Qed.

Lemma SignedPayload_lossless : lossless SignedPayload_codec.
Proof.
  destruct SignedExtra_faithful as (He & Hi & _).
  apply prod_lossless; [apply RuntimeCall_lossless|by apply prod_lossless].
Qed.

Lemma added_genesis s extra added :
  additional_signed SignedExtra s extra = Ok added → added.2.2.2.1 = genesis_hash s.
Proof.
  destruct extra as (a & b & c & [] & rest), added as (a' & b' & c' & g & rest').
  intros (_ & (_ & (_ & (Hg & _)%added_pair)%added_pair)%added_pair)%added_pair.
  rewrite check_genesis in Hg. by injection Hg.
Qed.

(** Two different inputs with one hash. *)
Definition collision : Prop := ∃ x y, x ≠ y ∧ blake2_256 x = blake2_256 y.

(** Payloads longer than a hash are signed in a way that tells them apart. *)
Lemma using_encoded_binds x y :
  (32 < length x)%nat → (32 < length y)%nat → using_encoded x = using_encoded y →
  x = y ∨ collision.
Proof.
  intros Hx Hy He.
  destruct (decide (length x ≤ 256)%nat) as [Lx|Lx], (decide (length y ≤ 256)%nat) as [Ly|Ly].
  - left. by rewrite !using_encoded_short in He by done.
  - rewrite using_encoded_short, using_encoded_long in He by lia.
    subst x. rewrite blake2_width in Hx. lia.
  - rewrite using_encoded_long, using_encoded_short in He by lia.
    subst y. rewrite blake2_width in Hy. lia.
  - rewrite !using_encoded_long in He by lia.
    destruct (List.list_eq_dec Byte.byte_eq_dec x y) as [->|Hne]; [by left|]. right. by exists x, y.
Qed.

(** C22. A signature binds: if what is signed of two transactions is the same,
    then it is the same call with the same nonce, tip and era, for a chain with
    the same genesis block, unless the hash function has a collision. A signature
    for one chain is of no use on another, and nothing of a transaction can be
    changed under it. *)
Theorem signatures_bind s1 s2 call1 call2 extra1 extra2 signed :
  holds RuntimeCall_codec call1 → holds RuntimeCall_codec call2 →
  holds (explicit SignedExtra) extra1 → holds (explicit SignedExtra) extra2 →
  signed_payload s1 call1 extra1 = Ok signed →
  signed_payload s2 call2 extra2 = Ok signed →
  (call1 = call2 ∧ extra1 = extra2 ∧ genesis_hash s1 = genesis_hash s2) ∨ collision.
Proof.
  intros Hc1 Hc2 He1 He2. unfold signed_payload.
  destruct (additional_signed SignedExtra s1 extra1) as [a1|] eqn:A1; [|done].
  destruct (additional_signed SignedExtra s2 extra2) as [a2|] eqn:A2; [|done].
  intros H1 H2. destruct SignedExtra_faithful as (_ & _ & Hadd).
  assert (Hs : using_encoded (encode SignedPayload_codec (call1, (extra1, a1))) =
               using_encoded (encode SignedPayload_codec (call2, (extra2, a2)))) by congruence.
  apply using_encoded_binds in Hs as [Hs|]; [|by right|apply payload_width..].
  left. apply (f_equal (.++ [])), (lossless_prefix SignedPayload_codec) in Hs as [Hs _];
    [|apply SignedPayload_lossless|exact (conj Hc1 (conj He1 (Hadd _ _ _ A1)))
     |exact (conj Hc2 (conj He2 (Hadd _ _ _ A2)))].
  simplify_eq. split_and!; [done..|].
  apply added_genesis in A1 as <-. by apply added_genesis in A2 as <-.
Qed.
End properties.
