(* ===== verification/ExtrinsicModel.v ===== *)
(** * Transactions to sign

Signed extensions over the SCALE codecs of [ScaleModel] and the runtime of [ApiModel]: a
chain has genesis hash 1 before its genesis is built and 2 after, and the hash of
a payload is its first thirty-two bytes. *)
From S2P Require Import Prelude Frame NftPallet FrameModel Codec ScaleModel Weights Runtime Genesis Fees Apis ApiModel Extrinsic.

Local Open Scope N_scope.

#[local] Existing Instance TestGenesisTypes.
#[local] Existing Instance TestRuntimeTypes.

Definition TestFrameRuntime : @FrameRuntime TestRuntimeTypes TestGenesisTypes := {|
  RUNTIME_API_VERSIONS := ();
  Authorities_get := mret [];
  FixedVelocityConsensusHook _ _ _ _ _ := mret true;
  Executive_execute_block _ := mret ();
  Executive_initialize_block _ := mret true;
  Executive_apply_extrinsic _ := mret ();
  Executive_finalize_block := mret 0;
  Executive_validate_transaction _ _ _ := mret true;
  Executive_offchain_worker _ := mret ();
  create_extrinsics _ := mret [];
  check_extrinsics _ _ := mret true;
  Runtime_metadata := ();
  OpaqueMetadata_new _ := ();
  Runtime_metadata_at_version _ := None;
  Runtime_metadata_versions := [];
  SessionKeys_generate _ := mret [];
  SessionKeys_decode _ := None;
  System_account_nonce _ := mret 0;
  ParachainSystem_collect_collation_info _ := mret ();
|}.
#[local] Existing Instance TestFrameRuntime.

(** ** Signed extensions *)

Definition unit_codec : codec () := mkCodec (λ _, []) (λ bs, Some ((), bs)) (λ _, True).

Definition option_codec {A} (c : codec A) : codec (option A) := mkCodec
  (λ o, match o with None => [Byte.x00] | Some a => Byte.x01 :: encode c a end)
  (λ bs, match bs with
         | Byte.x00 :: bs => Some (None, bs)
         | Byte.x01 :: bs => '(a, bs) ← decode c bs; Some (Some a, bs)
         | _ => None
         end)
  (λ o, match o with None => True | Some a => holds c a end).

Lemma unit_lossless : lossless unit_codec.
Proof. by intros [] rest _. Qed.

Lemma option_lossless {A} (c : codec A) : lossless c → lossless (option_codec c).
Proof. intros Hc [a|] rest Ha; [|done]. cbn. by rewrite (Hc a rest Ha). Qed.

Definition genesis_of (s : @RState TestRuntimeTypes) : N :=
  match s with Some _ => 2 | None => 1 end.

(** A pallet of index 0 with one call. *)
Definition system_call : codec () := mkCodec
  (λ _, [index_byte 0])
  (λ bs, match bs with Byte.x00 :: bs => Some ((), bs) | _ => None end)
  (λ _, True).

Definition TestSignedExtensions : @SignedExtensions TestRuntimeTypes := {|
  Era := N;
  Mode := bool;
  genesis_hash := genesis_of;
  CheckNonZeroSender := mkExtension unit_codec unit_codec (λ _ _, Ok ());
  CheckSpecVersion v :=
    mkExtension unit_codec (le_codec 4) (λ _ _, Ok (as_u32 v.(spec_version)));
  CheckTxVersion v :=
    mkExtension unit_codec (le_codec 4) (λ _ _, Ok (as_u32 v.(transaction_version)));
  CheckGenesis := mkExtension unit_codec (le_codec 32) (λ s _, Ok (genesis_of s));
  CheckEra := mkExtension (le_codec 1) (le_codec 32) (λ s _, Ok (genesis_of s));
  CheckNonce := mkExtension compact_codec unit_codec (λ _ _, Ok ());
  CheckWeight := mkExtension unit_codec unit_codec (λ _ _, Ok ());
  ChargeTransactionPayment := mkExtension compact_codec unit_codec (λ _ _, Ok ());
  StorageWeightReclaim := mkExtension unit_codec unit_codec (λ _ _, Ok ());
  CheckMetadataHash := mkExtension bool_codec (option_codec (le_codec 32)) (λ _ _, Ok None);
  ext_pair _ _ _ _ a b := mkExtension
    (prod_codec (explicit a) (explicit b)) (prod_codec (implicit a) (implicit b))
    (λ s '(x, y),
      match additional_signed a s x with
      | Err e => Err e
      | Ok i =>
          match additional_signed b s y with
          | Err e => Err e
          | Ok j => Ok (i, j)
          end
      end);
  other_call := system_call;
  using_encoded bs :=
    if (length bs <=? 256)%nat then bs else take 32 (bs ++ replicate 32 Byte.x00);
  blake2_256 bs := take 32 (bs ++ replicate 32 Byte.x00);
|}.
#[local] Existing Instance TestSignedExtensions.

#[local] Hint Resolve unit_lossless bool_lossless compact_lossless le_lossless option_lossless
  : codec.

Lemma take_width (n : nat) (bs : list u8) : length (take n (bs ++ replicate n Byte.x00)) = n.
Proof. rewrite length_take, length_app, length_replicate. lia. Qed.

#[export] Instance TestSignedExtensionsLaws : @SignedExtensionsLaws TestRuntimeTypes TestSignedExtensions.
Proof.
  assert (Hu : ∀ n, as_u32 n < 256 ^ N.of_nat 4).
  { intros n. apply N.mod_lt. done. }
  split; try done; intros; try (split; [|split]; cbn; [by auto with codec..|]).
  all: try (by intros ? ? [] _); try (by intros ? ? ? [= <-]).
  - intros [] ? i [= <-]; by vm_compute.
  - intros [] ? i [= <-]; by vm_compute.
  - by intros [] rest _.
  - exists 0, "System"%string, []. split; [by destruct c|]. split; [by left|done].
  - cbn. by apply Nat.leb_le in H as ->.
  - cbn. by apply Nat.leb_gt in H as ->.
  - apply (take_width 32).
Qed.

(** ** Signing *)

(** Buying item 3 of collection 258 with nonce 5 and tip 0. *)
Definition purchase : @RuntimeCall TestConfig TestRuntimeTypes :=
  RuntimeCall_TemplatePallet (Call_mint_nft 258 3).
Definition purchase_extra :=
  ((), ((), ((), ((), (0, (5, ((), (0, ((), false))))))))) :
    () * (() * (() * (() * (N * (N * (() * (Balance * (() * bool)))))))).

(** The first bytes are the pallet, the call and its arguments; the last the
    versions and the two hashes, and no metadata hash. *)
Example purchase_bytes :
  match signed_payload None purchase purchase_extra with
  | Ok bs => (length bs, map Byte.to_N (take 14 bs)) = (87%nat, [50; 9; 2; 1; 0; 0; 3; 0; 0; 0; 0; 20; 0; 0])
  | Err _ => False
  end.
Proof. vm_compute. reflexivity. Qed.

Lemma signatures_bind_witness :
  ∃ signed, signed_payload None purchase purchase_extra = Ok signed ∧
    ((purchase = purchase ∧ purchase_extra = purchase_extra ∧ genesis_of None = genesis_of None) ∨
     collision (X := TestSignedExtensions)).
Proof.
  eexists. split; [vm_compute; reflexivity|].
  eapply (signatures_bind (X := TestSignedExtensions) None None purchase purchase purchase_extra
    purchase_extra);
    [split; reflexivity|split; reflexivity|vm_compute; tauto|vm_compute; tauto
    |vm_compute; reflexivity|vm_compute; reflexivity].
Defined.
