(* ===== verification/Blocks.v ===== *)
(** * Blocks of the runtime and of the node (src/runtime/src/lib.rs)

The runtime reads the transactions of a block; the node passes them on unread, as
bytes: the module [opaque] has block types of its own for it. Both are instances of
the generic types of sp_runtime, whose encodings are an interface; which instances
is the runtime's choice. *)
From S2P Require Import Prelude Frame NftPallet FrameModel Codec Weights Runtime Genesis Fees Apis Extrinsic.

Local Open Scope N_scope.

(** ** Interface *)

Class SpRuntime {C : Config} := {
  (** [generic::Header] over a number and a hasher. *)
  generic_Header : (list u8 → list u8) → Type;
  generic_Header_codec : codec N → ∀ hasher, codec (generic_Header hasher);
  BlakeTwo256 : list u8 → list u8;
  generic_Block_codec {H E : Type} : codec H → codec E → codec (H * list E);
  (** [generic::UncheckedExtrinsic]: a call, and the address, the signature and the
      extra of its signer if it is signed. *)
  generic_UncheckedExtrinsic_codec {A M F K : Type} :
    codec A → codec M → codec F → codec K → codec (option (A * F * K) * M);
  OpaqueExtrinsic_codec : codec (list u8);
  MultiAddress : Type → Type → Type;
  MultiAddress_codec {A I : Type} : codec A → codec I → codec (MultiAddress A I);
  MultiSignature : Type;
  MultiSignature_codec : codec MultiSignature;
  (** The encodings of [u32] and of the empty tuple. *)
  number_codec : codec N;
  unit_ty_codec : codec ();
}.

(** Encodings can be read back if those of their parts can; a block is its header
    and the encodings of its extrinsics one after the other; and an extrinsic is
    encoded as its bytes, behind their number. *)
Class SpRuntimeLaws {C : Config} (P : SpRuntime) : Prop := {
  header_ok h : lossless (generic_Header_codec number_codec h);
  block_ok {H E} (ch : codec H) (ce : codec E) :
    lossless ch → lossless ce → lossless (generic_Block_codec ch ce);
  block_encoding {H E F} (ch : codec H) (ce : codec E) (cf : codec F) h xs ys :
    Forall2 (λ x y, encode ce x = encode cf y) xs ys →
    encode (generic_Block_codec ch ce) (h, xs) = encode (generic_Block_codec ch cf) (h, ys);
  block_holds_inv {H E} (ch : codec H) (ce : codec E) h xs :
    holds (generic_Block_codec ch ce) (h, xs) → Forall (holds ce) xs;
  block_holds {H E F} (ch : codec H) (ce : codec E) (cf : codec F) h xs ys :
    holds (generic_Block_codec ch ce) (h, xs) → length ys = length xs →
    Forall (holds cf) ys → holds (generic_Block_codec ch cf) (h, ys);
  extrinsic_ok {A M F K} (ca : codec A) (cm : codec M) (cf : codec F) (ck : codec K) :
    lossless ca → lossless cm → lossless cf → lossless ck →
    lossless (generic_UncheckedExtrinsic_codec ca cm cf ck);
  extrinsic_bytes {A M F K} (ca : codec A) (cm : codec M) (cf : codec F) (ck : codec K) x :
    holds (generic_UncheckedExtrinsic_codec ca cm cf ck) x →
    ∃ bs, holds OpaqueExtrinsic_codec bs ∧
      encode (generic_UncheckedExtrinsic_codec ca cm cf ck) x = encode OpaqueExtrinsic_codec bs;
  opaque_ok : lossless OpaqueExtrinsic_codec;
  address_ok {A I} (ca : codec A) (ci : codec I) :
    lossless ca → lossless ci → lossless (MultiAddress_codec ca ci);
  signature_ok : lossless MultiSignature_codec;
  unit_ty_ok : lossless unit_ty_codec;
}.

(** ** Definitions *)
Section blocks.
Context {C : Config} {S : Scale} {G : GenesisTypes} {T : RuntimeTypes} {R : FrameRuntime}
  {X : SignedExtensions} {P : SpRuntime}.

Definition Address : Type := MultiAddress AccountId ().
Definition Address_codec : codec Address := MultiAddress_codec c_account unit_ty_codec.
Definition Signature : Type := MultiSignature.

(** The header and the block of the runtime. *)
Definition Header_codec : codec (generic_Header BlakeTwo256) :=
  generic_Header_codec number_codec BlakeTwo256.

Definition UncheckedExtrinsic_codec :
    codec (option (Address * Signature *
      (() * (() * (() * (() * (Era * (N * (() * (Balance * (() * Mode)))))))))) * RuntimeCall) :=
  generic_UncheckedExtrinsic_codec Address_codec RuntimeCall_codec MultiSignature_codec
    (explicit SignedExtra).

Definition Block_codec := generic_Block_codec Header_codec UncheckedExtrinsic_codec.

(** [mod opaque]: what the node takes them for. *)
Definition opaque_Header_codec : codec (generic_Header BlakeTwo256) :=
  generic_Header_codec number_codec BlakeTwo256.
Definition opaque_Block_codec : codec (generic_Header BlakeTwo256 * list (list u8)) :=
  generic_Block_codec opaque_Header_codec OpaqueExtrinsic_codec.
End blocks.

(** ** Properties *)
Section properties.
Context {C : Config} {S : Scale} {G : GenesisTypes} {T : RuntimeTypes} {R : FrameRuntime}
  {X : SignedExtensions} {P : SpRuntime} {HS : ScaleLaws S} {HX : SignedExtensionsLaws}
  {HP : SpRuntimeLaws P}.

Lemma UncheckedExtrinsic_lossless : lossless UncheckedExtrinsic_codec.
Proof.
  apply extrinsic_ok.
  - apply address_ok; [apply account_ok|apply unit_ty_ok].
  - apply RuntimeCall_lossless.
  - apply signature_ok.
  - apply SignedExtra_faithful.
Qed.

Lemma Block_lossless : lossless Block_codec.
Proof. apply block_ok; [apply header_ok|apply UncheckedExtrinsic_lossless]. Qed.

Lemma opaque_Block_lossless : lossless opaque_Block_codec.
Proof. apply block_ok; [apply header_ok|apply opaque_ok]. Qed.

(** The bytes of the extrinsics of a block. *)
Lemma extrinsics_bytes xs :
  Forall (holds UncheckedExtrinsic_codec) xs →
  ∃ ys, Forall (holds OpaqueExtrinsic_codec) ys ∧
    Forall2 (λ x y, encode UncheckedExtrinsic_codec x = encode OpaqueExtrinsic_codec y) xs ys.
Proof.
  induction 1 as [|x xs Hx _ (ys & Hys & He)]; [by exists []|].
  destruct (extrinsic_bytes _ _ _ _ x Hx) as (y & Hy & Hxy). exists (y :: ys). auto.
Qed.

(** C23. The node and the runtime speak of the same blocks: the bytes of a block of
    the runtime are those of one opaque block, with the same header and as many
    extrinsics; the node reads that block from them, and what it passes on is read
    by the runtime as the block it was; each extrinsic on its own, as the node
    keeps and sends it, is read by the runtime as the transaction it was; and two
    different blocks never look the same to the node. *)
Theorem blocks_cross_the_boundary b rest :
  holds Block_codec b →
  ∃ o, encode opaque_Block_codec o = encode Block_codec b ∧
    o.1 = b.1 ∧ length o.2 = length b.2 ∧
    decode opaque_Block_codec (encode Block_codec b ++ rest) = Some (o, rest) ∧
    decode Block_codec (encode opaque_Block_codec o ++ rest) = Some (b, rest) ∧
    (∀ i x, b.2 !! i = Some x → ∃ bs, o.2 !! i = Some bs ∧
       decode UncheckedExtrinsic_codec (encode OpaqueExtrinsic_codec bs ++ rest) =
       Some (x, rest)) ∧
    ∀ b', holds Block_codec b' → encode Block_codec b' = encode opaque_Block_codec o → b' = b.
Proof.
  destruct b as [h xs]. intros Hb. pose proof (block_holds_inv _ _ _ _ Hb) as Hxs.
  destruct (extrinsics_bytes xs Hxs) as (ys & Hys & He).
  assert (Henc : encode opaque_Block_codec (h, ys) = encode Block_codec (h, xs))
    by (symmetry; by apply block_encoding).
  pose proof (Forall2_length _ _ _ He) as Hlen.
  assert (Hho : holds opaque_Block_codec (h, ys)) by (by eapply block_holds).
  exists (h, ys). cbn [fst snd]. split_and!; [done..|by symmetry| | | |].
  - rewrite <- Henc. by apply opaque_Block_lossless.
  - rewrite Henc. by apply Block_lossless.
  - intros i x Hi. destruct (Forall2_lookup_l _ _ _ _ _ He Hi) as (bs & Hbs & Hx).
    exists bs. split; [done|]. rewrite <- Hx. apply UncheckedExtrinsic_lossless.
    by eapply Forall_lookup_1.
  - intros b' Hb' E. rewrite Henc in E. apply (f_equal (.++ [])) in E.
    by destruct (lossless_prefix Block_codec b' (h, xs) [] [] Block_lossless Hb' Hb E).
Qed.
End properties.
