(* ===== verification/BlockModel.v ===== *)
(** * Blocks to read

Headers of a number and two hashes, extrinsics with a version byte in front, and a
block of a signed purchase, for the types of [Blocks]. *)
From S2P Require Import Prelude Frame NftPallet FrameModel Codec ScaleModel Weights Runtime Genesis Fees Apis ApiModel Extrinsic ExtrinsicModel Blocks.

Local Open Scope N_scope.

#[local] Existing Instances TestGenesisTypes TestRuntimeTypes TestFrameRuntime
  TestSignedExtensions.
#[local] Hint Resolve unit_lossless bool_lossless compact_lossless le_lossless : codec.

(** The part of an extrinsic behind its length: a version, which says whether it is
    signed, what the signer adds, and the call. *)
Definition versioned {S M : Type} (cs : codec S) (cm : codec M) : codec (option S * M) := mkCodec
  (λ '(s, m), match s with
              | None => index_byte 4 :: encode cm m
              | Some s => index_byte 132 :: encode cs s ++ encode cm m
              end)
  (λ bs, match bs with
         | b :: bs =>
             match Byte.to_N b with
             | 4 => '(m, bs) ← decode cm bs; Some ((None, m), bs)
             | 132 => '(s, bs) ← decode cs bs; '(m, bs) ← decode cm bs; Some ((Some s, m), bs)
             | _ => None
             end
         | [] => None
         end)
  (λ '(s, m), match s with None => True | Some s => holds cs s end ∧ holds cm m).

Lemma versioned_lossless {S M : Type} (cs : codec S) (cm : codec M) :
  lossless cs → lossless cm → lossless (versioned cs cm).
Proof.
  intros Hs Hm [[s|] m] rest [Vs Vm]; cbn.
  - rewrite <- app_assoc, (Hs s _ Vs). cbn. by rewrite (Hm m rest Vm).
  - by rewrite (Hm m rest Vm).
Qed.

Definition bytes_codec : codec (list u8) := vec_codec byte_codec.

Lemma bytes_lossless : lossless bytes_codec.
Proof. by apply vec_lossless. Qed.

(** A value as its bytes behind their number; nothing may be left over. *)
Definition boxed {A : Type} (c : codec A) : codec A := mkCodec
  (λ a, encode bytes_codec (encode c a))
  (λ bs, '(v, bs) ← decode bytes_codec bs;
         '(a, tl) ← decode c v;
         match tl with [] => Some (a, bs) | _ => None end)
  (λ a, holds c a ∧ holds bytes_codec (encode c a)).

Lemma boxed_lossless {A : Type} (c : codec A) : lossless c → lossless (boxed c).
Proof.
  intros Hc a rest [Ha Hb]. unfold boxed. cbn -[bytes_codec].
  rewrite (bytes_lossless _ rest Hb). cbn -[bytes_codec].
  pose proof (Hc a [] Ha) as Hd. rewrite app_nil_r in Hd. by rewrite Hd.
Qed.

Definition TestSp : SpRuntime := {|
  generic_Header _ := (N * N)%type;
  generic_Header_codec cn _ := prod_codec cn (le_codec 32);
  BlakeTwo256 bs := take 32 (bs ++ replicate 32 Byte.x00);
  generic_Block_codec _ _ ch ce := prod_codec ch (vec_codec ce);
  generic_UncheckedExtrinsic_codec _ _ _ _ ca cm cf ck :=
    boxed (versioned (prod_codec (prod_codec ca cf) ck) cm);
  OpaqueExtrinsic_codec := bytes_codec;
  MultiAddress A _ := A;
  MultiAddress_codec _ _ ca _ := ca;
  MultiSignature := N;
  MultiSignature_codec := le_codec 64;
  number_codec := le_codec 4;
  unit_ty_codec := unit_codec;
|}.
#[local] Existing Instance TestSp.

#[export] Instance TestSpLaws : SpRuntimeLaws TestSp.
Proof.
  split; cbn -[vec_codec boxed versioned bytes_codec].
  - intros _. apply prod_lossless; apply le_lossless.
  - intros H E ch ce Hh He. apply prod_lossless; [done|by apply vec_lossless].
  - intros H E F ch ce cf h xs ys Hxy. cbn. f_equal. rewrite (Forall2_length _ _ _ Hxy). do 2 f_equal.
    induction Hxy as [|x y xs ys Hx _ IH]; cbn; [done|]. by rewrite Hx, IH.
  - intros H E ch ce h xs (_ & _ & Hx). exact Hx.
  - intros H E F ch ce cf h xs ys (Hh & Hn & _) Hl Hy. split; [done|]. split; [by rewrite Hl|done].
  - intros A M F K ca cm cf ck Ha Hm Hf Hk. apply boxed_lossless, versioned_lossless; [|done].
    by repeat apply prod_lossless.
  - intros A M F K ca cm cf ck x [_ Hx].
    by exists (encode (versioned (prod_codec (prod_codec ca cf) ck) cm) x).
  - apply bytes_lossless.
  - done.
  - apply le_lossless.
  - apply unit_lossless.
Qed.

(** A block of two extrinsics: the signed purchase of [ExtrinsicModel] and one that
    nobody signed. *)
Definition block_of_purchase :=
  ((7, 1), [(Some (5, 42, purchase_extra), purchase); (None, purchase)]).

Example block_bytes :
  length (encode Block_codec block_of_purchase) = 162%nat.
Proof. vm_compute. reflexivity. Qed.

(** The node reads the block as two strings of bytes, and the runtime reads the first
    of them as the purchase. *)
Lemma blocks_cross_the_boundary_witness :
  ∃ o bs, decode opaque_Block_codec (encode Block_codec block_of_purchase ++ []) = Some (o, []) ∧
    o.2 !! 0%nat = Some bs ∧
    decode UncheckedExtrinsic_codec (encode OpaqueExtrinsic_codec bs ++ []) =
      Some ((Some (5, 42, purchase_extra), purchase), []).
Proof.
  destruct (blocks_cross_the_boundary (C := TestConfig) (S := TestScale) (T := TestRuntimeTypes)
    (R := TestFrameRuntime) (X := TestSignedExtensions) (P := TestSp) block_of_purchase [])
    as (o & _ & _ & _ & Ho & _ & Hx & _).
  - split; [split; reflexivity|]. split; [reflexivity|repeat constructor].
  - destruct (Hx 0%nat _ eq_refl) as (bs & Hbs & Hd).
    exists o, bs. split; [exact Ho|]. split; [exact Hbs|exact Hd].
Defined.
