(* ===== verification/Rpc.v ===== *)
(** * The node's RPC methods (src/node/src/rpc.rs)

The extension of the RPC server: a module into which the methods of two libraries
are merged. *)
From S2P Require Import Prelude.

(** ** Interface *)

(** jsonrpsee's modules of methods by name, and the two libraries that make them
    from the node's client and transaction pool. *)
Class RpcTypes (Client Pool : Type) := {
  RpcExtension : Type;
  RpcMethod : Type;
  RpcError : Type;
  AlreadyRegistered : string → RpcError;
  RpcExtension_new : RpcExtension;
  (** [RpcModule::merge]: the module with the methods of another one. *)
  merge : RpcExtension → RpcExtension → result RpcExtension RpcError;
  methods : RpcExtension → gmap string RpcMethod;
  (** [System::new(client, pool).into_rpc()] and
      [TransactionPayment::new(client).into_rpc()]. *)
  System_rpc : Client → Pool → RpcExtension;
  TransactionPayment_rpc : Client → RpcExtension;
}.

(** A new module is empty; modules of different methods merge into all of them; a
    method registered twice is an error that names it. *)
Class RpcLaws {Client Pool} (R : RpcTypes Client Pool) : Prop := {
  new_empty : methods RpcExtension_new = ∅;
  merge_disjoint m1 m2 :
    methods m1 ##ₘ methods m2 →
    ∃ m, merge m1 m2 = Ok m ∧ methods m = methods m1 ∪ methods m2;
  merge_conflict m1 m2 :
    ¬ methods m1 ##ₘ methods m2 →
    ∃ name, is_Some (methods m1 !! name) ∧ is_Some (methods m2 !! name) ∧
      merge m1 m2 = Err (AlreadyRegistered name);
}.

(** ** Definitions *)
Section rpc.
Context {Client Pool : Type} {R : RpcTypes Client Pool}.

Record FullDeps := mkFullDeps { deps_client : Client; deps_pool : Pool }.

Definition create_full (deps : FullDeps) : result RpcExtension RpcError :=
  let module := RpcExtension_new in
  let client := deps.(deps_client) in
  let pool := deps.(deps_pool) in
  match merge module (System_rpc client pool) with
  | Err e => Err e
  | Ok module =>
      match merge module (TransactionPayment_rpc client) with
      | Err e => Err e
      | Ok module => Ok module
      end
  end.
End rpc.
Arguments FullDeps Client Pool : clear implicits.

(** ** Properties *)
Section properties.
Context {Client Pool : Type} {R : RpcTypes Client Pool} {HR : RpcLaws R}.

(** The first merge, into the new module, keeps the methods as they are. *)
Lemma merge_new m : ∃ m', merge RpcExtension_new m = Ok m' ∧ methods m' = methods m.
Proof.
  destruct (merge_disjoint RpcExtension_new m) as (m' & Hm & He).
  { rewrite new_empty. apply map_disjoint_empty_l. }
  exists m'. split; [done|]. by rewrite He, new_empty, (left_id_L ∅ (∪)).
Qed.

(** The extension serves the account methods of the system library and the
    fee methods of the payment library, for this client and pool, and nothing
    else: it is made exactly if no method is in both, and a method in both is the
    error, by its name. *)
Theorem rpc_serves_both_modules (client : Client) (pool : Pool) :
  let sys := methods (System_rpc client pool) in
  let pay := methods (TransactionPayment_rpc client) in
  match create_full (mkFullDeps client pool) with
  | Ok module =>
      sys ##ₘ pay ∧
      ∀ name, methods module !! name = sys !! name ∨
              sys !! name = None ∧ methods module !! name = pay !! name
  | Err e =>
      ∃ name, e = AlreadyRegistered name ∧ is_Some (sys !! name) ∧ is_Some (pay !! name)
  end.
Proof.
  cbv zeta. unfold create_full. cbn.
  destruct (merge_new (System_rpc client pool)) as (m & -> & Hm). rewrite <- Hm.
  destruct (decide (methods m ##ₘ methods (TransactionPayment_rpc client))) as [Hd|Hd].
  - destruct (merge_disjoint _ _ Hd) as (m' & -> & ->). split; [done|]. intros name.
    destruct (methods m !! name) as [x|] eqn:Hx.
    + left. by apply lookup_union_Some_l.
    + right. split; [done|]. by apply lookup_union_r.
  - destruct (merge_conflict _ _ Hd) as (name & H1 & H2 & ->). by exists name.
Qed.
End properties.

(** ** An executable instance *)

(** The names two modules share. *)
Definition shared (m1 m2 : gmap string nat) : list string :=
  (map_to_list (map_zip m1 m2)).*1.

(** Modules are their methods; the client decides the methods of payments. *)
Definition TestRpc : RpcTypes (gmap string nat) (gmap string nat) := {|
  RpcExtension := gmap string nat;
  RpcMethod := nat;
  RpcError := string;
  AlreadyRegistered name := name;
  RpcExtension_new := ∅;
  merge m1 m2 := match shared m1 m2 with [] => Ok (m1 ∪ m2) | name :: _ => Err name end;
  methods m := m;
  System_rpc _ pool := pool;
  TransactionPayment_rpc client := client;
|}.

#[export] Instance TestRpcLaws : RpcLaws TestRpc.
Proof.
  assert (Hs : ∀ m1 m2 : gmap string nat, map_zip m1 m2 = ∅ ↔ m1 ##ₘ m2).
  { intros m1 m2. rewrite map_disjoint_alt, map_empty. apply forall_proper. intros i.
    rewrite map_lookup_zip_with. destruct (m1 !! i), (m2 !! i); cbn; intuition congruence. }
  split; cbn; [done| |]; unfold shared; intros m1 m2.
  - intros ->%Hs. rewrite map_to_list_empty. eauto.
  - rewrite <- Hs, <- map_to_list_empty_iff. destruct (map_to_list _) as [|[i [x y]] l] eqn:E; [done|].
    intros _. assert (Hi : map_zip m1 m2 !! i = Some (x, y)).
    { apply elem_of_map_to_list. rewrite E. left. }
    apply map_lookup_zip_Some in Hi as [H1 H2]. cbn. exists i. eauto.
Qed.

(** Two modules with a method each, and two that share one. *)
Lemma rpc_serves_both_modules_witness :
  (∃ module, create_full (R := TestRpc) (mkFullDeps {["payment_queryInfo" := 2%nat]}
       {["system_accountNextIndex" := 1%nat]}) = Ok module ∧
     (module : gmap string nat) !! "payment_queryInfo"%string = Some 2%nat) ∧
  ∃ name, create_full (R := TestRpc) (mkFullDeps {["a" := 2%nat]} {["a" := 1%nat]}) = Err name ∧
     is_Some (({["a" := 1%nat]} : gmap string nat) !! (name : string)).
Proof.
  split.
  - pose proof (rpc_serves_both_modules (R := TestRpc)
      {["payment_queryInfo" := 2%nat]} {["system_accountNextIndex" := 1%nat]}) as H.
    cbv zeta in H. eexists. split; [reflexivity|].
    destruct H as [_ Hm]. destruct (Hm "payment_queryInfo"%string) as [Hc|[_ Hc]];
      [exfalso; revert Hc; vm_compute; discriminate|]. exact Hc.
  - pose proof (rpc_serves_both_modules (R := TestRpc) {["a" := 2%nat]} {["a" := 1%nat]}) as H.
    cbv zeta in H. eexists. split; [reflexivity|].
    destruct H as (name & Hn & Hs & _). vm_compute in Hn. subst name. exact Hs.
Defined.
