(* ===== verification/Effects.v ===== *)
(** * Programs that call their environment

The node's code is straight-line code over calls into libraries, files and the
network. It is modelled as a tree of such calls; a run resolves each call with
what the environment answers, and a theorem about a program holds for every
environment. *)
From S2P Require Import Prelude.

(** ** Programs *)

(** A program that calls operations [Op X], each answered by an [X]. *)
Inductive prog (Op : Type → Type) (A : Type) : Type :=
| Ret (a : A)
| Vis (X : Type) (op : Op X) (k : X → prog Op A).
Arguments Ret {Op A} a.
Arguments Vis {Op A X} op k.

(** How a Rust function ends: with a value, an error, or a panic. *)
Inductive outcome (E A : Type) : Type :=
| Done (a : A)
| Fail (e : E)
| Panic (msg : string).
Arguments Done {E A} a.
Arguments Fail {E A} e.
Arguments Panic {E A} msg.

Section monad.
Context {Op : Type → Type}.

Fixpoint prog_bind {A B} (f : A → prog Op B) (p : prog Op A) : prog Op B :=
  match p with
  | Ret a => f a
  | Vis op k => Vis op (λ x, prog_bind f (k x))
  end.

(** Programs that may leave early through [?] or a panic. *)
Definition io (E A : Type) : Type := prog Op (outcome E A).

#[export] Instance io_ret E : MRet (io E) := λ A a, Ret (Done a).
#[export] Instance io_bind E : MBind (io E) := λ A B f p,
  prog_bind (λ o,
    match o with
    | Done a => f a
    | Fail e => Ret (Fail e)
    | Panic msg => Ret (Panic msg)
    end) p.

(** A call of the environment. *)
Definition perform {E X} (op : Op X) : io E X := Vis op (λ x, Ret (Done x)).

(** [result?] and [result.map_err(f)?]. *)
Definition try_with {E E' A} (f : E' → E) (r : result A E') : io E A :=
  Ret (match r with Ok a => Done a | Err e => Fail (f e) end).
(** [option.expect(msg)]. *)
Definition expect_some {E A} (o : option A) (msg : string) : io E A :=
  Ret (match o with Some a => Done a | None => Panic msg end).
(** A sub-program with another error type, its error converted by [?]. *)
Definition convert_err {E E' A} (f : E' → E) (p : io E' A) : io E A :=
  prog_bind (λ o,
    Ret (match o with
         | Done a => Done a
         | Fail e => Fail (f e)
         | Panic msg => Panic msg
         end)) p.
End monad.
Arguments io : clear implicits.

(** ** Runs *)
Section runs.
Context {Op : Type → Type}.

(** A call and its answer. *)
Inductive event : Type := Ev (X : Type) (op : Op X) (x : X).

(** An environment answers a call from the history of calls. *)
Definition environment : Type := ∀ X, Op X → list event → X.

Fixpoint run {A} (h : environment) (p : prog Op A) (tr : list event) : list event * A :=
  match p with
  | Ret a => (tr, a)
  | Vis op k => let x := h _ op tr in run h (k x) (tr ++ [Ev _ op x])
  end.

(** [Q] holds of the trace and the value of every run that continues [tr]. *)
Fixpoint always {A} (p : prog Op A) (tr : list event) (Q : list event → A → Prop) : Prop :=
  match p with
  | Ret a => Q tr a
  | Vis op k => ∀ x, always (k x) (tr ++ [Ev _ op x]) Q
  end.

Lemma always_run {A} (p : prog Op A) h tr Q : always p tr Q → Q (run h p tr).1 (run h p tr).2.
Proof. revert tr. induction p as [a|X op k IH]; intros tr; [done|]. intros H. apply IH, H. Qed.

Lemma always_mono {A} (p : prog Op A) tr (Q Q' : list event → A → Prop) :
  (∀ tr a, Q tr a → Q' tr a) → always p tr Q → always p tr Q'.
Proof.
  intros HQ. revert tr. induction p as [a|X op k IH]; intros tr; cbn; [apply HQ|].
  intros H x. by apply IH.
Qed.

Lemma always_true {A} (p : prog Op A) tr : always p tr (λ _ _, True).
Proof. revert tr. induction p as [a|X op k IH]; intros tr; cbn; [done|]. intros x. apply IH. Qed.

Lemma always_bind {A B} (f : A → prog Op B) p tr (Q : list event → B → Prop) :
  always (prog_bind f p) tr Q ↔ always p tr (λ tr' a, always (f a) tr' Q).
Proof.
  revert tr. induction p as [a|X op k IH]; intros tr; cbn; [done|].
  by setoid_rewrite IH.
Qed.

(** A run only extends its history. *)
Lemma always_extends {A} (p : prog Op A) tr : always p tr (λ tr' _, tr `prefix_of` tr').
Proof.
  revert tr. induction p as [a|X op k IH]; intros tr; cbn; [done|].
  intros x. eapply always_mono; [|apply IH]. cbn. intros tr' _ Hp.
  etrans; [|exact Hp]. by apply prefix_app_r.
Qed.
End runs.
Arguments event : clear implicits.
Arguments environment : clear implicits.

(** ** Programs over part of the environment *)
Section lift.
Context {Op Op' : Type → Type} (inj : ∀ X, Op X → Op' X).

Fixpoint lift {A} (p : prog Op A) : prog Op' A :=
  match p with
  | Ret a => Ret a
  | Vis op k => Vis (inj _ op) (λ x, lift (k x))
  end.

Definition lift_event (e : event Op) : event Op' :=
  match e with Ev X op x => Ev X (inj X op) x end.

(** What always holds of a program holds of it lifted. *)
Lemma always_lift {A} (p : prog Op A) tr tr0 (Q : list (event Op) → A → Prop) :
  always p tr Q →
  always (lift p) (tr0 ++ (lift_event <$> tr))
    (λ tr' a, ∃ tr1, tr' = tr0 ++ (lift_event <$> tr1) ∧ Q tr1 a).
Proof.
  revert tr. induction p as [a|X op k IH]; intros tr; cbn; [by eauto|].
  intros H x. specialize (IH x _ (H x)). by rewrite fmap_app, app_assoc in IH.
Qed.

Lemma always_lift_nil {A} (p : prog Op A) tr0 (Q : list (event Op) → A → Prop) :
  always p [] Q →
  always (lift p) tr0 (λ tr' a, ∃ tr1, tr' = tr0 ++ (lift_event <$> tr1) ∧ Q tr1 a).
Proof. intros H. apply (always_lift p [] tr0 Q) in H. by rewrite app_nil_r in H. Qed.
End lift.

(** ** Rules for runs *)
Section rules.
Context {Op : Type → Type} {E : Type}.
Implicit Types tr : list (event Op).

Lemma always_ret {A} (o : outcome E A) tr Q : always (Ret (Op := Op) o) tr Q ↔ Q tr o.
Proof. done. Qed.

Lemma always_mret {A} (a : A) tr Q : always (mret a : io Op E A) tr Q ↔ Q tr (Done a).
Proof. done. Qed.

Lemma always_io_bind {A B} (m : io Op E A) (f : A → io Op E B) tr Q :
  always (m ≫= f) tr Q ↔
  always m tr (λ tr' o,
    match o with
    | Done a => always (f a) tr' Q
    | Fail e => Q tr' (Fail e)
    | Panic msg => Q tr' (Panic msg)
    end).
Proof.
  unfold mbind, io_bind. rewrite always_bind.
  split; apply always_mono; intros ? []; done.
Qed.

Lemma always_perform {X} (op : Op X) tr (Q : list (event Op) → outcome E X → Prop) :
  always (perform op) tr Q ↔ ∀ x, Q (tr ++ [Ev _ op x]) (Done x).
Proof. done. Qed.

Lemma always_try_with {E' A} (f : E' → E) (r : result A E') tr Q :
  always (try_with (Op := Op) f r) tr Q ↔
  Q tr (match r with Ok a => Done a | Err e => Fail (f e) end).
Proof. done. Qed.

Lemma always_convert_err {E' A} (f : E' → E) (p : io Op E' A) tr Q :
  always (convert_err f p) tr Q ↔
  always p tr (λ tr' o, Q tr' (match o with
                              | Done a => Done a
                              | Fail e => Fail (f e)
                              | Panic msg => Panic msg
                              end)).
Proof. unfold convert_err. by rewrite always_bind. Qed.
End rules.

Create Rewrite HintDb always.
#[export] Hint Rewrite @always_ret @always_mret @always_io_bind @always_perform @always_try_with
  @always_convert_err : always.

(** ** Symbolic runs *)

(** Proofs about programs run them symbolically: each call is answered by an
    arbitrary value, and each branch on an answer is explored. *)
Ltac explore :=
  repeat first
    [ progress cbn
    | match goal with
      | |- ∀ _, _ => intros ?
      | |- context [match ?x with _ => _ end] =>
          lazymatch x with context [match _ with _ => _ end] => fail | _ => destruct x eqn:? end
      end ].
