(* ===== verification/Service.v ===== *)
(** * The node service (src/node/src/service.rs)

Assembling and starting a parachain node: the order of the calls into the
client libraries, what is passed to each, which run only on a collator, and how
each failure ends the start-up. *)
From S2P Require Import Prelude Effects Runtime Rpc.

Local Open Scope N_scope.

(** ** Interface *)

(** The handles and values of the client libraries. *)
Class ServiceTypes := {
  Configuration : Type;
  CollatorOptions : Type;
  HwBench : Type;
  ParaId : Type;
  ServiceError : Type;
  TelemetryError : Type;
  RelayChainError : Type;
  (** [sc_service::Error::Application(Box::new(e))], and the conversion of a
      telemetry error by [?]. *)
  Application : RelayChainError → ServiceError;
  from_telemetry_error : TelemetryError → ServiceError;
  Endpoints : Type;
  TelemetryWorker : Type;
  TelemetryWorkerHandle : Type;
  Telemetry : Type;
  TelemetryHandle : Type;
  worker_handle : TelemetryWorker → TelemetryWorkerHandle;
  telemetry_handle : Telemetry → TelemetryHandle;
  Executor : Type;
  Client : Type;
  Backend : Type;
  Keystore : Type;
  TaskManager : Type;
  TransactionPool : Type;
  (** The RPC modules of the node, and the conversion of their errors. *)
  rpc_types :: RpcTypes Client TransactionPool;
  from_rpc_error : RpcError → ServiceError;
  ParachainBlockImport : Type;
  block_import_new : Client → Backend → ParachainBlockImport;
  ImportQueue : Type;
  ImportQueueService : Type;
  import_queue_service : ImportQueue → ImportQueueService;
  RelayChainInterface : Type;
  CollatorPair : Type;
  OverseerHandle : Type;
  Network : Type;
  SystemRpcTx : Type;
  TxHandlerController : Type;
  NetworkStarter : Type;
  SyncService : Type;
  (** What a configuration says. *)
  telemetry_endpoints : Configuration → option Endpoints;
  endpoints_is_empty : Endpoints → bool;
  default_heap_pages : Configuration → option N;
  role_is_authority : Configuration → bool;
  offchain_worker_enabled : Configuration → bool;
  prepare_node_config : Configuration → Configuration;
  (** The wasm executor built for a configuration and a heap strategy. *)
  HeapAllocStrategy : Type;
  DEFAULT_HEAP_ALLOC_STRATEGY : HeapAllocStrategy;
  Static_extra_pages : N → HeapAllocStrategy;
  executor_build : Configuration → HeapAllocStrategy → HeapAllocStrategy → Executor;
}.

Section service.
Context {T : ServiceTypes}.

(** ** Data *)

(** [Service], the [PartialComponents] of the node. *)
Record Service := mkService {
  sv_client : Client;
  sv_backend : Backend;
  sv_import_queue : ImportQueue;
  sv_keystore : Keystore;
  sv_task_manager : TaskManager;
  sv_transaction_pool : TransactionPool;
  sv_block_import : ParachainBlockImport;
  sv_telemetry : option Telemetry;
  sv_telemetry_worker_handle : option TelemetryWorkerHandle;
}.

Inductive DARecoveryProfile := Collator | FullNode.

#[export] Instance DARecoveryProfile_eq_dec : EqDecision DARecoveryProfile.
Proof. solve_decision. Defined.

Inductive CollatorSybilResistance := Resistant | Unresistant.

(** What [aura::run] is started with. *)
Record AuraParams := mkAuraParams {
  ap_block_import : ParachainBlockImport;
  ap_para_client : Client;
  ap_para_backend : Backend;
  ap_relay_client : RelayChainInterface;
  ap_keystore : Keystore;
  ap_collator_key : CollatorPair;
  ap_para_id : ParaId;
  ap_overseer_handle : OverseerHandle;
  ap_relay_chain_slot_duration_millis : N;
  ap_transaction_pool : TransactionPool;
  ap_telemetry : option TelemetryHandle;
  ap_task_manager : TaskManager;
  (** [announce_block] announces through this service. *)
  ap_announce_through : SyncService;
  ap_authoring_duration_millis : N;
  ap_reinitialize : bool;
}.

(** The calls into the libraries, with the arguments that matter here. *)
Inductive Op : Type → Type :=
| TelemetryWorker_new (buffer : N) : Op (result TelemetryWorker TelemetryError)
| new_telemetry (w : TelemetryWorker) (e : Endpoints) : Op Telemetry
| new_full_parts_record_import (c : Configuration) (t : option TelemetryHandle)
    (e : Executor) (record_import : bool) :
    Op (result (Client * Backend * Keystore * TaskManager) ServiceError)
| spawn_telemetry (t : TaskManager) (w : TelemetryWorker) : Op unit
| new_transaction_pool (c : Configuration) (authority : bool) (t : TaskManager)
    (cl : Client) : Op TransactionPool
| fully_verifying_import_queue (cl : Client) (b : ParachainBlockImport)
    (c : Configuration) (t : option TelemetryHandle) (tm : TaskManager) : Op ImportQueue
| build_relay_chain_interface (polkadot_config parachain_config : Configuration)
    (t : option TelemetryWorkerHandle) (tm : TaskManager) (o : CollatorOptions)
    (hw : option HwBench) :
    Op (result (RelayChainInterface * option CollatorPair) RelayChainError)
| build_network (c : Configuration) (cl : Client) (p : TransactionPool) (id : ParaId)
    (r : RelayChainInterface) (q : ImportQueue) (s : CollatorSybilResistance) :
    Op (result (Network * SystemRpcTx * TxHandlerController * NetworkStarter * SyncService)
          ServiceError)
| spawn_offchain_workers (cl : Client) (k : Keystore) (b : Backend) (p : TransactionPool)
    (n : Network) (is_validator enable_http_requests : bool) : Op unit
| spawn_tasks (c : Configuration) (cl : Client) (p : TransactionPool) (k : Keystore)
    (b : Backend) (n : Network) (s : SyncService) (rpc : SystemRpcTx)
    (ctl : TxHandlerController) (t : option Telemetry) (tm : TaskManager)
    (rpc_builder : unit → result RpcExtension ServiceError) :
    Op (result unit ServiceError)
| print_hwbench (hw : HwBench) : Op unit
| check_hardware (hw : HwBench) : Op (result unit string)
| log_warn (err : string) : Op unit
| spawn_hwbench_telemetry (t : TelemetryHandle) (hw : HwBench) : Op unit
| get_overseer_handle (r : RelayChainInterface) : Op (result OverseerHandle RelayChainError)
| start_relay_chain_tasks (cl : Client) (id : ParaId) (r : RelayChainInterface)
    (p : DARecoveryProfile) (q : ImportQueueService) (slot_millis : N)
    (o : OverseerHandle) (s : SyncService) (tm : TaskManager) :
    Op (result unit ServiceError)
| spawn_aura (p : AuraParams) : Op unit
| start_network (n : NetworkStarter) : Op unit.

Abbreviation service_io := (io Op ServiceError).

(** ** Definitions *)

(** [h as u32] of a [u64] number of pages. *)
Definition heap_strategy (config : Configuration) : HeapAllocStrategy :=
  match default_heap_pages config with
  | None => DEFAULT_HEAP_ALLOC_STRATEGY
  | Some h => Static_extra_pages (as_u32 h)
  end.

Definition build_import_queue (client : Client) (block_import : ParachainBlockImport)
    (config : Configuration) (telemetry : option TelemetryHandle)
    (task_manager : TaskManager) : service_io ImportQueue :=
  perform (fully_verifying_import_queue client block_import config telemetry task_manager).

(** The telemetry endpoints that are set and not empty. *)
Definition active_endpoints (config : Configuration) : option Endpoints :=
  match telemetry_endpoints config with
  | Some x => if endpoints_is_empty x then None else Some x
  | None => None
  end.

Definition new_partial (config : Configuration) : service_io Service :=
  telemetry ←
    match active_endpoints config with
    | None => mret None
    | Some endpoints =>
        r ← perform (TelemetryWorker_new 16);
        worker ← try_with from_telemetry_error r;
        telemetry ← perform (new_telemetry worker endpoints);
        mret (Some (worker, telemetry))
    end;
  let heap_pages := heap_strategy config in
  let executor := executor_build config heap_pages heap_pages in
  parts ← perform (new_full_parts_record_import config
    ((λ t : TelemetryWorker * Telemetry, telemetry_handle t.2) <$> telemetry) executor true);
  '(client, backend, keystore_container, task_manager) ← try_with id parts;
  let telemetry_worker_handle :=
    (λ t : TelemetryWorker * Telemetry, worker_handle t.1) <$> telemetry in
  telemetry ←
    match telemetry with
    | Some (worker, telemetry) =>
        perform (spawn_telemetry task_manager worker);; mret (Some telemetry)
    | None => mret None
    end;
  transaction_pool ← perform (new_transaction_pool config (role_is_authority config)
    task_manager client);
  let block_import := block_import_new client backend in
  import_queue ← build_import_queue client block_import config
    (telemetry_handle <$> telemetry) task_manager;
  mret (mkService client backend import_queue keystore_container task_manager
          transaction_pool block_import telemetry telemetry_worker_handle).

Definition start_consensus (client : Client) (backend : Backend)
    (block_import : ParachainBlockImport) (telemetry : option TelemetryHandle)
    (task_manager : TaskManager) (relay_chain_interface : RelayChainInterface)
    (transaction_pool : TransactionPool) (keystore : Keystore)
    (relay_chain_slot_duration_millis : N) (para_id : ParaId)
    (collator_key : CollatorPair) (overseer_handle : OverseerHandle)
    (announce_through : SyncService) : service_io unit :=
  let params := mkAuraParams block_import client backend relay_chain_interface keystore
    collator_key para_id overseer_handle relay_chain_slot_duration_millis
    transaction_pool telemetry task_manager announce_through 2000 false in
  perform (spawn_aura params);;
  mret ().

(** The hardware check: its failure only warns, and only a collator. *)
Definition report_hwbench (validator : bool) (telemetry : option Telemetry)
    (hwbench : HwBench) : service_io unit :=
  perform (print_hwbench hwbench);;
  checked ← perform (check_hardware hwbench);
  match checked with
  | Err err => if validator then perform (log_warn err) else mret ()
  | Ok _ => mret ()
  end;;
  match telemetry with
  | Some telemetry =>
      perform (spawn_hwbench_telemetry (telemetry_handle telemetry) hwbench)
  | None => mret ()
  end.

(** The closure that makes the RPC extension, called once a server starts. *)
Definition rpc_builder (client : Client) (transaction_pool : TransactionPool) :
    unit → result RpcExtension ServiceError := λ _,
  let deps := mkFullDeps client transaction_pool in
  match create_full deps with
  | Ok module => Ok module
  | Err e => Err (from_rpc_error e)
  end.

(** The end of the start-up: the relay-chain tasks, authoring, the network. *)
Definition finish_start (params : Service) (relay_chain_interface : RelayChainInterface)
    (collator_key : option CollatorPair) (para_id : ParaId) (validator : bool)
    (network_starter : NetworkStarter) (sync_service : SyncService) :
    service_io (TaskManager * Client) :=
  let client := params.(sv_client) in
  let backend := params.(sv_backend) in
  let task_manager := params.(sv_task_manager) in
  let transaction_pool := params.(sv_transaction_pool) in
  let relay_chain_slot_duration_millis := 6 * 1000 in
  overseer ← perform (get_overseer_handle relay_chain_interface);
  overseer_handle ← try_with Application overseer;
  started ← perform (start_relay_chain_tasks client para_id relay_chain_interface
    (if validator then Collator else FullNode)
    (import_queue_service params.(sv_import_queue))
    relay_chain_slot_duration_millis overseer_handle sync_service task_manager);
  try_with id started;;
  (if validator then
     collator_key ← expect_some collator_key "Command line arguments do not allow this. qed";
     start_consensus client backend params.(sv_block_import)
       (telemetry_handle <$> params.(sv_telemetry)) task_manager relay_chain_interface
       transaction_pool params.(sv_keystore) relay_chain_slot_duration_millis para_id
       collator_key overseer_handle sync_service
   else mret ());;
  perform (start_network network_starter);;
  mret (task_manager, client).

Definition start_parachain_node (parachain_config polkadot_config : Configuration)
    (collator_options : CollatorOptions) (para_id : ParaId) (hwbench : option HwBench) :
    service_io (TaskManager * Client) :=
  let parachain_config := prepare_node_config parachain_config in
  params ← new_partial parachain_config;
  let client := params.(sv_client) in
  let backend := params.(sv_backend) in
  let task_manager := params.(sv_task_manager) in
  relay ← perform (build_relay_chain_interface polkadot_config parachain_config
    params.(sv_telemetry_worker_handle) task_manager collator_options hwbench);
  '(relay_chain_interface, collator_key) ← try_with Application relay;
  let validator := role_is_authority parachain_config in
  let transaction_pool := params.(sv_transaction_pool) in
  net ← perform (build_network parachain_config client transaction_pool para_id
    relay_chain_interface params.(sv_import_queue) Resistant);
  '(network, system_rpc_tx, tx_handler_controller, network_starter, sync_service)
    ← try_with id net;
  (if offchain_worker_enabled parachain_config
   then perform (spawn_offchain_workers client params.(sv_keystore) backend
          transaction_pool network (role_is_authority parachain_config) false)
   else mret ());;
  spawned ← perform (spawn_tasks parachain_config client transaction_pool
    params.(sv_keystore) backend network sync_service system_rpc_tx tx_handler_controller
    params.(sv_telemetry) task_manager (rpc_builder client transaction_pool));
  try_with id spawned;;
  match hwbench with
  | Some hwbench => report_hwbench validator params.(sv_telemetry) hwbench
  | None => mret ()
  end;;
  finish_start params relay_chain_interface collator_key para_id validator network_starter
    sync_service.

(** ** Specifications *)

(** The error a call ends the start-up with. The hardware check is not among
    them. *)
Definition failure_of (e : event Op) : option ServiceError :=
  match e with
  | Ev _ op x =>
      match op in Op X return X → option ServiceError with
      | TelemetryWorker_new _ => λ r,
          match r with Err e => Some (from_telemetry_error e) | Ok _ => None end
      | new_full_parts_record_import _ _ _ _ => λ r, match r with Err e => Some e | Ok _ => None end
      | build_relay_chain_interface _ _ _ _ _ _ => λ r,
          match r with Err e => Some (Application e) | Ok _ => None end
      | build_network _ _ _ _ _ _ _ => λ r, match r with Err e => Some e | Ok _ => None end
      | spawn_tasks _ _ _ _ _ _ _ _ _ _ _ _ => λ r, match r with Err e => Some e | Ok _ => None end
      | get_overseer_handle _ => λ r,
          match r with Err e => Some (Application e) | Ok _ => None end
      | start_relay_chain_tasks _ _ _ _ _ _ _ _ _ => λ r,
          match r with Err e => Some e | Ok _ => None end
      | _ => λ _, None
      end x
  end.

(** The parts of the start-up an observer tells apart. *)
Inductive stage := Relay (p : DARecoveryProfile) | Authoring | Networking | Warning | Other.

#[export] Instance stage_eq_dec : EqDecision stage.
Proof. solve_decision. Defined.

Definition stage_of (e : event Op) : stage :=
  match e with
  | Ev _ op _ =>
      match op with
      | start_relay_chain_tasks _ _ _ p _ _ _ _ _ => Relay p
      | spawn_aura _ => Authoring
      | start_network _ => Networking
      | log_warn _ => Warning
      | _ => Other
      end
  end.

(** The stages of a trace, the calls of no interest left out. *)
Definition stages (tr : list (event Op)) : list stage :=
  filter (λ s, s ≠ Other) (stage_of <$> tr).

(** The start-up stops at the first call that fails, with that call's error. *)
Definition stops_at_first_failure (validator : bool) (tr : list (event Op))
    (o : outcome ServiceError (TaskManager * Client)) : Prop :=
  match o with
  | Done _ => failure_of <$> tr = replicate (length tr) None
  | Fail e => failure_of <$> tr = replicate (length tr - 1) None ++ [Some e]
  | Panic _ => validator = true ∧ failure_of <$> tr = replicate (length tr) None
  end.

(** The stages of a start-up, warnings apart. *)
Definition main_stages (tr : list (event Op)) : list stage :=
  filter (λ s, s ≠ Warning) (stages tr).

Definition stages_in_order (validator : bool) (tr : list (event Op))
    (o : outcome ServiceError (TaskManager * Client)) : Prop :=
  let relay := Relay (if validator then Collator else FullNode) in
  match o with
  | Done _ =>
      main_stages tr = relay :: (if validator then [Authoring] else []) ++ [Networking] ∧
      stage_of <$> last tr = Some Networking
  | Fail _ => main_stages tr = [] ∨ main_stages tr = [relay]
  | Panic _ => main_stages tr = [relay]
  end ∧
  (validator = false → Warning ∉ stages tr).

(** The handles of a successful start-up: the client and task manager returned
    are the ones the client library made for this configuration; the network
    that is started is the one built for that client, the given parachain and
    the relay-chain interface obtained with the relay chain's configuration; the
    RPC extension is made for that client and the pool of the network; and
    authoring runs on that client, its backend and its keystore, with the key
    and the interface the relay chain gave. *)
Definition wired (cfg rcfg : Configuration) (opts : CollatorOptions) (id : ParaId)
    (hw : option HwBench) (tr : list (event Op))
    (o : outcome ServiceError (TaskManager * Client)) : Prop :=
  match o with
  | Done (tm, cl) =>
      let c := prepare_node_config cfg in
      ∃ t e b ks wh r key pool q net rpc ctl starter sync,
      Ev _ (new_full_parts_record_import c t e true) (Ok (cl, b, ks, tm)) ∈ tr ∧
      Ev _ (build_relay_chain_interface rcfg c wh tm opts hw) (Ok (r, key)) ∈ tr ∧
      Ev _ (build_network c cl pool id r q Resistant) (Ok (net, rpc, ctl, starter, sync)) ∈ tr ∧
      Ev _ (start_network starter) () ∈ tr ∧
      Forall (λ ev, match ev with
        | Ev _ (spawn_aura p) _ =>
            p.(ap_para_client) = cl ∧ p.(ap_para_backend) = b ∧ p.(ap_keystore) = ks ∧
            p.(ap_relay_client) = r ∧ Some p.(ap_collator_key) = key ∧
            p.(ap_transaction_pool) = pool ∧ p.(ap_para_id) = id ∧
            p.(ap_announce_through) = sync ∧
            p.(ap_relay_chain_slot_duration_millis) = 6000
        | Ev _ (spawn_tasks _ cl' pool' _ _ _ _ _ _ _ _ rb) _ =>
            cl' = cl ∧ pool' = pool ∧
            rb () = match create_full (mkFullDeps cl pool) with
                    | Ok module => Ok module
                    | Err e => Err (from_rpc_error e)
                    end
        | _ => True
        end) tr
  | _ => True
  end.

(** A benchmark is reported. *)
Definition reports_hwbench (ev : event Op) : bool :=
  match ev with
  | Ev _ op _ =>
      match op with
      | print_hwbench _ | check_hardware _ | spawn_hwbench_telemetry _ _ => true
      | _ => false
      end
  end.

(** The parts of an assembled node are the ones the client library made for the
    configuration. *)
Definition assembled (cfg : Configuration) (sv : Service) (tr : list (event Op)) : Prop :=
  ∃ t e, Ev _ (new_full_parts_record_import cfg t e true)
    (Ok (sv_client sv, sv_backend sv, sv_keystore sv, sv_task_manager sv)) ∈ tr.
End service.

(** ** Properties *)

(** A call found in an explicit trace. *)
Ltac in_trace := repeat first [apply list_elem_of_here | apply list_elem_of_further].

(** Every run of the start-up, its outcome judged by [Q]. *)
Ltac explore_start Q :=
  match goal with
  | |- context [start_parachain_node ?cfg ?rcfg ?opts ?id ?hw] =>
      cbv zeta; apply (always_run (start_parachain_node cfg rcfg opts id hw) _ [] Q)
  end;
  let q := fresh "q" in let Hq := fresh "Hq" in
  remember Q as q eqn:Hq;
  unfold start_parachain_node, finish_start, new_partial, report_hwbench, start_consensus;
  explore; subst q; cbn.

Section properties.
Context {T : ServiceTypes}.

(** C34. Whatever the libraries answer, the start-up stops at the first call
    that fails, with that call's error, and does nothing more; it succeeds only
    if none failed; and it panics only on a collator. *)
Theorem start_stops_at_first_failure h cfg rcfg opts id hw :
  let r := run h (start_parachain_node cfg rcfg opts id hw) [] in
  stops_at_first_failure (role_is_authority (prepare_node_config cfg)) r.1 r.2.
Proof.
  explore_start (stops_at_first_failure (role_is_authority (prepare_node_config cfg)));
    first [done|split; done].
Qed.

(** C35. The relay-chain tasks start before block authoring and the network last
    of all; a collator recovers as one and authors, a full node does not; after
    a failure at most the relay-chain tasks were reached, and neither authoring
    nor the network is ever started; only a collator is warned about hardware. *)
Theorem start_stages_in_order h cfg rcfg opts id hw :
  let r := run h (start_parachain_node cfg rcfg opts id hw) [] in
  stages_in_order (role_is_authority (prepare_node_config cfg)) r.1 r.2.
Proof.
  explore_start (stages_in_order (role_is_authority (prepare_node_config cfg)));
    (split; [first [done|by left|by right|split; done]
            |first [done|intros _; by apply (bool_decide_eq_true_1 _)]]).
Qed.

(** What every run of the start-up does with its handles. *)
Lemma start_wired cfg rcfg opts id hw :
  always (start_parachain_node cfg rcfg opts id hw) [] (wired cfg rcfg opts id hw).
Proof.
  remember (wired cfg rcfg opts id hw) as Q eqn:HQ.
  unfold start_parachain_node, finish_start, new_partial, report_hwbench, start_consensus.
  explore; subst Q; try done; repeat match goal with u : () |- _ => destruct u end; cbn;
    do 14 eexists; repeat (split; [in_trace|]); repeat constructor.
Qed.

(** Without a measurement nothing about the hardware is reported. *)
Lemma start_reports_nothing cfg rcfg opts id :
  always (start_parachain_node cfg rcfg opts id None) []
    (λ tr _, Forall (λ e, reports_hwbench e = false) tr).
Proof.
  remember (λ (tr : list (event Op)) (_ : outcome ServiceError (TaskManager * Client)),
    Forall (λ e, reports_hwbench e = false) tr) as Q eqn:HQ.
  unfold start_parachain_node, finish_start, new_partial, report_hwbench, start_consensus.
  explore; subst Q; repeat constructor.
Qed.

Lemma new_partial_assembles cfg :
  always (new_partial cfg) []
    (λ tr o, match o with Done sv => assembled cfg sv tr | _ => True end).
Proof. unfold new_partial. explore; try done; do 2 eexists; in_trace. Qed.

(** C36. On every successful start-up the parts are wired to each other: the
    client and task manager returned are the ones made for the configuration,
    the network started is the one built for them, for the given parachain and
    for the relay chain's interface, the RPC extension is made for that client and
    the same transaction pool, and a collator authors with that client,
    that interface and its key. *)
Theorem start_wires_handles h cfg rcfg opts id hw :
  let r := run h (start_parachain_node cfg rcfg opts id hw) [] in
  wired cfg rcfg opts id hw r.1 r.2.
Proof. cbv zeta. apply (always_run _ h [] (wired cfg rcfg opts id hw)), start_wired. Qed.
End properties.

(** ** A small world

One value of every handle, a configuration that only says whether the node is
an authority, and libraries that always succeed. *)
Definition SmallRpc : RpcTypes N () := {|
  RpcExtension := (); RpcMethod := (); RpcError := string; AlreadyRegistered := id;
  RpcExtension_new := (); merge _ _ := Ok (); methods _ := ∅;
  System_rpc _ _ := (); TransactionPayment_rpc _ := ();
|}.

Definition SmallService : ServiceTypes := {|
  Configuration := bool; CollatorOptions := (); HwBench := (); ParaId := N;
  ServiceError := string; TelemetryError := (); RelayChainError := ();
  Application _ := "application"%string; from_telemetry_error _ := "telemetry"%string;
  Endpoints := (); TelemetryWorker := (); TelemetryWorkerHandle := ();
  Telemetry := (); TelemetryHandle := (); worker_handle := id; telemetry_handle := id;
  Executor := (); Client := N; Backend := (); Keystore := (); TaskManager := N;
  TransactionPool := (); rpc_types := SmallRpc; from_rpc_error := id;
  ParachainBlockImport := (); block_import_new _ _ := ();
  ImportQueue := (); ImportQueueService := (); import_queue_service := id;
  RelayChainInterface := (); CollatorPair := (); OverseerHandle := (); Network := ();
  SystemRpcTx := (); TxHandlerController := (); NetworkStarter := (); SyncService := ();
  telemetry_endpoints _ := None; endpoints_is_empty _ := true;
  default_heap_pages _ := Some 64; role_is_authority c := c;
  offchain_worker_enabled _ := true; prepare_node_config c := c;
  HeapAllocStrategy := N; DEFAULT_HEAP_ALLOC_STRATEGY := 0; Static_extra_pages n := n;
  executor_build _ _ _ := ();
|}.

Definition small_answer X (op : @Op SmallService X) : X :=
  match op in @Op _ X return X with
  | TelemetryWorker_new _ => Ok ()
  | new_telemetry _ _ => ()
  | new_full_parts_record_import _ _ _ _ => Ok (7, (), (), 9)
  | spawn_telemetry _ _ => ()
  | new_transaction_pool _ _ _ _ => ()
  | fully_verifying_import_queue _ _ _ _ _ => ()
  | build_relay_chain_interface _ _ _ _ _ _ => Ok ((), Some ())
  | build_network _ _ _ _ _ _ _ => Ok ((), (), (), (), ())
  | spawn_offchain_workers _ _ _ _ _ _ _ => ()
  | spawn_tasks _ _ _ _ _ _ _ _ _ _ _ _ => Ok ()
  | print_hwbench _ => ()
  | check_hardware _ => Err "slow disk"%string
  | log_warn _ => ()
  | spawn_hwbench_telemetry _ _ => ()
  | get_overseer_handle _ => Ok ()
  | start_relay_chain_tasks _ _ _ _ _ _ _ _ _ => Ok ()
  | spawn_aura _ => ()
  | start_network _ => ()
  end.

(** A collator on slow hardware warns, authors and joins the network. *)
Example slow_collator_starts :
  let r := run (λ X op _, small_answer X op)
    (@start_parachain_node SmallService true true () 1000 (Some ())) [] in
  r.2 = Done (9, 7) ∧ stages r.1 = [Warning; Relay Collator; Authoring; Networking].
Proof. by vm_compute. Qed.

Example slow_full_node_starts :
  let r := run (λ X op _, small_answer X op)
    (@start_parachain_node SmallService false true () 1000 (Some ())) [] in
  r.2 = Done (9, 7) ∧ stages r.1 = [Relay FullNode; Networking].
Proof. by vm_compute. Qed.
