(* ===== verification/ChainSpec.v ===== *)
(** * Chain specifications and relay-chain arguments
    (src/node/src/chain_spec.rs, src/node/src/cli.rs)

The two built-in chain specifications, the lookup of one by name, and what the
relay-chain side of the command line takes from the parachain's specification. *)
From S2P Require Import Prelude Frame Runtime Genesis Effects.

Local Open Scope N_scope.

(** ** Data *)

Record Extensions := mkExtensions {
  relay_chain : string;
  para_id : N;
}.

Inductive ChainType := Development | Local | Live.

(** The JSON values a specification's properties take. *)
Inductive Property := PString (s : string) | PNumber (n : N).
Abbreviation Properties := (gmap string Property).

(** What a builder was told. *)
Record Settings := mkSettings {
  st_code : list Byte.byte;
  st_extensions : Extensions;
  st_name : string;
  st_id : string;
  st_chain_type : ChainType;
  st_preset : option string;
  st_protocol_id : option string;
  st_properties : option Properties;
}.

(** ** Interface *)

(** [sc_service::GenericChainSpec] and its builder; [WASM_BINARY] is written by
    the runtime's build script. *)
Class SpecBuilder := {
  ChainSpec : Type;
  Builder : Type;
  WASM_BINARY : option (list Byte.byte);
  builder : list Byte.byte → Extensions → Builder;
  with_name : string → Builder → Builder;
  with_id : string → Builder → Builder;
  with_chain_type : ChainType → Builder → Builder;
  with_genesis_config_preset_name : string → Builder → Builder;
  with_protocol_id : string → Builder → Builder;
  with_properties : Properties → Builder → Builder;
  build : Builder → ChainSpec;
  (** What a builder was told, and what a built specification reports. *)
  settings : Builder → Settings;
  describe : ChainSpec → option Settings;
  get_extension : ChainSpec → option Extensions;
}.

(** Each method of the builder sets its field and no other; a new builder has
    no preset, protocol id or properties; and a specification reports what its
    builder was told. *)
Class SpecBuilderLaws (S : SpecBuilder) : Prop := {
  settings_builder c e : ∃ n i t, settings (builder c e) = mkSettings c e n i t None None None;
  settings_name b n : settings (with_name n b) =
    let 'mkSettings c e _ i t g p q := settings b in mkSettings c e n i t g p q;
  settings_id b i : settings (with_id i b) =
    let 'mkSettings c e n _ t g p q := settings b in mkSettings c e n i t g p q;
  settings_chain_type b t : settings (with_chain_type t b) =
    let 'mkSettings c e n i _ g p q := settings b in mkSettings c e n i t g p q;
  settings_preset b g : settings (with_genesis_config_preset_name g b) =
    let 'mkSettings c e n i t _ p q := settings b in mkSettings c e n i t (Some g) p q;
  settings_protocol_id b p : settings (with_protocol_id p b) =
    let 'mkSettings c e n i t g _ q := settings b in mkSettings c e n i t g (Some p) q;
  settings_properties b q : settings (with_properties q b) =
    let 'mkSettings c e n i t g p _ := settings b in mkSettings c e n i t g p (Some q);
  describe_build b : describe (build b) = Some (settings b);
  extension_build b : get_extension (build b) = Some (st_extensions (settings b));
}.

(** ** Definitions *)
Section specs.
Context {G : GenesisTypes} {B : SpecBuilder}.

(** [Extensions::try_get]. *)
Definition try_get (chain_spec : ChainSpec) : option Extensions := get_extension chain_spec.

Definition unit_properties : Properties :=
  <["ss58Format" := PNumber 42]> (<["tokenDecimals" := PNumber 12]>
    (<["tokenSymbol" := PString "UNIT"]> ∅)).

(** The properties are built but given to nobody. *)
Definition development_config : result ChainSpec string :=
  let properties := unit_properties in
  match expect WASM_BINARY "WASM binary was not built, please build it!" with
  | Err msg => Err msg
  | Ok code =>
      Ok (build
        (with_genesis_config_preset_name DEV_RUNTIME_PRESET
        (with_chain_type Development
        (with_id "dev"
        (with_name "Development"
        (builder code (mkExtensions "rococo-local" 1000)))))))
  end.

Definition local_testnet_config : result ChainSpec string :=
  let properties := unit_properties in
  match expect WASM_BINARY "WASM binary was not built, please build it!" with
  | Err msg => Err msg
  | Ok code =>
      Ok (build
        (with_properties properties
        (with_protocol_id "template-local"
        (with_genesis_config_preset_name LOCAL_TESTNET_RUNTIME_PRESET
        (with_chain_type Local
        (with_id "local_testnet"
        (with_name "Local Testnet"
        (builder code (mkExtensions "rococo-local" 1000)))))))))
  end.

(** [GenericChainSpec::from_json_file]. *)
Inductive SpecOp : Type → Type :=
| from_json_file (path : string) : SpecOp (result ChainSpec string).

(** A result whose error is the message of a panic. *)
Definition or_panic {Op E A} (r : result A string) : io Op E A :=
  Ret (match r with Ok a => Done a | Err msg => Panic msg end).

Definition load_spec (id : string) : io SpecOp string ChainSpec :=
  if String.eqb id "dev" then or_panic development_config
  else if String.eqb id "template-rococo" then or_panic local_testnet_config
  else if String.eqb id "" || String.eqb id "local" then or_panic local_testnet_config
  else spec ← perform (from_json_file id); try_with (λ e : string, e) spec.

(** The names [load_spec] knows. *)
Definition builtin_names : list string := ["dev"; "template-rococo"; ""; "local"].
End specs.

(** ** The relay chain's command line *)

(** The options of [polkadot_cli::RunCmd] and of the parachain's configuration
    that are used here. [CliConfiguration] lists the queries of the trait of
    that name; [CliTypes] names what they answer. *)
Class CliTypes := {
  RunCmd : Type;
  CliError : Type;
  SharedParams : Type;
  ImportParams : Type;
  NetworkParams : Type;
  KeystoreParams : Type;
  RpcEndpoint : Type;
  PrometheusConfig : Type;
  Role : Type;
  TransactionPoolOptions : Type;
  RpcMethods : Type;
  TelemetryEndpoints : Type;
  (** [SharedParams::base_path]. *)
  shared_base_path : SharedParams → result (option string) CliError;
  path_join : string → string → string;
}.

Section cli.
Context {B : SpecBuilder} {C : CliTypes}.

Abbreviation answer A := (result A CliError).

Record CliConfiguration := mkCliConfiguration {
  shared_params : SharedParams;
  import_params : option ImportParams;
  network_params : option NetworkParams;
  keystore_params : option KeystoreParams;
  base_path : answer (option string);
  rpc_addr : N → answer (option (list RpcEndpoint));
  prometheus_config : N → ChainSpec → answer (option PrometheusConfig);
  init : string → string → outcome CliError unit;
  chain_id : bool → answer string;
  role : bool → answer Role;
  transaction_pool : bool → answer TransactionPoolOptions;
  trie_cache_maximum_size : answer (option N);
  rpc_methods : answer RpcMethods;
  rpc_max_connections : answer N;
  rpc_cors : bool → answer (option (list string));
  default_heap_pages : answer (option N);
  force_authoring : answer bool;
  disable_grandpa : answer bool;
  max_runtime_instances : answer (option N);
  announce_block : answer bool;
  telemetry_endpoints : ChainSpec → answer (option TelemetryEndpoints);
  node_name : answer string;
}.

Record RelayChainCli := mkRelayChainCli {
  rc_base : RunCmd;
  rc_chain_id : option string;
  rc_base_path : option string;
}.

(** [RelayChainCli::new], once clap has parsed the arguments into [base]. *)
Definition RelayChainCli_new (chain_spec : ChainSpec) (para_base_path : string)
    (base : RunCmd) : RelayChainCli :=
  let extension := try_get chain_spec in
  let chain_id := relay_chain <$> extension in
  let base_path := path_join para_base_path "polkadot" in
  mkRelayChainCli base chain_id (Some base_path).

Definition p2p_listen_port : N := 30334.
Definition rpc_listen_port : N := 9945.
Definition prometheus_listen_port : N := 9616.

(** [unwrap_or_default] of an optional string. *)
Definition unwrap_or_default (o : option string) : string := default "" o.

(** [impl CliConfiguration for RelayChainCli], given what the base command
    answers. *)
Definition relay_configuration (base : RunCmd → CliConfiguration) (self : RelayChainCli) :
    CliConfiguration :=
  let b := base (rc_base self) in {|
    shared_params := shared_params b;
    import_params := import_params b;
    network_params := network_params b;
    keystore_params := keystore_params b;
    base_path :=
      match shared_base_path (shared_params b) with
      | Err e => Err e
      | Ok p => Ok (match p with Some p => Some p | None => rc_base_path self end)
      end;
    rpc_addr := rpc_addr b;
    prometheus_config := prometheus_config b;
    init _ _ := Panic "PolkadotCli is never initialized; qed";
    chain_id is_dev :=
      match chain_id b is_dev with
      | Err e => Err e
      | Ok chain_id =>
          Ok (if String.eqb chain_id "" then unwrap_or_default (rc_chain_id self) else chain_id)
      end;
    role := role b;
    transaction_pool := transaction_pool b;
    trie_cache_maximum_size := trie_cache_maximum_size b;
    rpc_methods := rpc_methods b;
    rpc_max_connections := rpc_max_connections b;
    rpc_cors := rpc_cors b;
    default_heap_pages := default_heap_pages b;
    force_authoring := force_authoring b;
    disable_grandpa := disable_grandpa b;
    max_runtime_instances := max_runtime_instances b;
    announce_block := announce_block b;
    telemetry_endpoints := telemetry_endpoints b;
    node_name := node_name b;
  |}.
End cli.

(** ** An executable instance *)

(** A builder is its settings, and so is a specification. *)
Definition SettingsBuilder : SpecBuilder := {|
  ChainSpec := Settings;
  Builder := Settings;
  WASM_BINARY := Some [];
  builder c e := mkSettings c e "Development" "dev" Local None None None;
  with_name n '(mkSettings c e _ i t g p q) := mkSettings c e n i t g p q;
  with_id i '(mkSettings c e n _ t g p q) := mkSettings c e n i t g p q;
  with_chain_type t '(mkSettings c e n i _ g p q) := mkSettings c e n i t g p q;
  with_genesis_config_preset_name g '(mkSettings c e n i t _ p q) :=
    mkSettings c e n i t (Some g) p q;
  with_protocol_id p '(mkSettings c e n i t g _ q) := mkSettings c e n i t g (Some p) q;
  with_properties q '(mkSettings c e n i t g p _) := mkSettings c e n i t g p (Some q);
  build b := b;
  settings b := b;
  describe b := Some b;
  get_extension b := Some (st_extensions b);
|}.

#[export] Instance SettingsBuilderLaws : SpecBuilderLaws SettingsBuilder.
Proof. split; try by intros [] ?. all: cbn; by eauto. Qed.

(** An environment in which every file is missing. *)
Definition no_files : environment (@SpecOp SettingsBuilder) := λ X op _,
  match op in @SpecOp _ X return X with
  | from_json_file path => Err ("no such file: " +:+ path)%string
  end.

(** ** Properties *)
Section properties.
Context {G : GenesisTypes} {HG : GenesisTypesLaws G} {J : Json}.
Context {B : SpecBuilder} {HB : SpecBuilderLaws B} {C : CliTypes}.

(** The builders of the two built-in specifications, and what they were told. *)
Lemma development_settings code :
  WASM_BINARY = Some code →
  ∃ b, development_config = Ok (build b) ∧
    settings b = mkSettings code (mkExtensions "rococo-local" 1000) "Development" "dev"
      Development (Some DEV_RUNTIME_PRESET) None None.
Proof.
  intros Hw. unfold development_config, expect, ok_or. rewrite Hw.
  eexists; split; [done|]. edestruct settings_builder as (n & i & t & Hs).
  by rewrite settings_preset, settings_chain_type, settings_id, settings_name, Hs.
Qed.

Lemma local_settings code :
  WASM_BINARY = Some code →
  ∃ b, local_testnet_config = Ok (build b) ∧
    settings b = mkSettings code (mkExtensions "rococo-local" 1000) "Local Testnet"
      "local_testnet" Local (Some LOCAL_TESTNET_RUNTIME_PRESET) (Some "template-local")
      (Some unit_properties).
Proof.
  intros Hw. unfold local_testnet_config, expect, ok_or. rewrite Hw.
  eexists; split; [done|]. edestruct settings_builder as (n & i & t & Hs).
  by rewrite settings_properties, settings_protocol_id, settings_preset, settings_chain_type,
    settings_id, settings_name, Hs.
Qed.

(** The genesis of a preset: the JSON of one configuration. *)
Definition preset_serves (name : string) (c : RuntimeGenesisConfig) : Prop :=
  ∀ v text, to_value c = Some v → to_string v = Some text →
    get_preset (preset_from name) = Ok (Some (String.list_byte_of_string text)).

Lemma known_preset_serves name :
  name = DEV_RUNTIME_PRESET ∨ name = LOCAL_TESTNET_RUNTIME_PRESET →
  ∃ c, preset_serves name c ∧ parachain_id (parachain_info c) = 1000.
Proof.
  intros Hname. unfold preset_serves, get_preset, local_testnet_genesis,
    development_config_genesis, testnet_genesis. rewrite preset_roundtrip.
  eexists. split; [|shelve]. intros v text Hv Ht. pose proof presets_differ.
  destruct Hname as [->| ->]; [rewrite (proj2 (String.eqb_neq _ _)) by done|];
    rewrite String.eqb_refl; unfold expect; erewrite Hv; cbn; by rewrite Ht.
  Unshelve. done.
Qed.

(** A built-in name is resolved without touching the disk. *)
Lemma load_builtin h name :
  name ∈ builtin_names →
  run h (load_spec name) [] =
    ([], match (if bool_decide (name = "dev") then development_config else local_testnet_config)
         with Ok spec => Done spec | Err msg => Panic msg end).
Proof.
  unfold builtin_names. rewrite !elem_of_cons, elem_of_nil.
  intros [->|[->|[->|[->|[]]]]]; cbn; unfold or_panic; by repeat destr_goal.
Qed.

(** The properties a wallet reads agree with the runtime: the token has as many
    decimals as [UNIT], and addresses the prefix of the runtime. *)
Definition properties_agree (q : Properties) : Prop :=
  ∃ d, q !! "tokenDecimals" = Some (PNumber d) ∧ 10 ^ d = UNIT ∧
       q !! "ss58Format" = Some (PNumber SS58Prefix).

(** C37. Once the runtime is built, every built-in name gives, without touching
    the disk, a specification that carries the runtime's code and names a preset
    the runtime serves; that preset's genesis has the specification's parachain
    id; and the local networks' token properties agree with the runtime, while
    the development network has none. *)
Theorem builtin_specs_match_runtime h name code :
  WASM_BINARY = Some code → name ∈ builtin_names →
  ∃ spec st preset c,
    run h (load_spec name) [] = ([], Done spec) ∧
    describe spec = Some st ∧ try_get spec = Some (st_extensions st) ∧
    st_code st = code ∧ st_preset st = Some preset ∧ preset_from preset ∈ preset_names ∧
    preset_serves preset c ∧ parachain_id (parachain_info c) = para_id (st_extensions st) ∧
    (name = "dev" → st_chain_type st = Development ∧ st_properties st = None) ∧
    (name ≠ "dev" → st_chain_type st = Local ∧
       ∃ q, st_properties st = Some q ∧ properties_agree q).
Proof.
  intros Hw Hn. unfold try_get. rewrite load_builtin by done. case_bool_decide as Hd.
  - destruct (development_settings code Hw) as (b & -> & Hb).
    destruct (known_preset_serves DEV_RUNTIME_PRESET) as (c & Hc & Hid); [by left|].
    exists (build b), (settings b), DEV_RUNTIME_PRESET, c.
    rewrite describe_build, extension_build, Hb. split_and!; try done.
    by left.
  - destruct (local_settings code Hw) as (b & -> & Hb).
    destruct (known_preset_serves LOCAL_TESTNET_RUNTIME_PRESET) as (c & Hc & Hid); [by right|].
    exists (build b), (settings b), LOCAL_TESTNET_RUNTIME_PRESET, c.
    rewrite describe_build, extension_build, Hb. split_and!; try done.
    + by right; left.
    + intros _. split; [done|]. exists unit_properties. split; [done|]. by exists 12.
Qed.

(** A name that is not built in is a path: its file is read, once, and what
    the reader answers is the answer. A built-in name reads no file and never
    fails; it panics exactly if the runtime was not built. *)
Theorem load_spec_by_name h name :
  let r := run h (load_spec name) [] in
  (name ∉ builtin_names →
     r = ([Ev _ (from_json_file name) (h _ (from_json_file name) [])],
          match h _ (from_json_file name) [] with Ok spec => Done spec | Err e => Fail e end)) ∧
  (name ∈ builtin_names →
     r.1 = [] ∧ (∀ e, r.2 ≠ Fail e) ∧ ((∃ msg, r.2 = Panic msg) ↔ WASM_BINARY = None)).
Proof.
  cbv zeta. split.
  - unfold builtin_names. rewrite !not_elem_of_cons. intros (H1 & H2 & H3 & H4 & _).
    unfold load_spec. rewrite !(proj2 (String.eqb_neq _ _)) by done. cbn.
    by repeat destr_goal.
  - intros Hn. rewrite load_builtin by done.
    unfold development_config, local_testnet_config, expect, ok_or. split; [done|].
    destruct WASM_BINARY; case_bool_decide; cbn; split; try done; split;
      try (by intros [??]); by eauto.
Qed.

(** The relay-chain side takes a base path and a chain from its own
    arguments first; without them it uses the folder "polkadot" of the
    parachain's base path and the relay chain the specification names, or no
    chain at all if it names none. An error of the arguments is passed on. *)
Theorem relay_chain_defaults (base : RunCmd → CliConfiguration) spec path cmd is_dev :
  let cfg := relay_configuration base (RelayChainCli_new spec path cmd) in
  base_path cfg =
    match shared_base_path (shared_params (base cmd)) with
    | Ok None => Ok (Some (path_join path "polkadot"))
    | own => own
    end ∧
  chain_id cfg is_dev =
    match chain_id (base cmd) is_dev, try_get spec with
    | Ok "", Some e => Ok (relay_chain e)
    | own, _ => own
    end.
Proof.
  split; cbn; [by repeat destr_goal|].
  destruct (chain_id (base cmd) is_dev) as [id|e]; [|done].
  destruct (String.eqb_spec id "") as [->|]; [by destruct (try_get spec)|by destruct id].
Qed.
End properties.

Section witnesses.
Abbreviation load := (@load_spec TestGenesisTypes SettingsBuilder).

Lemma builtin_specs_match_runtime_witness :
  ∃ spec : Settings,
    run no_files (load "template-rococo") [] = ([], Done spec) ∧
    st_code spec = [] ∧ st_chain_type spec = Local.
Proof.
  destruct (builtin_specs_match_runtime (J := TestJson) (B := SettingsBuilder)
    no_files "template-rococo" []) as (spec & st & p & c & Hr & Hd & _ & Hc & _ & _ & _ & _ & _ & Hl).
  - reflexivity.
  - right; left.
  - cbn in Hd. injection Hd as ->. exists st. split_and!; [exact Hr|exact Hc|by apply Hl].
Defined.

Lemma load_spec_by_name_witness :
  (run no_files (load "my.json") []).2 = Fail "no such file: my.json"%string ∧
  length (run no_files (load "my.json") []).1 = 1%nat.
Proof.
  destruct (load_spec_by_name (B := SettingsBuilder) (G := TestGenesisTypes)
    no_files "my.json") as [H _].
  rewrite H; [split; reflexivity|]. apply (bool_decide_unpack _). reflexivity.
Defined.
End witnesses.
