(* ===== verification/Configs.v ===== *)
(** * The configured pallets (src/runtime/src/configs/mod.rs)

The configuration of each pallet of the runtime, as the values its [Config]
implementation gives, and what these values have to agree on. *)
From S2P Require Import Prelude Frame NftPallet NftSpec FrameModel NftRules Weights Runtime Genesis Effects ChainSpec.

Local Open Scope N_scope.

(** ** Interface *)

(** [pallet_session::PeriodicSessions]: whether the session ends with a block. *)
Class PeriodicSessions := {
  should_end_session : N → N → N → bool;
}.

(** Sessions end at the offset and every period after it. *)
Class PeriodicSessionsLaws (S : PeriodicSessions) : Prop := {
  ends_at_multiples period offset now :
    should_end_session period offset now =
    (offset <=? now) && ((now - offset) mod period =? 0);
}.

(** [AccountIdConversion::into_account_truncating] of [PalletId]: the account of a
    pallet. *)
Class PalletAccounts (AccountId : Type) := {
  pallet_id_account : string → AccountId;
}.

(** It truncates what does not fit the account: the eight bytes of a [PalletId],
    after the four of its type, fit, so that different ones have different accounts. *)
Class PalletAccountsLaws {AccountId : Type} (P : PalletAccounts AccountId) : Prop := {
  pallet_id_account_inj x y :
    String.length x = 8%nat → String.length y = 8%nat →
    pallet_id_account x = pallet_id_account y → x = y;
}.

(** ** Configurations *)

Record frame_system_Config {W : SpWeights} {B : BlockWeightsApi} := mkSystemConfig {
  system_DbWeight : RuntimeDbWeight;
  system_BlockWeights : option BlockWeights;
  system_BlockLength : BlockLength;
  system_SS58Prefix : N;
  system_MaxConsumers : N;
}.

Record pallet_timestamp_Config := mkTimestampConfig { timestamp_MinimumPeriod : N }.

Record pallet_balances_Config := mkBalancesConfig {
  balances_MaxLocks : N;
  balances_ExistentialDeposit : Balance;
  balances_MaxReserves : N;
  (** The length of [ReserveIdentifier] in bytes. *)
  balances_ReserveIdentifier_len : N;
}.

(** The consensus hook is given by the length of a relay chain slot in
    milliseconds, the velocity and the capacity of the unincluded segment. *)
Record parachain_system_Config {W : SpWeights} := mkParachainSystemConfig {
  parachain_ReservedDmpWeight : Weight;
  parachain_ReservedXcmpWeight : Weight;
  parachain_ConsensusHook : N * N * N;
}.

Record pallet_message_queue_Config {W : SpWeights} := mkMessageQueueConfig {
  queue_HeapSize : N;
  queue_MaxStale : N;
  queue_ServiceWeight : option Weight;
  queue_IdleMaxServiceWeight : option Weight;
}.

Record xcmp_queue_Config := mkXcmpQueueConfig {
  xcmp_MaxInboundSuspended : N;
  xcmp_MaxActiveOutboundChannels : N;
  xcmp_MaxPageSize : N;
}.

Record pallet_session_Config := mkSessionConfig {
  session_ShouldEndSession : N → bool;
  session_NextSessionRotation : N * N;
}.

Record pallet_aura_Config := mkAuraConfig {
  aura_MaxAuthorities : N;
  aura_AllowMultipleBlocksPerSlot : bool;
  aura_SlotDuration : N;
}.

Record pallet_collator_selection_Config := mkCollatorConfig {
  collator_PotId : string;
  collator_MaxCandidates : N;
  collator_MinEligibleCollators : N;
  collator_MaxInvulnerables : N;
  collator_KickThreshold : N;
}.

Record pallet_template_Config {W : SpWeights} := mkTemplateConfig {
  template_WeightInfo : WeightInfo;
  template_PalletId : string;
}.

Section configs.
Context {W : SpWeights} {B : BlockWeightsApi} {S : PeriodicSessions}.
Variable MAX_POV_SIZE : N.

Definition system_config : frame_system_Config :=
  mkSystemConfig _ _ RocksDbWeight (RuntimeBlockWeights MAX_POV_SIZE) RuntimeBlockLength
    SS58Prefix 16.

Definition timestamp_config : pallet_timestamp_Config := mkTimestampConfig 0.

Definition pallet_balances_config : pallet_balances_Config :=
  mkBalancesConfig 50 EXISTENTIAL_DEPOSIT 50 8.

Definition parachain_system_config : parachain_system_Config :=
  mkParachainSystemConfig _ (ReservedDmpWeight MAX_POV_SIZE) (ReservedXcmpWeight MAX_POV_SIZE)
    (RELAY_CHAIN_SLOT_DURATION_MILLIS, BLOCK_PROCESSING_VELOCITY, UNINCLUDED_SEGMENT_CAPACITY).

Definition message_queue_config : pallet_message_queue_Config :=
  mkMessageQueueConfig _ MessageQueueHeapSize 8 (MessageQueueServiceWeight MAX_POV_SIZE) None.

Definition xcmp_queue_config : xcmp_queue_Config := mkXcmpQueueConfig 1000 128 MaxPageSize.

Definition session_config : pallet_session_Config :=
  mkSessionConfig (should_end_session Period Offset) (Period, Offset).

Definition aura_config : pallet_aura_Config := mkAuraConfig MaxAuthorities true SLOT_DURATION.

Definition collator_selection_config : pallet_collator_selection_Config :=
  mkCollatorConfig PotId MaxCandidates MinEligibleCollators MaxInvulnerables KickThreshold.

(** [SubstrateWeight<Runtime>] reads the [DbWeight] of the system pallet. *)
Definition template_config : pallet_template_Config :=
  mkTemplateConfig _ (SubstrateWeight system_config.(system_DbWeight)) TemplatePalletId.
End configs.

(** ** Sessions *)
Section session_run.
Context {S : PeriodicSessions}.

(** The blocks after [now], one by one, up to the first that ends a session. *)
Fixpoint next_session_end (fuel : nat) (now : N) : option N :=
  match fuel with
  | O => None
  | Datatypes.S fuel =>
      if session_config.(session_ShouldEndSession) (now + 1) then Some (now + 1)
      else next_session_end fuel (now + 1)
  end.
End session_run.

(** ** An executable instance *)

Definition TestSessions : PeriodicSessions := {|
  should_end_session period offset now :=
    (offset <=? now) && ((now - offset) mod period =? 0);
|}.

#[export] Instance TestSessionsLaws : PeriodicSessionsLaws TestSessions.
Proof. by split. Qed.

(** ** Properties *)
Section session_properties.
Context {S : PeriodicSessions} {HS : PeriodicSessionsLaws S}.

Lemma Period_blocks : Period = 3600.
Proof. by vm_compute. Qed.

(** A number by its quotient and remainder of the period, for [lia]. *)
Ltac by_period n :=
  let q := fresh "q" in let r := fresh "r" in
  pose proof (N.div_mod n 3600 ltac:(discriminate));
  pose proof (N.mod_lt n 3600 ltac:(discriminate));
  set (q := n / 3600) in *; set (r := n mod 3600) in *; clearbody q r.

(** A block ends a session exactly if its number is a multiple of the period. *)
Lemma ends_session now :
  session_config.(session_ShouldEndSession) now = true ↔ now mod 3600 = 0.
Proof.
  cbn [session_config session_ShouldEndSession]. rewrite ends_at_multiples, Period_blocks.
  unfold Offset. rewrite N.sub_0_r, andb_true_iff, N.leb_le, N.eqb_eq. intuition lia.
Qed.

(** The run stops at the next multiple of the period, given the fuel to get there. *)
Lemma next_session_end_spec (k : nat) (e now : N) :
  e mod 3600 = 0 → e = now + N.of_nat k → (0 < k ≤ 3600)%nat →
  next_session_end k now = Some e.
Proof.
  revert now. induction k as [|k IH]; intros now He Hn Hk; [lia|]. cbn [next_session_end].
  destruct (session_ShouldEndSession session_config (now + 1)) eqn:E.
  - apply ends_session in E. f_equal.
    by_period (now + 1). by_period e. lia.
  - destruct k as [|k]; [|apply IH; lia].
    assert (Ht : session_ShouldEndSession session_config (now + 1) = true).
    { apply ends_session. by replace (now + 1) with e by lia. }
    congruence.
Qed.

Lemma next_session_end_fuel (k k' : nat) now e :
  next_session_end k now = Some e → (k ≤ k')%nat → next_session_end k' now = Some e.
Proof.
  revert k' now. induction k as [|k IH]; intros [|k'] now; cbn [next_session_end]; [done|done|lia|].
  destruct (session_ShouldEndSession session_config (now + 1)); [done|]. intros H Hk. apply IH; [done|lia].
Qed.

(** The next multiple of the period after a block. *)
Lemma next_multiple now :
  let e := 3600 * (now / 3600 + 1) in
  now < e ≤ now + 3600 ∧ session_config.(session_ShouldEndSession) e = true ∧
  (∀ b, now < b < e → session_config.(session_ShouldEndSession) b = false).
Proof.
  cbv zeta. by_period now. split_and!; [lia|lia| |].
  - apply ends_session. rewrite N.mul_comm. apply N.Div0.mod_mul.
  - intros b Hb. apply not_true_is_false. intros He%ends_session. by_period b. lia.
Qed.

(** C32. Every session ends: from any block the run to the next end of a session
    stops within a period of 3600 blocks, six hours of them; no block before it
    ends a session; from the end of a session it takes exactly a period; and the
    kick threshold of the collators spans the end of a session wherever it
    begins. *)
Theorem every_session_ends now :
  ∃ e, next_session_end 3600 now = Some e ∧
    now < e ≤ now + fst session_config.(session_NextSessionRotation) ∧
    (∀ b, now < b < e → session_config.(session_ShouldEndSession) b = false) ∧
    (session_config.(session_ShouldEndSession) now = true → e = now + 3600) ∧
    3600 * aura_config.(aura_SlotDuration) = 6 * 3600 * 1000 ∧
    ∃ b, now < b ≤ now + collator_selection_config.(collator_KickThreshold) ∧
      session_config.(session_ShouldEndSession) b = true.
Proof.
  destruct (next_multiple now) as (Hb & He & Hn). cbn [fst session_config session_NextSessionRotation
    collator_selection_config collator_KickThreshold]. unfold KickThreshold. rewrite Period_blocks.
  exists (3600 * (now / 3600 + 1)). split_and!; [|lia..|done| |by vm_compute|by exists (3600 * (now / 3600 + 1))].
  - set (e := 3600 * (now / 3600 + 1)) in *.
    apply (next_session_end_fuel (N.to_nat (e - now))); [|lia].
    apply next_session_end_spec; [by apply ends_session|lia..].
  - intros H0%ends_session. by_period now. lia.
Qed.
End session_properties.

Section consistency.
Context {W : SpWeights} {HW : SpWeightsLaws W} {B : BlockWeightsApi} {HB : BlockWeightsLaws B}.

(** What is set aside for one thing out of a block. *)
Lemma quarter_time a : ref_time (weight_saturating_div a 4) = ref_time a / 4.
Proof. by apply ref_time_saturating_div. Qed.
Lemma quarter_proof a : proof_size (weight_saturating_div a 4) = proof_size a / 4.
Proof. by apply proof_size_saturating_div. Qed.

(** A quarter twice and thirty-five percent make less than a whole. *)
Lemma shares_fit n : n / 4 + n / 4 + perbill_mul (from_percent 35) n ≤ n.
Proof.
  pose proof (perbill_mul_nearest (from_percent 35) n) as [Hn _].
  rewrite deconstruct_from_percent in Hn. pose proof (N.Div0.mul_div_le n 4).
  set (q := n / 4) in *. clearbody q. change (N.min 35 100) with 35 in Hn.
  set (m := perbill_mul _ n) in *. clearbody m. lia.
Qed.

Context {C : Config} {HC : ConfigLaws C}.
Context {P : PalletAccounts AccountId} {HP : PalletAccountsLaws P}.

(** The account that the pallet collects its fees in, in the runtime, and the one
    that the collators are rewarded from. *)
Definition fee_account (pov : N) : AccountId :=
  pallet_id_account (template_PalletId (template_config pov)).
Definition pot_account : AccountId :=
  pallet_id_account (collator_PotId collator_selection_config).

Lemma fee_account_not_pot pov : fee_account pov ≠ pot_account.
Proof. intros H%pallet_id_account_inj; [discriminate H|done|done]. Qed.

(** A registration moves its fee from the artist to the account of the pallet. *)
Lemma registration_moves origin s s' :
  dispatch Call_register_artist origin s = (Ok (), s') →
  ∃ who, ensure_signed origin = Ok who ∧
    transfer who pallet_account registration_fee KeepAlive s.(ledger) = (Ok (), s'.(ledger)).
Proof. intros (who & Ho & He)%dispatch_ok. inversion He; subst. eauto. Qed.

(** C33. The configurations agree with each other: a slot of Aura is a slot of the
    consensus hook, at one block each, and no shorter than the timestamps allow; the
    kick threshold is a multiple of the session; all collators there can be fit
    among the authorities, and enough invulnerables are allowed to keep the chain
    running; a page of sibling messages fits the queue that takes it; what a block
    sets aside for messages of the relay chain, of the siblings and of the queue
    fits in it; and in the runtime the fee of an artist, unless that is the pallet's
    own account, arrives in the account of the pallet, which is not the pot that the
    collators are rewarded from, and the pot stays as it is unless it is the artist. *)
Theorem configurations_agree pov limits queue :
  RuntimeBlockWeights pov = Some limits →
  queue_ServiceWeight (message_queue_config pov) = Some queue →
  pallet_account = fee_account pov →
  let '(slot, velocity, _) := parachain_ConsensusHook (parachain_system_config pov) in
  let dmp := parachain_ReservedDmpWeight (parachain_system_config pov) in
  let xcmp := parachain_ReservedXcmpWeight (parachain_system_config pov) in
  let collators := collator_selection_config in
  (slot = velocity * aura_SlotDuration aura_config ∧
   2 * timestamp_MinimumPeriod timestamp_config ≤ aura_SlotDuration aura_config) ∧
  collator_KickThreshold collators mod Period = 0 ∧
  collator_MaxInvulnerables collators + collator_MaxCandidates collators
    ≤ aura_MaxAuthorities aura_config ∧
  collator_MinEligibleCollators collators ≤ collator_MaxInvulnerables collators ∧
  xcmp_MaxPageSize xcmp_queue_config ≤ queue_HeapSize (message_queue_config pov) ∧
  ref_time dmp + ref_time xcmp + ref_time queue ≤ ref_time (max_block limits) ∧
  proof_size dmp + proof_size xcmp + proof_size queue ≤ proof_size (max_block limits) ∧
  ∀ origin who s s',
    ensure_signed origin = Ok who →
    dispatch Call_register_artist origin s = (Ok (), s') →
    (who ≠ fee_account pov →
       balance s' (fee_account pov) = balance s (fee_account pov) + registration_fee) ∧
    (who ≠ pot_account → balance s' pot_account = balance s pot_account).
Proof.
  intros Hb Hq Hacc. cbn [parachain_system_config parachain_ConsensusHook].
  cbn [message_queue_config queue_ServiceWeight] in Hq.
  unfold MessageQueueServiceWeight in Hq. rewrite Hb in Hq. injection Hq as <-.
  destruct (max_block_weight _ _ Hb) as [Ht Hs].
  cbv zeta. split_and!; [by vm_compute..| | |].
  - cbn [parachain_system_config parachain_ReservedDmpWeight parachain_ReservedXcmpWeight].
    unfold ReservedDmpWeight, ReservedXcmpWeight.
    rewrite !quarter_time, ref_time_perbill_mul, <- Ht. apply shares_fit.
  - cbn [parachain_system_config parachain_ReservedDmpWeight parachain_ReservedXcmpWeight].
    unfold ReservedDmpWeight, ReservedXcmpWeight.
    rewrite !quarter_proof, proof_size_perbill_mul, <- Hs. apply shares_fit.
  - intros origin who s s' Ho (who' & Ho' & Htr)%registration_moves.
    assert (who' = who) as -> by congruence. rewrite Hacc in Htr.
    pose proof (fee_account_not_pot pov). unfold balance. split; intros Hw.
    + by destruct (transfer_moves _ _ _ _ _ Htr Hw) as (_ & _ & ->).
    + apply (transfer_others _ _ _ _ _ _ _ Htr); congruence.
Qed.
End consistency.

(** ** Examples *)

Lemma every_session_ends_witness :
  ∃ e, next_session_end (S := TestSessions) 3600 5000 = Some e ∧ 5000 < e ≤ 8600.
Proof.
  destruct (every_session_ends (S := TestSessions) 5000) as (e & He & Hb & _).
  exists e. split; [exact He|exact Hb].
Defined.

(** The accounts of the examples: 1000 for the pallet, and one for each other name. *)
Definition TestAccounts : PalletAccounts (AccountId (Config := TestConfig)) := {|
  pallet_id_account x := if String.eqb x "template" then 1000 else 1000 + N.pos (encode x);
|}.

#[export] Instance TestAccountsLaws : PalletAccountsLaws TestAccounts.
Proof.
  split; cbn. intros x y _ _. destruct (String.eqb_spec x "template"), (String.eqb_spec y "template");
    subst; try done; intros H; try lia.
  apply (inj encode). enough (N.pos (encode x) = N.pos (encode y)) by congruence. lia.
Qed.

Lemma configurations_agree_witness :
  ∃ limits queue,
    RuntimeBlockWeights (W := TestWeights) (B := TestBlockWeights) (5 * 1024 * 1024) = Some limits ∧
    queue_ServiceWeight (message_queue_config (W := TestWeights) (B := TestBlockWeights)
      (5 * 1024 * 1024)) = Some queue ∧
    500000000000 + 500000000000 + ref_time (SpWeights := TestWeights) queue ≤
      ref_time (SpWeights := TestWeights) (max_block (BlockWeightsApi := TestBlockWeights) limits) ∧
    let s' := (dispatch Call_register_artist (Some 2) minted).2 in
    balance s' 1000 = balance minted 1000 + registration_fee ∧
    balance s' (pot_account (P := TestAccounts)) = balance minted (pot_account (P := TestAccounts)).
Proof.
  do 2 eexists. split; [reflexivity|]. split; [reflexivity|].
  destruct (configurations_agree (W := TestWeights) (B := TestBlockWeights) (C := TestConfig)
    (P := TestAccounts) (5 * 1024 * 1024) _ _ eq_refl eq_refl eq_refl)
    as (_ & _ & _ & _ & _ & Ht & _ & Hr).
  split; [exact Ht|]. cbv zeta.
  edestruct (Hr (Some 2 : RuntimeOrigin (Config := TestConfig)) 2 minted) as [Hfee Hpot];
    [reflexivity|apply unit_run_ok; vm_compute; reflexivity|].
  split; [apply Hfee; discriminate|apply Hpot; vm_compute; discriminate].
Defined.
