(* ===== verification/Command.v ===== *)
(** * The command line of the node (src/node/src/command.rs)

What each subcommand does: which configuration and which parts of the node it
needs, which library command it ends with, and how the node itself is started
when no subcommand is given. *)
From S2P Require Import Prelude Frame Runtime Genesis Effects Service ChainSpec.

Local Open Scope N_scope.

(** ** Interface *)

(** The command types of the client libraries and what is read from them and
    from a configuration. *)
Class CommandTypes `{T : ServiceTypes, B : SpecBuilder, C : CliTypes} := {
  BuildSpecCmd : Type;
  CheckBlockCmd : Type;
  ExportBlocksCmd : Type;
  ExportStateCmd : Type;
  ImportBlocksCmd : Type;
  RevertCmd : Type;
  PurgeChainCmd : Type;
  ExportGenesisHeadCommand : Type;
  ExportGenesisWasmCommand : Type;
  PalletBenchCmd : Type;
  BlockBenchCmd : Type;
  StorageBenchCmd : Type;
  MachineBenchCmd : Type;
  OtherBenchCmd : Type;
  ParaRunCmd : Type;
  NormalizedRunCmd : Type;
  Runner : Type;
  TokioHandle : Type;
  NetworkConfiguration : Type;
  DatabaseSource : Type;
  normalize : ParaRunCmd → NormalizedRunCmd;
  collator_options : ParaRunCmd → CollatorOptions;
  (** The [--chain] of the shared parameters of [export-genesis-wasm]. *)
  wasm_cmd_chain : ExportGenesisWasmCommand → option string;
  cfg_chain_spec : Configuration → ChainSpec;
  cfg_network : Configuration → NetworkConfiguration;
  cfg_database : Configuration → DatabaseSource;
  database_path : DatabaseSource → option string;
  cfg_base_path : Configuration → string;
  cfg_tokio_handle : Configuration → TokioHandle;
  para_id_from : N → ParaId;
  executable_name : string;
  (** [cfg!(feature = "runtime-benchmarks")]. *)
  runtime_benchmarks : bool;
  (** [sc_cli::Error::Input], the conversion of a service error, and Display. *)
  Input : string → CliError;
  from_service_error : ServiceError → CliError;
  show_cli_error : CliError → string;
}.

(** ** Data *)
Section data.
Context `{K : CommandTypes}.

Inductive BenchmarkCmd :=
| Pallet (cmd : PalletBenchCmd)
| Block (cmd : BlockBenchCmd)
| StorageBench (cmd : StorageBenchCmd)
| Machine (cmd : MachineBenchCmd)
| OtherBench (cmd : OtherBenchCmd).

Inductive Subcommand :=
| BuildSpec (cmd : BuildSpecCmd)
| CheckBlock (cmd : CheckBlockCmd)
| ExportBlocks (cmd : ExportBlocksCmd)
| ExportState (cmd : ExportStateCmd)
| ImportBlocks (cmd : ImportBlocksCmd)
| Revert (cmd : RevertCmd)
| PurgeChain (cmd : PurgeChainCmd)
| ExportGenesisHead (cmd : ExportGenesisHeadCommand)
| ExportGenesisWasm (cmd : ExportGenesisWasmCommand)
| Benchmark (cmd : BenchmarkCmd).

Record Cli := mkCli {
  cli_subcommand : option Subcommand;
  cli_run : ParaRunCmd;
  cli_no_hardware_benchmarks : bool;
  cli_relay_chain_args : list string;
}.

(** The library commands, with the arguments they are run on. *)
Inductive Job :=
| JBuildSpec (cmd : BuildSpecCmd) (spec : ChainSpec) (net : NetworkConfiguration)
| JCheckBlock (cmd : CheckBlockCmd) (client : Client) (q : ImportQueue)
| JExportBlocks (cmd : ExportBlocksCmd) (client : Client) (db : DatabaseSource)
| JExportState (cmd : ExportStateCmd) (client : Client) (spec : ChainSpec)
| JImportBlocks (cmd : ImportBlocksCmd) (client : Client) (q : ImportQueue)
| JRevert (cmd : RevertCmd) (client : Client) (backend : Backend)
| JPurgeChain (cmd : PurgeChainCmd) (config polkadot_config : Configuration)
| JExportGenesisHead (cmd : ExportGenesisHeadCommand) (client : Client)
| JExportGenesisWasm (cmd : ExportGenesisWasmCommand) (spec : ChainSpec)
| JPallet (cmd : PalletBenchCmd) (spec : ChainSpec)
| JBlock (cmd : BlockBenchCmd) (client : Client)
| JStorage (cmd : StorageBenchCmd) (config : Configuration) (client : Client)
    (db_and_storage_of : Backend)
| JMachine (cmd : MachineBenchCmd) (config : Configuration).

(** What a runner is created for. *)
Inductive RunnerFor := ForSubcommand (s : Subcommand) | ForNode (r : NormalizedRunCmd).

Inductive CmdOp : Type → Type :=
| from_args : CmdOp Cli
| create_runner (c : RunnerFor) : CmdOp (result Runner CliError)
| run_job (j : Job) : CmdOp (result unit CliError)
  (** A job's future, run until it ends or the process is told to stop. *)
| block_on (r : Runner) (j : Job) (tm : TaskManager) : CmdOp (result unit CliError)
| run_until_exit (r : Runner) (tm : TaskManager) : CmdOp (result unit CliError)
  (** clap ends the process itself if the arguments do not parse. *)
| parse_relay_args (args : list string) : CmdOp RunCmd
| create_configuration (cli : RelayChainCli) (h : TokioHandle) :
    CmdOp (result Configuration CliError)
| create_dir_all (path : string) : CmdOp (result unit string)
| gather_hwbench (path : option string) : CmdOp HwBench
| log_info (msg : string) : CmdOp unit
| spec_op (X : Type) (op : SpecOp X) : CmdOp X
| service_op (X : Type) (op : Service.Op X) : CmdOp X.

Abbreviation cmd_io := (io CmdOp CliError).
End data.

(** The runner of [sc_cli]: it hands its configuration to the closure it is
    given. *)
Class RunnerOps `{K : CommandTypes} := {
  runner_config : Runner → Configuration;
  sync_run : Runner → (Configuration → io CmdOp CliError unit) → io CmdOp CliError unit;
  async_run : Runner → (Configuration → io CmdOp CliError (Job * TaskManager)) →
    io CmdOp CliError unit;
  run_node_until_exit : Runner → (Configuration → io CmdOp CliError TaskManager) →
    io CmdOp CliError unit;
}.

Class RunnerLaws `{R : RunnerOps} : Prop := {
  sync_run_runs r f : sync_run r f = f (runner_config r);
  async_run_runs r f : async_run r f =
    ('(j, tm) ← f (runner_config r);
     done ← perform (block_on r j tm); try_with (λ e : CliError, e) done);
  run_node_runs r f : run_node_until_exit r f =
    (tm ← f (runner_config r);
     done ← perform (run_until_exit r tm); try_with (λ e : CliError, e) done);
}.

(** ** Definitions *)
Section command.
Context {G : GenesisTypes} `{R : RunnerOps}.

(** [new_partial(&config)?] and [load_spec(id)?] in a function with CLI errors. *)
Definition cli_new_partial (config : Configuration) : io CmdOp CliError Service :=
  convert_err from_service_error (lift service_op (new_partial config)).
Definition cli_load_spec (id : string) : io CmdOp CliError ChainSpec :=
  convert_err Input (lift spec_op (load_spec id)).

Definition runner_for (s : Subcommand) : io CmdOp CliError Runner :=
  r ← perform (create_runner (ForSubcommand s)); try_with (λ e : CliError, e) r.

(** The result of a library command is the result of the subcommand. *)
Definition finish (j : Job) : io CmdOp CliError unit :=
  done ← perform (run_job j); try_with (λ e : CliError, e) done.

(** The macro of that name. *)
Definition construct_async_run (s : Subcommand)
    (code : Service → Configuration → Job) : io CmdOp CliError unit :=
  runner ← runner_for s;
  async_run runner (λ config,
    components ← cli_new_partial config;
    let task_manager := components.(sv_task_manager) in
    mret (code components config, task_manager)).

(** [RelayChainCli::new] on the arguments after [--]. *)
Definition relay_cli (cli : Cli) (config : Configuration) : io CmdOp CliError RelayChainCli :=
  base ← perform (parse_relay_args (executable_name :: cli_relay_chain_args cli));
  mret (RelayChainCli_new (cfg_chain_spec config) (cfg_base_path config) base).

(** [SubstrateCli::create_configuration] with its error as a message. *)
Definition relay_config (polkadot_cli : RelayChainCli) (config : Configuration) :
    io CmdOp CliError Configuration :=
  c ← perform (create_configuration polkadot_cli (cfg_tokio_handle config));
  try_with (λ err, Input ("Relay chain argument error: " +:+ show_cli_error err)%string) c.

Definition run_benchmark (cmd : BenchmarkCmd) (runner : Runner) : io CmdOp CliError unit :=
  match cmd with
  | Pallet cmd =>
      if runtime_benchmarks
      then sync_run runner (λ config, finish (JPallet cmd (cfg_chain_spec config)))
      else Ret (Fail (Input "Benchmarking wasn't enabled when building the node. You can enable it with `--features runtime-benchmarks`."))
  | Block cmd =>
      sync_run runner (λ config,
        partials ← cli_new_partial config;
        finish (JBlock cmd partials.(sv_client)))
  | StorageBench cmd =>
      if runtime_benchmarks
      then sync_run runner (λ config,
        partials ← cli_new_partial config;
        finish (JStorage cmd config partials.(sv_client) partials.(sv_backend)))
      else Ret (Fail (Input "Compile with --features=runtime-benchmarks to enable storage benchmarks."))
  | Machine cmd => sync_run runner (λ config, finish (JMachine cmd config))
  | OtherBench _ => Ret (Fail (Input "Benchmarking sub-command unsupported"))
  end.

(** The benchmark runs before the flag is looked at: [then_some] takes a value,
    and only the value is dropped. *)
Definition node_hwbench (no_hardware_benchmarks : bool) (config : Configuration) :
    io CmdOp CliError (option HwBench) :=
  measured ←
    match database_path (cfg_database config) with
    | None => mret None
    | Some path =>
        _ ← perform (create_dir_all path);
        hw ← perform (gather_hwbench (Some path));
        mret (Some hw)
    end;
  mret (if negb no_hardware_benchmarks then measured else None).

Definition start_node (cli : Cli) (options : CollatorOptions) (config : Configuration) :
    io CmdOp CliError TaskManager :=
  hwbench ← node_hwbench (cli_no_hardware_benchmarks cli) config;
  para_id ← match para_id <$> try_get (cfg_chain_spec config) with
            | Some id => mret id
            | None => Ret (Fail (Input "Could not find parachain ID in chain-spec."))
            end;
  polkadot_cli ← relay_cli cli config;
  let id := para_id_from para_id in
  polkadot_config ← relay_config polkadot_cli config;
  perform (log_info ("Is collating: " +:+
    (if role_is_authority config then "yes" else "no"))%string);;
  r ← convert_err from_service_error
        (lift service_op (start_parachain_node config polkadot_config options id hwbench));
  mret r.1.

(** The command line's [match], once the arguments are parsed. *)
Definition run_cli (cli : Cli) : io CmdOp CliError unit :=
  match cli_subcommand cli with
  | Some (BuildSpec cmd as s) =>
      runner ← runner_for s;
      sync_run runner (λ config,
        finish (JBuildSpec cmd (cfg_chain_spec config) (cfg_network config)))
  | Some (CheckBlock cmd as s) =>
      construct_async_run s (λ components config,
        JCheckBlock cmd components.(sv_client) components.(sv_import_queue))
  | Some (ExportBlocks cmd as s) =>
      construct_async_run s (λ components config,
        JExportBlocks cmd components.(sv_client) (cfg_database config))
  | Some (ExportState cmd as s) =>
      construct_async_run s (λ components config,
        JExportState cmd components.(sv_client) (cfg_chain_spec config))
  | Some (ImportBlocks cmd as s) =>
      construct_async_run s (λ components config,
        JImportBlocks cmd components.(sv_client) components.(sv_import_queue))
  | Some (Revert cmd as s) =>
      construct_async_run s (λ components config,
        JRevert cmd components.(sv_client) components.(sv_backend))
  | Some (PurgeChain cmd as s) =>
      runner ← runner_for s;
      sync_run runner (λ config,
        polkadot_cli ← relay_cli cli config;
        polkadot_config ← relay_config polkadot_cli config;
        finish (JPurgeChain cmd config polkadot_config))
  | Some (ExportGenesisHead cmd as s) =>
      runner ← runner_for s;
      sync_run runner (λ config,
        partials ← cli_new_partial config;
        finish (JExportGenesisHead cmd partials.(sv_client)))
  | Some (ExportGenesisWasm cmd as s) =>
      runner ← runner_for s;
      sync_run runner (λ _,
        spec ← cli_load_spec (unwrap_or_default (wasm_cmd_chain cmd));
        finish (JExportGenesisWasm cmd spec))
  | Some (Benchmark cmd as s) =>
      runner ← runner_for s;
      run_benchmark cmd runner
  | None =>
      r ← perform (create_runner (ForNode (normalize (cli_run cli))));
      runner ← try_with (λ e : CliError, e) r;
      let options := collator_options (cli_run cli) in
      run_node_until_exit runner (λ config, start_node cli options config)
  end.

Definition run_command : io CmdOp CliError unit :=
  cli ← perform from_args;
  run_cli cli.
End command.

(** ** Specifications *)
Section specifications.
Context {G : GenesisTypes} `{R : RunnerOps}.

Definition job_of (e : event CmdOp) : option Job :=
  match e with
  | Ev _ op _ => match op with run_job j | block_on _ j _ => Some j | _ => None end
  end.

Definition is_service (e : event CmdOp) : bool :=
  match e with Ev _ op _ => match op with service_op _ _ => true | _ => false end end.

(** The library commands a run executed. *)
Definition jobs (tr : list (event CmdOp)) : list Job := omap job_of tr.

(** The subcommand a library command belongs to. *)
Definition job_command (j : Job) : Subcommand :=
  match j with
  | JBuildSpec cmd _ _ => BuildSpec cmd
  | JCheckBlock cmd _ _ => CheckBlock cmd
  | JExportBlocks cmd _ _ => ExportBlocks cmd
  | JExportState cmd _ _ => ExportState cmd
  | JImportBlocks cmd _ _ => ImportBlocks cmd
  | JRevert cmd _ _ => Revert cmd
  | JPurgeChain cmd _ _ => PurgeChain cmd
  | JExportGenesisHead cmd _ => ExportGenesisHead cmd
  | JExportGenesisWasm cmd _ => ExportGenesisWasm cmd
  | JPallet cmd _ => Benchmark (Pallet cmd)
  | JBlock cmd _ => Benchmark (Block cmd)
  | JStorage cmd _ _ _ => Benchmark (StorageBench cmd)
  | JMachine cmd _ => Benchmark (Machine cmd)
  end.

(** The parts of a node a library command works on. *)
Definition job_client (j : Job) : option Client :=
  match j with
  | JCheckBlock _ c _ | JExportBlocks _ c _ | JExportState _ c _ | JImportBlocks _ c _
  | JRevert _ c _ | JExportGenesisHead _ c | JBlock _ c | JStorage _ _ c _ => Some c
  | _ => None
  end.
Definition job_backend (j : Job) : option Backend :=
  match j with JRevert _ _ b | JStorage _ _ _ b => Some b | _ => None end.

(** A client is used only if it was made, in this run, for the configuration of
    this run's runner; and a backend only if it was made with that client. *)
Definition job_parts_made (tr : list (event CmdOp)) (j : Job) : Prop :=
  ∀ cl, job_client j = Some cl →
    ∃ f runner t e b ks tm,
      Ev _ (create_runner f) (Ok runner) ∈ tr ∧
      Ev _ (service_op _ (new_full_parts_record_import (runner_config runner) t e true))
        (Ok (cl, b, ks, tm)) ∈ tr ∧
      ∀ b', job_backend j = Some b' → b' = b.

Definition job_done (e : event CmdOp) : bool :=
  match e with
  | Ev X op x =>
      match op in CmdOp X return X → bool with
      | run_job _ | block_on _ _ _ => is_ok
      | _ => λ _, false
      end x
  end.

(** A run of a subcommand: at most one library command, its own, as the last
    step; and it succeeds exactly if that command was reached and succeeded. *)
Definition runs_one_job (s : Subcommand) (tr : list (event CmdOp))
    (o : outcome CliError unit) : Prop :=
  (jobs tr = [] ∨ ∃ tr' e j, tr = tr' ++ [e] ∧ jobs tr' = [] ∧ job_of e = Some j ∧
     job_command j = s ∧ job_parts_made tr j) ∧
  (o = Done () ↔ job_done <$> last tr = Some true).

(** The subcommands that need a node's parts. *)
Definition needs_node (s : Subcommand) : bool :=
  match s with
  | CheckBlock _ | ExportBlocks _ | ExportState _ | ImportBlocks _ | Revert _
  | ExportGenesisHead _ | Benchmark (Block _) | Benchmark (StorageBench _) => true
  | _ => false
  end.

(** A start of the node, [tr0] before the service and [tr1] inside it: the
    service is entered only with a runner, a parachain id from the runner's
    specification, and a relay-chain configuration made from the relay-chain
    arguments, whose defaults come from that same specification; its measurement
    was taken in this run. *)
Definition ready (runner : Runner) (id : N) (rcfg : Configuration) (hw : option HwBench)
    (tr0 : list (event CmdOp)) : Prop :=
  let cfg := runner_config runner in
  (∃ f, Ev _ (create_runner f) (Ok runner) ∈ tr0) ∧
  para_id <$> try_get (cfg_chain_spec cfg) = Some id ∧
  (∃ base, Ev _ (create_configuration
      (RelayChainCli_new (cfg_chain_spec cfg) (cfg_base_path cfg) base)
      (cfg_tokio_handle cfg)) (Ok rcfg) ∈ tr0) ∧
  (∀ m, hw = Some m → ∃ path, Ev _ (gather_hwbench path) m ∈ tr0) ∧
  Forall (λ e, is_service e = false) tr0.

(** A run without a subcommand. *)
Definition starts_node (cli : Cli) (tr : list (event CmdOp)) (o : outcome CliError unit) : Prop :=
  Forall (λ e, is_service e = false) tr ∧ o ≠ Done () ∨
  ∃ runner id rcfg hw tr0 tr1 (o1 : outcome ServiceError (TaskManager * Client)),
    ready runner id rcfg hw tr0 ∧
    wired (runner_config runner) rcfg (collator_options (cli_run cli)) (para_id_from id) hw
      tr1 o1 ∧
    match o1 with
    | Done (tm, _) => ∃ r,
        tr = tr0 ++ (lift_event service_op <$> tr1) ++ [Ev _ (run_until_exit runner tm) r] ∧
        (o = Done () ↔ is_ok r = true)
    | Fail e => tr = tr0 ++ (lift_event service_op <$> tr1) ∧ o = Fail (from_service_error e)
    | Panic msg => tr = tr0 ++ (lift_event service_op <$> tr1) ∧ o = Panic msg
    end.

(** The runners a run obtained, and the errors of its relay-chain arguments. *)
Definition runner_of (e : event CmdOp) : option Runner :=
  match e with
  | Ev X op x =>
      match op in CmdOp X return X → option Runner with
      | create_runner _ => λ r, match r with Ok runner => Some runner | Err _ => None end
      | _ => λ _, None
      end x
  end.
Definition relay_error_of (e : event CmdOp) : option CliError :=
  match e with
  | Ev X op x =>
      match op in CmdOp X return X → option CliError with
      | create_configuration _ _ => λ r, match r with Err e => Some e | Ok _ => None end
      | _ => λ _, None
      end x
  end.

(** The two checks that end a start before the service is entered. *)
Definition refused_start (tr : list (event CmdOp)) (o : outcome CliError unit) : Prop :=
  Forall (λ runner, try_get (cfg_chain_spec (runner_config runner)) = None →
     o = Fail (Input "Could not find parachain ID in chain-spec.")) (omap runner_of tr) ∧
  Forall (λ e, o = Fail (Input ("Relay chain argument error: " +:+ show_cli_error e)%string))
    (omap relay_error_of tr).

(** Whether a run measured the hardware, and whether it said so. *)
Definition measured (path : string) (tr : list (event CmdOp)) : Prop :=
  ∃ m, Ev _ (gather_hwbench (Some path)) m ∈ tr.
Definition reported (e : event CmdOp) : bool :=
  match e with
  | Ev X op x =>
      match op in CmdOp X return X → bool with
      | service_op X op => λ x, reports_hwbench (Ev X op x)
      | _ => λ _, false
      end x
  end.
End specifications.

(** ** Properties *)
Section properties.
Context {G : GenesisTypes} `{R : RunnerOps} {HR : RunnerLaws}.

Abbreviation from_service tr := (fmap (M := list) (lift_event service_op) tr).
Abbreviation from_spec tr := (fmap (M := list) (lift_event spec_op) tr).

Lemma jobs_app tr1 tr2 : jobs (tr1 ++ tr2) = jobs tr1 ++ jobs tr2.
Proof. apply omap_app. Qed.

Lemma jobs_from_service tr1 : jobs (from_service tr1) = [].
Proof. by induction tr1 as [|[]]. Qed.

Lemma jobs_from_spec tr1 : jobs (from_spec tr1) = [].
Proof. by induction tr1 as [|[]]. Qed.

Lemma service_free_spec tr1 : Forall (λ e, is_service e = false) (from_spec tr1).
Proof. by induction tr1 as [|[]]; constructor. Qed.

Lemma from_service_elem {X} (op : Service.Op X) x tr1 :
  Ev X op x ∈ tr1 → Ev X (service_op X op) x ∈ from_service tr1.
Proof. intros H. by apply (list_elem_of_fmap_2 (lift_event service_op)) in H. Qed.

(** A run that reached no library command did not succeed by one. *)
Lemma no_job_reached s tr o : jobs tr = [] → o ≠ Done () → runs_one_job s tr o.
Proof.
  intros Hj Ho. split; [by left|]. split; [done|]. intros Hl. exfalso.
  destruct tr as [|e tr' _] using rev_ind; [done|]. revert Hj Hl.
  rewrite last_snoc, jobs_app. destruct e as [X []]; cbn; try done.
  all: by intros [??]%app_eq_nil.
Qed.

Lemma job_reached s tr e j o :
  jobs tr = [] → job_of e = Some j → job_command j = s → job_parts_made (tr ++ [e]) j →
  (o = Done () ↔ job_done e = true) → runs_one_job s (tr ++ [e]) o.
Proof.
  intros Hj He Hs Hp Ho. split; [right; by exists tr, e, j|].
  rewrite last_snoc, Ho. cbn. split; [by intros ->|by intros [=]].
Qed.

Lemma parts_made j f runner sv tr1 tr2 :
  assembled (runner_config runner) sv tr1 →
  job_client j = Some (sv_client sv) →
  (∀ b, job_backend j = Some b → b = sv_backend sv) →
  job_parts_made ((([] ++ [Ev _ (create_runner f) (Ok runner)]) ++ from_service tr1) ++ tr2) j.
Proof.
  intros (t & e & Hin) Hc Hb cl. rewrite Hc. intros [= <-].
  exists f, runner, t, e, (sv_backend sv), (sv_keystore sv), (sv_task_manager sv).
  split_and!; [by left| |done].
  apply elem_of_app; left. apply elem_of_app; right. by apply from_service_elem.
Qed.

(** Assembling a node from the command line runs no library command; its parts
    were made for the given configuration. *)
Lemma always_new_partial config tr (Q : list (event CmdOp) → outcome CliError Service → Prop) :
  (∀ tr1 o, match o with Done sv => assembled config sv tr1 | _ => True end →
     Q (tr ++ from_service tr1) o) →
  always (cli_new_partial config) tr Q.
Proof.
  intros H. apply always_convert_err.
  eapply always_mono; [|apply always_lift_nil, new_partial_assembles].
  intros tr' o (tr1 & -> & Ho). apply H. by destruct o.
Qed.

Lemma always_load_spec id tr (Q : list (event CmdOp) → outcome CliError ChainSpec → Prop) :
  (∀ tr1 o, Q (tr ++ from_spec tr1) o) → always (cli_load_spec id) tr Q.
Proof.
  intros H. apply always_convert_err.
  eapply always_mono; [|apply (always_lift_nil _ _ _ (λ _ _, True))].
  - intros tr' o (tr1 & -> & _). apply H.
  - apply always_true.
Qed.

(** The service, entered from the command line. *)
Lemma always_start cfg rcfg opts id hw tr
    (Q : list (event CmdOp) → outcome ServiceError (TaskManager * Client) → Prop) :
  (∀ tr1 o, wired cfg rcfg opts id hw tr1 o → Q (tr ++ from_service tr1) o) →
  always (lift service_op (start_parachain_node cfg rcfg opts id hw)) tr Q.
Proof.
  intros H. eapply always_mono; [|apply always_lift_nil, start_wired].
  intros tr' o (tr1 & -> & Ho). by apply H.
Qed.

(** Runs the command line symbolically; [start] is the rule for the service. *)
Ltac steps_by start :=
  repeat first
    [ progress intros
    | rewrite sync_run_runs || rewrite async_run_runs || rewrite run_node_runs
    | progress autorewrite with always
    | apply always_new_partial
    | apply always_load_spec
    | start
    | match goal with
      | |- always (match ?x with _ => _ end) _ _ => destruct x eqn:?
      end
    | match goal with
      | |- context [match ?r with Ok _ => _ | Err _ => _ end] => destruct r eqn:?
      | |- context [match ?o with Done _ => _ | Fail _ => _ | Panic _ => _ end] =>
          is_var o; destruct o
      end
    | progress cbn beta iota ].
Tactic Notation "steps" := steps_by ltac:(apply always_start).

Ltac no_jobs := rewrite ?jobs_app, ?jobs_from_service, ?jobs_from_spec; reflexivity.

Ltac no_service :=
  rewrite ?Forall_app; split_and?;
  first [ apply service_free_spec
        | repeat (apply List.Forall_cons; [reflexivity|]); apply List.Forall_nil ].

Ltac one_job :=
  first
    [ apply no_job_reached; [no_jobs | discriminate]
    | eapply job_reached;
        [ no_jobs | reflexivity | reflexivity
        | first [ by intros ? [=] | by eapply parts_made; [eassumption | |]; [|intros ? [=]] ]
        | done ] ].

(** C38. Whatever the environment answers, a subcommand runs at most one library
    command, its own, as its last step, and succeeds exactly if that command was
    reached and succeeded. A client it works on was made in the same run for the
    configuration of the subcommand's runner, with its backend; and a subcommand
    that needs no node starts no part of one. *)
Theorem subcommand_runs_one_job h cli s :
  cli_subcommand cli = Some s →
  let r := run h (run_cli cli) [] in
  runs_one_job s r.1 r.2 ∧
  (needs_node s = false → Forall (λ e, is_service e = false) r.1).
Proof.
  intros Hs. cbv zeta.
  apply (always_run (run_cli cli) h []
    (λ tr o, runs_one_job s tr o ∧ (needs_node s = false → Forall (λ e, is_service e = false) tr))).
  unfold run_cli. rewrite Hs.
  destruct s as [| | | | | | | | |[]];
    unfold run_benchmark, construct_async_run, runner_for, finish, relay_cli, relay_config;
    repeat case_match; steps;
    (split; [|first [discriminate|intros _; no_service]]);
    repeat match goal with u : () |- _ => destruct u end; one_job.
Qed.

Lemma service_entered cli runner id rcfg hw tr0 tr1 o1 tr o :
  wired (runner_config runner) rcfg (collator_options (cli_run cli)) (para_id_from id) hw tr1 o1 →
  match o1 with
  | Done (tm, _) => ∃ r,
      tr = tr0 ++ from_service tr1 ++ [Ev _ (run_until_exit runner tm) r] ∧
      (o = Done () ↔ is_ok r = true)
  | Fail e => tr = tr0 ++ from_service tr1 ∧ o = Fail (from_service_error e)
  | Panic msg => tr = tr0 ++ from_service tr1 ∧ o = Panic msg
  end →
  ready runner id rcfg hw tr0 →
  starts_node cli tr o.
Proof. intros. right. by exists runner, id, rcfg, hw, tr0, tr1, o1. Qed.

Lemma runners_from_service tr1 : omap runner_of (from_service tr1) = [].
Proof. by induction tr1 as [|[]]. Qed.

Lemma relay_errors_from_service tr1 : omap relay_error_of (from_service tr1) = [].
Proof. by induction tr1 as [|[]]. Qed.

(** A call in a trace built call by call. *)
Ltac in_calls := repeat (apply elem_of_app; first [by right; left | left]).

Ltac is_ready :=
  split_and!;
  [ eexists; in_calls | eassumption | eexists; in_calls
  | intros ?; try case_match; intros [=]; subst; eexists; in_calls | no_service ].

Ltac checks_start :=
  unfold refused_start;
  rewrite !omap_app, ?runners_from_service, ?relay_errors_from_service; cbn;
  split; repeat constructor; intros Hnone; rewrite Hnone in *; discriminate.

(** C39. Without a subcommand, the service is entered only with a runner, with
    the parachain id and the default relay chain of the runner's own
    specification, and with a relay-chain configuration that was made; a
    specification without an id and relay-chain arguments that are refused end
    the start before that, each with its message. Once entered, the parts are
    wired to each other, the service's error or panic is the command's, and the
    tasks the service made run until exit. *)
Theorem node_starts_from_its_spec h cli :
  cli_subcommand cli = None →
  let r := run h (run_cli cli) [] in
  starts_node cli r.1 r.2 ∧ refused_start r.1 r.2.
Proof.
  intros Hs. cbv zeta.
  apply (always_run (run_cli cli) h [] (λ tr o, starts_node cli tr o ∧ refused_start tr o)).
  unfold run_cli. rewrite Hs. unfold start_node, node_hwbench, relay_cli, relay_config.
  steps; repeat match goal with u : () |- _ => destruct u | a : _ * _ |- _ => destruct a end;
   (split;
    [first [ by left; split; [no_service|discriminate]
          | eapply service_entered;
              [ eassumption
              | first [by split | eexists; split; [by rewrite <- app_assoc|done]]
              | is_ready ] ]
    |checks_start]).
Qed.

(** Without a measurement the service reports nothing. *)
Lemma always_start_silent cfg rcfg opts id tr
    (Q : list (event CmdOp) → outcome ServiceError (TaskManager * Client) → Prop) :
  (∀ tr1 o, Forall (λ e, reported e = false) (from_service tr1) → Q (tr ++ from_service tr1) o) →
  always (lift service_op (start_parachain_node cfg rcfg opts id None)) tr Q.
Proof.
  intros H. eapply always_mono; [|apply always_lift_nil, start_reports_nothing].
  intros tr' o (tr1 & -> & Ho). apply H, Forall_fmap. eapply Forall_impl; [exact Ho|].
  by intros [].
Qed.

(** C40. The hardware is measured on every start of the node whose database has
    a path, [--no-hardware-benchmarks] or not; the flag only keeps the
    measurement from being reported. *)
Theorem flag_does_not_skip_the_benchmark h cli :
  cli_subcommand cli = None →
  let r := run h (run_cli cli) [] in
  Forall (λ runner, ∀ path,
    database_path (cfg_database (runner_config runner)) = Some path → measured path r.1)
    (omap runner_of r.1) ∧
  (cli_no_hardware_benchmarks cli = true → Forall (λ e, reported e = false) r.1).
Proof.
  intros Hs. cbv zeta. split.
  - apply (always_run (run_cli cli) h [] (λ tr o, Forall (λ runner, ∀ path,
      database_path (cfg_database (runner_config runner)) = Some path → measured path tr)
      (omap runner_of tr))).
    unfold run_cli. rewrite Hs. unfold start_node, node_hwbench, relay_cli, relay_config.
    steps; rewrite !omap_app, ?runners_from_service; cbn; repeat constructor; intros path Hp;
      rewrite Hp in *; simplify_eq; eexists; in_trace.
  - intros Hf.
    apply (always_run (run_cli cli) h [] (λ tr o, Forall (λ e, reported e = false) tr)).
    destruct cli as [sub para flag args]; cbn in Hs, Hf; subst.
    unfold run_cli, start_node, node_hwbench, relay_cli, relay_config.
    cbn [cli_subcommand cli_run cli_no_hardware_benchmarks cli_relay_chain_args negb].
    steps_by ltac:(apply always_start_silent); rewrite ?Forall_app; split_and?;
      first [eassumption | repeat (apply List.Forall_cons; [reflexivity|]); apply List.Forall_nil].
Qed.
End properties.

(** ** A small world

    Every command type has one value; a configuration says whether the node is
    an authority; its specification is the local test network's; and a runner
    calls its closure. *)
Definition SmallCli : CliTypes := {|
  RunCmd := (); CliError := string; SharedParams := (); ImportParams := ();
  NetworkParams := (); KeystoreParams := (); RpcEndpoint := (); PrometheusConfig := ();
  Role := (); TransactionPoolOptions := (); RpcMethods := (); TelemetryEndpoints := ();
  shared_base_path _ := Ok None;
  path_join a b := (a +:+ "/" +:+ b)%string;
|}.

Definition local_spec : Settings :=
  match @local_testnet_config TestGenesisTypes SettingsBuilder with
  | Ok spec => spec
  | Err _ => mkSettings [] (mkExtensions "" 0) "" "" Live None None None
  end.

#[local] Existing Instances SmallService SettingsBuilder SmallCli.

Definition SmallCommand : @CommandTypes SmallService SettingsBuilder SmallCli := {|
  BuildSpecCmd := (); CheckBlockCmd := (); ExportBlocksCmd := (); ExportStateCmd := ();
  ImportBlocksCmd := (); RevertCmd := (); PurgeChainCmd := (); ExportGenesisHeadCommand := ();
  ExportGenesisWasmCommand := (); PalletBenchCmd := (); BlockBenchCmd := ();
  StorageBenchCmd := (); MachineBenchCmd := (); OtherBenchCmd := (); ParaRunCmd := ();
  NormalizedRunCmd := (); Runner := bool; TokioHandle := (); NetworkConfiguration := ();
  DatabaseSource := (); normalize _ := (); collator_options _ := tt;
  wasm_cmd_chain _ := None;
  cfg_chain_spec _ := local_spec; cfg_network _ := (); cfg_database _ := ();
  database_path _ := Some "db"%string; cfg_base_path _ := "base"%string;
  cfg_tokio_handle _ := (); para_id_from n := n; executable_name := "node";
  runtime_benchmarks := false;
  Input e := e; from_service_error e := e; show_cli_error e := e;
|}.

#[local] Existing Instance SmallCommand.

Definition SmallRunner : @RunnerOps SmallService SettingsBuilder SmallCli SmallCommand := {|
  runner_config r := r;
  sync_run r f := f r;
  async_run r f :=
    ('(j, tm) ← f r; done ← perform (block_on r j tm); try_with (λ e : string, e) done);
  run_node_until_exit r f :=
    (tm ← f r; done ← perform (run_until_exit r tm); try_with (λ e : string, e) done);
|}.

#[export] Instance SmallRunnerLaws :
  @RunnerLaws SmallService SettingsBuilder SmallCli SmallCommand SmallRunner.
Proof. by split. Qed.

#[local] Existing Instance SmallRunner.

(** A world in which everything succeeds, on a machine too slow for a collator. *)
Definition small_world : environment (@CmdOp SmallService SettingsBuilder SmallCli SmallCommand) :=
  λ X op _,
  match op in @CmdOp _ _ _ _ X return X with
  | from_args => mkCli None () true []
  | create_runner _ => Ok true
  | run_job _ => Ok ()
  | block_on _ _ _ => Ok ()
  | run_until_exit _ _ => Ok ()
  | parse_relay_args _ => ()
  | create_configuration _ _ => Ok true
  | create_dir_all _ => Ok ()
  | gather_hwbench _ => ()
  | log_info _ => ()
  | spec_op _ op => no_files _ op []
  | service_op _ op => small_answer _ op
  end.

#[local] Existing Instance TestGenesisTypes.

Abbreviation small_run cli :=
  (run small_world (@run_cli TestGenesisTypes SmallService SettingsBuilder SmallCli SmallCommand
     SmallRunner cli) []).
Abbreviation small_cli sub flag :=
  (@mkCli SmallService SettingsBuilder SmallCli SmallCommand sub () flag []).

Abbreviation small_revert := (@Revert SmallService SettingsBuilder SmallCli SmallCommand ()).

Abbreviation reverted := (small_run (small_cli (Some small_revert) false)).

Lemma subcommand_runs_one_job_witness :
  reverted.2 = Done () ∧ runs_one_job small_revert reverted.1 reverted.2 ∧
  jobs reverted.1 = [@JRevert SmallService SettingsBuilder SmallCli SmallCommand () 7%N ()].
Proof.
  split; [by vm_compute|split; [|by vm_compute]].
  apply (subcommand_runs_one_job small_world (small_cli (Some small_revert) false) small_revert).
  reflexivity.
Defined.

Abbreviation started := (small_run (small_cli None false)).

Lemma node_starts_from_its_spec_witness :
  started.2 = Done () ∧ starts_node (small_cli None false) started.1 started.2 ∧
  existsb is_service started.1 = true.
Proof.
  split; [by vm_compute|split; [|by vm_compute]].
  apply (node_starts_from_its_spec small_world (small_cli None false)). reflexivity.
Defined.

Abbreviation started_quietly := (small_run (small_cli None true)).

Lemma flag_does_not_skip_the_benchmark_witness :
  started_quietly.2 = Done () ∧ measured "db" started_quietly.1 ∧
  Forall (λ e, reported e = false) started_quietly.1.
Proof.
  destruct (flag_does_not_skip_the_benchmark small_world (small_cli None true)) as [Hm Hr].
  - reflexivity.
  - split; [by vm_compute|split; [|apply Hr; reflexivity]].
    assert (Hrun : omap runner_of started_quietly.1 = [true : bool]) by (vm_compute; reflexivity).
    rewrite Hrun in Hm. apply (Forall_inv Hm "db"%string). reflexivity.
Defined.
