(* ===== verification/CliInfo.v ===== *)
(** * How the program presents itself ([SubstrateCli] of src/node/src/command.rs)

The texts of the two command lines, the node's own and the relay chain's. The
version, the authors and the name of the executable are set when the program is
built or run. *)
From Stdlib Require Import Ascii.
From S2P Require Import Prelude.

(** The texts of [sc_cli::SubstrateCli]. *)
Record SubstrateCli := mkSubstrateCli {
  impl_name : string;
  impl_version : string;
  description : string;
  author : string;
  support_url : string;
  copyright_start_year : Z;
}.

Section texts.
Variables (SUBSTRATE_CLI_IMPL_VERSION CARGO_PKG_AUTHORS executable_name : string).

Definition newline : string := String "010"%char "".

(** [description] of both: the format string around the executable's name. *)
Definition usage : string :=
  "Parachain Collator Template" +:+ newline +:+ newline +:+
  "The command-line arguments provided first will be passed to the parachain node, " +:+
  "while the arguments provided after -- will be passed to the relay chain node." +:+
  newline +:+ newline +:+
  executable_name +:+ " <parachain-args> -- <relay-chain-args>".

Definition Cli_texts : SubstrateCli := {|
  impl_name := "Parachain Collator Template";
  impl_version := SUBSTRATE_CLI_IMPL_VERSION;
  description := usage;
  author := CARGO_PKG_AUTHORS;
  support_url := "https://github.com/paritytech/polkadot-sdk/issues/new";
  copyright_start_year := 2020;
|}.

Definition RelayChainCli_texts : SubstrateCli := {|
  impl_name := "Parachain Collator Template";
  impl_version := SUBSTRATE_CLI_IMPL_VERSION;
  description := usage;
  author := CARGO_PKG_AUTHORS;
  support_url := "https://github.com/paritytech/polkadot-sdk/issues/new";
  copyright_start_year := 2020;
|}.

(** [load_spec] of the relay chain's side asks the command line of polkadot, started
    with the name of the executable and no arguments. *)
Variables (PolkadotCli Spec : Type) (from_iter : list string → PolkadotCli)
  (polkadot_load_spec : PolkadotCli → string → result Spec string).
Definition RelayChainCli_load_spec (id : string) : result Spec string :=
  polkadot_load_spec (from_iter [executable_name]) id.
End texts.

(** Both command lines present the same program under the same name. *)
Lemma texts_agree v a n : Cli_texts v a n = RelayChainCli_texts v a n.
Proof. done. Qed.
